(* ===== verification/_CoqProject ===== *)
-Q . S2P
Prelude.v
GoNum.v
GoStr.v
Codec.v
NetIP.v
Json.v
Errors.v
Sha256.v
Rfc3339.v
PasteTypes.v
Canonical.v
Gate.v
Crypto.v
Envelope.v
Ports.v
Service.v
Redis.v
Pg.v
World.v
RedisBody.v
RateLimit.v
PgPastes.v
PgAudit.v
PasteLaws.v
PasteSystem.v
Vault.v
VaultSim.v
VaultLaws.v
PasteRuns.v
Sweeper.v
AuthTypes.v
RedisScript.v
RedisSessions.v
RedisOidc.v
PgUsers.v
GoConf.v
Size.v
Config.v
AuthLocal.v
AuthOidc.v
JsonDec.v
Http.v
Handlers.v
Router.v
HttpLaws.v
Submit.v
Server.v
Migrate.v
Connect.v
Cli.v
Serve.v
Main.v
