(* ===== verification/Prelude.v ===== *)
(** * Secure Pastebin: a verification development

    Secure Pastebin is a server on which a signed-in user leaves a text for a
    limited time.  The text is encrypted with a key of its own and kept in
    Redis, its metadata in Postgres; the key is wrapped with a server key or
    with a key derived from a password.  This library models the Go code under
    [src/internal] and proves what it is there for.

    ** The files

    Go and its libraries:
    - Prelude: the monad of fallible stateful code, its [defer], [try] and
      [wrap], the tactics that run it, lemmas on lists and options.
    - GoNum (int64, uint32, [time.Time], [time.Duration]), GoStr (bytes, UTF-8,
      [strings]), Codec (decimal, hex, base64), NetIP, Json ([encoding/json]),
      Sha256, Rfc3339, GoConf ([strings.Fields], prefixes, durations), JsonDec
      (the scanner of [json.Decoder] behind [http.MaxBytesReader]).
    - Errors: every error value of the program, [errors.Is] and [%w].

    The outside:
    - Redis: the commands used, as a class [RedisServer] with the documented
      behaviour of each on one key; RedisScript: Lua scripts as trees of calls.
    - Pg: rows, column types and constraints of
      [store/postgres/migrations/0001_init.sql].
    - World: clock, both stores, random source, log, and an environment that
      decides for every call whether it runs, is lost, or runs and has its
      answer lost, and how long it takes.

    The program, bottom up:
    - PasteTypes, Canonical: [paste/types.go], [paste/canonical.go].
    - Gate: [crypto/gate.go] as a transition system of any number of goroutines.
    - Crypto: [crypto/phc.go], [crypto/zero.go], [auth/hasher.go],
      [auth/random.go].  Envelope: [crypto/envelope.go].
    - Ports: the interfaces of [paste/ports.go] and [audit/ports.go].  Service:
      [paste/service.go] against them.
    - RedisBody, RedisSessions, RedisOidc: [store/redis]; PgPastes, PgAudit,
      PgUsers, Migrate: [store/postgres]; RateLimit: [ratelimit].
    - AuthTypes, AuthLocal, AuthOidc: [auth].  Size, Config: [config].
    - Sweeper: [sweeper/sweeper.go].
    - Http, Handlers, Router: [httpserver], [challenge/ports.go] and the request
      id of [logging].  Connect: opening Redis and Postgres, the level of the
      logger.  Cli: [cli/cli.go], [cli/user.go], [cli/migrate.go].  Serve:
      [httpserver/server.go], [cli/serve.go].  Main: [cmd/pastebin/main.go].
    - PasteLaws (the interface the service is proved against), PasteSystem (the
      stores implement it), PasteRuns, HttpLaws, Submit, Server: the parts put
      together, and runs of them.
    - Vault is the abstract specification: pastes as plain records, with the
      answer to every call, without keys, stores or logs.  VaultSim proves that
      the system of PasteSystem refines it, one simulation lemma per operation;
      VaultLaws derives what a history of calls and answers says by itself.

    ** How code becomes definitions

    A Go function that has effects is a [M S A]: it takes the state and gives a
    result, [Ok], [Err] or [Panic], and the state after it.  A method keeps its
    name with its type in front where names clash ([Body_Get], [Paste_Get],
    [Session_Get]).  An interface is a record of operations on a state [S];
    a constructor such as [NewBodyStore] builds the record over [World].
    A context is a value ([ctx]) that a call may find cancelled or past its
    deadline.  Machine integers are Z with the wrap-around written where the
    code can overflow; a [time.Time] is an instant in nanoseconds.

    ** What the theorems show

    - The whole paste service (Vault, VaultSim, VaultLaws): while the stores
      answer, every history of calls and answers is one of the vault, so what a
      read shows was submitted earlier under that id and password, its lifetime
      has not passed, and it was not deleted since.
    - Pastes (PasteSystem, PasteLaws, Service): in every history of calls that
      may fail anywhere, what is read under an id was submitted by the creation
      that drew this id, with its hash and size; a
      created paste can be read with its password until its expiry; nothing is
      released late or after a deletion; a creation that fails half-way is
      cleaned up, or Redis has failed too; inputs are checked first and in order; only owners and
      administrators delete or list.
    - Encryption (Envelope, Crypto): [Open] inverts [Seal]; a ciphertext belongs
      to one id and one expiry, for whoever has its key; server keys do not open a protected record; no
      record makes [Open] panic or exceed the configured cost.
    - Key derivations (Gate): never more at once than configured; in every
      execution in which time passes and the scheduler is fair, a goroutine that
      waits comes out, and is told that the gate is busy only after its timeout.
    - Stores: round trips with their exact lifetimes, tables that keep their
      keys, ranges and identities whatever fails (RedisBody, RedisSessions,
      PgPastes, PgUsers, PgAudit); migrations applied in order and exactly once
      (Migrate); the sweeper drops a row only after the body (Sweeper).
    - Login (AuthLocal, AuthOidc, RedisOidc): who gets in, that every answer
      about a password costs one key derivation, and that a provider login is
      completed once.
    - Limits (RateLimit, Size, Config): calls in a window are bounded and for
      a configured scope every failure counts as a refusal; sizes mean what they
      say; what a configuration that loads satisfies.
    - HTTP (HttpLaws, Submit): which requests reach the routes, which of them
      need a session, what headers every response carries, that only a trusted
      proxy names the address of a client, what a locked paste shows, that the
      embedded UI stays inside its tree, and that an encoded submission is
      decoded as it was.
    - Commands (Cli, Serve, Connect): what a user command that exits with 0 has
      done, that the server ends in order, whatever the order of its two
      goroutines, and that [serve] leaves no connection pool open.

    Theorems of services and handlers quantify over every port, environment and
    request; where a theorem needs calls to succeed it says so ([w_env w = []]).
    What a section assumes of ports (a gate that has room, observers as
    callbacks) its theorems name.
    Runs ([Example], and the witnesses of the theorems) evaluate the same
    definitions with a concrete server (class instances [map_server],
    [toy_primitives], ...), which shows that the hypotheses can hold.

    ** Bounds and fuel

    The reader of JSON recurses on fuel that starts at the length of the input
    plus one; [parse_json_fuel] shows that a text accepted with any fuel is
    accepted with this one.  [time.ParseDuration] does the same
    ([duration_parts_fuel]).  The creation of a session retries as often as the
    code does.  The ticks of the sweeper are a list, any list.  Every other
    function is structurally recursive, so it always returns.

    ** What is taken from outside

    Argon2id and AES-GCM (class [Primitives]: a sealed text opens under its own
    key, nonce and data), the random source, [uuid.New], go-oidc and oauth2
    (AuthOidc), the collation of Postgres and its rounding ([PgTypes]), the
    Redis server and its client ([RedisServer], [RedisClient]), opening and
    closing connections ([Driver], [DriverLaws]), the text of an
    id ([UUIDText]), the effect of a migration, the challenge (this commit has
    none).  Each enters as a parameter or a class whose laws state documented
    behaviour, and each has a concrete instance in the runs.

    ** Not modelled

    - The drivers (go-redis, pgx) behind Connect, the encoder of the log
      ([slog]), listening and TLS ([net/http]): Connect, logging_New and Serve
      have what the program does with them.
    - Parsing of requests and routing texts by [net/http]: a request arrives as
      a record of its parsed parts, and the redirect that ServeMux sends for a
      path that is not clean is left out.  The file server behind the embedded
      UI is a parameter; [clean_path] is what the program relies on of
      [path.Clean].
    - The nesting limit of [encoding/json] is in JsonDec, where clients reach it,
      and not in Json, which only reads what the program wrote.
    - A nil slice and an empty one are the same list, except where JSON shows
      the difference.
    - [quoted] (the [%q] of error texts) does not escape.
    - Zeroing of key material is a function on buffers (Crypto); the memory of
      the process is not modelled, so nothing is claimed about copies.
    - The UI under [ui/] and the deployment files. *)
From Stdlib Require Export ZArith Lia Bool.
From Stdlib Require Strings.Byte Strings.String.
From stdpp Require Export base tactics decidable list gmap strings numbers vector.

#[global] Open Scope Z_scope.

(** [lia] decides division and modulo by constants too. *)
Ltac Zify.zify_post_hook ::= Z.div_mod_to_equations.

(** ** Results and effects

    A Go call that can fail is modelled by a computation in [M E S]: it reads
    and updates a state of type [S] and ends in a [res].  [Err] is the
    [return ..., err] of the source, [Panic] a run-time panic, which unlike an
    error is not seen by the caller's [if err != nil]. *)

Inductive res (E A : Type) : Type :=
| Ok (a : A)
| Err (e : E)
| Panic.
Arguments Ok {E A} a.
Arguments Err {E A} e.
Arguments Panic {E A}.

Definition M (E S A : Type) : Type := S -> res E A * S.

#[export] Instance M_ret {E S} : MRet (M E S) := fun _ a s => (Ok a, s).

#[export] Instance M_bind {E S} : MBind (M E S) := fun _ _ f m s =>
  match m s with
  | (Ok a, s') => f a s'
  | (Err e, s') => (Err e, s')
  | (Panic, s') => (Panic, s')
  end.

(** [throw e] is [return zero, e]. *)
Definition throw {E S A} (e : E) : M E S A := fun s => (Err e, s).

Definition panic {E S A} : M E S A := fun s => (Panic, s).

(** [try m] gives the error of [m] to the caller as a value: the
    [x, err := m()] that is not followed by an immediate return. *)
Definition try {E S A} (m : M E S A) : M E S (E + A) := fun s =>
  match m s with
  | (Ok a, s') => (Ok (inr a), s')
  | (Err e, s') => (Ok (inl e), s')
  | (Panic, s') => (Panic, s')
  end.

(** [ignore m] is [_ = m()]. *)
Definition ignore {E S A} (m : M E S A) : M E S unit :=
  try m ≫= fun _ => mret tt.

(** [wrap f m] is [if err := m(); err != nil { return f(err) }]. *)
Definition wrap {E S A} (f : E -> E) (m : M E S A) : M E S A := fun s =>
  match m s with
  | (Err e, s') => (Err (f e), s')
  | r => r
  end.

(** [defer d] before [m]: [d] runs when [m] ends, whether it returns or
    panics, and does not change its result unless it panics itself. *)
Definition defer {E S A} (d : M E S unit) (m : M E S A) : M E S A := fun s =>
  match m s with
  | (r, s') =>
      match d s' with
      | (Panic, s'') => (Panic, s'')
      | (_, s'') => (r, s'')
      end
  end.

Definition lift {E S A} (r : res E A) : M E S A := fun s => (r, s).

(** ** A unary program logic for [M]

    [post m s Q]: running [m] in [s] ends in a result and a state that satisfy
    [Q]. *)

Definition post {E S A} (m : M E S A) (s : S) (Q : res E A -> S -> Prop) : Prop :=
  Q (fst (m s)) (snd (m s)).

Section ProgramLogic.
Context {E S : Type}.

Lemma post_ret {A} (a : A) s (Q : res E A -> S -> Prop) :
  Q (Ok a) s -> post (mret a) s Q.
Proof. done. Qed.

Lemma post_throw {A} (e : E) s (Q : res E A -> S -> Prop) :
  Q (Err e) s -> post (throw e) s Q.
Proof. done. Qed.

Lemma post_mono {A} (m : M E S A) s (P Q : res E A -> S -> Prop) :
  post m s P -> (forall r s', P r s' -> Q r s') -> post m s Q.
Proof. unfold post. eauto. Qed.

Lemma post_bind {A B} (m : M E S A) (f : A -> M E S B) s Q :
  post m s (fun r s' =>
    match r with
    | Ok a => post (f a) s' Q
    | Err e => Q (Err e) s'
    | Panic => Q Panic s'
    end) ->
  post (m ≫= f) s Q.
Proof.
  unfold post, mbind, M_bind. destruct (m s) as [[a|e|] s']; done.
Qed.

Lemma post_try {A} (m : M E S A) s Q :
  post m s (fun r s' =>
    match r with
    | Ok a => Q (Ok (inr a)) s'
    | Err e => Q (Ok (inl e)) s'
    | Panic => Q Panic s'
    end) ->
  post (try m) s Q.
Proof. unfold post, try. destruct (m s) as [[a|e|] s']; done. Qed.

Lemma post_ignore {A} (m : M E S A) s Q :
  post m s (fun r s' =>
    match r with
    | Panic => Q Panic s'
    | _ => Q (Ok tt) s'
    end) ->
  post (ignore m) s Q.
Proof. unfold post, ignore, mbind, M_bind, mret, M_ret, try. by destruct (m s) as [[a|e|] s']. Qed.

Lemma post_wrap {A} f (m : M E S A) s Q :
  post m s (fun r s' =>
    match r with
    | Err e => Q (Err (f e)) s'
    | r => Q r s'
    end) ->
  post (wrap f m) s Q.
Proof. unfold post, wrap. by destruct (m s) as [[a|e|] s']. Qed.

(** A relation on states that every primitive step respects is respected by
    every computation built from them. *)
Definition respects (R : S -> S -> Prop) {A} (m : M E S A) : Prop :=
  forall s, R s (snd (m s)).

Lemma respects_ret (R : S -> S -> Prop) `{!Reflexive R} {A} (a : A) :
  respects R (mret a : M E S A).
Proof. intros s. unfold mret, M_ret. simpl. reflexivity. Qed.

Lemma respects_throw (R : S -> S -> Prop) `{!Reflexive R} {A} (e : E) :
  respects R (throw e : M E S A).
Proof. intros s. simpl. reflexivity. Qed.

Lemma respects_bind (R : S -> S -> Prop) `{!PreOrder R} {A B}
    (m : M E S A) (f : A -> M E S B) :
  respects R m -> (forall a, respects R (f a)) -> respects R (m ≫= f).
Proof.
  intros Hm Hf s. specialize (Hm s). unfold mbind, M_bind.
  destruct (m s) as [[a|e|] s']; simpl in *; [|done|done].
  transitivity s'; [done | apply Hf].
Qed.

Lemma respects_try (R : S -> S -> Prop) {A} (m : M E S A) :
  respects R m -> respects R (try m).
Proof. intros Hm s. specialize (Hm s). unfold try. by destruct (m s) as [[a|e|] s']. Qed.

Lemma respects_wrap (R : S -> S -> Prop) {A} f (m : M E S A) :
  respects R m -> respects R (wrap f m).
Proof. intros Hm s. specialize (Hm s). unfold wrap. by destruct (m s) as [[a|e|] s']. Qed.

Lemma respects_ignore (R : S -> S -> Prop) `{!PreOrder R} {A} (m : M E S A) :
  respects R m -> respects R (ignore m).
Proof.
  intros Hm. unfold ignore. apply respects_bind; [done|by apply respects_try|].
  intros _. apply respects_ret, _.
Qed.
End ProgramLogic.

Create HintDb gosafe discriminated.
#[export] Hint Resolve respects_ret respects_throw respects_bind respects_try
  respects_wrap respects_ignore : gosafe.

Lemma ignore_inv {E S A} (m : M E S A) s r s' : ignore m s = (r, s') -> exists r0, m s = (r0, s').
Proof.
  unfold ignore, mbind, M_bind, try, mret, M_ret. destruct (m s) as [[] ?]; intros [= <- <-]; eauto.
Qed.

Lemma snd_ignore {E S A} (m : M E S A) s : snd (ignore m s) = snd (m s).
Proof. unfold ignore, mbind, M_bind, try, mret, M_ret. by destruct (m s) as [[] ?]. Qed.

(** What a call that returned did. *)
Lemma bind_ok {E S A B} (m : M E S A) (k : A -> M E S B) s b s' :
  (m ≫= k) s = (Ok b, s') -> exists a s1, m s = (Ok a, s1) /\ k a s1 = (Ok b, s').
Proof. unfold mbind, M_bind. destruct (m s) as [[a|e|] s1]; [eauto|done..]. Qed.

Lemma wrap_ok {E S A} f (m : M E S A) s a s' : wrap f m s = (Ok a, s') -> m s = (Ok a, s').
Proof. unfold wrap. by destruct (m s) as [[] ?]. Qed.

(** ** Symbolic execution

    [go_unfold] exposes the state passing, [go_step] runs the next primitive,
    splitting on its result, and [go_run] repeats both. *)

Ltac go_unfold :=
  unfold mbind, M_bind, mret, M_ret, throw, panic, try, wrap, defer, lift in *.

Ltac go_step :=
  match goal with
  | |- context [match ?x with _ => _ end] =>
      lazymatch x with
      | context [match _ with _ => _ end] => fail
      | _ => destruct x eqn:?
      end
  end; simplify_eq/=.

Ltac go_run := go_unfold; simplify_eq/=; repeat go_step.

(** The same on a hypothesis. *)
Ltac go_step_in H :=
  match type of H with
  | context [match ?x with _ => _ end] =>
      lazymatch x with
      | context [match _ with _ => _ end] => fail
      | _ => destruct x eqn:?
      end
  end; simplify_eq/=.

Ltac go_inv H := go_unfold; simpl in H; repeat go_step_in H.

Lemma run_fst {A B} (p : A * B) a : fst p = a -> p = (a, snd p).
Proof. by destruct p; intros <-. Qed.

(** Booleans of the source as propositions. *)
Create Rewrite HintDb gobool.
#[export] Hint Rewrite Z.ltb_lt Z.leb_le Z.eqb_eq Z.ltb_ge Z.leb_gt Z.eqb_neq
  andb_true_iff andb_false_iff orb_true_iff orb_false_iff negb_true_iff
  negb_false_iff bool_decide_eq_true bool_decide_eq_false : gobool.

Ltac gobool := autorewrite with gobool in *.
