(* ===== verification/GoNum.v ===== *)
(** * Machine integers and instants of Go

    [int64], [uint32] and [uint8] are Z with the wrap-around written out.  A
    [time.Time] is its instant in nanoseconds since the Unix epoch (every
    [time.Time] the program keeps is in UTC); a [time.Duration] is an int64
    number of nanoseconds. *)
From S2P Require Import Prelude.

(** ** Machine integers *)

Definition int64 (z : Z) : Z := (z + 2 ^ 63) mod 2 ^ 64 - 2 ^ 63.
Definition uint32 (z : Z) : Z := z mod 2 ^ 32.
Definition uint8 (z : Z) : Z := z mod 2 ^ 8.

Definition in_int64 (z : Z) : Prop := - 2 ^ 63 <= z < 2 ^ 63.

Definition max_int64 : Z := 2 ^ 63 - 1.
Definition min_int64 : Z := - 2 ^ 63.

Lemma int64_id z : in_int64 z -> int64 z = z.
Proof. unfold in_int64, int64. intros H. rewrite Z.mod_small; lia. Qed.

Lemma int64_range z : in_int64 (int64 z).
Proof.
  unfold in_int64, int64.
  pose proof (Z.mod_pos_bound (z + 2 ^ 63) (2 ^ 64) ltac:(lia)). lia.
Qed.

Lemma uint32_id z : 0 <= z < 2 ^ 32 -> uint32 z = z.
Proof. apply Z.mod_small. Qed.

Lemma uint32_range z : 0 <= uint32 z < 2 ^ 32.
Proof. apply Z.mod_pos_bound. lia. Qed.

(** [n << k] on an int64. *)
Definition int64_shl (n k : Z) : Z := int64 (Z.shiftl n k).

(** ** Durations *)

Definition Nanosecond : Z := 1.
Definition Microsecond : Z := 1000.
Definition Millisecond : Z := 1000000.
Definition Second : Z := 1000000000.
Definition Minute : Z := 60000000000.
Definition Hour : Z := 3600000000000.

(** [d * time.Second] for an int64 [d]. *)
Definition dur_mul (d unit : Z) : Z := int64 (d * unit).

(** [d.Milliseconds()], [d.Seconds()] truncated to an int: division towards zero. *)
Definition Milliseconds (d : Z) : Z := Z.quot d Millisecond.
Definition dur_secs (d : Z) : Z := Z.quot d Second.

(** ** Instants *)

(** Seconds between the zero [time.Time] (January 1, year 1) and the epoch. *)
Definition zero_time : Z := - 62135596800 * Second.
Definition IsZero (t : Z) : bool := t =? zero_time.

Definition time_Add (t d : Z) : Z := t + d.

(** [t.Sub(u)] saturates at the bounds of a Duration. *)
Definition time_Sub (t u : Z) : Z :=
  Z.max min_int64 (Z.min max_int64 (t - u)).

Definition Before (t u : Z) : bool := t <? u.
Definition After (t u : Z) : bool := u <? t.

(** [t.Truncate(d)]: down to a multiple of [d] since the zero time. *)
Definition Truncate (t d : Z) : Z :=
  if d <=? 0 then t else t - (t - zero_time) mod d.

Definition UnixNano (t : Z) : Z := int64 t.
Definition UnixMilli (t : Z) : Z := int64 (t / Millisecond).
(** [time.Unix(sec, nsec)] *)
Definition time_Unix (sec nsec : Z) : Z := sec * Second + nsec.

(** [t.AddDate(0, 0, n)] in UTC, where every day has 24 hours. *)
Definition AddDays (t n : Z) : Z := t + n * (24 * Hour).

Lemma time_Sub_exact t u : in_int64 (t - u) -> time_Sub t u = t - u.
Proof. unfold in_int64, time_Sub, min_int64, max_int64. lia. Qed.

(** The sign of a saturated difference is that of the exact one. *)
Lemma time_Sub_pos t u : 0 < time_Sub t u <-> u < t.
Proof. unfold time_Sub, min_int64, max_int64. lia. Qed.

Lemma time_Sub_le t u : u < t -> time_Sub t u <= t - u.
Proof. unfold time_Sub, min_int64, max_int64. lia. Qed.

Lemma Truncate_le t d : Truncate t d <= t.
Proof.
  unfold Truncate. destruct (d <=? 0) eqn:Hd; [lia|].
  apply Z.leb_gt in Hd. pose proof (Z.mod_pos_bound (t - zero_time) d Hd). lia.
Qed.

Lemma Truncate_gt t d : 0 < d -> t - d < Truncate t d.
Proof.
  intros Hd. unfold Truncate. destruct (d <=? 0) eqn:E; [lia|].
  pose proof (Z.mod_pos_bound (t - zero_time) d Hd). lia.
Qed.

(** Truncation to the millisecond in the zero-time frame is truncation in the
    Unix frame, so [UnixMilli] of it loses nothing. *)
Lemma Truncate_ms t : Truncate t Millisecond = t / Millisecond * Millisecond.
Proof.
  unfold Truncate, zero_time.
  change (Millisecond <=? 0) with false. cbv iota.
  replace (t - -62135596800 * Second) with (t + 62135596800000 * Millisecond)
    by (unfold Second, Millisecond; lia).
  rewrite Z.mod_add by (unfold Millisecond; lia).
  pose proof (Z.div_mod t Millisecond ltac:(unfold Millisecond; lia)). lia.
Qed.

Lemma UnixMilli_Truncate t :
  in_int64 (t / Millisecond) ->
  UnixMilli (Truncate t Millisecond) * Millisecond = Truncate t Millisecond.
Proof.
  intros H. unfold UnixMilli. rewrite Truncate_ms.
  rewrite Z.div_mul by (unfold Millisecond; lia). by rewrite int64_id.
Qed.

#[export] Hint Rewrite int64_id uint32_id using (unfold in_int64; lia) : gobool.
