(* ===== verification/GoStr.v ===== *)
(** * Bytes, strings and UTF-8

    A Go [string] is a [string] (a sequence of 8-bit characters), a [[]byte] a
    [list byte]; [of_str] and [to_str] are the conversions [[]byte(s)] and
    [string(b)].  The file has the parts of [unicode/utf8], [strings] and
    [bytes] that the program uses. *)
From S2P Require Import Prelude.

(** ** Bytes *)

Abbreviation byte := Init.Byte.byte (only parsing).
Abbreviation bytes := (list Init.Byte.byte) (only parsing).

#[export] Instance byte_eq_dec : EqDecision byte := Byte.byte_eq_dec.

(** The numeric value of a byte, and the byte of a number (modulo 256). *)
Definition bval (b : byte) : Z := Z.of_N (Byte.to_N b).
Definition byte_of (z : Z) : byte :=
  default Byte.x00 (Byte.of_N (Z.to_N (z mod 256))).

Lemma bval_range b : 0 <= bval b < 256.
Proof. unfold bval. pose proof (Byte.to_N_bounded b). lia. Qed.

Lemma bval_byte_of z : bval (byte_of z) = z mod 256.
Proof.
  unfold bval, byte_of. pose proof (Z.mod_pos_bound z 256 ltac:(lia)).
  destruct (Byte.of_N (Z.to_N (z mod 256))) as [b|] eqn:E; simpl.
  - apply Byte.to_of_N in E. rewrite E. lia.
  - apply Byte.of_N_None_iff in E. lia.
Qed.

Lemma byte_of_bval b : byte_of (bval b) = b.
Proof.
  unfold byte_of. rewrite Z.mod_small by apply bval_range.
  unfold bval. by rewrite N2Z.id, Byte.of_to_N.
Qed.

#[export] Instance bval_inj : Inj (=) (=) bval.
Proof. intros a b H. rewrite <-(byte_of_bval a), H. apply byte_of_bval. Qed.

#[export] Program Instance byte_countable : Countable byte :=
  inj_countable' bval byte_of _.
Next Obligation. apply byte_of_bval. Qed.

Definition of_str (s : string) : bytes := String.list_byte_of_string s.
Definition to_str (b : bytes) : string := String.string_of_list_byte b.

Lemma to_of_str s : to_str (of_str s) = s.
Proof. apply String.string_of_list_byte_of_string. Qed.

Lemma of_to_str b : of_str (to_str b) = b.
Proof. apply String.list_byte_of_string_of_list_byte. Qed.

Lemma of_str_app s t : of_str (s +:+ t) = of_str s ++ of_str t.
Proof.
  unfold of_str, String.list_byte_of_string.
  induction s as [|a s IH]; simpl in *; [done|]. by f_equal.
Qed.

Lemma to_str_app s t : to_str (s ++ t) = to_str s +:+ to_str t.
Proof. rewrite <-(to_of_str (to_str s +:+ to_str t)), of_str_app, !of_to_str. done. Qed.

#[export] Instance of_str_inj : Inj (=) (=) of_str.
Proof. intros s t H. by rewrite <-(to_of_str s), H, to_of_str. Qed.

#[export] Instance to_str_inj : Inj (=) (=) to_str.
Proof. intros s t H. by rewrite <-(of_to_str s), H, of_to_str. Qed.

Lemma str_app_inj_l (p s t : string) : p +:+ s = p +:+ t -> s = t.
Proof.
  intros H. apply (f_equal of_str) in H. rewrite !of_str_app in H.
  apply app_inv_head in H. by apply (inj of_str).
Qed.

Create Rewrite HintDb gostr.
#[export] Hint Rewrite to_of_str of_to_str of_str_app to_str_app : gostr.

(** [bytes.HasPrefix], [strings.HasPrefix]. *)
Fixpoint bytes_HasPrefix (s p : bytes) {struct p} : bool :=
  match p, s with
  | [], _ => true
  | _, [] => false
  | b :: p', a :: s' => bool_decide (a = b) && bytes_HasPrefix s' p'
  end.
Definition HasPrefix (s p : string) : bool := bytes_HasPrefix (of_str s) (of_str p).

Lemma bytes_HasPrefix_spec s p :
  bytes_HasPrefix s p = true <-> exists t, s = p ++ t.
Proof.
  revert s. induction p as [|b p IH]; intros s; simpl.
  { split; [by exists s|done]. }
  destruct s as [|a s]; [split; [done | intros [t H]; discriminate]|].
  rewrite andb_true_iff, bool_decide_eq_true, IH. split.
  - intros [-> [t ->]]. eauto.
  - intros [t [= -> ->]]. eauto.
Qed.

(** ** UTF-8 *)

(** The first byte decides the length of an encoding and the range of the
    second byte (the [first] and [acceptRanges] tables of [unicode/utf8]). *)
Inductive lead : Type :=
| Lead1
| LeadN (size : nat) (lo hi : Z)
| LeadBad.

Definition lead_of (b : byte) : lead :=
  let x := bval b in
  if x <? 0x80 then Lead1
  else if x <? 0xC2 then LeadBad
  else if x <? 0xE0 then LeadN 2 0x80 0xBF
  else if x =? 0xE0 then LeadN 3 0xA0 0xBF
  else if x =? 0xED then LeadN 3 0x80 0x9F
  else if x <? 0xF0 then LeadN 3 0x80 0xBF
  else if x =? 0xF0 then LeadN 4 0x90 0xBF
  else if x <? 0xF4 then LeadN 4 0x80 0xBF
  else if x =? 0xF4 then LeadN 4 0x80 0x8F
  else LeadBad.

Definition within (lo hi : Z) (b : byte) : bool := (lo <=? bval b) && (bval b <=? hi).
Definition cont : byte -> bool := within 0x80 0xBF.

(** One decoded rune: its code point and the bytes it was read from; a byte
    that starts no valid encoding is [Bad] and read as U+FFFD of width 1. *)
Inductive rune : Type :=
| Rune (code : Z) (raw : bytes)
| Bad (raw : byte).

Definition rune_raw (r : rune) : bytes :=
  match r with Rune _ raw => raw | Bad b => [b] end.
Definition rune_ok (r : rune) : bool :=
  match r with Rune _ _ => true | Bad _ => false end.

Definition low6 (b : byte) : Z := bval b mod 64.

(** The runes of a byte sequence, as repeated [utf8.DecodeRune] yields them. *)
Fixpoint runes (l : bytes) : list rune :=
  match l with
  | [] => []
  | b0 :: l1 =>
      match lead_of b0, l1 with
      | Lead1, _ => Rune (bval b0) [b0] :: runes l1
      | LeadN 2 lo hi, b1 :: l2 =>
          if within lo hi b1
          then Rune (bval b0 mod 32 * 64 + low6 b1) [b0; b1] :: runes l2
          else Bad b0 :: runes l1
      | LeadN 3 lo hi, b1 :: b2 :: l3 =>
          if within lo hi b1 && cont b2
          then Rune (bval b0 mod 16 * 4096 + low6 b1 * 64 + low6 b2) [b0; b1; b2]
                 :: runes l3
          else Bad b0 :: runes l1
      | LeadN 4 lo hi, b1 :: b2 :: b3 :: l4 =>
          if within lo hi b1 && cont b2 && cont b3
          then Rune (bval b0 mod 8 * 262144 + low6 b1 * 4096 + low6 b2 * 64 + low6 b3)
                 [b0; b1; b2; b3] :: runes l4
          else Bad b0 :: runes l1
      | _, _ => Bad b0 :: runes l1
      end
  end.

Definition utf8_Valid (l : bytes) : bool := forallb rune_ok (runes l).
Definition utf8_ValidString (s : string) : bool := utf8_Valid (of_str s).
Definition RuneCount (l : bytes) : Z := Z.of_nat (length (runes l)).
Definition RuneCountInString (s : string) : Z := RuneCount (of_str s).

(** Decoding loses no byte. *)
Lemma runes_raw l : concat (map rune_raw (runes l)) = l.
Proof.
  induction l as [l IH] using (induction_ltof1 _ (@length byte)).
  destruct l as [|b0 l1]; [done|].
  assert (IH' : forall l', (length l' < S (length l1))%nat ->
                concat (map rune_raw (runes l')) = l')
    by (intros; by apply IH).
  clear IH. cbn -[lead_of within cont].
  repeat case_match; cbn [map concat rune_raw app];
    repeat f_equal; simplify_eq; apply IH'; simpl; lia.
Qed.

Lemma RuneCount_le l : RuneCount l <= Z.of_nat (length l).
Proof.
  unfold RuneCount. rewrite <-(runes_raw l) at 2.
  assert (Hne : Forall (fun r => rune_raw r <> []) (runes l)).
  { induction l as [l IH] using (induction_ltof1 _ (@length byte)).
    destruct l as [|b0 l1]; [constructor|].
    assert (IH' : forall l', (length l' < S (length l1))%nat ->
                  Forall (fun r => rune_raw r <> []) (runes l'))
      by (intros; by apply IH).
    clear IH. cbn -[lead_of within cont].
    repeat case_match; simplify_eq; constructor; try done; apply IH'; simpl; lia. }
  induction Hne as [|r rs Hr _ IH]; simpl; [lia|].
  rewrite length_app. destruct (rune_raw r); simpl; [done|lia].
Qed.

(** ** Trimming and splitting *)

(** [unicode.IsSpace] *)
Definition IsSpace (c : Z) : bool :=
  ((9 <=? c) && (c <=? 13)) || (c =? 32) || (c =? 0x85) || (c =? 0xA0) ||
  (c =? 0x1680) || ((0x2000 <=? c) && (c <=? 0x200A)) || (c =? 0x2028) ||
  (c =? 0x2029) || (c =? 0x202F) || (c =? 0x205F) || (c =? 0x3000).

Definition rune_space (r : rune) : bool :=
  match r with Rune c _ => IsSpace c | Bad _ => false end.

Fixpoint drop_while {A} (f : A -> bool) (l : list A) : list A :=
  match l with
  | [] => []
  | x :: l' => if f x then drop_while f l' else l
  end.

Fixpoint take_while {A} (f : A -> bool) (l : list A) : list A :=
  match l with
  | [] => []
  | x :: l' => if f x then x :: take_while f l' else []
  end.

Definition drop_while_end {A} (f : A -> bool) (l : list A) : list A :=
  rev (drop_while f (rev l)).

(** [strings.TrimSpace] *)
Definition TrimSpace (s : string) : string :=
  to_str (concat (map rune_raw
    (drop_while_end rune_space (drop_while rune_space (runes (of_str s)))))).

(** [strings.TrimRight(s, "/")]: every trailing character [c] removed. *)
Definition TrimRight (s : string) (c : byte) : string :=
  to_str (drop_while_end (fun b => bool_decide (b = c)) (of_str s)).

(** [strings.Split(s, sep)] for a one-byte separator. *)
Fixpoint bytes_Split (l : bytes) (sep : byte) : list bytes :=
  match l with
  | [] => [[]]
  | b :: l' =>
      let rest := bytes_Split l' sep in
      if bool_decide (b = sep) then [] :: rest
      else match rest with
           | [] => [[b]]
           | p :: ps => (b :: p) :: ps
           end
  end.
Definition Split (s : string) (sep : byte) : list string :=
  map to_str (bytes_Split (of_str s) sep).

(** Absence of a character from a literal, by running the test. *)
Lemma not_in_check (b : byte) (l : bytes) :
  forallb (fun c => negb (bool_decide (c = b))) l = true -> b ∉ l.
Proof.
  rewrite forallb_forall. intros H Hin. apply list_elem_of_In in Hin.
  specialize (H b Hin). rewrite bool_decide_true in H by done. done.
Qed.

Lemma bytes_Split_one a sep : sep ∉ a -> bytes_Split a sep = [a].
Proof.
  induction a as [|b a IH]; intros H; [done|]. apply not_elem_of_cons in H as [H1 H2].
  cbn [bytes_Split]. rewrite bool_decide_false by done. by rewrite IH.
Qed.

Lemma bytes_Split_app a b sep :
  sep ∉ a -> bytes_Split (a ++ sep :: b) sep = a :: bytes_Split b sep.
Proof.
  induction a as [|c a IH]; intros H.
  - cbn [bytes_Split app]. by rewrite bool_decide_true.
  - apply not_elem_of_cons in H as [H1 H2]. cbn [bytes_Split app].
    rewrite bool_decide_false by done. by rewrite IH.
Qed.

(** [strings.Cut(s, sep)] for a one-byte separator: [None] when it is absent. *)
Fixpoint bytes_Cut (l : bytes) (sep : byte) : option (bytes * bytes) :=
  match l with
  | [] => None
  | b :: l' =>
      if bool_decide (b = sep) then Some ([], l')
      else match bytes_Cut l' sep with
           | None => None
           | Some (x, y) => Some (b :: x, y)
           end
  end.
Definition Cut (s : string) (sep : byte) : option (string * string) :=
  match bytes_Cut (of_str s) sep with
  | None => None
  | Some (x, y) => Some (to_str x, to_str y)
  end.

(** ** Case *)

Definition lower_byte (b : byte) : byte :=
  if (0x41 <=? bval b) && (bval b <=? 0x5A) then byte_of (bval b + 32) else b.
Definition upper_byte (b : byte) : byte :=
  if (0x61 <=? bval b) && (bval b <=? 0x7A) then byte_of (bval b - 32) else b.

(** [strings.ToLower] and [strings.ToUpper].  The ASCII letters are mapped, and
    the only other runes whose image is ASCII: U+0130 and U+212A (to "i", "k"),
    U+0131 and U+017F (to "I", "S").  The remaining runes are left as they are:
    the program only compares the result with ASCII words. *)
Definition lower_rune (r : rune) : bytes :=
  match r with
  | Rune c raw =>
      if c =? 0x130 then of_str "i" else if c =? 0x212A then of_str "k"
      else map lower_byte raw
  | Bad b => [b]
  end.
Definition upper_rune (r : rune) : bytes :=
  match r with
  | Rune c raw =>
      if c =? 0x131 then of_str "I" else if c =? 0x17F then of_str "S"
      else map upper_byte raw
  | Bad b => [b]
  end.
Definition ToLower (s : string) : string :=
  to_str (concat (map lower_rune (runes (of_str s)))).
Definition ToUpper (s : string) : string :=
  to_str (concat (map upper_rune (runes (of_str s)))).

(** The class of a rune under simple folding, for the classes that contain an
    ASCII letter; U+017F folds to "s" and U+212A to "k". *)
Definition fold_rune (r : rune) : Z :=
  match r with
  | Rune c _ =>
      if (0x41 <=? c) && (c <=? 0x5A) then c + 32
      else if c =? 0x17F then 0x73
      else if c =? 0x212A then 0x6B
      else c
  | Bad _ => 0xFFFD
  end.

(** [strings.EqualFold(s, t)] for a [t] of ASCII characters, which is what the
    program passes: no other folding class meets ASCII. *)
Definition EqualFold (s t : string) : bool :=
  bool_decide (map fold_rune (runes (of_str s)) = map fold_rune (runes (of_str t))).

(** ** ASCII strings *)

Definition ascii (b : byte) : bool := bval b <? 128.

Lemma runes_ascii l :
  Forall (fun b => ascii b = true) l -> runes l = map (fun b => Rune (bval b) [b]) l.
Proof.
  induction 1 as [|b l Hb _ IH]; [done|]. cbn [runes map].
  unfold lead_of. unfold ascii in Hb. rewrite Hb. by rewrite IH.
Qed.

Lemma ascii_utf8 l : Forall (fun b => ascii b = true) l -> utf8_Valid l = true.
Proof.
  intros Hl. unfold utf8_Valid. rewrite runes_ascii by done. clear Hl. by induction l.
Qed.

Lemma take_drop_while_app {A} (f : A -> bool) (a b : list A) :
  Forall (fun x => f x = true) a ->
  match b with [] => True | x :: _ => f x = false end ->
  take_while f (a ++ b) = a /\ drop_while f (a ++ b) = b.
Proof.
  induction 1 as [|x a Hx _ IH]; intros Hb; simpl.
  - destruct b as [|y b]; [done|]. simpl. by rewrite Hb.
  - rewrite Hx. destruct (IH Hb) as [-> ->]. done.
Qed.

Lemma drop_while_none {A} (f : A -> bool) l : Forall (fun x => f x = false) l -> drop_while f l = l.
Proof. destruct 1 as [|x l Hx _]; simpl; [done|]. by rewrite Hx. Qed.

Lemma drop_while_end_none {A} (f : A -> bool) l :
  Forall (fun x => f x = false) l -> drop_while_end f l = l.
Proof.
  intros Hl. unfold drop_while_end. rewrite drop_while_none; [apply rev_involutive|].
  by apply Forall_rev.
Qed.

Definition visible (b : byte) : bool := (33 <=? bval b) && (bval b <=? 126).

Lemma visible_ascii b : visible b = true -> ascii b = true.
Proof. unfold visible, ascii. lia. Qed.

(** A string of visible ASCII characters has nothing to trim. *)
Lemma TrimSpace_visible s :
  Forall (fun b => visible b = true) (of_str s) -> TrimSpace s = s.
Proof.
  intros Hs. unfold TrimSpace. rewrite runes_ascii by (eapply Forall_impl; [done|]; apply visible_ascii).
  assert (Hf : Forall (fun r => rune_space r = false) (map (fun b => Rune (bval b) [b]) (of_str s))).
  { rewrite Forall_map. eapply Forall_impl; [exact Hs|]. intros b Hb. simpl.
    unfold visible in Hb. unfold IsSpace. lia. }
  rewrite drop_while_none by done. rewrite drop_while_end_none by done.
  rewrite map_map. simpl. clear Hf Hs. rewrite <-(to_of_str s) at 2. f_equal.
  induction (of_str s); simpl; congruence.
Qed.

Lemma lower_byte_val b :
  bval (lower_byte b) = if (0x41 <=? bval b) && (bval b <=? 0x5A) then bval b + 32 else bval b.
Proof.
  unfold lower_byte. destruct (_ && _) eqn:E; [|done]. rewrite bval_byte_of.
  apply Z.mod_small. pose proof (bval_range b). lia.
Qed.

(** On ASCII strings folding is lower-casing. *)
Lemma EqualFold_ascii s t :
  Forall (fun b => ascii b = true) (of_str s) -> Forall (fun b => ascii b = true) (of_str t) ->
  EqualFold s t = true <-> map lower_byte (of_str s) = map lower_byte (of_str t).
Proof.
  intros Hs Ht. unfold EqualFold. rewrite bool_decide_eq_true, !runes_ascii by done.
  rewrite !map_map.
  assert (Hf : forall l, Forall (fun b => ascii b = true) l ->
    map (fun b => fold_rune (Rune (bval b) [b])) l = map bval (map lower_byte l)).
  { induction 1 as [|b l Hb _ IH]; [done|]. simpl in *. rewrite IH. f_equal.
    rewrite lower_byte_val. unfold ascii in Hb.
    destruct (_ && _); [done|]. destruct (bval b =? 383) eqn:E1; [lia|].
    destruct (bval b =? 8490) eqn:E2; [lia|done]. }
  rewrite !Hf by done. split; [|by intros ->]. intros E.
  revert E. generalize (map lower_byte (of_str s)), (map lower_byte (of_str t)).
  induction l as [|a l IH]; intros [|b k]; simpl; try done. intros [= E1 E2].
  f_equal; [by apply (inj bval)|by apply IH].
Qed.
