(* ===== verification/Codec.v ===== *)
(** * Textual encodings: decimal, hexadecimal, base64

    [strconv.FormatInt]/[ParseInt], [encoding/hex] and [encoding/base64] as the
    program uses them, with their round trips. *)
From S2P Require Import Prelude GoNum GoStr.

(** ** Decimal integers *)
Module Decimal.

Definition digit (d : Z) : byte := byte_of (48 + d).
Definition is_digit (b : byte) : bool := (48 <=? bval b) && (bval b <=? 57).

(** Least significant digit last; [fuel] bounds the number of digits. *)
Fixpoint digits (fuel : nat) (n : Z) (acc : bytes) : bytes :=
  match fuel with
  | O => acc
  | S f =>
      if n <? 10 then digit n :: acc
      else digits f (n / 10) (digit (n mod 10) :: acc)
  end.

(** [n] has at most [log2 n + 1] decimal digits. *)
Definition format_nonneg (n : Z) : bytes := digits (S (Z.to_nat (Z.log2 n))) n [].

(** [strconv.FormatInt(n, 10)] *)
Definition FormatInt (n : Z) : string :=
  to_str (if n <? 0 then of_str "-" ++ format_nonneg (- n) else format_nonneg n).

(** The value of a digit sequence; [None] on another character. *)
Fixpoint parse_digits (l : bytes) (acc : Z) : option Z :=
  match l with
  | [] => Some acc
  | b :: l' => if is_digit b then parse_digits l' (acc * 10 + (bval b - 48)) else None
  end.

Definition parse_unsigned (l : bytes) : option Z :=
  match l with [] => None | _ => parse_digits l 0 end.

(** An optional sign and at least one digit. *)
Definition parse_signed (s : string) : option Z :=
  match of_str s with
  | [] => None
  | b :: l =>
      if bool_decide (b = Byte.x2d) then Z.opp <$> parse_unsigned l
      else if bool_decide (b = Byte.x2b) then parse_unsigned l
      else parse_unsigned (b :: l)
  end.

(** [strconv.ParseInt(s, 10, 64)] and [strconv.Atoi] without an error: the value
    fits an int64. *)
Definition ParseInt (s : string) : option Z :=
  match parse_signed s with
  | None => None
  | Some n => if (min_int64 <=? n) && (n <=? max_int64) then Some n else None
  end.

(** The value they return whatever the error: the nearest int64 of a number
    that is out of range, 0 for what is not a number. *)
Definition Atoi_value (s : string) : Z :=
  match parse_signed s with
  | None => 0
  | Some n => Z.max min_int64 (Z.min max_int64 n)
  end.

Lemma bval_digit d : 0 <= d < 10 -> bval (digit d) = 48 + d.
Proof. intros H. unfold digit. rewrite bval_byte_of, Z.mod_small; lia. Qed.

Lemma parse_digit d l acc :
  0 <= d < 10 -> parse_digits (digit d :: l) acc = parse_digits l (acc * 10 + d).
Proof.
  intros H. simpl. unfold is_digit. rewrite bval_digit by done.
  destruct (48 <=? 48 + d) eqn:E1, (48 + d <=? 57) eqn:E2; try lia.
  simpl. f_equal. lia.
Qed.

Lemma parse_digits_format fuel n acc l :
  0 <= n -> n < 2 ^ Z.of_nat fuel -> fuel <> O ->
  exists p, 0 < p /\ parse_digits (digits fuel n l) acc = parse_digits l (acc * p + n).
Proof.
  revert n l. induction fuel as [|f IH]; intros n l H0 Hn Hf; [done|].
  cbn [digits]. destruct (n <? 10) eqn:E.
  - exists 10. rewrite parse_digit by lia. split; [lia|done].
  - assert (n / 10 < 2 ^ Z.of_nat f).
    { rewrite Nat2Z.inj_succ, Z.pow_succ_r in Hn by lia.
      apply Z.div_lt_upper_bound; lia. }
    destruct f as [|f']; [simpl in *; lia|].
    destruct (IH (n / 10) (digit (n mod 10) :: l)) as (p & Hp & ->); [apply Z.div_pos; lia|done|done|].
    exists (p * 10). split; [lia|]. rewrite parse_digit by lia.
    f_equal. lia.
Qed.

Lemma digits_ne fuel n l : fuel <> O -> digits fuel n l <> [].
Proof.
  revert n l. induction fuel as [|f IH]; intros n l H; [done|]. cbn [digits].
  destruct (n <? 10); [done|]. destruct f; [done|]. by apply IH.
Qed.

Lemma digits_digit fuel n l :
  0 <= n -> Forall (fun b => is_digit b = true) l ->
  Forall (fun b => is_digit b = true) (digits fuel n l).
Proof.
  assert (Hd : forall d, 0 <= d < 10 -> is_digit (digit d) = true).
  { intros d H. unfold is_digit. rewrite bval_digit by lia. lia. }
  revert n l. induction fuel as [|f IH]; intros n l H0 Hl; [done|]. cbn [digits].
  destruct (n <? 10) eqn:E; [constructor; [apply Hd; lia|done]|].
  apply IH; [apply Z.div_pos; lia|]. constructor; [|done].
  apply Hd. pose proof (Z.mod_pos_bound n 10). lia.
Qed.

Lemma parse_format_nonneg n :
  0 <= n -> parse_unsigned (format_nonneg n) = Some n.
Proof.
  intros H. unfold parse_unsigned, format_nonneg.
  destruct (digits _ n []) as [|b l] eqn:E.
  { by apply digits_ne in E. }
  rewrite <-E.
  destruct (parse_digits_format (S (Z.to_nat (Z.log2 n))) n 0 []) as (p & _ & ->);
    [done| |done|f_equal; lia].
  rewrite Nat2Z.inj_succ, Z2Nat.id by apply Z.log2_nonneg.
  destruct (decide (n = 0)) as [->|]; [simpl; lia|].
  apply Z.log2_spec. lia.
Qed.

Lemma format_nonneg_digit n : 0 <= n ->
  exists b l, format_nonneg n = b :: l /\ is_digit b = true.
Proof.
  intros H. unfold format_nonneg.
  pose proof (digits_digit (S (Z.to_nat (Z.log2 n))) n [] H (Forall_nil_2 _)) as Hd.
  destruct (digits _ n []) as [|b l] eqn:E; [by apply digits_ne in E|].
  inversion Hd; subst. eauto.
Qed.

(** No leading zero. *)
Lemma digits_lead fuel n l :
  0 < n -> n < 2 ^ Z.of_nat fuel -> fuel <> O ->
  exists b l', digits fuel n l = b :: l' /\ b <> Byte.x30.
Proof.
  revert n l. induction fuel as [|f IH]; intros n l H0 Hn Hf; [done|]. cbn [digits].
  destruct (n <? 10) eqn:E.
  - eexists _, _. split; [done|]. intros Hb. apply (f_equal bval) in Hb.
    rewrite bval_digit in Hb by lia. by change (bval Byte.x30) with 48 in Hb; lia.
  - assert (n / 10 < 2 ^ Z.of_nat f).
    { rewrite Nat2Z.inj_succ, Z.pow_succ_r in Hn by lia. apply Z.div_lt_upper_bound; lia. }
    destruct f as [|f']; [simpl in *; lia|]. apply IH; [lia|done|done].
Qed.

Lemma format_nonneg_lead n : 0 <= n ->
  format_nonneg n = [Byte.x30] \/
  exists b l, format_nonneg n = b :: l /\ b <> Byte.x30 /\ is_digit b = true /\
              Forall (fun b => is_digit b = true) l.
Proof.
  intros H. destruct (decide (n = 0)) as [->|]; [by left|]. right.
  destruct (digits_lead (S (Z.to_nat (Z.log2 n))) n []) as (b & l & E & Hb); [lia| |done|].
  { rewrite Nat2Z.inj_succ, Z2Nat.id by apply Z.log2_nonneg. apply Z.log2_spec. lia. }
  pose proof (digits_digit (S (Z.to_nat (Z.log2 n))) n [] H (Forall_nil_2 _)) as Hd.
  rewrite E in Hd. inversion Hd; subst. unfold format_nonneg. eauto 10.
Qed.

Lemma digit_not_sign b : is_digit b = true -> b <> Byte.x2d /\ b <> Byte.x2b.
Proof. intros H. split; intros ->; discriminate. Qed.

(** What [FormatInt] prints, [ParseInt] reads back, for every int64. *)
Lemma ParseInt_FormatInt n : in_int64 n -> ParseInt (FormatInt n) = Some n.
Proof.
  unfold in_int64. intros H. unfold ParseInt, parse_signed, FormatInt. rewrite of_to_str.
  assert (Hr : (min_int64 <=? n) && (n <=? max_int64) = true)
    by (unfold min_int64, max_int64; lia).
  destruct (n <? 0) eqn:E.
  - change (of_str "-") with [Byte.x2d]. simpl app.
    cbv iota beta. rewrite bool_decide_true by done.
    rewrite parse_format_nonneg by lia. simpl.
    by rewrite Z.opp_involutive, Hr.
  - destruct (format_nonneg_digit n) as (b & l & Hb & Hd); [lia|].
    destruct (digit_not_sign b Hd). rewrite Hb.
    cbv iota beta. rewrite !bool_decide_false by done. rewrite <-Hb, parse_format_nonneg by lia.
    by rewrite Hr.
Qed.

Lemma ParseInt_range s n : ParseInt s = Some n -> in_int64 n.
Proof.
  unfold ParseInt, in_int64, min_int64, max_int64. intros Hn. repeat case_match; simplify_eq; lia.
Qed.

End Decimal.

(** ** Hexadecimal *)
Module Hex.

Definition hexdigit (d : Z) : byte := byte_of (if d <? 10 then 48 + d else 87 + d).

(** [hex.EncodeToString] *)
Definition EncodeToString (l : bytes) : string :=
  to_str (concat (map (fun b => [hexdigit (bval b / 16); hexdigit (bval b mod 16)]) l)).

Definition lower_hex (b : byte) : bool :=
  ((48 <=? bval b) && (bval b <=? 57)) || ((97 <=? bval b) && (bval b <=? 102)).

Lemma hexdigit_lower d : 0 <= d < 16 -> lower_hex (hexdigit d) = true.
Proof.
  intros H. unfold lower_hex, hexdigit. rewrite bval_byte_of.
  destruct (d <? 10) eqn:E; rewrite Z.mod_small by lia; lia.
Qed.

Lemma hexdigit_inj d e : 0 <= d < 16 -> 0 <= e < 16 -> hexdigit d = hexdigit e -> d = e.
Proof.
  intros Hd He H. apply (f_equal bval) in H. unfold hexdigit in H.
  rewrite !bval_byte_of in H.
  destruct (d <? 10) eqn:E1, (e <? 10) eqn:E2; rewrite !Z.mod_small in H by lia; lia.
Qed.

Lemma nibbles b : 0 <= bval b / 16 < 16 /\ 0 <= bval b mod 16 < 16.
Proof. pose proof (bval_range b). lia. Qed.

Lemma EncodeToString_lower l :
  Forall (fun b => lower_hex b = true) (of_str (EncodeToString l)).
Proof.
  unfold EncodeToString. rewrite of_to_str. induction l as [|b l IH]; [constructor|].
  pose proof (nibbles b) as [H1 H2]. simpl.
  repeat constructor; auto using hexdigit_lower.
Qed.

Lemma EncodeToString_length l :
  length (of_str (EncodeToString l)) = (2 * length l)%nat.
Proof. unfold EncodeToString. rewrite of_to_str. induction l; simpl in *; lia. Qed.

(** Distinct byte sequences have distinct encodings. *)
Lemma EncodeToString_inj l k : EncodeToString l = EncodeToString k -> l = k.
Proof.
  unfold EncodeToString. intros H%(inj to_str). revert k H.
  induction l as [|a l IH]; intros [|b k] H; try done.
  simpl in H. injection H as H1 H2 H3.
  pose proof (nibbles a) as [Ha1 Ha2]. pose proof (nibbles b) as [Hb1 Hb2].
  apply hexdigit_inj in H1, H2; [|done..]. f_equal; [|by apply IH].
  apply (inj bval). lia.
Qed.

End Hex.

(** ** Base64 *)
Module Base64.

Definition StdAlphabet : bytes :=
  of_str "ABCDEFGHIJKLMNOPQRSTUVWXYZabcdefghijklmnopqrstuvwxyz0123456789+/".
Definition URLAlphabet : bytes :=
  of_str "ABCDEFGHIJKLMNOPQRSTUVWXYZabcdefghijklmnopqrstuvwxyz0123456789-_".

Definition enc (alph : bytes) (v : Z) : byte := nth (Z.to_nat v) alph Byte.x00.

Fixpoint index (b : byte) (l : bytes) : option Z :=
  match l with
  | [] => None
  | c :: l' => if bool_decide (b = c) then Some 0 else Z.succ <$> index b l'
  end.

Definition pad_byte : byte := Byte.x3d.

(** Three bytes give four characters; a final group of one or two bytes gives
    two or three, completed with ["="] when the encoding is padded. *)
Fixpoint encode (alph : bytes) (pad : bool) (l : bytes) : bytes :=
  match l with
  | [] => []
  | [b0] =>
      [enc alph (bval b0 / 4); enc alph (bval b0 mod 4 * 16)] ++
      (if pad then [pad_byte; pad_byte] else [])
  | [b0; b1] =>
      [enc alph (bval b0 / 4); enc alph (bval b0 mod 4 * 16 + bval b1 / 16);
       enc alph (bval b1 mod 16 * 4)] ++
      (if pad then [pad_byte] else [])
  | b0 :: b1 :: b2 :: l' =>
      enc alph (bval b0 / 4) :: enc alph (bval b0 mod 4 * 16 + bval b1 / 16) ::
      enc alph (bval b1 mod 16 * 4 + bval b2 / 64) :: enc alph (bval b2 mod 64) ::
      encode alph pad l'
  end.

Definition dec2 (v0 v1 : Z) : bytes := [byte_of (v0 * 4 + v1 / 16)].
Definition dec3 (v0 v1 v2 : Z) : bytes :=
  [byte_of (v0 * 4 + v1 / 16); byte_of (v1 * 16 + v2 / 4)].
Definition dec4 (v0 v1 v2 v3 : Z) : bytes :=
  [byte_of (v0 * 4 + v1 / 16); byte_of (v1 * 16 + v2 / 4); byte_of (v2 * 64 + v3)].

(** Decoding of a sequence without line breaks.  The unused low bits of a final
    group are not checked (the encodings are not [Strict]). *)
Fixpoint decode (alph : bytes) (pad : bool) (l : bytes) : option bytes :=
  match l with
  | [] => Some []
  | [_] => None
  | [c0; c1] =>
      if pad then None
      else v0 ← index c0 alph; v1 ← index c1 alph; Some (dec2 v0 v1)
  | [c0; c1; c2] =>
      if pad then None
      else v0 ← index c0 alph; v1 ← index c1 alph; v2 ← index c2 alph;
           Some (dec3 v0 v1 v2)
  | c0 :: c1 :: c2 :: c3 :: l' =>
      if pad && bool_decide (c3 = pad_byte) then
        if bool_decide (l' = []) then
          if bool_decide (c2 = pad_byte)
          then v0 ← index c0 alph; v1 ← index c1 alph; Some (dec2 v0 v1)
          else v0 ← index c0 alph; v1 ← index c1 alph; v2 ← index c2 alph;
               Some (dec3 v0 v1 v2)
        else None
      else
        v0 ← index c0 alph; v1 ← index c1 alph; v2 ← index c2 alph; v3 ← index c3 alph;
        rest ← decode alph pad l'; Some (dec4 v0 v1 v2 v3 ++ rest)
  end.

Definition not_newline (b : byte) : bool :=
  negb (bool_decide (b = Byte.x0a) || bool_decide (b = Byte.x0d)).

(** [base64.StdEncoding], [RawStdEncoding] and [RawURLEncoding]; decoding skips
    carriage returns and line feeds. *)
Definition std_DecodeString (s : string) : option bytes :=
  decode StdAlphabet true (List.filter not_newline (of_str s)).
Definition std_EncodeToString (l : bytes) : string := to_str (encode StdAlphabet true l).
Definition rawstd_EncodeToString (l : bytes) : string := to_str (encode StdAlphabet false l).
Definition rawstd_DecodeString (s : string) : option bytes :=
  decode StdAlphabet false (List.filter not_newline (of_str s)).
Definition rawurl_EncodeToString (l : bytes) : string := to_str (encode URLAlphabet false l).
Definition rawurl_DecodeString (s : string) : option bytes :=
  decode URLAlphabet false (List.filter not_newline (of_str s)).

(** An alphabet of 64 distinct characters, none of them a line break or the
    padding character: checked by running the tables. *)
Definition alphabet_ok (alph : bytes) : bool :=
  forallb (fun n => bool_decide (index (enc alph (Z.of_nat n)) alph = Some (Z.of_nat n))
                    && not_newline (enc alph (Z.of_nat n))
                    && negb (bool_decide (enc alph (Z.of_nat n) = pad_byte)))
          (seq 0 64).

Lemma std_alphabet_ok : alphabet_ok StdAlphabet = true.
Proof. vm_compute. reflexivity. Qed.
Lemma url_alphabet_ok : alphabet_ok URLAlphabet = true.
Proof. vm_compute. reflexivity. Qed.

Section RoundTrip.
Context (alph : bytes) (Halph : alphabet_ok alph = true).

Lemma enc_ok v : 0 <= v < 64 ->
  index (enc alph v) alph = Some v /\ not_newline (enc alph v) = true /\
  enc alph v <> pad_byte.
Proof.
  intros H. unfold alphabet_ok in Halph. rewrite forallb_forall in Halph.
  specialize (Halph (Z.to_nat v)). rewrite in_seq, Z2Nat.id in Halph by lia.
  specialize (Halph ltac:(lia)). gobool. tauto.
Qed.

Lemma index_enc v : 0 <= v < 64 -> index (enc alph v) alph = Some v.
Proof. apply enc_ok. Qed.

Lemma decode_encode pad l : decode alph pad (encode alph pad l) = Some l.
Proof.
  induction l as [l IH] using (induction_ltof1 _ (@length byte)).
  destruct l as [|b0 [|b1 [|b2 l']]]; [done|..];
    try (pose proof (bval_range b0)); try (pose proof (bval_range b1));
    try (pose proof (bval_range b2)).
  - destruct pad; simpl; rewrite ?bool_decide_true by done;
      rewrite !index_enc by lia; simpl; unfold dec2;
      do 2 f_equal; rewrite <-byte_of_bval; f_equal; lia.
  - destruct (enc_ok (bval b1 mod 16 * 4)) as (_ & _ & Hp); [lia|].
    destruct pad; simpl;
      rewrite ?(bool_decide_true (_ = pad_byte)), ?(bool_decide_true ([] = [])) by done;
      rewrite ?(bool_decide_false (_ = pad_byte)) by done;
      rewrite !index_enc by lia; simpl; unfold dec3;
      repeat f_equal; rewrite <-byte_of_bval; unfold byte_of; do 3 f_equal; lia.
  - assert (Hr : decode alph pad (encode alph pad l') = Some l').
    { apply IH. unfold ltof. simpl. lia. }
    destruct (enc_ok (bval b2 mod 64)) as (_ & _ & Hp); [lia|].
    cbn [encode decode]. rewrite (bool_decide_false (enc alph (bval b2 mod 64) = pad_byte)) by done.
    rewrite andb_false_r, !index_enc by lia. simpl. rewrite Hr. simpl.
    unfold dec4. simpl. repeat f_equal; rewrite <-byte_of_bval; unfold byte_of;
      do 3 f_equal; lia.
Qed.

Lemma encode_Forall (P : byte -> Prop) pad l :
  (forall v, 0 <= v < 64 -> P (enc alph v)) -> (pad = true -> P pad_byte) ->
  Forall P (encode alph pad l).
Proof.
  intros He Hp. induction l as [l IH] using (induction_ltof1 _ (@length byte)).
  destruct l as [|b0 [|b1 [|b2 l']]]; [constructor|..];
    try (pose proof (bval_range b0)); try (pose proof (bval_range b1));
    try (pose proof (bval_range b2)).
  - destruct pad; simpl; repeat constructor; auto; apply He; lia.
  - destruct pad; simpl; repeat constructor; auto; apply He; lia.
  - cbn [encode]. repeat constructor; try (apply He; lia).
    apply IH. unfold ltof. simpl. lia.
Qed.

Lemma encode_not_newline pad l :
  Forall (fun b => not_newline b = true) (encode alph pad l).
Proof. apply encode_Forall; [intros; by apply enc_ok|done]. Qed.

Lemma decode_encode_text pad l :
  decode alph pad (List.filter not_newline (of_str (to_str (encode alph pad l)))) = Some l.
Proof.
  rewrite of_to_str.
  assert (Hf : forall k, Forall (fun b => not_newline b = true) k ->
               List.filter not_newline k = k).
  { induction 1 as [|x k Hx _ IHk]; simpl; [done|]. by rewrite Hx, IHk. }
  rewrite Hf by apply encode_not_newline. apply decode_encode.
Qed.
End RoundTrip.

(** A property of every character of the alphabet, checked by running it. *)
Lemma enc_check (f : byte -> bool) alph v :
  forallb (fun n => f (enc alph (Z.of_nat n))) (seq 0 64) = true ->
  0 <= v < 64 -> f (enc alph v) = true.
Proof.
  rewrite forallb_forall. intros H Hv. specialize (H (Z.to_nat v)).
  rewrite in_seq, Z2Nat.id in H by lia. apply H. lia.
Qed.

Definition not_dollar (b : byte) : bool := negb (bool_decide (b = Byte.x24)).

Lemma rawstd_no_dollar l : Byte.x24 ∉ of_str (rawstd_EncodeToString l).
Proof.
  unfold rawstd_EncodeToString. rewrite of_to_str. intros Hin.
  assert (HF : Forall (fun b => not_dollar b = true) (encode StdAlphabet false l)).
  { apply encode_Forall; [|done]. intros v.
    apply (enc_check not_dollar). vm_compute. reflexivity. }
  rewrite Forall_forall in HF. specialize (HF _ Hin). done.
Qed.

Lemma std_EncodeToString_ascii l : Forall (fun b => ascii b = true) (of_str (std_EncodeToString l)).
Proof.
  unfold std_EncodeToString. rewrite of_to_str. apply encode_Forall; [|done].
  intros v. apply enc_check. vm_compute. reflexivity.
Qed.

Lemma std_roundtrip l : std_DecodeString (std_EncodeToString l) = Some l.
Proof. apply decode_encode_text, std_alphabet_ok. Qed.
Lemma rawstd_roundtrip l : rawstd_DecodeString (rawstd_EncodeToString l) = Some l.
Proof. apply decode_encode_text, std_alphabet_ok. Qed.
Lemma rawurl_roundtrip l : rawurl_DecodeString (rawurl_EncodeToString l) = Some l.
Proof. apply decode_encode_text, url_alphabet_ok. Qed.

End Base64.
