(* ===== verification/NetIP.v ===== *)
(** * net/netip

    [netip.ParseAddr] and [netip.Prefix.Contains] as the program uses them: an
    address is its bytes, four or sixteen of them, and an IPv6 zone. *)
From S2P Require Import Prelude GoNum GoStr Codec.

Inductive Addr : Type :=
| Addr4 (b : bytes)
| Addr6 (b : bytes) (zone : string).

#[export] Instance Addr_eq_dec : EqDecision Addr.
Proof. solve_decision. Defined.

(** ** IPv4: four decimal fields without leading zeros *)

Definition octet (l : bytes) : option byte :=
  match l with
  | [] => None
  | b :: rest =>
      if bool_decide (b = Byte.x30) && negb (bool_decide (rest = [])) then None
      else
        n ← Decimal.parse_digits l 0;
        if n <=? 255 then Some (byte_of n) else None
  end.

Definition parse_v4 (l : bytes) : option bytes :=
  match bytes_Split l Byte.x2e with
  | [a; b; c; d] =>
      x ← octet a; y ← octet b; z ← octet c; w ← octet d; Some [x; y; z; w]
  | _ => None
  end.

(** ** IPv6 *)

Definition hex_val (b : byte) : option Z :=
  if within 48 57 b then Some (bval b - 48)
  else if within 97 102 b then Some (bval b - 87)
  else if within 65 70 b then Some (bval b - 55)
  else None.

(** A run of hexadecimal digits, its value and what follows; [None] when the
    run is empty or has more than four digits. *)
Fixpoint hex_run (l : bytes) (n : nat) (acc : Z) : option (Z * nat * bytes) :=
  match l with
  | b :: l' =>
      match hex_val b with
      | Some v => if (n <=? 3)%nat then hex_run l' (S n) (acc * 16 + v) else None
      | None => if (n =? 0)%nat then None else Some (acc, n, l)
      end
  | [] => if (n =? 0)%nat then None else Some (acc, n, [])
  end.

Definition is_Some_b {A} (o : option A) : bool := if o is Some _ then true else false.

(** The loop of [parseIPv6]: [out] holds the bytes parsed so far, [ell] the
    position of "::".  The result is what was parsed when the text ended. *)
Fixpoint v6_fields (fuel : nat) (l out : bytes) (ell : option nat) : option (bytes * option nat) :=
  match fuel with
  | O => None
  | S fuel =>
      if (16 <=? length out)%nat then None   (* trailing text after the last field *)
      else
        '(acc, _, rest) ← hex_run l 0 0;
        match rest with
        | b :: _ =>
            if bool_decide (b = Byte.x2e) then
              (* an embedded IPv4 address fills the last four bytes *)
              if (negb (is_Some_b ell) && negb (length out =? 12)%nat) ||
                 (16 <? length out + 4)%nat
              then None
              else v4 ← parse_v4 l; Some (out ++ v4, ell)
            else
              let out := out ++ [byte_of (acc / 256); byte_of (acc mod 256)] in
              if negb (bool_decide (b = Byte.x3a)) then None
              else
                match rest with
                | _ :: c :: rest2 =>
                    if bool_decide (c = Byte.x3a) then
                      if is_Some_b ell then None
                      else match rest2 with
                           | [] => Some (out, Some (length out))
                           | _ => v6_fields fuel rest2 out (Some (length out))
                           end
                    else v6_fields fuel (c :: rest2) out ell
                | _ => None
                end
        | [] => Some (out ++ [byte_of (acc / 256); byte_of (acc mod 256)], ell)
        end
  end.

(** "::" stands for the zero bytes that are missing, at least two of them. *)
Definition expand (out : bytes) (ell : option nat) : option bytes :=
  if (length out <? 16)%nat then
    match ell with
    | None => None
    | Some e => Some (take e out ++ replicate (16 - length out) Byte.x00 ++ drop e out)
    end
  else if is_Some_b ell then None else Some out.

Definition parse_v6_bytes (l : bytes) : option bytes :=
  match l with
  | a :: b :: rest =>
      if bool_decide (a = Byte.x3a) && bool_decide (b = Byte.x3a) then
        match rest with
        | [] => Some (replicate 16 Byte.x00)
        | _ => '(out, ell) ← v6_fields (S (length rest)) rest [] (Some 0%nat); expand out ell
        end
      else '(out, ell) ← v6_fields (S (length l)) l [] None; expand out ell
  | _ => '(out, ell) ← v6_fields (S (length l)) l [] None; expand out ell
  end.

Definition parse_v6 (s : string) : option Addr :=
  match Cut s Byte.x25 with
  | Some (addr, zone) =>
      if bool_decide (zone = "") then None
      else b ← parse_v6_bytes (of_str addr); Some (Addr6 b zone)
  | None => b ← parse_v6_bytes (of_str s); Some (Addr6 b "")
  end.

(** The first ".", ":" or "%" of the text decides. *)
Fixpoint addr_kind (l : bytes) : option byte :=
  match l with
  | [] => None
  | b :: l' =>
      if bool_decide (b = Byte.x2e) || bool_decide (b = Byte.x3a) || bool_decide (b = Byte.x25)
      then Some b else addr_kind l'
  end.

Definition ParseAddr (s : string) : option Addr :=
  match addr_kind (of_str s) with
  | Some b =>
      if bool_decide (b = Byte.x2e) then Addr4 <$> parse_v4 (of_str s)
      else if bool_decide (b = Byte.x3a) then parse_v6 s
      else None
  | None => None
  end.

(** [netip.Prefix]: an address without zone and a number of bits. *)
Record Prefix : Type := MkPrefix { pf_addr : Addr; pf_bits : Z }.

Definition bits_of (l : bytes) : list bool :=
  concat (map (fun b => map (fun i => Z.testbit (bval b) i) [7; 6; 5; 4; 3; 2; 1; 0]) l).

(** [p.Contains(ip)]: same family, no zone, same leading bits. *)
Definition Contains (p : Prefix) (ip : Addr) : bool :=
  match pf_addr p, ip with
  | Addr4 a, Addr4 b | Addr6 a _, Addr6 b "" =>
      bool_decide (take (Z.to_nat (pf_bits p)) (bits_of a) = take (Z.to_nat (pf_bits p)) (bits_of b))
  | _, _ => false
  end.

Example ParseAddr_v4 : ParseAddr "192.168.0.7" = Some (Addr4 (map byte_of [192; 168; 0; 7])).
Proof. reflexivity. Qed.
Example ParseAddr_leading_zero : ParseAddr "192.168.00.7" = None.
Proof. reflexivity. Qed.
Example ParseAddr_v6 :
  ParseAddr "2001:db8::1" =
  Some (Addr6 (map byte_of [0x20; 1; 0x0d; 0xb8; 0; 0; 0; 0; 0; 0; 0; 0; 0; 0; 0; 1]) "").
Proof. reflexivity. Qed.
Example ParseAddr_mapped :
  ParseAddr "::ffff:10.0.0.1" =
  Some (Addr6 (map byte_of [0; 0; 0; 0; 0; 0; 0; 0; 0; 0; 255; 255; 10; 0; 0; 1]) "").
Proof. reflexivity. Qed.
Example ParseAddr_garbage : ParseAddr "unknown" = None /\ ParseAddr "1::2::3" = None /\ ParseAddr "1:2" = None.
Proof. repeat split; reflexivity. Qed.
