(* ===== verification/Json.v ===== *)
(** * encoding/json

    JSON documents, the text [json.Marshal] writes for them and the reading of
    [json.Unmarshal], with the round trip between the two.  A number keeps its
    literal: what it means depends on the Go type it is read into. *)
From S2P Require Import Prelude GoNum GoStr Codec.

#[warnings="-register-all"]
Inductive json : Type :=
| JNull
| JBool (b : bool)
| JNum (lit : bytes)
| JStr (s : bytes)
| JArr (l : list json)
| JObj (l : list (bytes * json)).

(** ** Strings *)

Definition hex4 (c : Z) : bytes :=
  map (fun k => Hex.hexdigit (Z.shiftr c k mod 16)) [12; 8; 4; 0].

(** [appendString] with HTML escaping, one rune. *)
Definition esc_rune (r : rune) : bytes :=
  match r with
  | Bad _ => of_str "\ufffd"
  | Rune c raw =>
      if c <? 0x80 then
        if c =? 0x5c then of_str "\\"
        else if c =? 0x22 then [Byte.x5c; Byte.x22]
        else if c =? 8 then of_str "\b"
        else if c =? 12 then of_str "\f"
        else if c =? 10 then of_str "\n"
        else if c =? 13 then of_str "\r"
        else if c =? 9 then of_str "\t"
        else if (c <? 0x20) || (c =? 0x3c) || (c =? 0x3e) || (c =? 0x26)
        then of_str "\u" ++ hex4 c
        else raw
      else if (c =? 0x2028) || (c =? 0x2029) then of_str "\u" ++ hex4 c
      else raw
  end.

Definition esc (s : bytes) : bytes := concat (map esc_rune (runes s)).
Definition quote (s : bytes) : bytes := [Byte.x22] ++ esc s ++ [Byte.x22].

(** The scanner: a literal runs to the next quote that no backslash escapes;
    control characters and unknown escapes are syntax errors. *)
Definition is_hex (b : byte) : bool :=
  within 48 57 b || within 97 102 b || within 65 70 b.

Definition simple_escape (b : byte) : bool :=
  bool_decide (b ∈ [Byte.x62; Byte.x66; Byte.x6e; Byte.x72; Byte.x74; Byte.x5c; Byte.x2f; Byte.x22]).

Fixpoint scan_string (l : bytes) : option (bytes * bytes) :=
  match l with
  | [] => None
  | b :: l1 =>
      if bool_decide (b = Byte.x22) then Some ([], l1)
      else if bool_decide (b = Byte.x5c) then
        match l1 with
        | e :: l2 =>
            if simple_escape e then
              '(s, rest) ← scan_string l2; Some (b :: e :: s, rest)
            else if bool_decide (e = Byte.x75) then
              match l2 with
              | h1 :: h2 :: h3 :: h4 :: l6 =>
                  if is_hex h1 && is_hex h2 && is_hex h3 && is_hex h4 then
                    '(s, rest) ← scan_string l6; Some (b :: e :: h1 :: h2 :: h3 :: h4 :: s, rest)
                  else None
              | _ => None
              end
            else None
        | [] => None
        end
      else if bval b <? 0x20 then None
      else '(s, rest) ← scan_string l1; Some (b :: s, rest)
  end.

(** [utf8.AppendRune] *)
Definition AppendRune (c : Z) : bytes :=
  if c <? 0x80 then [byte_of c]
  else if c <? 0x800 then [byte_of (0xC0 + c / 64); byte_of (0x80 + c mod 64)]
  else if c <? 0x10000 then
    [byte_of (0xE0 + c / 4096); byte_of (0x80 + c / 64 mod 64); byte_of (0x80 + c mod 64)]
  else
    [byte_of (0xF0 + c / 262144); byte_of (0x80 + c / 4096 mod 64);
     byte_of (0x80 + c / 64 mod 64); byte_of (0x80 + c mod 64)].

Definition rune_code (r : rune) : Z := match r with Rune c _ => c | Bad _ => 0xFFFD end.

Definition hexval (c : Z) : Z :=
  if (48 <=? c) && (c <=? 57) then c - 48
  else if (97 <=? c) && (c <=? 102) then c - 87
  else c - 55.
Definition u4 (a b c d : rune) : Z :=
  hexval (rune_code a) * 4096 + hexval (rune_code b) * 256 + hexval (rune_code c) * 16 +
  hexval (rune_code d).

Definition high_surrogate (u : Z) : bool := (0xD800 <=? u) && (u <? 0xDC00).
Definition low_surrogate (u : Z) : bool := (0xDC00 <=? u) && (u <? 0xE000).
Definition RuneError : bytes := AppendRune 0xFFFD.

Definition simple_unescape (e : Z) : bytes :=
  if e =? 0x62 then [Byte.x08] else if e =? 0x66 then [Byte.x0c]
  else if e =? 0x6e then [Byte.x0a] else if e =? 0x72 then [Byte.x0d]
  else if e =? 0x74 then [Byte.x09] else [byte_of e].

(** [unquoteBytes] on the runes of a scanned literal. *)
Fixpoint unquote (rs : list rune) : bytes :=
  match rs with
  | [] => []
  | Bad _ :: rs1 => RuneError ++ unquote rs1
  | Rune c raw :: rs1 =>
      if c =? 0x5c then
        match rs1 with
        | e :: rs2 =>
            if rune_code e =? 0x75 then
              match rs2 with
              | h1 :: h2 :: h3 :: h4 :: rs6 =>
                  let u := u4 h1 h2 h3 h4 in
                  if high_surrogate u || low_surrogate u then
                    match rs6 with
                    | b :: v :: k1 :: k2 :: k3 :: k4 :: rs12 =>
                        let w := u4 k1 k2 k3 k4 in
                        if (rune_code b =? 0x5c) && (rune_code v =? 0x75) &&
                           high_surrogate u && low_surrogate w
                        then AppendRune ((u - 0xD800) * 1024 + (w - 0xDC00) + 0x10000) ++ unquote rs12
                        else RuneError ++ unquote rs6
                    | _ => RuneError ++ unquote rs6
                    end
                  else AppendRune u ++ unquote rs6
              | _ => []
              end
            else simple_unescape (rune_code e) ++ unquote rs2
        | [] => []
        end
      else raw ++ unquote rs1
  end.

(** ** Documents *)

Definition comma : bytes := [Byte.x2c].
Definition colon : bytes := [Byte.x3a].

Fixpoint sep_by (sep : bytes) (ls : list bytes) : bytes :=
  match ls with
  | [] => []
  | [l] => l
  | l :: rest => l ++ sep ++ sep_by sep rest
  end.

(** The text of [json.Marshal]. *)
Fixpoint Marshal (j : json) : bytes :=
  match j with
  | JNull => of_str "null"
  | JBool true => of_str "true"
  | JBool false => of_str "false"
  | JNum lit => lit
  | JStr s => quote s
  | JArr l => [Byte.x5b] ++ sep_by comma (map Marshal l) ++ [Byte.x5d]
  | JObj l =>
      [Byte.x7b] ++ sep_by comma (map (fun '(k, v) => quote k ++ colon ++ Marshal v) l) ++
      [Byte.x7d]
  end.

Definition is_ws (b : byte) : bool :=
  bool_decide (b ∈ [Byte.x20; Byte.x09; Byte.x0d; Byte.x0a]).
Definition skip_ws (l : bytes) : bytes := drop_while is_ws l.

Fixpoint span_digits (l : bytes) : bytes * bytes :=
  match l with
  | b :: l' => if Decimal.is_digit b then let '(d, r) := span_digits l' in (b :: d, r) else ([], l)
  | [] => ([], [])
  end.

(** The number grammar: an optional sign, an integer with no leading zero, an
    optional fraction and an optional exponent. *)
Definition scan_int (l : bytes) : option (bytes * bytes) :=
  match l with
  | b :: l' =>
      if bool_decide (b = Byte.x30) then Some ([b], l')
      else if Decimal.is_digit b then let '(d, r) := span_digits l' in Some (b :: d, r)
      else None
  | [] => None
  end.
Definition scan_frac (l : bytes) : option (bytes * bytes) :=
  match l with
  | b :: l' =>
      if bool_decide (b = Byte.x2e) then
        match span_digits l' with ([], _) => None | (d, r) => Some (b :: d, r) end
      else Some ([], l)
  | [] => Some ([], [])
  end.
Definition scan_exp (l : bytes) : option (bytes * bytes) :=
  match l with
  | b :: l' =>
      if bool_decide (b ∈ of_str "eE") then
        let '(sg, l2) :=
          match l' with
          | c :: l2 => if bool_decide (c ∈ of_str "+-") then ([c], l2) else ([], l')
          | [] => ([], [])
          end in
        match span_digits l2 with ([], _) => None | (d, r) => Some (b :: sg ++ d, r) end
      else Some ([], l)
  | [] => Some ([], [])
  end.
Definition scan_num (l : bytes) : option (bytes * bytes) :=
  let '(sg, l1) :=
    match l with
    | b :: l' => if bool_decide (b = Byte.x2d) then ([b], l') else ([], l)
    | [] => ([], [])
    end in
  '(i, l2) ← scan_int l1; '(f, l3) ← scan_frac l2; '(e, l4) ← scan_exp l3;
  Some (sg ++ i ++ f ++ e, l4).

Definition expect (lit : string) (j : json) (l : bytes) : option (json * bytes) :=
  if bytes_HasPrefix l (of_str lit) then Some (j, drop (length (of_str lit)) l) else None.

(** One value; [fuel] bounds the nesting and the number of members, and the
    length of the text is always enough. *)
Fixpoint parse_value (fuel : nat) (l : bytes) : option (json * bytes) :=
  match fuel with
  | O => None
  | S fuel =>
      match skip_ws l with
      | [] => None
      | b :: l1 =>
          if bool_decide (b = Byte.x22) then
            '(raw, rest) ← scan_string l1; Some (JStr (unquote (runes raw)), rest)
          else if bool_decide (b = Byte.x5b) then
            match skip_ws l1 with
            | c :: rest =>
                if bool_decide (c = Byte.x5d) then Some (JArr [], rest)
                else '(vs, rest) ← parse_elems fuel l1; Some (JArr vs, rest)
            | [] => None
            end
          else if bool_decide (b = Byte.x7b) then
            match skip_ws l1 with
            | c :: rest =>
                if bool_decide (c = Byte.x7d) then Some (JObj [], rest)
                else '(ms, rest) ← parse_members fuel l1; Some (JObj ms, rest)
            | [] => None
            end
          else if bool_decide (b = Byte.x6e) then expect "null" JNull (b :: l1)
          else if bool_decide (b = Byte.x74) then expect "true" (JBool true) (b :: l1)
          else if bool_decide (b = Byte.x66) then expect "false" (JBool false) (b :: l1)
          else '(lit, rest) ← scan_num (b :: l1); Some (JNum lit, rest)
      end
  end
with parse_elems (fuel : nat) (l : bytes) : option (list json * bytes) :=
  match fuel with
  | O => None
  | S fuel =>
      '(v, rest) ← parse_value fuel l;
      match skip_ws rest with
      | c :: rest =>
          if bool_decide (c = Byte.x2c) then
            '(vs, rest) ← parse_elems fuel rest; Some (v :: vs, rest)
          else if bool_decide (c = Byte.x5d) then Some ([v], rest)
          else None
      | [] => None
      end
  end
with parse_members (fuel : nat) (l : bytes) : option (list (bytes * json) * bytes) :=
  match fuel with
  | O => None
  | S fuel =>
      match skip_ws l with
      | q :: l1 =>
          if bool_decide (q = Byte.x22) then
            '(raw, rest) ← scan_string l1;
            match skip_ws rest with
            | c :: rest =>
                if bool_decide (c = Byte.x3a) then
                  '(v, rest) ← parse_value fuel rest;
                  match skip_ws rest with
                  | c :: rest =>
                      if bool_decide (c = Byte.x2c) then
                        '(ms, rest) ← parse_members fuel rest;
                        Some ((unquote (runes raw), v) :: ms, rest)
                      else if bool_decide (c = Byte.x7d) then
                        Some ([(unquote (runes raw), v)], rest)
                      else None
                  | [] => None
                  end
                else None
            | [] => None
            end
          else None
      | [] => None
      end
  end.

(** A whole document: nothing but white space may follow. *)
Definition parse_json (l : bytes) : option json :=
  '(j, rest) ← parse_value (S (length l)) l;
  match skip_ws rest with [] => Some j | _ => None end.

(** ** Round trip of strings *)

(** What [utf8.DecodeRune] guarantees of a rune it accepts. *)
Record good_rune (r : rune) : Prop := {
  good_app : forall l, runes (rune_raw r ++ l) = r :: runes l;
  good_ascii : rune_code r < 0x80 -> exists b, r = Rune (bval b) [b];
  good_high : 0x80 <= rune_code r -> Forall (fun b => 0x80 <= bval b) (rune_raw r);
  good_sep : rune_code r = 0x2028 \/ rune_code r = 0x2029 -> rune_raw r = AppendRune (rune_code r)
}.

Lemma byte_eq b v : bval b = v -> b = byte_of v.
Proof. intros <-. by rewrite byte_of_bval. Qed.

Lemma good_runes l : utf8_Valid l = true -> Forall good_rune (runes l).
Proof.
  unfold utf8_Valid. induction l as [l IH] using (induction_ltof1 _ (@length byte)).
  destruct l as [|b0 l1]; [constructor|].
  assert (IH' : forall l', (length l' < S (length l1))%nat ->
                forallb rune_ok (runes l') = true -> Forall good_rune (runes l'))
    by (intros; by apply IH).
  clear IH. cbn -[lead_of within cont].
  destruct (lead_of b0) as [|n lo hi|] eqn:El.
  - intros Hv. constructor; [|apply IH'; [lia|done]]. split; simpl.
    + intros l'. by rewrite El.
    + eauto.
    + unfold lead_of in El. repeat case_match; try done. lia.
    + unfold lead_of in El. repeat case_match; try done. lia.
  - assert (Hlead : 0xC2 <= bval b0 <= 0xF4 /\ 0x80 <= lo /\ hi <= 0xBF /\
        (n = 2%nat -> bval b0 < 0xE0) /\
        (n = 3%nat -> 0xE0 <= bval b0 < 0xF0 /\ (bval b0 = 0xE0 -> 0xA0 <= lo)) /\
        (n = 4%nat -> 0xF0 <= bval b0 /\ (bval b0 = 0xF0 -> 0x90 <= lo))).
    { unfold lead_of in El. repeat case_match; simplify_eq; gobool; split_and!; try done; lia. }
    destruct Hlead as (H0 & Hlo & Hhi & H2 & H3 & H4).
    destruct n as [|[|[|[|[|n]]]]]; try done.
    all: repeat case_match; try done; simplify_eq; intros Hv.
    all: constructor; [|apply IH'; [simpl; lia|done]].
    all: unfold within, cont in *; gobool; destruct_and?; unfold within in *; gobool; destruct_and?.
    all: split; cbn [rune_raw rune_code] in *; unfold low6.
    all: try (intros l'; cbn -[lead_of within cont]; rewrite El; unfold cont, within;
              repeat match goal with
                     | H : _ <= bval _ |- _ => apply Z.leb_le in H; rewrite ?H
                     | H : bval _ <= _ |- _ => apply Z.leb_le in H; rewrite ?H
                     end; done).
    all: try (intros; repeat constructor; lia).
    all: try lia.
    + intros [Hc|Hc]; rewrite Hc; unfold AppendRune; simpl; repeat f_equal; apply byte_eq; lia.
  - done.
Qed.

(** One escaped rune is scanned as a unit and read back as the rune. *)
Lemma esc_ascii_scan b T s rest :
  bval b < 0x80 -> scan_string T = Some (s, rest) ->
  scan_string (esc_rune (Rune (bval b) [b]) ++ T) =
    Some (esc_rune (Rune (bval b) [b]) ++ s, rest).
Proof. intros Hb HT. destruct b; try (by vm_compute in Hb); cbn; rewrite HT; reflexivity. Qed.

Lemma esc_ascii_unquote b T :
  bval b < 0x80 ->
  unquote (runes (esc_rune (Rune (bval b) [b]) ++ T)) = b :: unquote (runes T).
Proof. intros Hb. destruct b; try (by vm_compute in Hb); reflexivity. Qed.

Lemma scan_high raw T s rest :
  Forall (fun b => 0x80 <= bval b) raw -> scan_string T = Some (s, rest) ->
  scan_string (raw ++ T) = Some (raw ++ s, rest).
Proof.
  intros Hr HT. induction Hr as [|b raw Hb _ IH]; [done|]. cbn [app scan_string].
  rewrite bool_decide_false by (intros ->; by vm_compute in Hb).
  rewrite bool_decide_false by (intros ->; by vm_compute in Hb).
  destruct (bval b <? 32) eqn:E; [lia|]. by rewrite IH.
Qed.

Lemma esc_scan r T s rest :
  good_rune r -> rune_ok r = true -> scan_string T = Some (s, rest) ->
  scan_string (esc_rune r ++ T) = Some (esc_rune r ++ s, rest).
Proof.
  intros Hg Hok HT. destruct (Z_lt_le_dec (rune_code r) 0x80) as [Hc|Hc].
  - destruct (good_ascii _ Hg Hc) as [b ->]. by apply esc_ascii_scan.
  - pose proof (good_high _ Hg Hc) as Hh. destruct r as [c raw|]; [|done]. cbn in *.
    destruct (c <? 128) eqn:E1; [lia|].
    destruct ((c =? 8232) || (c =? 8233)) eqn:E2; [|by apply scan_high].
    gobool. destruct E2 as [-> | ->]; cbn; by rewrite HT.
Qed.

Lemma esc_unquote r T :
  good_rune r -> rune_ok r = true ->
  unquote (runes (esc_rune r ++ T)) = rune_raw r ++ unquote (runes T).
Proof.
  intros Hg Hok. destruct (Z_lt_le_dec (rune_code r) 0x80) as [Hc|Hc].
  - destruct (good_ascii _ Hg Hc) as [b ->]. by apply esc_ascii_unquote.
  - pose proof (good_app _ Hg T) as Ha. pose proof (good_sep _ Hg) as Hs.
    destruct r as [c raw|]; [|done]. cbn [rune_raw rune_code esc_rune] in *.
    destruct (c <? 128) eqn:E1; [lia|].
    destruct ((c =? 8232) || (c =? 8233)) eqn:E2.
    + gobool. destruct E2 as [-> | ->]; rewrite Hs by lia; reflexivity.
    + rewrite Ha. cbn [unquote]. destruct (c =? 92) eqn:E3; [lia|done].
Qed.

Lemma scan_quote s rest :
  utf8_Valid s = true -> scan_string (esc s ++ Byte.x22 :: rest) = Some (esc s, rest).
Proof.
  intros Hv. pose proof (good_runes _ Hv) as Hg. unfold utf8_Valid in Hv. unfold esc.
  revert Hv. induction Hg as [|r rs Hr _ IH]; [done|]. cbn [forallb map concat].
  intros [Hok Hv]%andb_true_iff. rewrite <-app_assoc. apply esc_scan; [done..|]. by apply IH.
Qed.

Lemma unquote_esc s : utf8_Valid s = true -> unquote (runes (esc s)) = s.
Proof.
  intros Hv. pose proof (good_runes _ Hv) as Hg. unfold utf8_Valid in Hv.
  rewrite <-(runes_raw s) at 2. unfold esc. revert Hv.
  induction Hg as [|r rs Hr _ IH]; [done|]. cbn [forallb map concat].
  intros [Hok Hv]%andb_true_iff. rewrite esc_unquote by done. by rewrite IH.
Qed.

(** ** Round trip of documents *)

(** What the program marshals: valid UTF-8 and integers. *)
#[warnings="-register-all"]
Inductive json_ok : json -> Prop :=
| ok_null : json_ok JNull
| ok_bool b : json_ok (JBool b)
| ok_num z : json_ok (JNum (of_str (Decimal.FormatInt z)))
| ok_str s : utf8_Valid s = true -> json_ok (JStr s)
| ok_arr l : Forall json_ok l -> json_ok (JArr l)
| ok_obj l : Forall (fun m => utf8_Valid m.1 = true /\ json_ok m.2) l -> json_ok (JObj l).

Fixpoint jsize (j : json) : nat :=
  match j with
  | JArr l => S (foldr (fun v n => S (jsize v) + n)%nat O l)
  | JObj l => S (foldr (fun m n => S (jsize m.2) + n)%nat O l)
  | _ => 1
  end.

(** A value is followed by a separator, a closing bracket or the end. *)
Definition ends (rest : bytes) : Prop :=
  match rest with
  | [] => True
  | b :: _ => b = Byte.x2c \/ b = Byte.x5d \/ b = Byte.x7d
  end.

Lemma span_digits_app l rest :
  Forall (fun b => Decimal.is_digit b = true) l -> ends rest -> span_digits (l ++ rest) = (l, rest).
Proof.
  intros Hl He. induction Hl as [|b l Hb _ IH]; simpl.
  - destruct rest as [|c rest]; [done|]. simpl in *. by destruct He as [-> |[-> | ->]].
  - by rewrite Hb, IH.
Qed.

Lemma scan_int_format n rest :
  0 <= n -> ends rest ->
  scan_int (Decimal.format_nonneg n ++ rest) = Some (Decimal.format_nonneg n, rest).
Proof.
  intros Hn He. destruct (Decimal.format_nonneg_lead n Hn) as [-> |(b & l & -> & Hb & Hd & Hl)].
  - done.
  - cbn [app scan_int]. rewrite bool_decide_false, Hd by done. by rewrite span_digits_app.
Qed.

Lemma scan_tail rest : ends rest -> scan_frac rest = Some ([], rest) /\ scan_exp rest = Some ([], rest).
Proof. destruct rest as [|b rest]; [done|]. by intros [-> |[-> | ->]]. Qed.

Lemma scan_num_format z rest :
  ends rest ->
  scan_num (of_str (Decimal.FormatInt z) ++ rest) = Some (of_str (Decimal.FormatInt z), rest).
Proof.
  intros He. destruct (scan_tail _ He) as [Hf Hx]. unfold Decimal.FormatInt. rewrite of_to_str.
  destruct (z <? 0) eqn:E.
  - change (of_str "-") with [Byte.x2d]. unfold scan_num. cbn [app].
    rewrite bool_decide_true by done. rewrite scan_int_format by (done || lia). cbn.
    rewrite Hf. cbn. rewrite Hx. cbn. by rewrite app_nil_r.
  - unfold scan_num.
    assert (Hs : exists b l, Decimal.format_nonneg z = b :: l /\ b <> Byte.x2d).
    { destruct (Decimal.format_nonneg_digit z) as (b & l & -> & Hb); [lia|].
      exists b, l. split; [done|]. apply Decimal.digit_not_sign, Hb. }
    pose proof (scan_int_format z rest ltac:(lia) He) as Hi.
    destruct Hs as (b & l & Hz & Hb). rewrite Hz in *. cbn [app] in *.
    rewrite bool_decide_false by done. rewrite Hi. cbn.
    rewrite Hf. cbn. rewrite Hx. cbn. by rewrite app_nil_r.
Qed.

Definition value_head (b : byte) : bool :=
  negb (is_ws b) && negb (bool_decide (b = Byte.x5d)) && negb (bool_decide (b = Byte.x7d)).

Lemma Marshal_head j : json_ok j -> exists b t, Marshal j = b :: t /\ value_head b = true.
Proof.
  destruct 1 as [|[]| z | | |]; try (cbn; eexists _, _; split; [reflexivity|done]).
  cbn. unfold Decimal.FormatInt. rewrite of_to_str. destruct (z <? 0) eqn:E.
  - change (of_str "-") with [Byte.x2d]. cbn. eexists _, _. split; [reflexivity|done].
  - destruct (Decimal.format_nonneg_digit z) as (b & l & -> & Hb); [lia|].
    eexists _, _. split; [done|]. clear -Hb. by destruct b.
Qed.

Lemma skip_head b t : value_head b = true -> skip_ws (b :: t) = b :: t.
Proof.
  intros Hb. unfold skip_ws. cbn [drop_while]. unfold value_head in Hb.
  by destruct (is_ws b).
Qed.

Definition member_text (m : bytes * json) : bytes := quote m.1 ++ colon ++ Marshal m.2.

Lemma Marshal_obj l :
  Marshal (JObj l) = [Byte.x7b] ++ sep_by comma (map member_text l) ++ [Byte.x7d].
Proof.
  cbn [Marshal]. do 3 f_equal. apply map_ext. by intros [k v].
Qed.

Lemma scan_num_head z rest :
  exists b t, of_str (Decimal.FormatInt z) ++ rest = b :: t /\
    b <> Byte.x22 /\ b <> Byte.x5b /\ b <> Byte.x7b /\ b <> Byte.x6e /\ b <> Byte.x74 /\ b <> Byte.x66.
Proof.
  unfold Decimal.FormatInt. rewrite of_to_str. destruct (z <? 0) eqn:E.
  - change (of_str "-") with [Byte.x2d]. cbn. eexists _, _. by split_and!.
  - destruct (Decimal.format_nonneg_digit z) as (b & l & -> & Hb); [lia|].
    cbn. eexists _, _. split; [done|]. clear -Hb. by split_and!; intros ->.
Qed.

(** The three readers, for the fuel below a bound. *)
Definition reads_value (fuel : nat) : Prop := forall j rest,
  json_ok j -> (jsize j <= fuel)%nat -> ends rest ->
  parse_value fuel (Marshal j ++ rest) = Some (j, rest).
Definition reads_elems (fuel : nat) : Prop := forall l rest,
  l <> [] -> Forall json_ok l -> (foldr (fun v n => S (jsize v) + n)%nat O l <= fuel)%nat ->
  parse_elems fuel (sep_by comma (map Marshal l) ++ Byte.x5d :: rest) = Some (l, rest).
Definition reads_members (fuel : nat) : Prop := forall l rest,
  l <> [] -> Forall (fun m => utf8_Valid m.1 = true /\ json_ok m.2) l ->
  (foldr (fun m n => S (jsize m.2) + n)%nat O l <= fuel)%nat ->
  parse_members fuel (sep_by comma (map member_text l) ++ Byte.x7d :: rest) = Some (l, rest).

Lemma skip_sep b T : is_ws b = false -> skip_ws (b :: T) = b :: T.
Proof. intros Hb. unfold skip_ws. cbn [drop_while]. by rewrite Hb. Qed.

Lemma reads_elems_S fuel : reads_value fuel -> reads_elems fuel -> reads_elems (S fuel).
Proof.
  intros HV HE [|v l] rest Hne Hok Hs; [done|]. inversion Hok as [|? ? Hv Hl]; subst.
  cbn [map sep_by foldr] in *. cbn [parse_elems].
  destruct l as [|v' l].
  - cbn [map]. rewrite HV; [|done|lia|by right; left]. done.
  - cbn [map]. rewrite <-!app_assoc. rewrite HV; [|done|lia|by left].
    cbn [mbind option_bind app comma]. rewrite skip_sep, bool_decide_true by done.
    change (Marshal v' :: map Marshal l) with (map Marshal (v' :: l)).
    rewrite HE; [done|done|done|]. simpl in *. lia.
Qed.

Lemma reads_members_S fuel : reads_value fuel -> reads_members fuel -> reads_members (S fuel).
Proof.
  intros HV HE [|[k v] l] rest Hne Hok Hs; [done|]. inversion Hok as [|? ? [Hk Hv] Hl]; subst.
  cbn [map sep_by foldr fst snd] in *. cbn [parse_members].
  assert (Hq : forall T, skip_ws (member_text (k, v) ++ T) =
                    Byte.x22 :: esc k ++ Byte.x22 :: colon ++ Marshal v ++ T).
  { intros T. unfold member_text, quote. cbn. by rewrite <-!app_assoc. }
  destruct l as [|m l].
  - cbn [map]. rewrite Hq, bool_decide_true, scan_quote by done.
    cbn [mbind option_bind app colon]. rewrite skip_sep, bool_decide_true by done.
    rewrite HV; [|done|lia|by right; right]. cbn. by rewrite unquote_esc.
  - cbn [map]. rewrite <-!app_assoc. rewrite Hq, bool_decide_true, scan_quote by done.
    cbn [mbind option_bind app colon]. rewrite skip_sep, bool_decide_true by done.
    rewrite HV; [|done|lia|by left]. cbn [mbind option_bind app comma].
    rewrite skip_sep, bool_decide_true by done.
    change (member_text m :: map member_text l) with (map member_text (m :: l)).
    rewrite HE; [|done|done|simpl in *; lia]. cbn. by rewrite unquote_esc.
Qed.

Lemma elems_head l rest :
  l <> [] -> Forall json_ok l ->
  exists b t, sep_by comma (map Marshal l) ++ rest = b :: t /\ value_head b = true.
Proof.
  destruct l as [|v l]; [done|]. intros _ Hl. inversion Hl; subst.
  destruct (Marshal_head v) as (b & t & E & Hb); [done|]. cbn [map sep_by].
  destruct l; rewrite E; cbn; eauto.
Qed.

Lemma members_head l rest :
  l <> [] -> exists t, sep_by comma (map member_text l) ++ rest = Byte.x22 :: t.
Proof. destruct l as [|m [|m' l]]; [done| |]; intros _; cbn; eauto. Qed.

Lemma reads_value_S fuel : reads_elems fuel -> reads_members fuel -> reads_value (S fuel).
Proof.
  intros HE HM j rest Hok Hs He. destruct Hok as [|b|z|s Hv|l Hl|l Hl].
  - done.
  - by destruct b.
  - destruct (scan_num_head z rest) as (b & t & E & ? & ? & ? & ? & ? & ?).
    pose proof (scan_num_format z rest He) as Hn.
    destruct (Marshal_head (JNum (of_str (Decimal.FormatInt z))) (ok_num z)) as (b' & t' & E' & Hb').
    cbn [Marshal] in *. rewrite E in Hn |- *. cbn [parse_value].
    rewrite E' in E. cbn in E. injection E as -> _.
    rewrite skip_head by done. rewrite !bool_decide_false by done. by rewrite Hn.
  - cbn [Marshal parse_value]. unfold quote. rewrite <-!app_assoc. cbn [app].
    rewrite skip_sep, bool_decide_true, scan_quote by done. cbn. by rewrite unquote_esc.
  - cbn [Marshal parse_value]. rewrite <-!app_assoc. cbn [app].
    rewrite skip_sep, bool_decide_false, bool_decide_true by done.
    destruct (decide (l = [])) as [-> |Hne]; [done|].
    destruct (elems_head l (Byte.x5d :: rest) Hne Hl) as (b & t & E & Hb).
    rewrite E, skip_head by done. rewrite <-E.
    rewrite bool_decide_false by (intros ->; discriminate).
    rewrite HE; [done|done|done|]. cbn [jsize] in Hs. lia.
  - rewrite Marshal_obj. cbn [parse_value]. rewrite <-!app_assoc. cbn [app].
    rewrite skip_sep, !bool_decide_false, bool_decide_true by done.
    destruct (decide (l = [])) as [-> |Hne]; [done|].
    destruct (members_head l (Byte.x7d :: rest) Hne) as (t & E).
    rewrite E, skip_head by done. rewrite <-E.
    rewrite bool_decide_false by done.
    rewrite HM; [done|done|done|]. cbn [jsize] in Hs. lia.
Qed.

Lemma reads_all fuel : reads_value fuel /\ reads_elems fuel /\ reads_members fuel.
Proof.
  induction fuel as [|fuel (HV & HE & HM)].
  - split_and!.
    + intros [] rest _ Hs; simpl in Hs; lia.
    + intros [|v l] rest Hne _ Hs; [done|]. simpl in Hs. lia.
    + intros [|v l] rest Hne _ Hs; [done|]. simpl in Hs. lia.
  - split_and!.
    + by apply reads_value_S.
    + by apply reads_elems_S.
    + by apply reads_members_S.
Qed.

Lemma sep_by_length {A} (f : A -> bytes) (size : A -> nat) l :
  Forall (fun v => size v <= length (f v))%nat l ->
  (foldr (fun v n => S (size v) + n) O l <= S (length (sep_by comma (map f l))))%nat.
Proof.
  induction 1 as [|v l Hv _ IH]; [simpl; lia|]. destruct l as [|v' l]; [simpl in *; lia|].
  cbn [map]. change (sep_by comma (f v :: f v' :: map f l)) with
    (f v ++ comma ++ sep_by comma (map f (v' :: l))).
  rewrite !length_app. cbn [foldr length comma] in *. lia.
Qed.

(** The fuel of [parse_json] is enough. *)
Lemma jsize_length n j : json_ok j -> (jsize j <= n)%nat -> (jsize j <= length (Marshal j))%nat.
Proof.
  assert (Hin : forall A (size : A -> nat) l v,
    In v l -> (S (size v) <= foldr (fun v n => S (size v) + n) O l)%nat).
  { intros A size l v. induction l as [|w l IH]; [done|]. intros [-> |Hv]; cbn [foldr]; [lia|].
    specialize (IH Hv). lia. }
  revert j. induction n as [|n IH]; intros j Hok Hs; [destruct j; simpl in Hs; lia|].
  destruct (Marshal_head j Hok) as (b & t & E & _).
  destruct Hok as [|b'|z|s Hv|l Hl|l Hl]; try (rewrite E; simpl; lia).
  - cbn [Marshal jsize] in *. rewrite !length_app. cbn [length].
    pose proof (sep_by_length Marshal jsize l) as Hlen.
    assert (Forall (fun v => (jsize v <= length (Marshal v))%nat) l); [|specialize (Hlen H); lia].
    rewrite Forall_forall in Hl |- *. intros v Hv. apply IH; [by apply Hl|].
    apply list_elem_of_In in Hv. pose proof (Hin _ jsize l v Hv). lia.
  - rewrite Marshal_obj in *. cbn [jsize] in *. rewrite !length_app. cbn [length].
    pose proof (sep_by_length member_text (fun m => jsize m.2) l) as Hlen.
    assert (Forall (fun m => (jsize m.2 <= length (member_text m))%nat) l); [|specialize (Hlen H); lia].
    rewrite Forall_forall in Hl |- *. intros m Hm. unfold member_text. rewrite !length_app.
    enough (jsize m.2 <= length (Marshal m.2))%nat by lia. apply IH; [by apply Hl|].
    apply list_elem_of_In in Hm. pose proof (Hin _ (fun m => jsize m.2) l m Hm). simpl in *. lia.
Qed.

(** What the program marshals, it reads back. *)
Lemma parse_Marshal j : json_ok j -> parse_json (Marshal j) = Some j.
Proof.
  intros Hok. unfold parse_json. rewrite <-(app_nil_r (Marshal j)) at 2.
  destruct (reads_all (S (length (Marshal j)))) as [HV _].
  rewrite HV; [done|done| |done]. pose proof (jsize_length _ j Hok (le_n _)). lia.
Qed.

(** ** The fuel is enough for every text

    What a reader consumes bounds the fuel it needs, so a text that is accepted
    with any fuel at all is accepted by [parse_json]: running out never turns a
    document into an error. *)

Lemma skip_ws_length l : (length (skip_ws l) <= length l)%nat.
Proof. unfold skip_ws. induction l as [|b l IH]; simpl; [lia|]. destruct (is_ws b); simpl; lia. Qed.

Lemma skip_ws_cons l b l1 : skip_ws l = b :: l1 -> (length l1 < length l)%nat.
Proof. intros E. pose proof (skip_ws_length l) as H. rewrite E in H. simpl in H. lia. Qed.

Lemma scan_string_length l s rest : scan_string l = Some (s, rest) -> (length rest < length l)%nat.
Proof.
  revert l s. enough (H : forall n l s, (length l <= n)%nat -> scan_string l = Some (s, rest) -> (length rest < length l)%nat)
    by (intros l s; by apply (H (length l))).
  induction n as [|n IH]; intros [|b l1] s Hn E; try (simpl in Hn; lia); [done..|]. cbn [scan_string] in E. simpl in Hn |- *.
  destruct (bool_decide (b = Byte.x22)); [injection E as _ <-; lia|].
  destruct (bool_decide (b = Byte.x5c)).
  - destruct l1 as [|e l2]; [done|]. destruct (simple_escape e).
    + apply bind_Some in E as ([s' r'] & E & [= _ <-]). apply IH in E; simpl in *; lia.
    + destruct (bool_decide (e = Byte.x75)); [|done]. destruct l2 as [|h1 [|h2 [|h3 [|h4 l6]]]]; try done.
      destruct (_ && _); [|done]. apply bind_Some in E as ([s' r'] & E & [= _ <-]). apply IH in E; simpl in *; lia.
  - destruct (bval b <? 0x20); [done|]. apply bind_Some in E as ([s' r'] & E & [= _ <-]). apply IH in E; simpl in *; lia.
Qed.

Lemma span_digits_length l d r : span_digits l = (d, r) -> (length d + length r = length l)%nat.
Proof.
  revert d r. induction l as [|b l IH]; intros d r; simpl; [by intros [= <- <-]|].
  destruct (Decimal.is_digit b); [|by intros [= <- <-]]. destruct (span_digits l) as [d' r'] eqn:E.
  intros [= <- <-]. specialize (IH _ _ eq_refl). simpl. lia.
Qed.

Lemma scan_num_length l s rest : scan_num l = Some (s, rest) -> (length rest < length l)%nat.
Proof.
  unfold scan_num. intros E. destruct (match l with [] => _ | _ :: _ => _ end) as [sg l1] eqn:Es.
  assert (H1 : (length l1 <= length l)%nat).
  { destruct l as [|b l']; [by injection Es as _ <-|]. case_bool_decide; injection Es as _ <-; simpl; lia. }
  apply bind_Some in E as ([i l2] & Ei & E). apply bind_Some in E as ([f l3] & Ef & E).
  apply bind_Some in E as ([x l4] & Ex & [= _ <-]).
  assert (H2 : (length l2 < length l1)%nat).
  { destruct l1 as [|b l1']; [done|]. cbn [scan_int] in Ei. simpl. destruct (bool_decide _); [injection Ei as _ <-; lia|].
    destruct (Decimal.is_digit b); [|done]. destruct (span_digits l1') as [d r] eqn:Ed. injection Ei as _ <-.
    apply span_digits_length in Ed. lia. }
  assert (H3 : (length l3 <= length l2)%nat).
  { destruct l2 as [|b l2']; [by injection Ef as _ <-|]. cbn [scan_frac] in Ef. destruct (bool_decide _); [|by injection Ef as _ <-].
    destruct (span_digits l2') as [[|d0 d] r] eqn:Ed; [done|]. injection Ef as _ <-. apply span_digits_length in Ed. simpl in *. lia. }
  enough (length l4 <= length l3)%nat by lia.
  destruct l3 as [|b l3']; [by injection Ex as _ <-|]. cbn [scan_exp] in Ex. destruct (bool_decide _); [|by injection Ex as _ <-].
  destruct (match l3' with [] => _ | _ :: _ => _ end) as [sg' m] eqn:Em.
  assert (H4 : (length m <= length l3')%nat).
  { destruct l3' as [|c l3'']; [by injection Em as _ <-|]. destruct (bool_decide _); injection Em as _ <-; simpl; lia. }
  destruct (span_digits m) as [[|d0 d] r] eqn:Ed; [done|]. injection Ex as _ <-. apply span_digits_length in Ed. simpl in *. lia.
Qed.

Lemma expect_length lit j l j' rest : of_str lit <> [] -> expect lit j l = Some (j', rest) -> (length rest < length l)%nat.
Proof.
  unfold expect. intros Hne. destruct (bytes_HasPrefix l (of_str lit)) eqn:E; [|done]. intros [= _ <-].
  rewrite length_drop. assert (Hl : (0 < length (of_str lit))%nat) by (destruct (of_str lit); [done|simpl; lia]).
  destruct l; [|simpl; lia]. by destruct (of_str lit).
Qed.

(** [n] steps read [a] from [l]; so do as many steps as bytes are consumed. *)
Definition enough_for {A} (parse : nat -> bytes -> option (A * bytes)) (n : nat) : Prop := forall l a rest,
  parse n l = Some (a, rest) ->
  (length rest < length l)%nat /\ forall m, (length l <= m + length rest)%nat -> parse m l = Some (a, rest).

Lemma enough_elems n : enough_for parse_value n -> enough_for parse_elems n -> enough_for parse_elems (S n).
Proof.
  intros HV HE l a rest E. cbn [parse_elems] in E. apply bind_Some in E as ([v r1] & Ev & E). apply HV in Ev as [Hl Hv].
  destruct (skip_ws r1) as [|c r2] eqn:Es; [done|]. apply skip_ws_cons in Es as Hs.
  destruct (bool_decide (c = Byte.x2c)) eqn:Ec.
  - apply bind_Some in E as ([vs r3] & E & [= <- <-]). apply HE in E as [Hl2 Hvs].
    split; [lia|]. intros [|m] Hm; [lia|]. cbn [parse_elems]. rewrite Hv by lia. cbn. rewrite Es, Ec, Hvs by lia. done.
  - destruct (bool_decide (c = Byte.x5d)) eqn:Ec2; [|done]. injection E as <- <-.
    split; [lia|]. intros [|m] Hm; [lia|]. cbn [parse_elems]. rewrite Hv by lia. cbn. by rewrite Es, Ec, Ec2.
Qed.

Lemma enough_members n : enough_for parse_value n -> enough_for parse_members n -> enough_for parse_members (S n).
Proof.
  intros HV HM l a rest E. cbn [parse_members] in E. destruct (skip_ws l) as [|q l1] eqn:El; [done|].
  apply skip_ws_cons in El as Hl1. destruct (bool_decide (q = Byte.x22)) eqn:Eq; [|done].
  apply bind_Some in E as ([raw r1] & Eraw & E). apply scan_string_length in Eraw as Hr1.
  destruct (skip_ws r1) as [|c r2] eqn:Es; [done|]. apply skip_ws_cons in Es as Hs.
  destruct (bool_decide (c = Byte.x3a)) eqn:Ec; [|done].
  apply bind_Some in E as ([v r3] & Ev & E). apply HV in Ev as [Hl Hv].
  destruct (skip_ws r3) as [|d r4] eqn:Es3; [done|]. apply skip_ws_cons in Es3 as Hs3.
  destruct (bool_decide (d = Byte.x2c)) eqn:Ed.
  - apply bind_Some in E as ([ms r5] & E & [= <- <-]). apply HM in E as [Hl2 Hms].
    split; [lia|]. intros [|m] Hm; [lia|]. cbn [parse_members]. rewrite El, Eq, Eraw. cbn. rewrite Es, Ec, Hv by lia. cbn.
    by rewrite Es3, Ed, Hms by lia.
  - destruct (bool_decide (d = Byte.x7d)) eqn:Ed2; [|done]. injection E as <- <-.
    split; [lia|]. intros [|m] Hm; [lia|]. cbn [parse_members]. rewrite El, Eq, Eraw. cbn. rewrite Es, Ec, Hv by lia. cbn.
    by rewrite Es3, Ed, Ed2.
Qed.

Lemma enough_value n : enough_for parse_elems n -> enough_for parse_members n -> enough_for parse_value (S n).
Proof.
  intros HE HM l a rest E. cbn [parse_value] in E. destruct (skip_ws l) as [|b l1] eqn:El; [done|].
  apply skip_ws_cons in El as Hl1. pose proof (skip_ws_length l) as Hl0. rewrite El in Hl0. cbn [length] in Hl0.
  assert (Hlit : forall lit j, of_str lit <> [] -> expect lit j (b :: l1) = Some (a, rest) -> (length rest < length l)%nat).
  { intros lit j Hne Hx. apply expect_length in Hx; [|done]. simpl in Hx. lia. }
  assert (Hstep : forall m, (length l <= m + length rest)%nat -> (length rest < length l)%nat -> exists m', m = S m')
    by (intros [|m'] ? ?; [lia|by exists m']).
  destruct (bool_decide (b = Byte.x22)) eqn:E1.
  { apply bind_Some in E as ([raw r1] & Eraw & [= <- <-]). apply scan_string_length in Eraw as Hr.
    split; [lia|]. intros m Hm. destruct (Hstep m Hm) as [m' ->]; [lia|]. cbn [parse_value]. by rewrite El, E1, Eraw. }
  destruct (bool_decide (b = Byte.x5b)) eqn:E2.
  { destruct (skip_ws l1) as [|c r1] eqn:Es; [done|]. apply skip_ws_cons in Es as Hs.
    destruct (bool_decide (c = Byte.x5d)) eqn:Ec.
    - injection E as <- <-. split; [lia|]. intros m Hm. destruct (Hstep m Hm) as [m' ->]; [lia|].
      cbn [parse_value]. by rewrite El, E1, E2, Es, Ec.
    - apply bind_Some in E as ([vs r2] & E & [= <- <-]). apply HE in E as [Hl Hvs].
      split; [lia|]. intros m Hm. destruct (Hstep m Hm) as [m' ->]; [lia|].
      cbn [parse_value]. by rewrite El, E1, E2, Es, Ec, Hvs by lia. }
  destruct (bool_decide (b = Byte.x7b)) eqn:E3.
  { destruct (skip_ws l1) as [|c r1] eqn:Es; [done|]. apply skip_ws_cons in Es as Hs.
    destruct (bool_decide (c = Byte.x7d)) eqn:Ec.
    - injection E as <- <-. split; [lia|]. intros m Hm. destruct (Hstep m Hm) as [m' ->]; [lia|].
      cbn [parse_value]. by rewrite El, E1, E2, E3, Es, Ec.
    - apply bind_Some in E as ([ms r2] & E & [= <- <-]). apply HM in E as [Hl Hms].
      split; [lia|]. intros m Hm. destruct (Hstep m Hm) as [m' ->]; [lia|].
      cbn [parse_value]. by rewrite El, E1, E2, E3, Es, Ec, Hms by lia. }
  assert (Hl : (length rest < length l)%nat).
  { destruct (bool_decide (b = Byte.x6e)); [by eapply Hlit in E|]. destruct (bool_decide (b = Byte.x74)); [by eapply Hlit in E|].
    destruct (bool_decide (b = Byte.x66)); [by eapply Hlit in E|].
    apply bind_Some in E as ([lit r1] & Eraw & [= <- <-]). apply scan_num_length in Eraw. simpl in Eraw. lia. }
  split; [done|]. intros m Hm. destruct (Hstep m Hm Hl) as [m' ->]. cbn [parse_value]. by rewrite El, E1, E2, E3.
Qed.

Lemma enough_all n : enough_for parse_value n /\ enough_for parse_elems n /\ enough_for parse_members n.
Proof.
  induction n as [|n (HV & HE & HM)]; [by split_and!|].
  split_and!; [by apply enough_value|by apply enough_elems|by apply enough_members].
Qed.

Lemma parse_json_fuel n l j rest :
  parse_value n l = Some (j, rest) -> skip_ws rest = [] -> parse_json l = Some j.
Proof.
  intros E Hrest. destruct (enough_all n) as [HV _]. apply HV in E as [_ E]. unfold parse_json. rewrite E by lia.
  cbn. by rewrite Hrest.
Qed.
