(* ===== verification/Errors.v ===== *)
(** * Error values

    The errors of the program are one inductive type: the sentinels of
    [internal/paste/types.go], [internal/auth/ports.go],
    [internal/challenge/ports.go], [internal/crypto/gate.go] and
    [internal/config/size.go], the errors of the libraries the program tests
    for, [errors.New] with its text, and [fmt.Errorf("prefix: %w", err)], which
    keeps the error it wraps. *)
From S2P Require Import Prelude GoNum GoStr Codec.

Inductive error : Type :=
(* internal/paste *)
| ErrNotFound | ErrExpired | ErrDeleted | ErrUnavailable | ErrWrongPassword
| ErrPasswordRequired | ErrForbidden | ErrInvalidUTF8 | ErrInvalidTTL
| ErrInvalidPassword | ErrKDFBusy | ErrKeyUnavailable | ErrChallengeRequired
| ErrTooLarge (Limit Actual : Z)
(* internal/auth *)
| ErrUserNotFound | ErrUserExists | ErrBadCredentials | ErrSessionNotFound
| ErrNotAuthorised | ErrOIDCStateInvalid
(* internal/challenge *)
| ErrChallengeNotFound | ErrChallengeFailed | ErrTokenInvalid
(* internal/crypto, internal/config *)
| ErrBusy
| ErrBadSize
(* context, net/http, go-redis, pgx *)
| Canceled | DeadlineExceeded
| MaxBytesError (Limit : Z)
| RedisNil
| ErrNoRows
| PgError (Code : string)
(* errors.New and fmt.Errorf *)
| NewError (text : string)
| Errorf (prefix : string) (inner : error).

#[export] Instance error_eq_dec : EqDecision error.
Proof. solve_decision. Defined.

(** [errors.Is(err, target)]: [err] or an error it wraps is [target]. *)
Fixpoint errors_Is (err target : error) : bool :=
  bool_decide (err = target) ||
  match err with
  | Errorf _ inner => errors_Is inner target
  | _ => false
  end.

(** [errors.As(err, &tooLarge)], [errors.As(err, &mbe)], [errors.As(err, &pgErr)]. *)
Fixpoint as_TooLarge (err : error) : option (Z * Z) :=
  match err with
  | ErrTooLarge l a => Some (l, a)
  | Errorf _ inner => as_TooLarge inner
  | _ => None
  end.
Fixpoint as_MaxBytes (err : error) : option Z :=
  match err with
  | MaxBytesError l => Some l
  | Errorf _ inner => as_MaxBytes inner
  | _ => None
  end.
Fixpoint as_PgError (err : error) : option string :=
  match err with
  | PgError c => Some c
  | Errorf _ inner => as_PgError inner
  | _ => None
  end.

(** [err.Error()] *)
Fixpoint Error (err : error) : string :=
  match err with
  | ErrNotFound => "paste: not found"
  | ErrExpired => "paste: expired"
  | ErrDeleted => "paste: deleted"
  | ErrUnavailable => "paste: body unavailable"
  | ErrWrongPassword => "paste: wrong password"
  | ErrPasswordRequired => "paste: password required"
  | ErrForbidden => "paste: forbidden"
  | ErrInvalidUTF8 => "paste: content is not valid UTF-8"
  | ErrInvalidTTL => "paste: ttl out of range"
  | ErrInvalidPassword => "paste: password must be 1-128 characters"
  | ErrKDFBusy => "paste: key derivation busy"
  | ErrKeyUnavailable => "paste: master key unavailable"
  | ErrChallengeRequired => "paste: challenge required"
  | ErrTooLarge l a =>
      "paste: too large (" +:+ Decimal.FormatInt a +:+ " bytes, limit " +:+
      Decimal.FormatInt l +:+ ")"
  | ErrUserNotFound => "auth: user not found"
  | ErrUserExists => "auth: user already exists"
  | ErrBadCredentials => "auth: bad credentials"
  | ErrSessionNotFound => "auth: session not found"
  | ErrNotAuthorised => "auth: not authorised"
  | ErrOIDCStateInvalid => "auth: oidc state invalid"
  | ErrChallengeNotFound => "challenge: not found or expired"
  | ErrChallengeFailed => "challenge: wrong position or too fast"
  | ErrTokenInvalid => "challenge: token invalid or used"
  | ErrBusy => "crypto: kdf gate busy"
  | ErrBadSize => "config: invalid size (expected e.g. 256KB, 1024KB, 1MB; binary units; max 16MB)"
  | Canceled => "context canceled"
  | DeadlineExceeded => "context deadline exceeded"
  | MaxBytesError _ => "http: request body too large"
  | RedisNil => "redis: nil"
  | ErrNoRows => "no rows in result set"
  | PgError c => "SQLSTATE " +:+ c
  | NewError t => t
  | Errorf p inner => p +:+ ": " +:+ Error inner
  end.

Lemma errors_Is_refl err : errors_Is err err = true.
Proof. by destruct err; cbn [errors_Is]; rewrite bool_decide_true. Qed.

Lemma errors_Is_wrap p err target :
  errors_Is err target = true -> errors_Is (Errorf p err) target = true.
Proof. simpl. intros ->. by rewrite orb_true_r. Qed.

(** A wrapper is found exactly when the wrapped error is, for a target that is
    not itself a wrapper. *)
Lemma errors_Is_Errorf p err target :
  (forall q e, target <> Errorf q e) ->
  errors_Is (Errorf p err) target = errors_Is err target.
Proof.
  intros H. simpl. rewrite bool_decide_false; [done|]. intros E. by apply (H p err).
Qed.

(** ** Computations of the program *)

Abbreviation res := (Prelude.res error).
Abbreviation M := (Prelude.M error).

(** Context values that reach the domain layers: the request information that
    [audit.WithRequestInfo] attaches, whether cancelling the request cancels
    the call, and the time limit of [context.WithTimeout]. *)
Record ctx : Type := Ctx {
  ctx_info : option (string * string);
  ctx_cancelable : bool;
  ctx_timeout : option Z
}.

Definition Background : ctx := Ctx None false None.

(** [context.WithoutCancel] and [context.WithTimeout]; the earlier of two
    time limits holds. *)
Definition WithoutCancel (c : ctx) : ctx := Ctx (ctx_info c) false None.
Definition WithTimeout (c : ctx) (d : Z) : ctx :=
  Ctx (ctx_info c) (ctx_cancelable c)
    (Some (match ctx_timeout c with Some d' => Z.min d d' | None => d end)).
