(* ===== verification/Sha256.v ===== *)
(** * SHA-256

    [crypto/sha256.Sum256] (FIPS 180-4), executable: the content hash of a
    paste and the PKCE challenge of a login are computed with it. *)
From S2P Require Import Prelude GoNum GoStr Codec.

Definition w32 (x : Z) : Z := Z.land x 0xFFFFFFFF.
Definition rotr (x n : Z) : Z := w32 (Z.lor (Z.shiftr x n) (Z.shiftl x (32 - n))).

Definition Ch x y z := Z.lxor (Z.land x y) (Z.land (Z.lxor x 0xFFFFFFFF) z).
Definition Maj x y z := Z.lxor (Z.lxor (Z.land x y) (Z.land x z)) (Z.land y z).
Definition Sigma0 x := Z.lxor (Z.lxor (rotr x 2) (rotr x 13)) (rotr x 22).
Definition Sigma1 x := Z.lxor (Z.lxor (rotr x 6) (rotr x 11)) (rotr x 25).
Definition sigma0 x := Z.lxor (Z.lxor (rotr x 7) (rotr x 18)) (Z.shiftr x 3).
Definition sigma1 x := Z.lxor (Z.lxor (rotr x 17) (rotr x 19)) (Z.shiftr x 10).

(** The constants are the first 32 bits of the fractional parts of the cube
    roots (of the square roots, for the initial state) of the first primes. *)
Definition is_prime (n : Z) : bool :=
  forallb (fun d => negb (n mod d =? 0)) (seqZ 2 (n - 2)).
Definition primes : list Z := List.filter is_prime (seqZ 2 310).

(** The largest [r] below 2^36 whose cube is at most [n]. *)
Definition icbrt (n : Z) : Z :=
  fold_left (fun r i => let r' := r + 2 ^ (35 - i) in if r' ^ 3 <=? n then r' else r)
    (seqZ 0 36) 0.

Definition K : list Z := Eval vm_compute in map (fun p => icbrt (p * 2 ^ 96) mod 2 ^ 32) primes.
Definition iv : list Z :=
  Eval vm_compute in map (fun p => Z.sqrt (p * 2 ^ 64) mod 2 ^ 32) (take 8 primes).

(** The eight working variables. *)
Record hstate : Type := HState { ha : Z; hb : Z; hc : Z; hd : Z; he : Z; hf : Z; hg : Z; hh : Z }.

Definition H0 : hstate :=
  HState (nth 0 iv 0) (nth 1 iv 0) (nth 2 iv 0) (nth 3 iv 0)
         (nth 4 iv 0) (nth 5 iv 0) (nth 6 iv 0) (nth 7 iv 0).

Definition be_bytes (n : nat) (x : Z) : bytes :=
  map (fun i => byte_of (Z.shiftr x (8 * Z.of_nat (n - 1 - i)))) (seq 0 n).

(** The message followed by 0x80, zeros and its length in bits, to a multiple
    of 64 bytes. *)
Definition pad (m : bytes) : bytes :=
  let len := Z.of_nat (length m) in
  m ++ [Byte.x80] ++ replicate (Z.to_nat ((55 - len) mod 64)) Byte.x00 ++ be_bytes 8 (8 * len).

Fixpoint words (l : bytes) : list Z :=
  match l with
  | a :: b :: c :: d :: l' =>
      bval a * 2 ^ 24 + bval b * 2 ^ 16 + bval c * 2 ^ 8 + bval d :: words l'
  | _ => []
  end.

(** The message schedule, latest word first. *)
Fixpoint schedule (n : nat) (w : list Z) : list Z :=
  match n with
  | O => w
  | S n' =>
      let x := w32 (sigma1 (nth 1 w 0) + nth 6 w 0 + sigma0 (nth 14 w 0) + nth 15 w 0) in
      schedule n' (x :: w)
  end.

Definition round (s : hstate) (kw : Z * Z) : hstate :=
  let t1 := w32 (hh s + Sigma1 (he s) + Ch (he s) (hf s) (hg s) + fst kw + snd kw) in
  let t2 := w32 (Sigma0 (ha s) + Maj (ha s) (hb s) (hc s)) in
  HState (w32 (t1 + t2)) (ha s) (hb s) (hc s) (w32 (hd s + t1)) (he s) (hf s) (hg s).

Definition block (s : hstate) (b : bytes) : hstate :=
  let w := rev (schedule 48 (rev (words b))) in
  let r := fold_left round (combine K w) s in
  HState (w32 (ha s + ha r)) (w32 (hb s + hb r)) (w32 (hc s + hc r)) (w32 (hd s + hd r))
         (w32 (he s + he r)) (w32 (hf s + hf r)) (w32 (hg s + hg r)) (w32 (hh s + hh r)).

Fixpoint blocks (n : nat) (l : bytes) (s : hstate) : hstate :=
  match n with
  | O => s
  | S n' => blocks n' (drop 64 l) (block s (take 64 l))
  end.

Definition Sum256 (m : bytes) : bytes :=
  let p := pad m in
  let s := blocks (length p / 64)%nat p H0 in
  concat (map (be_bytes 4) [ha s; hb s; hc s; hd s; he s; hf s; hg s; hh s]).

Lemma be_bytes_length n x : length (be_bytes n x) = n.
Proof. unfold be_bytes. by rewrite length_map, length_seq. Qed.

Lemma Sum256_length m : length (Sum256 m) = 32%nat.
Proof. reflexivity. Qed.

(** The digest of "abc" (FIPS 180-4) and of a message of two blocks. *)
Example sum256_abc :
  Hex.EncodeToString (Sum256 (of_str "abc")) =
  "ba7816bf8f01cfea414140de5dae2223b00361a396177a9cb410ff61f20015ad".
Proof. vm_compute. reflexivity. Qed.

Example sum256_two_blocks :
  Hex.EncodeToString
    (Sum256 (of_str "abcdbcdecdefdefgefghfghighijhijkijkljklmklmnlmnomnopnopq")) =
  "248d6a61d20638b8e5c026930c3e6039a33ce45964ff2167f6ecedd419db06c1".
Proof. vm_compute. reflexivity. Qed.
