(* ===== verification/Rfc3339.v ===== *)
(** * Calendar time

    [t.UTC().Format(time.RFC3339)]: the text of an instant, truncated to the
    second, its variant with nanoseconds, and the parser of [time.Time]'s JSON
    form, which reads back what the variant writes. *)
From S2P Require Import Prelude GoNum GoStr Codec.

Record civil : Type := Civil { year : Z; month : Z; day : Z }.

(** Year of the era (from March 1), month and day of a day of the era. *)
Definition civil_of_doe (doe : Z) : civil :=
  let yoe := (doe - doe / 1460 + doe / 36524 - doe / 146096) / 365 in
  let doy := doe - (365 * yoe + yoe / 4 - yoe / 100) in
  let mp := (5 * doy + 2) / 153 in
  let d := doy - (153 * mp + 2) / 5 + 1 in
  let m := if mp <? 10 then mp + 3 else mp - 9 in
  Civil (yoe + (if m <=? 2 then 1 else 0)) m d.

(** The date of the [days]-th day since January 1, 1970. *)
Definition civil_of_days (days : Z) : civil :=
  let z := days + 719468 in
  let c := civil_of_doe (z mod 146097) in
  Civil (year c + 400 * (z / 146097)) (month c) (day c).

(** The inverse on an era. *)
Definition doe_of_civil (c : civil) : Z :=
  let yoe := year c - (if month c <=? 2 then 1 else 0) in
  let mp := if 2 <? month c then month c - 3 else month c + 9 in
  let doy := (153 * mp + 2) / 5 + day c - 1 in
  yoe * 365 + yoe / 4 - yoe / 100 + doy.

(** Decimal digits of [n] padded with zeros to [width] (Go's [appendInt]). *)
Definition dig (n p : Z) : byte := Decimal.digit (n / p mod 10).
Definition append2 (n : Z) : bytes := [dig n 10; dig n 1].
Definition append4 (n : Z) : bytes := [dig n 1000; dig n 100; dig n 10; dig n 1].
Definition append_year (y : Z) : bytes :=
  if (0 <=? y) && (y <? 10000) then append4 y
  else if y <? 0 then
    of_str "-" ++ (if - y <? 10000 then append4 (- y) else Decimal.format_nonneg (- y))
  else Decimal.format_nonneg y.

Definition date_text (c : civil) : bytes :=
  append_year (year c) ++ of_str "-" ++ append2 (month c) ++ of_str "-" ++ append2 (day c).
Definition clock_text (sod : Z) : bytes :=
  append2 (sod / 3600) ++ of_str ":" ++ append2 (sod / 60 mod 60) ++ of_str ":" ++
  append2 (sod mod 60).

Definition Format_RFC3339 (t : Z) : string :=
  let secs := t / Second in
  to_str (date_text (civil_of_days (secs / 86400)) ++ of_str "T" ++
          clock_text (secs mod 86400) ++ of_str "Z").

(** The fractional second of RFC 3339 with nanoseconds: no trailing zeros. *)
Definition frac_text (ns : Z) : bytes :=
  if ns =? 0 then []
  else
    let d := map (fun p => Decimal.digit (ns / p mod 10))
               [100000000; 10000000; 1000000; 100000; 10000; 1000; 100; 10; 1] in
    [Byte.x2e] ++ drop_while_end (fun b => bool_decide (b = Byte.x30)) d.
Definition Format_RFC3339Nano (t : Z) : bytes :=
  let s := of_str (Format_RFC3339 t) in
  take (length s - 1) s ++ frac_text (t mod Second) ++ drop (length s - 1) s.

Example format_epoch : Format_RFC3339 0 = "1970-01-01T00:00:00Z".
Proof. vm_compute. reflexivity. Qed.
Example format_leap_day :
  Format_RFC3339 (1709210096 * Second + 999999999) = "2024-02-29T12:34:56Z".
Proof. vm_compute. reflexivity. Qed.

(** ** The text determines the second *)

Lemma civil_of_doe_year doe :
  0 <= doe < 146097 ->
  let c := civil_of_doe doe in
  0 <= year c - (if month c <=? 2 then 1 else 0) <= 399.
Proof. intros H c. unfold c, civil_of_doe. simpl. lia. Qed.

Lemma doe_roundtrip doe : 0 <= doe < 146097 -> doe_of_civil (civil_of_doe doe) = doe.
Proof.
  intros H. unfold doe_of_civil, civil_of_doe. simpl.
  set (yoe := (doe - doe / 1460 + doe / 36524 - doe / 146096) / 365).
  assert (Hdoy : 0 <= doe - (365 * yoe + yoe / 4 - yoe / 100) <= 366)
    by (unfold yoe; lia).
  set (doy := doe - (365 * yoe + yoe / 4 - yoe / 100)) in *.
  set (mp := (5 * doy + 2) / 153).
  assert (0 <= mp <= 11) by (unfold mp; lia).
  destruct (mp <? 10) eqn:E1.
  - destruct (mp + 3 <=? 2) eqn:E2, (2 <? mp + 3) eqn:E3; lia.
  - destruct (mp - 9 <=? 2) eqn:E2, (2 <? mp - 9) eqn:E3; lia.
Qed.

(** Days with the same date are the same day. *)
Lemma civil_of_days_inj d e : civil_of_days d = civil_of_days e -> d = e.
Proof.
  unfold civil_of_days. intros H.
  set (x := d + 719468) in *. set (y := e + 719468) in *.
  pose proof (Z.mod_pos_bound x 146097 ltac:(lia)) as Bx.
  pose proof (Z.mod_pos_bound y 146097 ltac:(lia)) as By.
  pose proof (doe_roundtrip _ Bx) as Rx. pose proof (doe_roundtrip _ By) as Ry.
  pose proof (civil_of_doe_year _ Bx) as Yx. pose proof (civil_of_doe_year _ By) as Yy.
  cbv zeta in Yx, Yy.
  generalize dependent (civil_of_doe (x mod 146097)). intros [y1 m1 d1].
  generalize dependent (civil_of_doe (y mod 146097)). intros [y2 m2 d2].
  simpl. intros Ry Yy [= Hy -> ->] Rx Yx.
  assert (Hq : x / 146097 = y / 146097) by lia.
  assert (y1 = y2) as -> by lia. rewrite Rx in Ry.
  pose proof (Z.div_mod x 146097 ltac:(lia)). pose proof (Z.div_mod y 146097 ltac:(lia)).
  lia.
Qed.

Lemma dig_inj n m p q : dig n p = dig m q -> n / p mod 10 = m / q mod 10.
Proof.
  unfold dig. intros H%(f_equal bval). rewrite !Decimal.bval_digit in H by lia. lia.
Qed.

Lemma append2_inj n m : 0 <= n < 100 -> 0 <= m < 100 -> append2 n = append2 m -> n = m.
Proof. intros Hn Hm H. injection H as H1 H2. apply dig_inj in H1, H2. lia. Qed.

Lemma append4_inj n m : 0 <= n < 10000 -> 0 <= m < 10000 -> append4 n = append4 m -> n = m.
Proof.
  intros Hn Hm H. injection H as H1 H2 H3 H4. apply dig_inj in H1, H2, H3, H4. lia.
Qed.

(** The month and day of a date have at most two digits. *)
Lemma civil_of_days_fields d :
  let c := civil_of_days d in 0 <= month c < 100 /\ 0 <= day c < 100.
Proof.
  intros c. unfold c, civil_of_days. cbn [month day].
  pose proof (Z.mod_pos_bound (d + 719468) 146097 ltac:(lia)) as B.
  set (doe := (d + 719468) mod 146097) in *. unfold civil_of_doe. cbn [month day].
  set (yoe := (doe - doe / 1460 + doe / 36524 - doe / 146096) / 365).
  assert (0 <= doe - (365 * yoe + yoe / 4 - yoe / 100) <= 366) by (unfold yoe; lia).
  set (doy := doe - (365 * yoe + yoe / 4 - yoe / 100)) in *.
  set (mp := (5 * doy + 2) / 153).
  assert (0 <= mp <= 11) by (unfold mp; lia).
  split; [destruct (mp <? 10) eqn:E; lia | unfold mp; lia].
Qed.

Lemma clock_text_inj a b :
  0 <= a < 86400 -> 0 <= b < 86400 -> clock_text a = clock_text b -> a = b.
Proof.
  unfold clock_text. intros Ha Hb H.
  apply app_inj_1 in H as [H1 H]; [|done]. apply (app_inv_head (of_str ":")) in H.
  apply app_inj_1 in H as [H2 H]; [|done]. apply (app_inv_head (of_str ":")) in H.
  apply append2_inj in H1, H2, H; lia.
Qed.

(** The years RFC 3339 can write. *)
Definition rfc3339_year (t : Z) : Prop :=
  0 <= year (civil_of_days (t / Second / 86400)) < 10000.

Lemma Format_RFC3339_inj t u :
  rfc3339_year t -> rfc3339_year u ->
  Format_RFC3339 t = Format_RFC3339 u -> t / Second = u / Second.
Proof.
  unfold rfc3339_year, Format_RFC3339. intros Ht Hu H%(inj to_str).
  set (a := t / Second) in *. set (b := u / Second) in *.
  pose proof (civil_of_days_fields (a / 86400)) as [Fm Fd].
  pose proof (civil_of_days_fields (b / 86400)) as [Gm Gd].
  remember (civil_of_days (a / 86400)) as ca eqn:Ea.
  remember (civil_of_days (b / 86400)) as cb eqn:Eb.
  unfold date_text, append_year in H.
  replace ((0 <=? year ca) && (year ca <? 10000)) with true in H by lia.
  replace ((0 <=? year cb) && (year cb <? 10000)) with true in H by lia.
  apply app_inj_1 in H as [Hd H]; [|done].
  apply (app_inv_head (of_str "T")) in H. apply app_inj_1 in H as [Hc _]; [|done].
  apply app_inj_1 in Hd as [Hy Hd]; [|done]. apply (app_inv_head (of_str "-")) in Hd.
  apply app_inj_1 in Hd as [Hm Hd]; [|done]. apply (app_inv_head (of_str "-")) in Hd.
  apply append4_inj in Hy; [|done..]. apply append2_inj in Hm, Hd; [|done..].
  apply clock_text_inj in Hc; [|apply Z.mod_pos_bound; lia..].
  assert (Hab : a / 86400 = b / 86400).
  { apply civil_of_days_inj. rewrite <-Ea, <-Eb. destruct ca, cb; simpl in *; congruence. }
  pose proof (Z.div_mod a 86400 ltac:(lia)). pose proof (Z.div_mod b 86400 ltac:(lia)). lia.
Qed.

(** The text does not see anything below the second. *)
Lemma Format_RFC3339_second t u : t / Second = u / Second -> Format_RFC3339 t = Format_RFC3339 u.
Proof. unfold Format_RFC3339. by intros ->. Qed.

(** ** Reading RFC 3339 ([time.parseRFC3339]) *)

Definition is_leap (y : Z) : bool := (y mod 4 =? 0) && (negb (y mod 100 =? 0) || (y mod 400 =? 0)).
Definition daysIn (m y : Z) : Z :=
  if m =? 2 then (if is_leap y then 29 else 28)
  else if (m =? 4) || (m =? 6) || (m =? 9) || (m =? 11) then 30 else 31.

(** The day number of a date. *)
Definition days_of_civil (c : civil) : Z :=
  let era := (year c - (if month c <=? 2 then 1 else 0)) / 400 in
  doe_of_civil (Civil (year c - 400 * era) (month c) (day c)) + 146097 * era - 719468.

Definition slice {A} (a b : nat) (l : list A) : list A := take (b - a) (drop a l).

(** [parseUint] on a field *)
Definition parse_field (l : bytes) (min max : Z) : option Z :=
  x ← Decimal.parse_digits l 0; if (min <=? x) && (x <=? max) then Some x else None.

(** [parseNanoseconds] on the digits of the fraction: nine count. *)
Definition nanos (l : bytes) : option Z :=
  let l := take 9 l in
  x ← Decimal.parse_digits l 0; Some (x * 10 ^ (9 - Z.of_nat (length l))).

Definition is_byte (b : byte) (l : bytes) (i : nat) : bool := bool_decide (l !! i = Some b).

Definition parse_zone (l : bytes) : option Z :=
  if bool_decide (l = [Byte.x5a]) then Some 0
  else if negb (bool_decide (length l = 6%nat)) then None
  else
    hr ← parse_field (slice 1 3 l) 0 23; mm ← parse_field (slice 4 6 l) 0 59;
    if (is_byte Byte.x2d l 0 || is_byte Byte.x2b l 0) && is_byte Byte.x3a l 3
    then Some ((hr * 60 + mm) * 60 * (if is_byte Byte.x2d l 0 then -1 else 1)) else None.

Definition parse_RFC3339 (s : bytes) : option Z :=
  y ← parse_field (slice 0 4 s) 0 9999; mo ← parse_field (slice 5 7 s) 1 12;
  d ← parse_field (slice 8 10 s) 1 (daysIn mo y);
  h ← parse_field (slice 11 13 s) 0 23; mi ← parse_field (slice 14 16 s) 0 59;
  sec ← parse_field (slice 17 19 s) 0 59;
  if negb (bool_decide (19 <= length s)%nat && is_byte Byte.x2d s 4 && is_byte Byte.x2d s 7 &&
           is_byte Byte.x54 s 10 && is_byte Byte.x3a s 13 && is_byte Byte.x3a s 16) then None
  else
    let rest := drop 19 s in
    let frac := take_while Decimal.is_digit (drop 1 rest) in
    let has_frac := is_byte Byte.x2e rest 0 && negb (bool_decide (frac = [])) in
    ns ← (if has_frac then nanos frac else Some 0);
    zone ← parse_zone (if has_frac then drop (S (length frac)) rest else rest);
    Some ((days_of_civil (Civil y mo d) * 86400 + h * 3600 + mi * 60 + sec - zone) * Second + ns).

Example parse_zoned :
  parse_RFC3339 (of_str "2024-02-29T14:34:56.25+02:00") = Some (1709210096 * Second + 250000000).
Proof. vm_compute. reflexivity. Qed.
Example parse_no_such_day : parse_RFC3339 (of_str "2023-02-29T00:00:00Z") = None.
Proof. vm_compute. reflexivity. Qed.

(** ** What is written is read back *)

Definition date_ok (c : civil) : bool :=
  (1 <=? month c) && (month c <=? 12) && (1 <=? day c) && (day c <=? daysIn (month c) (year c)).

(** Every day of an era has a date of the calendar. *)
Lemma era_dates_ok doe : 0 <= doe < 146097 -> date_ok (civil_of_doe doe) = true.
Proof.
  intros H. unfold date_ok, civil_of_doe. cbn [year month day].
  set (yoe := (doe - doe / 1460 + doe / 36524 - doe / 146096) / 365).
  assert (Hyoe : 0 <= yoe <= 399) by (unfold yoe; lia).
  assert (Hdoy : 0 <= doe - (365 * yoe + yoe / 4 - yoe / 100) <= 365) by (unfold yoe; lia).
  assert (Hleap : doe - (365 * yoe + yoe / 4 - yoe / 100) = 365 -> is_leap (yoe + 1) = true).
  { unfold is_leap. intros E. assert (Hl : (yoe + 1) mod 4 = 0) by (unfold yoe in *; lia). 
    assert (Hl' : (yoe + 1) mod 100 <> 0 \/ (yoe + 1) mod 400 = 0) by (unfold yoe in *; lia).
    lia. }
  set (doy := doe - (365 * yoe + yoe / 4 - yoe / 100)) in *. clearbody doy. clearbody yoe.
  set (mp := (5 * doy + 2) / 153). assert (Hmp : 0 <= mp <= 11) by (unfold mp; lia).
  assert (Hcases : mp = 0 \/ mp = 1 \/ mp = 2 \/ mp = 3 \/ mp = 4 \/ mp = 5 \/ mp = 6 \/ mp = 7 \/
    mp = 8 \/ mp = 9 \/ mp = 10 \/ mp = 11) by lia.
  assert (Hlo : 153 * mp <= 5 * doy + 2 < 153 * mp + 153) by (unfold mp; lia). clearbody mp.
  unfold daysIn. repeat destruct Hcases as [-> |Hcases]; try subst mp; simpl.
  all: try lia.
  all: destruct (is_leap (yoe + 1)) eqn:El; [lia|]; destruct (decide (doy = 365)) as [E|E]; [by apply Hleap in E|lia].
Qed.

Lemma date_ok_days d : date_ok (civil_of_days d) = true.
Proof.
  pose proof (Z.mod_pos_bound (d + 719468) 146097 ltac:(lia)) as B.
  apply era_dates_ok in B. unfold civil_of_days.
  destruct (civil_of_doe ((d + 719468) mod 146097)) as [y m dd]. cbn [year month day].
  assert (Hleap : forall k, is_leap (y + 400 * k) = is_leap y).
  { intros k. unfold is_leap. replace ((y + 400 * k) mod 4) with (y mod 4) by lia.
    replace ((y + 400 * k) mod 100) with (y mod 100) by lia.
    by replace ((y + 400 * k) mod 400) with (y mod 400) by lia. }
  unfold date_ok, daysIn in *. cbn [year month day] in *. by rewrite Hleap.
Qed.

Lemma days_of_civil_of_days d : days_of_civil (civil_of_days d) = d.
Proof.
  unfold days_of_civil, civil_of_days.
  pose proof (Z.mod_pos_bound (d + 719468) 146097 ltac:(lia)) as B.
  pose proof (doe_roundtrip _ B) as R. pose proof (civil_of_doe_year _ B) as Y. cbv zeta in Y.
  destruct (civil_of_doe ((d + 719468) mod 146097)) as [y m dd]. cbn [year month day] in *.
  set (q := (d + 719468) / 146097). set (adj := if m <=? 2 then 1 else 0) in *.
  assert (E : (y + 400 * q - adj) / 400 = q) by lia. rewrite E.
  replace (y + 400 * q - 400 * q) with y by lia. rewrite R.
  pose proof (Z.div_mod (d + 719468) 146097 ltac:(lia)). unfold q. lia.
Qed.

Lemma dig_range n p : 0 <= n / p mod 10 < 10.
Proof. lia. Qed.

Lemma parse_append2 n min max :
  0 <= n < 100 -> min <= n <= max -> parse_field (append2 n) min max = Some n.
Proof.
  intros Hn Hm. unfold parse_field, append2, dig. rewrite !Decimal.parse_digit by apply dig_range.
  cbn [Decimal.parse_digits mbind option_bind].
  replace ((0 * 10 + n / 10 mod 10) * 10 + n / 1 mod 10) with n by lia.
  by destruct ((min <=? n) && (n <=? max)) eqn:E; [|lia].
Qed.

Lemma parse_append4 n min max :
  0 <= n < 10000 -> min <= n <= max -> parse_field (append4 n) min max = Some n.
Proof.
  intros Hn Hm. unfold parse_field, append4, dig. rewrite !Decimal.parse_digit by apply dig_range.
  cbn [Decimal.parse_digits mbind option_bind].
  replace ((((0 * 10 + n / 1000 mod 10) * 10 + n / 100 mod 10) * 10 + n / 10 mod 10) * 10 + n / 1 mod 10)
    with n by lia.
  by destruct ((min <=? n) && (n <=? max)) eqn:E; [|lia].
Qed.

(** *** The fraction *)

Definition nine (ns : Z) : bytes :=
  map (fun p => Decimal.digit (ns / p mod 10)) [100000000; 10000000; 1000000; 100000; 10000; 1000; 100; 10; 1].

Lemma parse_nine ns : 0 <= ns < Second -> Decimal.parse_digits (nine ns) 0 = Some ns.
Proof.
  intros Hn. unfold nine, Second in *. cbn [map]. rewrite !Decimal.parse_digit by apply dig_range.
  cbn [Decimal.parse_digits]. f_equal. lia.
Qed.

Lemma parse_digits_app l k acc :
  Decimal.parse_digits (l ++ k) acc = Decimal.parse_digits l acc ≫= Decimal.parse_digits k.
Proof. revert acc. induction l as [|b l IH]; intros acc; simpl; [done|]. by destruct (Decimal.is_digit b). Qed.

Lemma parse_zeros n acc :
  Decimal.parse_digits (replicate n Byte.x30) acc = Some (acc * 10 ^ Z.of_nat n).
Proof.
  revert acc. induction n as [|n IH]; intros acc; cbn [replicate Decimal.parse_digits].
  - f_equal. lia.
  - change (Decimal.is_digit Byte.x30) with true. cbv iota. rewrite IH.
    change (bval Byte.x30 - 48) with 0. f_equal. rewrite Nat2Z.inj_succ, Z.pow_succ_r by lia. lia.
Qed.

Lemma drop_while_end_split {A} (f : A -> bool) (l : list A) :
  exists k, l = drop_while_end f l ++ k /\ Forall (fun x => f x = true) k.
Proof.
  unfold drop_while_end. assert (H : forall l : list A, exists k, l = k ++ drop_while f l /\ Forall (fun x => f x = true) k).
  { clear. induction l as [|x l [k [E Hk]]]; simpl; [by exists []|]. destruct (f x) eqn:Ef; [|by exists []].
    exists (x :: k). split; [simpl; by rewrite <-E|by constructor]. }
  destruct (H (rev l)) as (k & E & Hk). exists (rev k). split.
  - rewrite <-rev_app_distr, <-E. by rewrite rev_involutive.
  - by apply Forall_rev.
Qed.

Lemma frac_digits ns : 0 < ns < Second ->
  exists l, frac_text ns = Byte.x2e :: l /\ l <> [] /\
    Forall (fun b => Decimal.is_digit b = true) l /\ nanos l = Some ns.
Proof.
  intros Hn. unfold frac_text. destruct (ns =? 0) eqn:E0; [lia|]. fold (nine ns).
  destruct (drop_while_end_split (fun b => bool_decide (b = Byte.x30)) (nine ns)) as (k & E & Hk).
  set (l := drop_while_end _ (nine ns)) in *. exists l.
  assert (Hz : k = replicate (length k) Byte.x30).
  { clear -Hk. induction Hk as [|x k Hx _ IH]; [done|]. gobool. subst x. simpl. by rewrite <-IH. }
  assert (Hlen : (length l + length k = 9)%nat) by (rewrite <-length_app, <-E; done).
  pose proof (parse_nine ns ltac:(lia)) as Hp. rewrite E, Hz, parse_digits_app in Hp.
  destruct (Decimal.parse_digits l 0) as [x|] eqn:Ex; [|done]. cbn [mbind option_bind] in Hp.
  rewrite parse_zeros in Hp. injection Hp as Hp.
  assert (Hnine : Forall (fun b => Decimal.is_digit b = true) (nine ns)).
  { unfold nine. repeat constructor; unfold Decimal.is_digit; rewrite Decimal.bval_digit by apply dig_range;
      pose proof (dig_range ns 1); lia. }
  rewrite E in Hnine. apply Forall_app in Hnine as [Hl _]. split_and!; [done| |done|].
  - intros ->. simpl in Ex. injection Ex as <-. lia.
  - unfold nanos. rewrite take_ge by lia. rewrite Ex. cbn [mbind option_bind]. f_equal. rewrite <-Hp.
    do 2 f_equal. lia.
Qed.

Lemma Format_RFC3339Nano_eq t :
  Format_RFC3339Nano t =
    date_text (civil_of_days (t / Second / 86400)) ++ of_str "T" ++ clock_text (t / Second mod 86400) ++
    frac_text (t mod Second) ++ [Byte.x5a].
Proof.
  unfold Format_RFC3339Nano, Format_RFC3339. rewrite of_to_str.
  set (a := date_text _). set (b := clock_text _).
  assert (E : a ++ of_str "T" ++ b ++ of_str "Z" = (a ++ of_str "T" ++ b) ++ of_str "Z")
    by by rewrite <-!app_assoc.
  rewrite E. rewrite length_app. replace (length (a ++ of_str "T" ++ b) + length (of_str "Z") - 1)%nat
    with (length (a ++ of_str "T" ++ b)) by (simpl; lia).
  rewrite take_app_length, drop_app_length, <-!app_assoc. done.
Qed.

Lemma parse_Format t : rfc3339_year t -> parse_RFC3339 (Format_RFC3339Nano t) = Some t.
Proof.
  unfold rfc3339_year. intros Hy. rewrite Format_RFC3339Nano_eq.
  set (secs := t / Second). pose proof (Z.div_mod t Second ltac:(done)) as Et. fold secs in Et.
  pose proof (Z.mod_pos_bound t Second ltac:(done)) as Bn. fold secs in Hy.
  pose proof (date_ok_days (secs / 86400)) as Hd. pose proof (days_of_civil_of_days (secs / 86400)) as Hc.
  destruct (civil_of_days (secs / 86400)) as [y m d]. unfold date_ok in Hd. cbn [year month day] in *.
  rewrite !andb_true_iff, !Z.leb_le in Hd. destruct Hd as (((? & ?) & ?) & ?).
  assert (Hd31 : d <= 31) by (unfold daysIn in *; repeat case_match; lia).
  set (sod := secs mod 86400). assert (Hs : 0 <= sod < 86400) by (unfold sod; lia).
  unfold date_text, append_year. cbn [year month day].
  destruct ((0 <=? y) && (y <? 10000)) eqn:Ey; [|lia].
  set (tail := frac_text (t mod Second) ++ [Byte.x5a]). rewrite <-!app_assoc.
  match goal with |- parse_RFC3339 ?l = _ => set (s := l) end.
  assert (E1 : slice 0 4 s = append4 y) by reflexivity. assert (E2 : slice 5 7 s = append2 m) by reflexivity.
  assert (E3 : slice 8 10 s = append2 d) by reflexivity.
  assert (E4 : slice 11 13 s = append2 (sod / 3600)) by reflexivity.
  assert (E5 : slice 14 16 s = append2 (sod / 60 mod 60)) by reflexivity.
  assert (E6 : slice 17 19 s = append2 (sod mod 60)) by reflexivity.
  assert (E7 : drop 19 s = tail) by reflexivity.
  assert (E8 : bool_decide (19 <= length s)%nat && is_byte Byte.x2d s 4 && is_byte Byte.x2d s 7 &&
    is_byte Byte.x54 s 10 && is_byte Byte.x3a s 13 && is_byte Byte.x3a s 16 = true).
  { assert (El : length s = (19 + length tail)%nat) by reflexivity. rewrite El, bool_decide_true by lia. reflexivity. }
  unfold parse_RFC3339. rewrite E1, E2, E3, E4, E5, E6, E7, E8. clear E1 E2 E3 E4 E5 E6 E7 E8 s.
  rewrite parse_append4 by lia. cbn [mbind option_bind].
  repeat (rewrite parse_append2 by lia; cbn [mbind option_bind negb]).
  assert (Hfin : (days_of_civil (Civil y m d) * 86400 + sod / 3600 * 3600 + sod / 60 mod 60 * 60 + sod mod 60 - 0) *
    Second + t mod Second = t).
  { rewrite Hc. assert (Hx : sod / 3600 * 3600 + sod / 60 mod 60 * 60 + sod mod 60 = sod) by lia.
    pose proof (Z.div_mod secs 86400 ltac:(lia)) as Es. fold sod in Es. unfold Second in *. lia. }
  unfold tail. destruct (decide (t mod Second = 0)) as [E0|E0].
  - rewrite E0 in Hfin |- *. change (frac_text 0) with (@nil byte).
    change (is_byte Byte.x2e ([] ++ [Byte.x5a]) 0) with false. cbn [andb mbind option_bind].
    change (parse_zone ([] ++ [Byte.x5a])) with (Some 0). cbn [mbind option_bind]. by rewrite Hfin.
  - destruct (frac_digits (t mod Second)) as (l & -> & Hne & Hdig & Hnan); [lia|].
    destruct (take_drop_while_app Decimal.is_digit l [Byte.x5a] Hdig eq_refl) as [Et' _].
    cbn [app]. change (drop 1 (Byte.x2e :: l ++ [Byte.x5a])) with (l ++ [Byte.x5a]). rewrite Et'.
    change (is_byte Byte.x2e (Byte.x2e :: l ++ [Byte.x5a]) 0) with true. rewrite bool_decide_false by done.
    cbn [negb andb]. rewrite Hnan. cbn [mbind option_bind].
    change (drop (S (length l)) (Byte.x2e :: l ++ [Byte.x5a])) with (drop (length l) (l ++ [Byte.x5a])).
    rewrite drop_app_length. change (parse_zone [Byte.x5a]) with (Some 0). cbn [mbind option_bind]. by rewrite Hfin.
Qed.
