(* ===== verification/PasteTypes.v ===== *)
(** * The paste domain: types

    [internal/paste/types.go] and the data of [internal/paste/ports.go] and
    [internal/audit/ports.go]: statuses, encrypted bodies, metadata rows,
    principals, inputs and results, and audit events. *)
From S2P Require Import Prelude GoNum GoStr Codec Errors.

(** ** UUIDs

    A [uuid.UUID] is an array of 16 bytes.  Its text form belongs to
    [github.com/google/uuid]: [String] writes 36 characters, and [Parse] reads
    back what [String] writes. *)
Abbreviation uuid := (vec Init.Byte.byte 16) (only parsing).

Class UUIDText : Type := {
  uuid_String : uuid -> string;
  uuid_Parse : string -> option uuid;
  uuid_Parse_String : forall u, uuid_Parse (uuid_String u) = Some u;
  uuid_String_length : forall u, length (of_str (uuid_String u)) = 36%nat
}.

Lemma uuid_String_inj `{UUIDText} u v : uuid_String u = uuid_String v -> u = v.
Proof.
  intros E. apply (f_equal uuid_Parse) in E. rewrite !uuid_Parse_String in E. congruence.
Qed.

(** An instance, to run the definitions: the canonical form
    "xxxxxxxx-xxxx-xxxx-xxxx-xxxxxxxxxxxx". *)
Definition hex2 (b : byte) : bytes := [Hex.hexdigit (bval b / 16); Hex.hexdigit (bval b mod 16)].
Definition hexes (l : bytes) : bytes := concat (map hex2 l).
Definition canonical_uuid (u : uuid) : bytes :=
  let l := vec_to_list u in
  hexes (take 4 l) ++ [Byte.x2d] ++ hexes (take 2 (drop 4 l)) ++ [Byte.x2d] ++
  hexes (take 2 (drop 6 l)) ++ [Byte.x2d] ++ hexes (take 2 (drop 8 l)) ++ [Byte.x2d] ++
  hexes (drop 10 l).

Definition unhex (b : byte) : Z :=
  if (48 <=? bval b) && (bval b <=? 57) then bval b - 48
  else if (97 <=? bval b) && (bval b <=? 102) then bval b - 87
  else -1.
Definition unhex2 (l : bytes) (i : nat) : Z * Z :=
  (unhex (nth i l Byte.x00), unhex (nth (S i) l Byte.x00)).
Definition uuid_offsets : vec nat 16 :=
  [# 0; 2; 4; 6; 9; 11; 14; 16; 19; 21; 24; 26; 28; 30; 32; 34]%nat.
Definition parse_uuid (l : bytes) : option uuid :=
  let nibbles := vmap (unhex2 l) uuid_offsets in
  if bool_decide (length l = 36%nat) &&
     forallb (fun p => (0 <=? p.1) && (0 <=? p.2)) (vec_to_list nibbles) &&
     forallb (fun i => bool_decide (nth i l Byte.x00 = Byte.x2d)) [8; 13; 18; 23]%nat
  then Some (vmap (fun p => byte_of (p.1 * 16 + p.2)) nibbles)
  else None.

Lemma unhex_hexdigit d : 0 <= d < 16 -> unhex (Hex.hexdigit d) = d.
Proof.
  intros Hd. unfold unhex, Hex.hexdigit. rewrite bval_byte_of.
  destruct (d <? 10) eqn:E; rewrite Z.mod_small by lia.
  - by destruct ((48 <=? 48 + d) && (48 + d <=? 57)) eqn:E1; [lia|gobool; lia].
  - destruct ((48 <=? 87 + d) && (87 + d <=? 57)) eqn:E1; [gobool; lia|].
    destruct ((97 <=? 87 + d) && (87 + d <=? 102)) eqn:E2; [lia|gobool; lia].
Qed.

Lemma parse_canonical_uuid u : parse_uuid (canonical_uuid u) = Some u.
Proof.
  assert (Hn : forall b, unhex (Hex.hexdigit (bval b / 16)) = bval b / 16 /\
                         unhex (Hex.hexdigit (bval b mod 16)) = bval b mod 16).
  { intros b. destruct (Hex.nibbles b). split; by apply unhex_hexdigit. }
  assert (Hb : forall b, byte_of (bval b / 16 * 16 + bval b mod 16) = b).
  { intros b. rewrite <-(byte_of_bval b) at 3. f_equal.
    pose proof (bval_range b). lia. }
  assert (Hp : forall b, (0 <=? bval b / 16) && (0 <=? bval b mod 16) = true).
  { intros b. pose proof (bval_range b). lia. }
  inv_vec u; intros.
  unfold parse_uuid, canonical_uuid, hexes, hex2, unhex2, uuid_offsets.
  cbn -[Hex.hexdigit unhex Z.div Z.modulo byte_of Z.leb].
  rewrite !(proj1 (Hn _)), !(proj2 (Hn _)), !Hp. cbn -[Z.div Z.modulo byte_of].
  by rewrite !Hb.
Qed.

Lemma canonical_uuid_length u : length (canonical_uuid u) = 36%nat.
Proof. by inv_vec u. Qed.

Definition canonical_uuid_text : UUIDText.
Proof.
  refine {| uuid_String u := to_str (canonical_uuid u);
            uuid_Parse s := parse_uuid (of_str s) |}.
  - intros u. rewrite of_to_str. apply parse_canonical_uuid.
  - intros u. rewrite of_to_str. apply canonical_uuid_length.
Defined.

(** [uuid.Nil] *)
Definition uuid_Nil : uuid := vreplicate 16 Byte.x00.

(** Big-endian comparison, the order of a Postgres [uuid] column. *)
Fixpoint bytes_leb (a b : bytes) : bool :=
  match a, b with
  | [], _ => true
  | _ :: _, [] => false
  | x :: a', y :: b' =>
      (bval x <? bval y) || ((bval x =? bval y) && bytes_leb a' b')
  end.
Definition uuid_leb (u v : uuid) : bool := bytes_leb (vec_to_list u) (vec_to_list v).

(** ** Statuses and wrapping modes *)

Inductive Status : Type := StatusActive | StatusExpired | StatusDeleted | StatusUnavailable.

#[export] Instance Status_eq_dec : EqDecision Status.
Proof. solve_decision. Defined.

Definition Status_string (s : Status) : string :=
  match s with
  | StatusActive => "active"
  | StatusExpired => "expired"
  | StatusDeleted => "deleted"
  | StatusUnavailable => "unavailable"
  end.

(** [WrapMode] is a string type: a stored record may hold any value. *)
Definition WrapKEK : string := "kek".
Definition WrapPassword : string := "pw".

(** ** Encrypted bodies *)

Record KDFParams : Type := MkKDFParams {
  kdf_Salt : bytes;
  kdf_Time : Z;
  kdf_MemoryKiB : Z;
  kdf_Threads : Z
}.

Record EncryptedBody : Type := MkEncryptedBody {
  eb_Version : Z;
  eb_Alg : string;
  eb_Nonce : bytes;
  eb_Ciphertext : bytes;
  eb_WrapMode : string;
  eb_KEKID : string;
  eb_KDF : option KDFParams;
  eb_WrapNonce : bytes;
  eb_WrappedDEK : bytes
}.

(** ** Metadata *)

Record PasteMeta : Type := MkPasteMeta {
  pm_ID : uuid;
  pm_OwnerID : uuid;
  pm_CreatedAt : Z;
  pm_ExpiresAt : Z;
  pm_TTLSeconds : Z;
  pm_SizeBytes : Z;
  pm_HashAlgo : string;
  pm_ContentHash : string;
  pm_PasswordProtected : bool;
  pm_KEKID : string;
  pm_ViewCount : Z;
  pm_ExpiredAuditedAt : option Z;
  pm_DeletedAt : option Z;
  pm_DeletedBy : option uuid
}.

#[export] Instance KDFParams_eq_dec : EqDecision KDFParams.
Proof. solve_decision. Defined.
#[export] Instance EncryptedBody_eq_dec : EqDecision EncryptedBody.
Proof. solve_decision. Defined.
#[export] Instance PasteMeta_eq_dec : EqDecision PasteMeta.
Proof. solve_decision. Defined.

(** [m.Status(now)] *)
Definition PasteMeta_Status (m : PasteMeta) (now : Z) : Status :=
  match pm_DeletedAt m with
  | Some _ => StatusDeleted
  | None => if negb (Before now (pm_ExpiresAt m)) then StatusExpired else StatusActive
  end.

Lemma Status_active_iff m now :
  PasteMeta_Status m now = StatusActive <-> pm_DeletedAt m = None /\ now < pm_ExpiresAt m.
Proof.
  unfold PasteMeta_Status, Before. destruct (pm_DeletedAt m).
  - split; [done|]. intros [? _]; done.
  - destruct (now <? pm_ExpiresAt m) eqn:E; simpl; split; intros; gobool; try done.
    destruct_and!. lia.
Qed.

(** Metadata never says "unavailable": that status needs the body store. *)
Lemma Status_never_unavailable m now : PasteMeta_Status m now <> StatusUnavailable.
Proof. unfold PasteMeta_Status. by repeat case_match. Qed.

(** A body as its Go type and the sealer make it: text fields valid UTF-8,
    integers in their widths. *)
Definition body_typed (r : EncryptedBody) : Prop :=
  in_int64 (eb_Version r) /\ utf8_ValidString (eb_Alg r) = true /\
  utf8_ValidString (eb_WrapMode r) = true /\ utf8_ValidString (eb_KEKID r) = true /\
  match eb_KDF r with
  | None => True
  | Some k => 0 <= kdf_Time k < 2 ^ 32 /\ 0 <= kdf_MemoryKiB k < 2 ^ 32 /\ 0 <= kdf_Threads k < 2 ^ 8
  end.

(** ** Principals, inputs, results *)

Record Principal : Type := MkPrincipal {
  pr_UserID : uuid;
  pr_Username : string;
  pr_IsAdmin : bool
}.

Record CreateInput : Type := MkCreateInput {
  in_Content : string;
  in_Password : string;
  in_TTLSeconds : Z
}.

Record CreateResult : Type := MkCreateResult {
  cr_Meta : PasteMeta;
  cr_URL : string
}.

Record ReadResult : Type := MkReadResult {
  rr_Meta : PasteMeta;
  rr_Status : Status;
  rr_Content : option bytes;   (* None is the nil slice *)
  rr_HashVisible : bool
}.

Record VerifyResult : Type := MkVerifyResult {
  vr_Match : bool;
  vr_Status : Status;
  vr_Meta : PasteMeta
}.

Record Page : Type := MkPage { pg_Limit : Z; pg_Offset : Z }.

(** ** Audit events *)

(** The values of a [map[string]any] that the program puts in event details
    and in JSON responses. *)
#[warnings="-register-all"]
Inductive value : Type :=
| VStr (s : string)
| VInt (z : Z)
| VBool (b : bool)
| VTime (t : Z)
| VStrs (l : list string)
| VObj (l : list (string * value))
| VList (l : list value).

Record Event : Type := MkEvent {
  ev_At : Z;
  ev_Event : string;
  ev_ActorID : option uuid;
  ev_PasteID : option uuid;
  ev_IP : string;
  ev_UserAgent : string;
  ev_Outcome : string;
  ev_Details : list (string * value)
}.

Definition LoginSuccess := "login_success".
Definition LoginFailure := "login_failure".
Definition Logout := "logout".
Definition OIDCLogin := "oidc_login".
Definition OIDCDenied := "oidc_denied".
Definition PasteCreated := "paste_created".
Definition PasteViewed := "paste_viewed".
Definition PasteUnlockSuccess := "paste_unlock_success".
Definition PasteUnlockFailure := "paste_unlock_failure".
Definition PasteVerify := "paste_verify".
Definition PasteDeleted := "paste_deleted".
Definition PasteExpired := "paste_expired".
Definition PasteUnavailable := "paste_unavailable".
Definition RateLimited := "rate_limited".
Definition UserCreated := "user_created".
Definition UserDisabled := "user_disabled".
Definition AuditPurged := "audit_purged".
Definition MetadataPurged := "metadata_purged".

Definition OutcomeSuccess := "success".
Definition OutcomeFailure := "failure".
Definition OutcomeDenied := "denied".
