(* ===== verification/Canonical.v ===== *)
(** * Canonical content ([internal/paste/canonical.go])

    A paste is stored as valid UTF-8 that starts with one byte order mark and
    does not exceed the size limit; its hash covers those bytes. *)
From S2P Require Import Prelude GoNum GoStr Codec Sha256 Errors PasteTypes.

Definition BOM : bytes := [Byte.xef; Byte.xbb; Byte.xbf].

Definition HasBOM (data : bytes) : bool := bytes_HasPrefix data BOM.

Definition StripBOM (data : bytes) : bytes :=
  if HasBOM data then drop (length BOM) data else data.

Definition Canonicalize (content : string) (maxSize : Z) : res bytes :=
  if negb (utf8_ValidString content) then Err ErrInvalidUTF8
  else
    let canonical := of_str content in
    let canonical := if negb (HasBOM canonical) then BOM ++ canonical else canonical in
    if maxSize <? Z.of_nat (length canonical)
    then Err (ErrTooLarge maxSize (Z.of_nat (length canonical)))
    else Ok canonical.

Definition HashHex (data : bytes) : string := Hex.EncodeToString (Sum256 data).

(** What a canonical buffer is. *)
Definition canonical_bytes (maxSize : Z) (b : bytes) : Prop :=
  utf8_Valid b = true /\ HasBOM b = true /\ Z.of_nat (length b) <= maxSize.

Lemma HasBOM_iff l : HasBOM l = true <-> exists t, l = BOM ++ t.
Proof. apply bytes_HasPrefix_spec. Qed.

Lemma runes_BOM l : runes (BOM ++ l) = Rune 0xFEFF BOM :: runes l.
Proof. reflexivity. Qed.

Lemma utf8_Valid_BOM l : utf8_Valid (BOM ++ l) = utf8_Valid l.
Proof. unfold utf8_Valid. by rewrite runes_BOM. Qed.

(** The buffer before the size check. *)
Definition with_BOM (l : bytes) : bytes := if negb (HasBOM l) then BOM ++ l else l.

Lemma with_BOM_valid l : utf8_Valid (with_BOM l) = utf8_Valid l.
Proof. unfold with_BOM. destruct (HasBOM l); simpl negb; cbv iota; [done|apply utf8_Valid_BOM]. Qed.

Lemma with_BOM_HasBOM l : HasBOM (with_BOM l) = true.
Proof.
  unfold with_BOM. destruct (HasBOM l) eqn:E; [done|]. apply HasBOM_iff. by exists l.
Qed.

Lemma with_BOM_strip l : StripBOM (with_BOM l) = StripBOM l.
Proof.
  unfold with_BOM, StripBOM. destruct (HasBOM l) eqn:E; simpl; [by rewrite E|].
  destruct (HasBOM (BOM ++ l)) eqn:E2; [done|].
  assert (HasBOM (BOM ++ l) = true) by (apply HasBOM_iff; by exists l). congruence.
Qed.

Lemma Canonicalize_cases content maxSize :
  Canonicalize content maxSize =
    if utf8_Valid (of_str content) then
      let l := Z.of_nat (length (with_BOM (of_str content))) in
      if maxSize <? l then Err (ErrTooLarge maxSize l) else Ok (with_BOM (of_str content))
    else Err ErrInvalidUTF8.
Proof.
  unfold Canonicalize, utf8_ValidString. by destruct (utf8_Valid (of_str content)).
Qed.

(** Whatever [Canonicalize] returns is valid UTF-8, starts with a byte
    order mark, fits the limit, and differs from the content submitted only in
    the presence of that mark. *)
Theorem Canonicalize_sound content maxSize b :
  Canonicalize content maxSize = Ok b ->
  canonical_bytes maxSize b /\ StripBOM b = StripBOM (of_str content).
Proof.
  rewrite Canonicalize_cases. destruct (utf8_Valid (of_str content)) eqn:E; [|done].
  cbv zeta. destruct (_ <? _) eqn:El; [done|]. intros [= <-]. gobool.
  split; [|apply with_BOM_strip].
  split_and!; [by rewrite with_BOM_valid|apply with_BOM_HasBOM|done].
Qed.

Lemma Canonicalize_sound_witness :
  canonical_bytes 10 (BOM ++ of_str "hi") /\ StripBOM (BOM ++ of_str "hi") = of_str "hi".
Proof. exact (Canonicalize_sound "hi" 10 (BOM ++ of_str "hi") eq_refl). Defined.

(** Canonicalising a canonical buffer gives it back: reading a paste and
    submitting what was read stores the same bytes. *)
Theorem Canonicalize_idempotent maxSize b :
  canonical_bytes maxSize b -> Canonicalize (to_str b) maxSize = Ok b.
Proof.
  intros (Hv & Hb & Hl). rewrite Canonicalize_cases, of_to_str, Hv.
  unfold with_BOM. rewrite Hb. simpl.
  destruct (maxSize <? Z.of_nat (length b)) eqn:E; [gobool; lia|done].
Qed.

Lemma Canonicalize_idempotent_witness :
  Canonicalize (to_str (BOM ++ of_str "hello")) 8 = Ok (BOM ++ of_str "hello").
Proof.
  apply (Canonicalize_idempotent 8). split_and!; [reflexivity|reflexivity|simpl; lia].
Defined.

(** Every submission is decided: invalid UTF-8 is refused first, then a
    buffer whose length with the mark exceeds the limit is refused with that
    length and the limit, and everything else is accepted. *)
Theorem Canonicalize_decides content maxSize :
  match Canonicalize content maxSize with
  | Ok b => utf8_ValidString content = true /\ Z.of_nat (length b) <= maxSize
  | Err e =>
      (utf8_ValidString content = false /\ e = ErrInvalidUTF8) \/
      (utf8_ValidString content = true /\
       exists n, e = ErrTooLarge maxSize n /\ maxSize < n /\
         n = Z.of_nat (length (of_str content)) +
             (if HasBOM (of_str content) then 0 else 3))
  | Panic => False
  end.
Proof.
  rewrite Canonicalize_cases. unfold utf8_ValidString.
  destruct (utf8_Valid (of_str content)) eqn:E; [|by left].
  cbv zeta. destruct (_ <? _) eqn:El; gobool; [|done]. right. split; [done|].
  eexists. split_and!; [reflexivity|done|]. unfold with_BOM.
  destruct (HasBOM (of_str content)); simpl; lia.
Qed.

Lemma Canonicalize_ok content maxSize b : Canonicalize content maxSize = Ok b -> canonical_bytes maxSize b.
Proof.
  rewrite Canonicalize_cases. destruct (utf8_Valid (of_str content)) eqn:E; [|done]. cbv zeta.
  destruct (_ <? _) eqn:El; [done|]. intros [= <-]. gobool.
  split_and!; [by rewrite with_BOM_valid|apply with_BOM_HasBOM|done].
Qed.

(** The pinned digest of the canonical "hello". *)
Example HashHex_hello :
  HashHex (BOM ++ of_str "hello") =
  "7489ebbcc2a00056ddaaaac190bce473e5c03696ea1bd8ed83cf59a174283862".
Proof. vm_compute. reflexivity. Qed.

Lemma HashHex_lower b :
  Forall (fun c => Hex.lower_hex c = true) (of_str (HashHex b)).
Proof. apply Hex.EncodeToString_lower. Qed.

Lemma HashHex_length b : length (of_str (HashHex b)) = 64%nat.
Proof. unfold HashHex. by rewrite Hex.EncodeToString_length, Sum256_length. Qed.
