(* ===== verification/Gate.v ===== *)
(** * The key-derivation gate ([internal/crypto/gate.go])

    The gate is a buffered channel used as a counting semaphore.  Goroutines
    that derive keys are modelled as a transition system: each one waits in
    the [select] of [Acquire], derives while it holds a slot, and releases the
    slot when [DeriveKey] returns.  The interleaving is arbitrary, and so is
    the choice of [select] among the cases that are ready. *)
From S2P Require Import Prelude GoNum GoStr Errors.

(** [make(chan struct{}, maxConcurrent)] and the wait budget. *)
Record Gate : Type := MkGate { gate_cap : Z; gate_timeout : Z }.

Definition NewGate (maxConcurrent queueTimeout : Z) : Gate :=
  let maxConcurrent := if maxConcurrent <? 1 then 1 else maxConcurrent in
  MkGate maxConcurrent queueTimeout.

(** What one goroutine is doing with the gate. *)
Inductive phase : Type :=
| Waiting (started : Z)   (* in the select of Acquire, since this instant *)
| Holding                 (* Acquire returned a release function *)
| Failed (at_ : Z) (e : error).  (* Acquire returned an error *)

#[export] Instance phase_eq_dec : EqDecision phase.
Proof. solve_decision. Defined.

(** The channel's buffered elements, the goroutines that use the gate, and the
    clock. *)
Record gstate : Type := MkGState {
  gs_slots : Z;
  gs_procs : gmap nat phase;
  gs_now : Z
}.

Definition gs_init (now : Z) : gstate := MkGState 0 ∅ now.

Inductive gstep (g : Gate) : gstate -> gstate -> Prop :=
| step_call s i :
    (* time.NewTimer(g.timeout); enter the select *)
    gs_procs s !! i = None ->
    gstep g s (MkGState (gs_slots s) (<[i := Waiting (gs_now s)]> (gs_procs s)) (gs_now s))
| step_send s i t :
    (* case g.slots <- struct{}{} *)
    gs_procs s !! i = Some (Waiting t) ->
    gs_slots s < gate_cap g ->
    gstep g s (MkGState (gs_slots s + 1) (<[i := Holding]> (gs_procs s)) (gs_now s))
| step_ctx s i t e :
    (* case <-ctx.Done() *)
    gs_procs s !! i = Some (Waiting t) ->
    e = Canceled \/ e = DeadlineExceeded ->
    gstep g s (MkGState (gs_slots s) (<[i := Failed (gs_now s) e]> (gs_procs s)) (gs_now s))
| step_timer s i t :
    (* case <-timer.C *)
    gs_procs s !! i = Some (Waiting t) ->
    t + gate_timeout g <= gs_now s ->
    gstep g s (MkGState (gs_slots s) (<[i := Failed (gs_now s) ErrBusy]> (gs_procs s)) (gs_now s))
| step_release s i :
    (* func() { <-g.slots }: blocks while the channel is empty *)
    gs_procs s !! i = Some Holding ->
    0 < gs_slots s ->
    gstep g s (MkGState (gs_slots s - 1) (delete i (gs_procs s)) (gs_now s))
| step_return s i t e :
    (* the caller has seen the error *)
    gs_procs s !! i = Some (Failed t e) ->
    gstep g s (MkGState (gs_slots s) (delete i (gs_procs s)) (gs_now s))
| step_time s d :
    0 <= d ->
    gstep g s (MkGState (gs_slots s) (gs_procs s) (gs_now s + d)).

Definition is_holding (p : phase) : bool :=
  match p with Holding => true | _ => false end.

(** The number of key derivations in progress. *)
Definition holders (m : gmap nat phase) : Z :=
  Z.of_nat (size (filter (fun kv => is_holding kv.2 = true) m)).

(** Every element in the channel belongs to one holder, and the channel never
    exceeds its capacity. *)
Definition gate_inv (g : Gate) (s : gstate) : Prop :=
  gs_slots s = holders (gs_procs s) /\ 0 <= gs_slots s <= gate_cap g /\
  forall i t, gs_procs s !! i = Some (Waiting t) -> t <= gs_now s.

Abbreviation holding m := (filter (fun kv => is_holding kv.2 = true) (m : gmap nat phase)).

Lemma holding_None (m : gmap nat phase) i :
  (forall q, m !! i = Some q -> is_holding q = false) -> holding m !! i = None.
Proof.
  intros H. apply map_lookup_filter_None_2. right. intros q Hq. simpl.
  by rewrite (H q Hq).
Qed.

Lemma holders_delete_other (m : gmap nat phase) i :
  (forall q, m !! i = Some q -> is_holding q = false) -> holders (delete i m) = holders m.
Proof.
  intros H. unfold holders. rewrite map_filter_delete, delete_id; [done|].
  by apply holding_None.
Qed.

Lemma holders_insert_other (m : gmap nat phase) i p :
  is_holding p = false ->
  (forall q, m !! i = Some q -> is_holding q = false) ->
  holders (<[i := p]> m) = holders m.
Proof.
  intros Hp Hm. unfold holders. rewrite map_filter_insert_False by (simpl; congruence).
  fold (holders (delete i m)). by apply holders_delete_other.
Qed.

Lemma holders_insert_hold (m : gmap nat phase) i :
  (forall q, m !! i = Some q -> is_holding q = false) ->
  holders (<[i := Holding]> m) = holders m + 1.
Proof.
  intros Hm. unfold holders. rewrite map_filter_insert_True by done.
  rewrite map_size_insert_None by (by apply holding_None). lia.
Qed.

Lemma holders_delete_hold (m : gmap nat phase) i :
  m !! i = Some Holding -> holders (delete i m) = holders m - 1.
Proof.
  intros E. rewrite <-(insert_id m i Holding) at 2 by done.
  rewrite <-insert_delete_eq, holders_insert_hold; [lia|].
  intros q. by rewrite lookup_delete_eq.
Qed.

Lemma gate_inv_init g now : 0 <= gate_cap g -> gate_inv g (gs_init now).
Proof. intros H. split_and!; simpl; [done|lia|lia|]. intros i t. by rewrite lookup_empty. Qed.

(** Waiting times stay in the past when one goroutine moves on. *)
Lemma waits_insert (m : gmap nat phase) i p now :
  (forall j t, m !! j = Some (Waiting t) -> t <= now) ->
  (forall t, p = Waiting t -> t <= now) ->
  forall j t, <[i := p]> m !! j = Some (Waiting t) -> t <= now.
Proof. intros Hm Hp j t. rewrite lookup_insert. case_decide; naive_solver. Qed.

Lemma waits_delete (m : gmap nat phase) i now :
  (forall j t, m !! j = Some (Waiting t) -> t <= now) ->
  forall j t, delete i m !! j = Some (Waiting t) -> t <= now.
Proof. intros Hm j t [_ H]%lookup_delete_Some. eauto. Qed.

Lemma gate_inv_step g s s' : gate_inv g s -> gstep g s s' -> gate_inv g s'.
Proof.
  intros (Hs & Hb & Hw) Hstep.
  destruct Hstep as [s i Hi|s i t Hi Hc|s i t e Hi He|s i t Hi Ht|s i Hi Hp|s i t e Hi|s d Hd];
    unfold gate_inv; simpl;
    try rewrite holders_insert_hold by naive_solver;
    try rewrite holders_delete_hold by done;
    try rewrite holders_insert_other by naive_solver;
    try rewrite holders_delete_other by naive_solver;
    (split_and!; [lia|lia|lia|]);
    try (apply waits_insert; [done|naive_solver lia]);
    try (by apply waits_delete).
  intros j u Hu. specialize (Hw j u Hu). lia.
Qed.

Inductive reachable (g : Gate) (now : Z) : gstate -> Prop :=
| reach_init : reachable g now (gs_init now)
| reach_step s s' : reachable g now s -> gstep g s s' -> reachable g now s'.

Lemma NewGate_cap n t : 1 <= gate_cap (NewGate n t).
Proof. unfold NewGate. simpl. destruct (n <? 1) eqn:E; lia. Qed.

Lemma reachable_inv n timeout now s :
  reachable (NewGate n timeout) now s -> gate_inv (NewGate n timeout) s.
Proof.
  induction 1 as [|s s' _ IH Hs].
  - apply gate_inv_init. pose proof (NewGate_cap n timeout). lia.
  - eapply gate_inv_step; eauto.
Qed.

(** C24. However goroutines interleave, at most [max(1, maxConcurrent)] key
    derivations run at the same time, and a goroutine that holds a slot can
    always release it: its receive from the channel never blocks. *)
Theorem gate_bounds_concurrency n timeout now s :
  reachable (NewGate n timeout) now s ->
  holders (gs_procs s) <= Z.max 1 n /\
  (forall i, gs_procs s !! i = Some Holding ->
     exists s', gstep (NewGate n timeout) s s' /\ gs_procs s' !! i = None).
Proof.
  intros Hr. destruct (reachable_inv _ _ _ _ Hr) as (Hs & Hb & _). split.
  - rewrite <-Hs. unfold NewGate in Hb. simpl in Hb. destruct (n <? 1) eqn:E; lia.
  - intros i Hi. eexists. split; [apply step_release; [done|]|simpl; apply lookup_delete_eq].
    rewrite Hs. rewrite <-(insert_id _ _ _ Hi), <-insert_delete_eq.
    rewrite holders_insert_hold; [|intros q; by rewrite lookup_delete_eq].
    unfold holders. lia.
Qed.

(** Two goroutines call Acquire on a gate of one slot and the first gets it. *)
Definition gate_busy : gstate :=
  MkGState 1 (<[1%nat := Waiting 0]> (<[0%nat := Holding]> (<[0%nat := Waiting 0]> ∅))) 0.

Lemma gate_busy_reachable : reachable (NewGate 1 (2 * Second)) 0 gate_busy.
Proof.
  pose (g := NewGate 1 (2 * Second)).
  pose (s1 := MkGState 0 (<[0%nat := Waiting 0]> ∅) 0).
  pose (s2 := MkGState 1 (<[0%nat := Holding]> (gs_procs s1)) 0).
  apply (reach_step _ _ s2 gate_busy).
  - apply (reach_step _ _ s1 s2).
    + apply (reach_step _ _ (gs_init 0) s1); [constructor|]. by apply (step_call g (gs_init 0) 0).
    + by apply (step_send g s1 0 0).
  - by apply (step_call g s2 1).
Qed.

Lemma gate_bounds_concurrency_witness :
  holders (gs_procs gate_busy) <= Z.max 1 1 /\
  (forall i, gs_procs gate_busy !! i = Some Holding ->
     exists s', gstep (NewGate 1 (2 * Second)) gate_busy s' /\ gs_procs s' !! i = None).
Proof. exact (gate_bounds_concurrency 1 (2 * Second) 0 gate_busy gate_busy_reachable). Defined.

(** ** Nobody waits for ever *)
Section Liveness.
Context (g : Gate) (run : nat -> gstate) (i : nat).

Definition in_select (s : gstate) : Prop := exists t, gs_procs s !! i = Some (Waiting t).

(** Some case of the [select] other than the cancellation of the caller is
    ready. *)
Definition case_ready (s : gstate) : Prop :=
  in_select s /\
  exists s' p, gstep g s s' /\ gs_procs s' !! i = Some p /\ (p = Holding \/ exists at_, p = Failed at_ ErrBusy).

(** An unbounded execution of the gate, in which time passes, and in which the
    scheduler is fair to the goroutine: a [select] with a ready case is not left
    standing for ever. *)
Definition execution (start : Z) : Prop :=
  run 0%nat = gs_init start /\ (forall k, gstep g (run k) (run (S k))) /\
  (forall T, exists k, T <= gs_now (run k)) /\
  (forall k, exists m, (k <= m)%nat /\
     (~ case_ready (run m) \/ gs_procs (run (S m)) !! i <> gs_procs (run m) !! i)).

Lemma gstep_now s s' : gstep g s s' -> gs_now s <= gs_now s'.
Proof. destruct 1; simpl; lia. Qed.

(** How a goroutine comes out of the [select]. *)
Lemma leave_select s s' t :
  gs_procs s !! i = Some (Waiting t) -> gstep g s s' -> gs_procs s' !! i <> Some (Waiting t) ->
  (gs_procs s' !! i = Some Holding /\ gs_slots s < gate_cap g) \/
  (exists e, gs_procs s' !! i = Some (Failed (gs_now s) e) /\
     (e = Canceled \/ e = DeadlineExceeded \/ e = ErrBusy /\ t + gate_timeout g <= gs_now s)).
Proof.
  intros Hi Hstep Hne.
  destruct Hstep as [s j Hj|s j u Hj Hc|s j u e Hj He|s j u Hj Ht|s j Hj Hp|s j u e Hj|s d Hd]; simpl in *; try done;
    destruct (decide (j = i)) as [->|Hji];
    try (rewrite Hi in Hj; simplify_eq); rewrite ?lookup_insert_eq, ?lookup_insert_ne, ?lookup_delete_ne in * by done;
    try done; [by left|right; eexists; split; [done|naive_solver]..].
Qed.

(** The first of finitely many steps at which the goroutine is no longer where
    it was. *)
Lemma first_change (P : nat -> Prop) `{!forall k, Decision (P k)} k n : P k ->
  (forall m, (k <= m <= k + n)%nat -> P m) \/
  exists m, (k <= m < k + n)%nat /\ (forall j, (k <= j <= m)%nat -> P j) /\ ~ P (S m).
Proof.
  intros Hk. induction n as [|n [IH|(m & Hm & Hb & Hn)]].
  - left. intros m Hm. by replace m with k by lia.
  - destruct (decide (P (S (k + n)))) as [HP|HP].
    + left. intros m Hm. destruct (decide (m = S (k + n))) as [->|]; [done|]. apply IH. lia.
    + right. exists (k + n)%nat. split; [lia|]. split; [apply IH|done].
  - right. exists m. split; [lia|]. done.
Qed.

(** C40. Nobody waits for ever, and busy means busy.  In every execution of the
    gate in which time passes and the scheduler is fair, a goroutine that waits
    in the [select] of [Acquire] comes out of it: it waits up to some step, and
    that step gives it a free slot, or the error of its own cancellation, or
    [ErrBusy] - and this last one not before the full timeout since it began to
    wait. *)
Theorem gate_wait_is_bounded start k t :
  execution start ->
  gs_procs (run k) !! i = Some (Waiting t) ->
  exists m, (k <= m)%nat /\
    (forall j, (k <= j <= m)%nat -> gs_procs (run j) !! i = Some (Waiting t)) /\
    ((gs_procs (run (S m)) !! i = Some Holding /\ gs_slots (run m) < gate_cap g) \/
     exists e, gs_procs (run (S m)) !! i = Some (Failed (gs_now (run m)) e) /\
       (e = Canceled \/ e = DeadlineExceeded \/ e = ErrBusy /\ t + gate_timeout g <= gs_now (run m))).
Proof.
  intros (_ & Hsteps & Htime & Hfair) Hk.
  assert (Hmono : forall a b, (a <= b)%nat -> gs_now (run a) <= gs_now (run b)).
  { intros a b. induction 1 as [|b _ IH]; [lia|]. pose proof (gstep_now _ _ (Hsteps b)). lia. }
  destruct (Htime (t + gate_timeout g)) as [T HT].
  destruct (Hfair (Nat.max k T)) as (m & Hm & Hout).
  destruct (first_change (fun j => gs_procs (run j) !! i = Some (Waiting t)) k (m - k) Hk) as [Hall|(m' & Hm' & Hb & Hne)].
  - exists m. split; [lia|]. split; [intros j Hj; apply Hall; lia|]. pose proof (Hall m ltac:(lia)) as Hw.
    apply leave_select; [done|done|].
    destruct Hout as [Hout|Hout]; [|by rewrite Hw in Hout]. destruct Hout. split; [by exists t|].
    pose proof (Hmono T m ltac:(lia)).
    eexists _, _. split; [apply (step_timer g (run m) i t); [done|lia]|]. simpl. rewrite lookup_insert_eq. eauto.
  - exists m'. split; [lia|]. split; [done|]. apply leave_select; [apply Hb; lia|done|done].
Qed.
End Liveness.

(** One slot: goroutine 0 gets it, goroutine 1 waits out its timeout, and then
    time passes. *)
Definition busy_run (k : nat) : gstate :=
  match k with
  | 0 => gs_init 0
  | 1 => MkGState 0 (<[0 := Waiting 0]> ∅) 0
  | 2 => MkGState 1 (<[0 := Holding]> (<[0 := Waiting 0]> ∅)) 0
  | 3 => gate_busy
  | 4 => MkGState 1 (gs_procs gate_busy) (2 * Second)
  | 5 => MkGState 1 (<[1 := Failed (2 * Second) ErrBusy]> (gs_procs gate_busy)) (2 * Second)
  | S (S (S (S (S j)))) => MkGState 1 (<[1 := Failed (2 * Second) ErrBusy]> (gs_procs gate_busy)) (2 * Second + Z.of_nat j)
  end%nat.

Lemma busy_run_execution : execution (NewGate 1 (2 * Second)) busy_run 1 0.
Proof.
  set (g := NewGate 1 (2 * Second)). split; [done|]. split_and!.
  - intros [|[|[|[|[|[|k]]]]]].
    + by apply (step_call g (busy_run 0) 0).
    + by apply (step_send g (busy_run 1) 0 0).
    + by apply (step_call g (busy_run 2) 1).
    + by apply (step_time g (busy_run 3) (2 * Second)).
    + by apply (step_timer g (busy_run 4) 1 0).
    + by apply (step_time g (busy_run 5) 1).
    + replace (busy_run (S (S (S (S (S (S (S k)))))))) with
        (MkGState 1 (gs_procs (busy_run 5)) (2 * Second + Z.of_nat (S k) + 1)) by (simpl; f_equal; lia).
      by apply (step_time g (busy_run (S (S (S (S (S (S k)))))) ) 1).
  - intros T. exists (6 + Z.to_nat T)%nat. cbn [busy_run Nat.add gs_now]. unfold Second. lia.
  - intros k. exists (Nat.max k 5). split; [lia|]. left. intros [[t Ht] _].
    destruct (Nat.max k 5) as [|[|[|[|[|[|m]]]]]] eqn:E; [lia..|done|done].
Qed.

Lemma gate_wait_is_bounded_witness :
  exists m, (3 <= m)%nat /\
    (gs_procs (busy_run (S m)) !! 1%nat = Some Holding \/
     exists e, gs_procs (busy_run (S m)) !! 1%nat = Some (Failed (gs_now (busy_run m)) e)).
Proof.
  destruct (gate_wait_is_bounded (NewGate 1 (2 * Second)) busy_run 1 0 3 0 busy_run_execution eq_refl)
    as (m & Hm & _ & [[Hh _]|(e & He & _)]); exists m; split; [done|by left|done|right; by exists e].
Defined.
