(* ===== verification/Crypto.v ===== *)
(** * Key derivation and password hashing ([internal/crypto/phc.go], [zero.go],
      [internal/auth/hasher.go], [internal/auth/random.go])

    The ciphers and the key-derivation function are parameters with their
    documented behaviour; randomness and the gate are operations on the state. *)
From S2P Require Import Prelude GoNum GoStr Codec Sha256 Errors.

(** ** Primitives

    AES-GCM ([crypto/aes], [crypto/cipher]) and Argon2id
    ([golang.org/x/crypto/argon2]).  [gcm_Open] authenticates: it accepts a
    ciphertext only when it is what [gcm_Seal] produces for the plaintext it
    returns. *)
Class Primitives : Type := {
  gcm_Seal : bytes -> bytes -> bytes -> bytes -> bytes;          (* key nonce plain aad *)
  gcm_Open : bytes -> bytes -> bytes -> bytes -> option bytes;   (* key nonce ct aad *)
  IDKey : bytes -> bytes -> Z -> Z -> Z -> bytes;  (* password salt time memory threads *)
  gcm_Open_Seal : forall k n p a, gcm_Open k n (gcm_Seal k n p a) a = Some p;
  gcm_Open_auth : forall k n c a p, gcm_Open k n c a = Some p -> c = gcm_Seal k n p a;
  gcm_Seal_length : forall k n p a, length (gcm_Seal k n p a) = (length p + 16)%nat;
  IDKey_length : forall pw s t m p, length (IDKey pw s t m p) = 32%nat
}.

(** An instance, to run the definitions: the tag is a truncated hash of the
    key, the nonce, the data and their lengths. *)
Definition len_prefix (b : bytes) : bytes := Decimal.format_nonneg (Z.of_nat (length b)) ++ of_str ":" ++ b.
Definition toy_tag (k n p a : bytes) : bytes :=
  take 16 (Sum256 (len_prefix k ++ len_prefix n ++ len_prefix a ++ p)).
Definition toy_Seal (k n p a : bytes) : bytes := p ++ toy_tag k n p a.
Definition toy_Open (k n c a : bytes) : option bytes :=
  let p := take (length c - 16) c in
  if decide (16 <= length c /\ drop (length c - 16) c = toy_tag k n p a)%nat then Some p else None.
Definition toy_IDKey (pw s : bytes) (t m p : Z) : bytes :=
  Sum256 (len_prefix pw ++ len_prefix s ++ of_str (Decimal.FormatInt t) ++ of_str "," ++
          of_str (Decimal.FormatInt m) ++ of_str "," ++ of_str (Decimal.FormatInt p)).

Lemma toy_tag_length k n p a : length (toy_tag k n p a) = 16%nat.
Proof. unfold toy_tag. rewrite length_take, Sum256_length. done. Qed.

#[local] Opaque toy_tag.
#[program] Definition toy_primitives : Primitives := {|
  gcm_Seal := toy_Seal; gcm_Open := toy_Open; IDKey := toy_IDKey |}.
Next Obligation.
  intros k n p a. unfold toy_Open, toy_Seal. rewrite !length_app, toy_tag_length.
  replace (length p + 16 - 16)%nat with (length p) by lia.
  rewrite take_app_length, drop_app_length, decide_True; [done|]. split; [lia|done].
Qed.
Next Obligation.
  intros k n c a p. unfold toy_Open, toy_Seal. case_decide as H; [|done].
  intros [= <-]. destruct H as [_ <-]. by rewrite take_drop.
Qed.
Next Obligation. intros. unfold toy_Seal. by rewrite length_app, toy_tag_length. Qed.
Next Obligation. intros. apply Sum256_length. Qed.
#[local] Transparent toy_tag.

(** The gate as the callers see it ([Gate.Acquire] and the release function it
    returns), and [crypto/rand.Read]. *)
Record GateOps (S : Type) : Type := MkGateOps {
  gate_Acquire : ctx -> M S unit;
  gate_Release : M S unit
}.
Arguments gate_Acquire {S} _ _.
Arguments gate_Release {S} _.

Record RandOps (S : Type) : Type := MkRandOps {
  rand_Read : nat -> M S bytes   (* fills a fresh buffer of that size *)
}.
Arguments rand_Read {S} _ _.

(** [rand.Read] fills the whole buffer or fails. *)
Class RandLaws {S} (r : RandOps S) : Prop := {
  rand_Read_length : forall n s b s', rand_Read r n s = (Ok b, s') -> length b = n
}.

(** [internal/crypto/zero.go]; also [zeroBytes] of [internal/paste/service.go]. *)
Definition Zero (b : bytes) : bytes := map (fun _ => Byte.x00) b.

Record Argon2Params : Type := MkArgon2Params {
  a2_Time : Z;
  a2_MemoryKiB : Z;
  a2_Threads : Z
}.

#[export] Instance Argon2Params_eq_dec : EqDecision Argon2Params.
Proof. solve_decision. Defined.

Section KDF.
Context `{Primitives} {S : Type} (rand : RandOps S).

(** [argon2.IDKey] panics on a zero time or thread count. *)
Definition argon2_IDKey (password salt : bytes) (p : Argon2Params) : M S bytes :=
  if (a2_Time p <? 1) || (a2_Threads p <? 1) then panic
  else mret (IDKey password salt (a2_Time p) (a2_MemoryKiB p) (a2_Threads p)).

Definition DeriveKey (c : ctx) (g : GateOps S) (password : string) (salt : bytes)
    (p : Argon2Params) : M S bytes :=
  gate_Acquire g c ;;
  defer (gate_Release g) (argon2_IDKey (of_str password) salt p).

Definition HashPassword (c : ctx) (g : GateOps S) (password : string) (p : Argon2Params)
    : M S string :=
  salt ← rand_Read rand 16;
  key ← DeriveKey c g password salt p;
  mret ("$argon2id$v=19$m=" +:+ Decimal.FormatInt (a2_MemoryKiB p) +:+
        ",t=" +:+ Decimal.FormatInt (a2_Time p) +:+ ",p=" +:+ Decimal.FormatInt (a2_Threads p) +:+
        "$" +:+ Base64.rawstd_EncodeToString salt +:+ "$" +:+ Base64.rawstd_EncodeToString key).

(** [fmt.Sscanf]: a literal must be present, [%d] into an unsigned field skips
    blanks and reads at least one digit of a value that fits. *)
Definition scan_lit (lit : string) (l : bytes) : option bytes :=
  if bytes_HasPrefix l (of_str lit) then Some (drop (length (of_str lit)) l) else None.

Definition scan_blank (b : byte) : bool :=
  (bval b =? 32) || (bval b =? 9) || (bval b =? 11) || (bval b =? 12).

Definition scan_uint (bits : Z) (l : bytes) : option (Z * bytes) :=
  let l := drop_while scan_blank l in
  v ← Decimal.parse_unsigned (take_while Decimal.is_digit l);
  if v <? 2 ^ bits then Some (v, drop_while Decimal.is_digit l) else None.

(** [fmt.Sscanf(s, "m=%d,t=%d,p=%d", &p.MemoryKiB, &p.Time, &p.Threads)];
    input after the last field is left unread. *)
Definition scan_params (s : string) : option Argon2Params :=
  l ← scan_lit "m=" (of_str s); '(m, l) ← scan_uint 32 l;
  l ← scan_lit ",t=" l; '(t, l) ← scan_uint 32 l;
  l ← scan_lit ",p=" l; '(p, _) ← scan_uint 8 l;
  Some (MkArgon2Params t m p).

Definition VerifyPassword (c : ctx) (g : GateOps S) (phc password : string) : M S bool :=
  match Split phc Byte.x24 with
  | [_; algo; version; params; salt64; hash64] =>
      if negb (bool_decide (algo = "argon2id")) || negb (bool_decide (version = "v=19"))
      then throw (NewError "crypto: unsupported phc string")
      else
        match scan_params params with
        | None => throw (Errorf "crypto: phc params" (NewError "scan"))
        | Some p =>
            match Base64.rawstd_DecodeString salt64 with
            | None => throw (NewError "illegal base64 data")
            | Some salt =>
                match Base64.rawstd_DecodeString hash64 with
                | None => throw (NewError "illegal base64 data")
                | Some want =>
                    got ← DeriveKey c g password salt p;
                    mret (bool_decide (got = want))
                end
            end
        end
  | _ => throw (NewError "crypto: unsupported phc string")
  end.

(** [auth.Argon2Hasher] *)
Definition mapBusy (err : error) : error :=
  if errors_Is err ErrBusy then ErrKDFBusy else err.

Definition Hasher_Hash (g : GateOps S) (params : Argon2Params) (c : ctx) (password : string)
    : M S string := wrap mapBusy (HashPassword c g password params).
Definition Hasher_Verify (g : GateOps S) (c : ctx) (phc password : string) : M S bool :=
  wrap mapBusy (VerifyPassword c g phc password).

(** [auth.RandomToken]: a failing generator panics. *)
Definition RandomToken (n : nat) : M S string :=
  r ← try (rand_Read rand n);
  match r with
  | inl _ => panic
  | inr b => mret (Base64.rawurl_EncodeToString b)
  end.
End KDF.

(** ** Hashing then verifying *)

Definition params_ok (p : Argon2Params) : Prop :=
  1 <= a2_Time p < 2 ^ 32 /\ 0 <= a2_MemoryKiB p < 2 ^ 32 /\ 1 <= a2_Threads p < 2 ^ 8.

Lemma scan_uint_format bits v rest :
  0 <= v < 2 ^ bits ->
  match rest with [] => True | x :: _ => Decimal.is_digit x = false end ->
  scan_uint bits (Decimal.format_nonneg v ++ rest) = Some (v, rest).
Proof.
  intros Hv Hr. unfold scan_uint.
  assert (Hd : Forall (fun b => Decimal.is_digit b = true) (Decimal.format_nonneg v))
    by (apply Decimal.digits_digit; [lia|constructor]).
  destruct (Decimal.format_nonneg_digit v) as (b & l & Hb & Hdb); [lia|].
  assert (Hblank : drop_while scan_blank (Decimal.format_nonneg v ++ rest) =
                   Decimal.format_nonneg v ++ rest).
  { rewrite Hb. simpl. unfold scan_blank. unfold Decimal.is_digit in Hdb. gobool.
    destruct (_ || _) eqn:E; [gobool; lia|done]. }
  rewrite Hblank. destruct (take_drop_while_app Decimal.is_digit _ rest Hd Hr) as [-> ->].
  rewrite Decimal.parse_format_nonneg by lia. simpl.
  by replace (v <? 2 ^ bits) with true by lia.
Qed.

Lemma scan_lit_app lit rest : scan_lit lit (of_str lit ++ rest) = Some rest.
Proof.
  unfold scan_lit. rewrite (proj2 (bytes_HasPrefix_spec _ _)) by eauto.
  by rewrite drop_app_length.
Qed.

Lemma FormatInt_nonneg n : 0 <= n -> of_str (Decimal.FormatInt n) = Decimal.format_nonneg n.
Proof.
  intros H. unfold Decimal.FormatInt. rewrite of_to_str.
  by replace (n <? 0) with false by lia.
Qed.

Definition params_text (p : Argon2Params) : string :=
  "m=" +:+ Decimal.FormatInt (a2_MemoryKiB p) +:+ ",t=" +:+ Decimal.FormatInt (a2_Time p) +:+
  ",p=" +:+ Decimal.FormatInt (a2_Threads p).

Lemma scan_params_text p : params_ok p -> scan_params (params_text p) = Some p.
Proof.
  intros (Ht & Hm & Hp). unfold scan_params, params_text. rewrite !of_str_app.
  rewrite !FormatInt_nonneg by lia.
  rewrite (scan_lit_app "m="). cbn [mbind option_bind].
  rewrite scan_uint_format by (done || lia). cbn [mbind option_bind].
  rewrite (scan_lit_app ",t="). cbn [mbind option_bind].
  rewrite scan_uint_format by (done || lia). cbn [mbind option_bind].
  rewrite (scan_lit_app ",p="). cbn [mbind option_bind].
  rewrite <-(app_nil_r (Decimal.format_nonneg (a2_Threads p))).
  rewrite scan_uint_format by (done || lia). simpl. by destruct p.
Qed.

Lemma digits_no_dollar v : 0 <= v -> Byte.x24 ∉ Decimal.format_nonneg v.
Proof.
  intros Hv Hin.
  assert (HF : Forall (fun b => Decimal.is_digit b = true) (Decimal.format_nonneg v))
    by (apply Decimal.digits_digit; [lia|constructor]).
  rewrite Forall_forall in HF. by specialize (HF _ Hin).
Qed.

Lemma params_text_no_dollar p : params_ok p -> Byte.x24 ∉ of_str (params_text p).
Proof.
  intros (Ht & Hm & Hp). unfold params_text. rewrite !of_str_app, !FormatInt_nonneg by lia.
  rewrite !not_elem_of_app. split_and!; try (apply digits_no_dollar; lia);
    by apply not_in_check.
Qed.

(** The text [HashPassword] returns. *)
Definition phc_text (p : Argon2Params) (salt key : bytes) : string :=
  "$argon2id$v=19$" +:+ params_text p +:+ "$" +:+ Base64.rawstd_EncodeToString salt +:+
  "$" +:+ Base64.rawstd_EncodeToString key.

Lemma phc_text_shape p salt key :
  of_str (phc_text p salt key) =
    [] ++ Byte.x24 :: of_str "argon2id" ++ Byte.x24 :: of_str "v=19" ++ Byte.x24 ::
    of_str (params_text p) ++ Byte.x24 :: of_str (Base64.rawstd_EncodeToString salt) ++
    Byte.x24 :: of_str (Base64.rawstd_EncodeToString key).
Proof. unfold phc_text. rewrite !of_str_app. reflexivity. Qed.

Lemma Split_phc_text p salt key :
  params_ok p ->
  Split (phc_text p salt key) Byte.x24 =
    [""; "argon2id"; "v=19"; params_text p; Base64.rawstd_EncodeToString salt;
     Base64.rawstd_EncodeToString key].
Proof.
  intros Hp. unfold Split. rewrite phc_text_shape.
  assert (Ha : Byte.x24 ∉ of_str "argon2id") by (by apply not_in_check).
  assert (Hv : Byte.x24 ∉ of_str "v=19") by (by apply not_in_check).
  rewrite bytes_Split_app by apply not_elem_of_nil.
  rewrite (bytes_Split_app (of_str "argon2id")) by done.
  rewrite (bytes_Split_app (of_str "v=19")) by done.
  rewrite (bytes_Split_app (of_str (params_text p))) by by apply params_text_no_dollar.
  rewrite bytes_Split_app by apply Base64.rawstd_no_dollar.
  rewrite bytes_Split_one by apply Base64.rawstd_no_dollar.
  cbn [map]. by rewrite !to_of_str.
Qed.

Section PHC.
Context `{Primitives} {S : Type} (rand : RandOps S).

(** A verification against the text of a hash derives the key of the candidate
    with the stored salt and parameters, and compares. *)
Lemma VerifyPassword_phc_text c (g : GateOps S) p salt key password s :
  params_ok p ->
  VerifyPassword c g (phc_text p salt key) password s =
    (got ← DeriveKey c g password salt p; mret (bool_decide (got = key))) s.
Proof.
  intros Hp. unfold VerifyPassword. rewrite Split_phc_text by done.
  rewrite !bool_decide_true by done. cbn [negb orb].
  rewrite scan_params_text by done. rewrite !Base64.rawstd_roundtrip. done.
Qed.

Lemma HashPassword_text c (g : GateOps S) password p s phc s' :
  HashPassword rand c g password p s = (Ok phc, s') ->
  exists salt s1, rand_Read rand 16 s = (Ok salt, s1) /\
    phc = phc_text p salt (IDKey (of_str password) salt (a2_Time p) (a2_MemoryKiB p) (a2_Threads p)).
Proof.
  unfold HashPassword, DeriveKey, argon2_IDKey. intros Hh. go_inv Hh.
  all: eexists _, _; split; [reflexivity|].
  all: apply (inj of_str); unfold phc_text, params_text.
  all: rewrite !of_str_app, <-!app_assoc; reflexivity.
Qed.

(** A hash verifies the password it was made from: whenever the gate lets
    the verification through, it reports a match exactly when the candidate
    derives the stored key, in particular for the password itself, and the gate
    is left as its release leaves it. *)
Theorem HashPassword_VerifyPassword c (g : GateOps S) password p s phc s' :
  params_ok p ->
  HashPassword rand c g password p s = (Ok phc, s') ->
  exists salt, forall c' candidate s1 s2 s3,
    gate_Acquire g c' s1 = (Ok tt, s2) -> gate_Release g s2 = (Ok tt, s3) ->
    let key pw := IDKey (of_str pw) salt (a2_Time p) (a2_MemoryKiB p) (a2_Threads p) in
    VerifyPassword c' g phc candidate s1 =
      (Ok (bool_decide (key candidate = key password)), s3) /\
    (candidate = password -> VerifyPassword c' g phc candidate s1 = (Ok true, s3)).
Proof.
  intros Hp (salt & s1 & Hr & ->)%HashPassword_text. exists salt.
  intros c' cand t1 t2 t3 Ha Hrel key.
  assert (Hv : VerifyPassword c' g (phc_text p salt (key password)) cand t1 =
               (Ok (bool_decide (key cand = key password)), t3)).
  { rewrite VerifyPassword_phc_text by done. unfold DeriveKey, argon2_IDKey. go_unfold.
    rewrite Ha. destruct Hp as (Ht & _ & Hth).
    replace ((a2_Time p <? 1) || (a2_Threads p <? 1)) with false by lia. by rewrite Hrel. }
  split; [done|]. intros ->. etransitivity; [exact Hv|]. by rewrite bool_decide_true.
Qed.
End PHC.

#[local] Existing Instance toy_primitives.

(** A gate that always has room, and a generator that always succeeds. *)
Definition free_gate {S} : GateOps S := MkGateOps S (fun _ => mret tt) (mret tt).
Definition zero_rand {S} : RandOps S := MkRandOps S (fun n => mret (replicate n Byte.x00)).

#[export] Instance zero_rand_laws {S} : RandLaws (@zero_rand S).
Proof. constructor. intros n s b s' [= <- <-]. apply length_replicate. Qed.

Lemma HashPassword_VerifyPassword_witness :
  let p := MkArgon2Params 3 32768 2 in
  exists phc, HashPassword zero_rand Background free_gate "correct horse" p tt = (Ok phc, tt) /\
    VerifyPassword Background free_gate phc "correct horse" tt = (Ok true, tt).
Proof.
  intros p. eexists. split; [reflexivity|].
  destruct (HashPassword_VerifyPassword zero_rand Background free_gate "correct horse" p tt _ tt
              ltac:(unfold params_ok; simpl; lia) eq_refl) as [salt Hs].
  apply (Hs Background "correct horse" tt tt tt eq_refl eq_refl). reflexivity.
Defined.
