(* ===== verification/Envelope.v ===== *)
(** * Envelope encryption ([internal/crypto/envelope.go])

    A paste is encrypted with a fresh data key, which is wrapped either with a
    server key or with a key derived from a password. *)
From S2P Require Import Prelude GoNum GoStr Codec Sha256 Errors Rfc3339 PasteTypes Crypto.

Definition envelopeAlgorithm : string := "aes256gcm".
Definition envelopeVersion : Z := 1.
Definition envelopeNonceLen : nat := 12.
Definition envelopeSaltLen : nat := 16.
Definition envelopeKeyLen : nat := 32.
Definition aes_BlockSize : nat := 16.

Record Envelope (S : Type) : Type := MkEnvelope {
  env_keys : gmap string (list Init.Byte.byte);
  env_active : string;
  env_gate : GateOps S;
  env_params : Argon2Params
}.
Arguments env_keys {S} _.
Arguments env_active {S} _.
Arguments env_gate {S} _.
Arguments env_params {S} _.

(** [%q], escapes aside. *)
Definition quoted (s : string) : string := to_str ([Byte.x22] ++ of_str s ++ [Byte.x22]).

Definition validateArgon2Params (p : Argon2Params) : res unit :=
  if (a2_Time p =? 0) || (a2_MemoryKiB p =? 0) || (a2_Threads p =? 0)
  then Err (NewError "cost values must be positive")
  else if a2_MemoryKiB p <? uint32 (8 * uint32 (a2_Threads p))
  then Err (NewError "memory must be at least 8 KiB per thread")
  else Ok tt.

Section Construct.
Context {S : Type}.

(** The loop over the ring: the first bad entry in iteration order is reported. *)
Fixpoint check_ring (l : list (string * bytes)) : res unit :=
  match l with
  | [] => Ok tt
  | (id, key) :: l' =>
      if bool_decide (id = "") then Err (NewError "crypto: empty master key id")
      else if negb (bool_decide (length key = envelopeKeyLen))
      then Err (NewError ("crypto: master key " +:+ quoted id +:+ " must be 32 bytes"))
      else check_ring l'
  end.

Definition NewEnvelope (keys : gmap string (list Init.Byte.byte)) (activeID : string)
    (gate : option (GateOps S)) (params : Argon2Params) : res (Envelope S) :=
  if bool_decide (keys = ∅) then Err (NewError "crypto: no master keys")
  else if bool_decide (activeID = "") then Err (NewError "crypto: empty active key id")
  else
    match check_ring (map_to_list keys) with
    | Err e => Err e
    | Panic => Panic
    | Ok _ =>
        match keys !! activeID with
        | None => Err (NewError ("crypto: active key " +:+ quoted activeID +:+ " not in ring"))
        | Some _ =>
            match gate with
            | None => Err (NewError "crypto: nil KDF gate")
            | Some g =>
                match validateArgon2Params params with
                | Err e => Err (Errorf "crypto: invalid KDF parameters" e)
                | Panic => Panic
                | Ok _ => Ok (MkEnvelope S keys activeID g params)
                end
            end
        end
    end.
End Construct.

Definition ActiveKEKID {S} (e : Envelope S) : string := env_active e.

Section Envelope.
Context `{Primitives} `{UUIDText} {S : Type} (rand : RandOps S) (e : Envelope S).

Definition bodyAAD (id : uuid) (expiresAt : Z) : bytes :=
  of_str (uuid_String id +:+ "|" +:+ Format_RFC3339 expiresAt).
Definition wrapAAD (id : uuid) : bytes := of_str (uuid_String id).

(** [aes.NewCipher] accepts keys of 16, 24 or 32 bytes; the AEAD of a key is
    the key. *)
Definition newGCM (key : bytes) : res bytes :=
  if bool_decide (length key = 16%nat) || bool_decide (length key = 24%nat) ||
     bool_decide (length key = 32%nat)
  then Ok key
  else Err (NewError ("crypto/aes: invalid key size " +:+
                      Decimal.FormatInt (Z.of_nat (length key)))).

(** [AEAD.Seal] and [AEAD.Open] panic on a nonce of the wrong length. *)
Definition aead_Seal (key nonce plain aad : bytes) : M S bytes :=
  if bool_decide (length nonce = 12%nat) then mret (gcm_Seal key nonce plain aad) else panic.
Definition aead_Open (key nonce ct aad : bytes) : M S bytes :=
  if bool_decide (length nonce = 12%nat) then
    match gcm_Open key nonce ct aad with
    | Some p => mret p
    | None => throw (NewError "cipher: message authentication failed")
    end
  else panic.

Definition randomBytes (size : nat) : M S bytes := rand_Read rand size.

Definition mapKDFError (err : error) : error :=
  if errors_Is err ErrBusy then ErrKDFBusy else err.

Definition Seal (c : ctx) (id : uuid) (expiresAt : Z) (plain : bytes) (password : string)
    : M S EncryptedBody :=
  dek ← randomBytes envelopeKeyLen;
  bodyAEAD ← wrap (Errorf "crypto: create body cipher") (lift (newGCM dek));
  bodyNonce ← wrap (Errorf "crypto: create body nonce") (randomBytes envelopeNonceLen);
  ciphertext ← aead_Seal bodyAEAD bodyNonce plain (bodyAAD id expiresAt);
  '(mode, kekID, kdf, wrapKey) ←
    (if bool_decide (password = "") then
       mret (WrapKEK, env_active e, None, default [] (env_keys e !! env_active e))
     else
       salt ← wrap (Errorf "crypto: create KDF salt") (randomBytes envelopeSaltLen);
       derived ← wrap mapKDFError (DeriveKey c (env_gate e) password salt (env_params e));
       mret (WrapPassword, "",
             Some (MkKDFParams salt (a2_Time (env_params e)) (a2_MemoryKiB (env_params e))
                     (a2_Threads (env_params e))), derived));
  wrapAEAD ← wrap (Errorf "crypto: create wrap cipher") (lift (newGCM wrapKey));
  wrapNonce ← wrap (Errorf "crypto: create wrap nonce") (randomBytes envelopeNonceLen);
  wrappedDEK ← aead_Seal wrapAEAD wrapNonce dek (wrapAAD id);
  mret (MkEncryptedBody envelopeVersion envelopeAlgorithm bodyNonce ciphertext mode kekID kdf
          wrapNonce wrappedDEK).

Definition kdf_params (k : KDFParams) : Argon2Params :=
  MkArgon2Params (kdf_Time k) (kdf_MemoryKiB k) (kdf_Threads k).

Definition validateRecord (rec : EncryptedBody) : res unit :=
  if negb (eb_Version rec =? envelopeVersion) || negb (bool_decide (eb_Alg rec = envelopeAlgorithm))
  then Err (NewError ("crypto: unsupported record " +:+ quoted (eb_Alg rec) +:+ " v" +:+
                      Decimal.FormatInt (eb_Version rec)))
  else if negb (bool_decide (length (eb_Nonce rec) = envelopeNonceLen))
  then Err (NewError "crypto: body nonce must be 12 bytes")
  else if bool_decide (length (eb_Ciphertext rec) < aes_BlockSize)%nat
  then Err (NewError "crypto: body ciphertext is too short")
  else if negb (bool_decide (length (eb_WrapNonce rec) = envelopeNonceLen))
  then Err (NewError "crypto: wrap nonce must be 12 bytes")
  else if negb (bool_decide (length (eb_WrappedDEK rec) = envelopeKeyLen + aes_BlockSize)%nat)
  then Err (NewError "crypto: wrapped DEK has invalid length")
  else if bool_decide (eb_WrapMode rec = WrapKEK) then
    if bool_decide (eb_KEKID rec = "") || negb (bool_decide (eb_KDF rec = None))
    then Err (NewError "crypto: malformed KEK-wrapped record")
    else Ok tt
  else if bool_decide (eb_WrapMode rec = WrapPassword) then
    match eb_KDF rec with
    | None => Err (NewError "crypto: malformed password-wrapped record")
    | Some k =>
        if negb (bool_decide (eb_KEKID rec = ""))
        then Err (NewError "crypto: malformed password-wrapped record")
        else if negb (bool_decide (length (kdf_Salt k) = envelopeSaltLen))
        then Err (NewError "crypto: KDF salt must be 16 bytes")
        else
          match validateArgon2Params (kdf_params k) with
          | Err err => Err (Errorf "crypto: invalid stored KDF parameters" err)
          | Panic => Panic
          | Ok _ =>
              if (a2_Time (env_params e) <? kdf_Time k) ||
                 (a2_MemoryKiB (env_params e) <? kdf_MemoryKiB k) ||
                 (a2_Threads (env_params e) <? kdf_Threads k)
              then Err (NewError "crypto: stored KDF parameters exceed configured budget")
              else Ok tt
          end
    end
  else Err (NewError ("crypto: unknown wrap mode " +:+ quoted (eb_WrapMode rec))).

(** The key that unwraps the data key: the [switch] of [Open].  A record that
    passed [validateRecord] has one of the two modes and, in password mode, its
    KDF parameters; reading absent ones would be a nil dereference. *)
Definition unwrapKey (c : ctx) (rec : EncryptedBody) (password : string) : M S bytes :=
  if bool_decide (eb_WrapMode rec = WrapKEK) then
    match env_keys e !! eb_KEKID rec with
    | None => throw ErrKeyUnavailable
    | Some key => mret key
    end
  else if bool_decide (eb_WrapMode rec = WrapPassword) then
    if bool_decide (password = "") then throw ErrPasswordRequired
    else
      match eb_KDF rec with
      | None => panic
      | Some k => wrap mapKDFError (DeriveKey c (env_gate e) password (kdf_Salt k) (kdf_params k))
      end
  else mret [].

Definition Open (c : ctx) (id : uuid) (expiresAt : Z) (rec : EncryptedBody) (password : string)
    : M S bytes :=
  lift (validateRecord rec) ;;
  wrapKey ← unwrapKey c rec password;
  wrapAEAD ← wrap (Errorf "crypto: create wrap cipher") (lift (newGCM wrapKey));
  dek ← wrap (fun err => if bool_decide (eb_WrapMode rec = WrapPassword) then ErrWrongPassword
                         else Errorf "crypto: unwrap DEK" err)
             (aead_Open wrapAEAD (eb_WrapNonce rec) (eb_WrappedDEK rec) (wrapAAD id));
  if negb (bool_decide (length dek = envelopeKeyLen))
  then throw (NewError "crypto: unwrapped DEK must be 32 bytes")
  else
    bodyAEAD ← wrap (Errorf "crypto: create body cipher") (lift (newGCM dek));
    wrap (Errorf "crypto: decrypt body")
         (aead_Open bodyAEAD (eb_Nonce rec) (eb_Ciphertext rec) (bodyAAD id expiresAt)).
End Envelope.

(** ** Well-formed envelopes *)

(** The widths of the parameters' Go types. *)
Definition params_typed (p : Argon2Params) : Prop :=
  0 <= a2_Time p < 2 ^ 32 /\ 0 <= a2_MemoryKiB p < 2 ^ 32 /\ 0 <= a2_Threads p < 2 ^ 8.

Record env_wf {S} (e : Envelope S) : Prop := {
  wf_keys : forall id k, env_keys e !! id = Some k -> id <> "" /\ length k = 32%nat;
  wf_active : is_Some (env_keys e !! env_active e);
  wf_typed : params_typed (env_params e);
  wf_params : validateArgon2Params (env_params e) = Ok tt
}.

Lemma check_ring_ok l :
  check_ring l = Ok tt -> Forall (fun kv => kv.1 <> "" /\ length kv.2 = 32%nat) l.
Proof.
  induction l as [|[id key] l IH]; cbn [check_ring]; intros Hc; [constructor|].
  repeat case_bool_decide; try done. constructor; [done|]. by apply IH.
Qed.

Lemma check_ring_complete l :
  Forall (fun kv => kv.1 <> "" /\ length kv.2 = 32%nat) l -> check_ring l = Ok tt.
Proof.
  induction 1 as [|[id key] l [Hid Hk] _ IH]; [done|]. cbn [check_ring]. simpl in *.
  rewrite bool_decide_false by done. by rewrite bool_decide_true.
Qed.

Lemma validateArgon2Params_ok p :
  params_typed p ->
  validateArgon2Params p = Ok tt <->
  1 <= a2_Time p /\ 1 <= a2_Threads p /\ 8 * a2_Threads p <= a2_MemoryKiB p /\ 1 <= a2_MemoryKiB p.
Proof.
  intros (Ht & Hm & Hp). unfold validateArgon2Params.
  rewrite (uint32_id (a2_Threads p)), uint32_id by lia.
  destruct (_ || _) eqn:E1; gobool; [split; [done|lia]|].
  destruct (_ <? _) eqn:E2; gobool; split; (done || lia || intros; lia).
Qed.

Lemma NewEnvelope_inv {S} keys activeID (gate : option (GateOps S)) params e :
  NewEnvelope keys activeID gate params = Ok e ->
  exists g, gate = Some g /\ e = MkEnvelope S keys activeID g params /\
    check_ring (map_to_list keys) = Ok tt /\ is_Some (keys !! activeID) /\
    validateArgon2Params params = Ok tt.
Proof.
  unfold NewEnvelope. intros He. repeat case_match; simplify_eq.
  eexists. repeat match goal with u : unit |- _ => destruct u end. eauto 10.
Qed.

Lemma NewEnvelope_complete {S} keys activeID (g : GateOps S) params :
  params_typed params ->
  (forall id k, keys !! id = Some k -> id <> "" /\ length k = 32%nat) -> is_Some (keys !! activeID) ->
  1 <= a2_Time params /\ 1 <= a2_Threads params /\
  8 * a2_Threads params <= a2_MemoryKiB params /\ 1 <= a2_MemoryKiB params ->
  exists e, NewEnvelope keys activeID (Some g) params = Ok e /\ env_wf e /\ env_keys e = keys /\ env_active e = activeID.
Proof.
  intros Ht Hk [k Ha] Hp. pose proof (proj2 (validateArgon2Params_ok params Ht) Hp) as Hv.
  exists (MkEnvelope S keys activeID g params). split_and!; [|by split|done|done].
  unfold NewEnvelope. rewrite bool_decide_false by (intros ->; by rewrite lookup_empty in Ha).
  rewrite bool_decide_false by (by apply (Hk _ _ Ha)).
  rewrite check_ring_complete; [by rewrite Ha, Hv|].
  apply Forall_forall. intros [id key] Hin%elem_of_map_to_list. simpl. by apply Hk.
Qed.

(** [NewEnvelope] accepts exactly the usable configurations: a ring of named
    32-byte keys that contains the active one, a gate, and cost parameters that
    are positive with 8 KiB of memory per thread; what it builds is well formed
    and has that ring. *)
Theorem NewEnvelope_accepts {S} keys activeID (gate : option (GateOps S)) params :
  params_typed params ->
  (exists e, NewEnvelope keys activeID gate params = Ok e /\ env_wf e /\
     env_keys e = keys /\ env_active e = activeID) <->
  ((forall id k, keys !! id = Some k -> id <> "" /\ length k = 32%nat) /\
   is_Some (keys !! activeID) /\ is_Some gate /\
   1 <= a2_Time params /\ 1 <= a2_Threads params /\
   8 * a2_Threads params <= a2_MemoryKiB params /\ 1 <= a2_MemoryKiB params).
Proof.
  intros Ht. split.
  - intros (e & (g & -> & -> & Hr & Ha & Hv)%NewEnvelope_inv & [Hk _ _ _] & _).
    apply validateArgon2Params_ok in Hv; [|done]. split_and!; [exact Hk|done|eauto|lia..].
  - intros (Hk & Ha & [g ->] & Hp). by apply NewEnvelope_complete.
Qed.

Lemma wf_costs {S} (e : Envelope S) :
  env_wf e -> 1 <= a2_Time (env_params e) /\ 1 <= a2_Threads (env_params e).
Proof. intros [_ _ Ht Hv]. apply validateArgon2Params_ok in Hv; [lia|done]. Qed.

Definition demo_params : Argon2Params := MkArgon2Params 3 32768 2.
Definition demo_key : bytes := replicate 32 Byte.x07.
Definition demo_envelope {S} : Envelope S :=
  MkEnvelope S {[ "k1" := demo_key ]} "k1" free_gate demo_params.

Lemma demo_envelope_wf {S} : env_wf (@demo_envelope S).
Proof.
  split; [|by exists demo_key|unfold params_typed; simpl; lia|done]. unfold demo_envelope. simpl.
  intros id k [<- <-]%lookup_singleton_Some. done.
Qed.

Lemma NewEnvelope_accepts_witness :
  exists e : Envelope unit,
    NewEnvelope {[ "k1" := demo_key ]} "k1" (Some free_gate) demo_params = Ok e /\ env_wf e /\
    env_keys e = {[ "k1" := demo_key ]} /\ env_active e = "k1".
Proof.
  apply (NewEnvelope_accepts {[ "k1" := demo_key ]} "k1" (Some free_gate) demo_params).
  - unfold params_typed; simpl; lia.
  - split_and!; [|by exists demo_key|eauto|simpl; lia..].
    intros id k [<- <-]%lookup_singleton_Some. done.
Defined.

(** ** Sealing and opening *)
Section Properties.
Context `{Primitives} `{UUIDText} {S : Type} (rand : RandOps S) (e : Envelope S).

(** What a sealed record holds. *)
Definition sealed (id : uuid) (t : Z) (plain : bytes) (pw : string) (rec : EncryptedBody) : Prop :=
  exists dek wrapKey,
    length dek = 32%nat /\ length wrapKey = 32%nat /\
    eb_Version rec = envelopeVersion /\ eb_Alg rec = envelopeAlgorithm /\
    length (eb_Nonce rec) = 12%nat /\ length (eb_WrapNonce rec) = 12%nat /\
    eb_Ciphertext rec = gcm_Seal dek (eb_Nonce rec) plain (bodyAAD id t) /\
    eb_WrappedDEK rec = gcm_Seal wrapKey (eb_WrapNonce rec) dek (wrapAAD id) /\
    ((pw = "" /\ eb_WrapMode rec = WrapKEK /\ eb_KEKID rec = env_active e /\ eb_KDF rec = None /\
      env_keys e !! env_active e = Some wrapKey) \/
     (pw <> "" /\ eb_WrapMode rec = WrapPassword /\ eb_KEKID rec = "" /\
      exists k, eb_KDF rec = Some k /\ length (kdf_Salt k) = 16%nat /\
        kdf_params k = env_params e /\
        wrapKey = IDKey (of_str pw) (kdf_Salt k) (a2_Time (env_params e))
                    (a2_MemoryKiB (env_params e)) (a2_Threads (env_params e)))).

Lemma newGCM_ok k k' : newGCM k = Ok k' -> k' = k.
Proof. unfold newGCM. destruct (_ || _); [congruence|done]. Qed.

Lemma newGCM_32 k : length k = 32%nat -> newGCM k = Ok k.
Proof. intros E. unfold newGCM. rewrite E. done. Qed.

Lemma DeriveKey_inv c (g : GateOps S) pw salt p s k s' :
  DeriveKey c g pw salt p s = (Ok k, s') ->
  1 <= a2_Time p /\ 1 <= a2_Threads p /\
  k = IDKey (of_str pw) salt (a2_Time p) (a2_MemoryKiB p) (a2_Threads p).
Proof. unfold DeriveKey, argon2_IDKey. intros Hd. go_inv Hd; gobool; split_and!; (done || lia). Qed.

Lemma Seal_sealed `{!RandLaws rand} c id t plain pw s rec s' :
  env_wf e ->
  Seal rand e c id t plain pw s = (Ok rec, s') -> sealed id t plain pw rec.
Proof.
  intros [Hk [ak Hak] _ Hv] Hs. unfold Seal, randomBytes, aead_Seal in Hs.
  destruct (rand_Read rand envelopeKeyLen s) as [[dek| |] s1] eqn:E1; go_inv Hs.
  all: repeat match goal with
       | X : newGCM _ = Ok _ |- _ => apply newGCM_ok in X; subst
       | X : rand_Read rand _ _ = (Ok _, _) |- _ => apply rand_Read_length in X
       | X : DeriveKey _ _ _ _ _ _ = (Ok _, _) |- _ => apply DeriveKey_inv in X as (? & ? & ?); subst
       end.
  all: gobool; rewrite ?Hak; simpl.
  - exists dek, ak. simpl. split_and!; try done; [by apply (Hk _ _ Hak)|by left].
  - eexists dek, (IDKey _ _ _ _ _). simpl.
    split_and!; try done; [apply IDKey_length|]. right. split_and!; [done..|].
    eexists. split_and!; [reflexivity|done| |reflexivity]. by destruct (env_params e).
Qed.

Lemma newGCM_no_panic k : newGCM k <> Panic.
Proof. unfold newGCM. by case_match. Qed.

Lemma validateRecord_no_panic rec : validateRecord e rec <> Panic.
Proof. unfold validateRecord, validateArgon2Params. by repeat case_match. Qed.

(** What a record that passed [validateRecord] looks like. *)
Lemma validateRecord_ok rec :
  validateRecord e rec = Ok tt ->
  length (eb_Nonce rec) = 12%nat /\ length (eb_WrapNonce rec) = 12%nat /\
  ((eb_WrapMode rec = WrapKEK /\ eb_KEKID rec <> "" /\ eb_KDF rec = None) \/
   (eb_WrapMode rec = WrapPassword /\ eb_KEKID rec = "" /\
    exists k, eb_KDF rec = Some k /\ length (kdf_Salt k) = 16%nat /\
      validateArgon2Params (kdf_params k) = Ok tt /\
      kdf_Time k <= a2_Time (env_params e) /\ kdf_MemoryKiB k <= a2_MemoryKiB (env_params e) /\
      kdf_Threads k <= a2_Threads (env_params e))).
Proof.
  unfold validateRecord. destruct (negb _ || negb _); [done|].
  case_bool_decide as Hn; [|done]. simpl. case_bool_decide; [done|].
  case_bool_decide as Hwn; [|done]. simpl. case_bool_decide; [|done]. simpl.
  intros Hm. split_and!; [done..|]. case_bool_decide as Em.
  - left. case_bool_decide; [done|]. by case_bool_decide.
  - right. case_bool_decide; [|done]. destruct (eb_KDF rec) as [k|]; [|done].
    case_bool_decide; [|done]. case_bool_decide; [|done]. simpl in Hm.
    destruct (validateArgon2Params (kdf_params k)) as [[]| |] eqn:Ev; [|done..].
    destruct (_ || _) eqn:Eb in Hm; [done|]. gobool.
    split_and!; [done..|]. exists k. split_and!; (done || lia).
Qed.

(** A record that [Seal] made passes the checks of [Open]. *)
Lemma sealed_valid id t plain pw rec :
  env_wf e -> sealed id t plain pw rec -> validateRecord e rec = Ok tt.
Proof.
  intros [Hk [ak Hak] _ Hv] (dek & wk & Hd & Hw & Ev & Ea & En & Ewn & Ect & Ewd & Hmode).
  unfold validateRecord. rewrite Ev, Ea, En, Ewn, Ect, Ewd, !gcm_Seal_length, Hd.
  rewrite Z.eqb_refl, !(bool_decide_true (_ = _)) by done. simpl.
  rewrite bool_decide_false by (unfold aes_BlockSize; lia).
  destruct Hmode as [(-> & -> & -> & -> & Hkey) | (Hpw & -> & -> & k & -> & Hs & Hp & _)].
  - rewrite !(bool_decide_true (_ = _)) by done.
    rewrite bool_decide_false; [done|]. by apply (Hk _ _ Hkey).
  - rewrite (bool_decide_false (WrapPassword = WrapKEK)) by done.
    rewrite Hs, !(bool_decide_true (_ = _)) by done. simpl.
    rewrite Hp, Hv, <-Hp. simpl. by rewrite !Z.ltb_irrefl.
Qed.

(** From the unwrapping key on, opening a sealed record yields the plaintext. *)
Lemma Open_sealed c id t t' plain pw rec pw' s s' wk :
  env_wf e -> sealed id t plain pw rec -> t' / Second = t / Second ->
  unwrapKey e c rec pw' s = (Ok wk, s') ->
  (forall dek k, eb_WrappedDEK rec = gcm_Seal k (eb_WrapNonce rec) dek (wrapAAD id) ->
     length dek = 32%nat -> length k = 32%nat ->
     eb_Ciphertext rec = gcm_Seal dek (eb_Nonce rec) plain (bodyAAD id t) -> k = wk ->
     Open e c id t' rec pw' s = (Ok plain, s')).
Proof.
  intros Hwf Hs Ht Hu dek k Ewd Hd Hk Ect ->. pose proof (sealed_valid _ _ _ _ _ Hwf Hs) as Hv.
  destruct Hs as (_ & _ & _ & _ & _ & _ & En & Ewn & _).
  unfold Open, aead_Open. go_unfold. rewrite Hv, Hu, newGCM_32 by done.
  rewrite Ewn, Ewd, gcm_Open_Seal. simpl. rewrite Hd. simpl.
  rewrite newGCM_32 by done. rewrite En, Ect. simpl.
  unfold bodyAAD. rewrite (Format_RFC3339_second t' t) by done. by rewrite gcm_Open_Seal.
Qed.

(** C12. What [Seal] encrypts, [Open] returns, under any expiry in the same
    second: without a password always and without touching the state; with the
    password whenever the gate lets the derivation through. *)
Theorem Seal_Open `{!RandLaws rand} c id t plain pw s rec s' :
  env_wf e ->
  Seal rand e c id t plain pw s = (Ok rec, s') ->
  forall c' t' s1, t' / Second = t / Second ->
  (pw = "" -> forall pw', Open e c' id t' rec pw' s1 = (Ok plain, s1)) /\
  (pw <> "" -> forall s2 s3,
     gate_Acquire (env_gate e) c' s1 = (Ok tt, s2) -> gate_Release (env_gate e) s2 = (Ok tt, s3) ->
     Open e c' id t' rec pw s1 = (Ok plain, s3)).
Proof.
  intros Hwf Hseal c' t' s1 Ht. pose proof (Seal_sealed _ _ _ _ _ _ _ _ Hwf Hseal) as Hs.
  pose proof Hs as (dek & wk & Hd & Hw & _ & _ & _ & _ & Ect & Ewd & Hmode). split.
  - intros Hpw pw'. destruct Hmode as [(_ & Em & Ek & _ & Hkey)|(? & _)]; [|done].
    eapply Open_sealed; eauto. unfold unwrapKey. by rewrite Em, Ek, Hkey.
  - intros Hpw s2 s3 Ha Hr.
    destruct Hmode as [(? & _)|(_ & Em & _ & k & Ekdf & Hsalt & Hp & ->)]; [done|].
    eapply Open_sealed; eauto. unfold unwrapKey. rewrite Em, Ekdf.
    rewrite (bool_decide_false (WrapPassword = WrapKEK)), (bool_decide_false (pw = "")) by done.
    rewrite (bool_decide_true (WrapPassword = WrapPassword)) by done.
    unfold DeriveKey, argon2_IDKey. go_unfold. rewrite Ha, Hp.
    pose proof (wf_costs e Hwf) as [Ht1 Ht2].
    replace ((a2_Time (env_params e) <? 1) || (a2_Threads (env_params e) <? 1)) with false by lia.
    by rewrite Hr.
Qed.

(** What an opening that succeeds went through. *)
Lemma Open_steps c id t rec pw s plain s' :
  Open e c id t rec pw s = (Ok plain, s') -> validateRecord e rec = Ok tt /\
  exists k s1 dek, unwrapKey e c rec pw s = (Ok k, s1) /\ length dek = 32%nat /\
    gcm_Open k (eb_WrapNonce rec) (eb_WrappedDEK rec) (wrapAAD id) = Some dek /\
    gcm_Open dek (eb_Nonce rec) (eb_Ciphertext rec) (bodyAAD id t) = Some plain.
Proof.
  unfold Open. go_unfold. intros Ho.
  destruct (validateRecord e rec) as [[]| |] eqn:Hv; [split; [done|]|done..].
  destruct (unwrapKey e c rec pw s) as [[wk| |] s1] eqn:Hu; [|done..].
  destruct (newGCM wk) as [wa| |] eqn:Hn; [|done..]. apply newGCM_ok in Hn. subst wa.
  unfold aead_Open, mret, M_ret, throw, panic in Ho.
  destruct (gcm_Open wk (eb_WrapNonce rec) _ _) as [dek|] eqn:Hw;
    [|repeat case_match; simplify_eq/=].
  case_bool_decide; [|done]. case_bool_decide as Hd; [|done]. simpl in Ho.
  rewrite newGCM_32 in Ho by done. case_bool_decide; [|done].
  destruct (gcm_Open dek _ _ _) as [p|] eqn:Hb; simplify_eq/=. by exists wk, s', dek.
Qed.

(** The key that unwraps a sealed record, for whoever has the password. *)
Lemma unwrapKey_sealed id t plain pw rec : sealed id t plain pw rec -> exists dek wrapKey,
  eb_WrappedDEK rec = gcm_Seal wrapKey (eb_WrapNonce rec) dek (wrapAAD id) /\
  eb_Ciphertext rec = gcm_Seal dek (eb_Nonce rec) plain (bodyAAD id t) /\
  forall c pw' s k s', pw = "" \/ pw' = pw -> unwrapKey e c rec pw' s = (Ok k, s') -> k = wrapKey.
Proof.
  intros (dek & wk & _ & _ & _ & _ & _ & _ & Ect & Ewd & Hmode). exists dek, wk. split; [done|]. split; [done|].
  intros c pw' s k s' Hpw Hu. unfold unwrapKey in Hu.
  destruct Hmode as [(-> & Em & Ek & _ & Hkey)|(Hne & Em & _ & kp & Ekdf & _ & Hp & ->)].
  - rewrite Em, Ek, Hkey, (bool_decide_true (WrapKEK = WrapKEK)) in Hu by done.
    unfold mret, M_ret in Hu. congruence.
  - destruct Hpw as [Hpw| ->]; [done|]. rewrite Em, Ekdf in Hu.
    rewrite (bool_decide_false (WrapPassword = WrapKEK)), (bool_decide_false (pw = "")) in Hu by done.
    rewrite (bool_decide_true (WrapPassword = WrapPassword)) in Hu by done.
    unfold wrap in Hu. destruct (DeriveKey _ _ _ _ _ _) as [[w| |] s2] eqn:Ed; simplify_eq/=.
    apply DeriveKey_inv in Ed as (_ & _ & ->). by rewrite Hp.
Qed.

(** [Open] authenticates: a plaintext comes out only of a record whose
    ciphertext is the encryption of that plaintext for this paste and this
    expiry, under a data key wrapped for this paste with the named server key
    or with the key the given password derives. *)
Theorem Open_authentic c id t rec pw s plain s' :
  Open e c id t rec pw s = (Ok plain, s') ->
  exists dek wrapKey,
    length dek = 32%nat /\
    eb_Ciphertext rec = gcm_Seal dek (eb_Nonce rec) plain (bodyAAD id t) /\
    eb_WrappedDEK rec = gcm_Seal wrapKey (eb_WrapNonce rec) dek (wrapAAD id) /\
    ((eb_WrapMode rec = WrapKEK /\ env_keys e !! eb_KEKID rec = Some wrapKey) \/
     (eb_WrapMode rec = WrapPassword /\ pw <> "" /\
      exists k, eb_KDF rec = Some k /\
        wrapKey = IDKey (of_str pw) (kdf_Salt k) (kdf_Time k) (kdf_MemoryKiB k) (kdf_Threads k))).
Proof.
  intros (Hv & wk & s1 & dek & Hu & Hd & Hw & Hb)%Open_steps.
  exists dek, wk. apply gcm_Open_auth in Hw, Hb. split_and!; [done..|].
  unfold unwrapKey, wrap, mret, M_ret, throw, panic in Hu.
  apply validateRecord_ok in Hv as (_ & _ & [(Em & _)|(Em & _ & k & Hk & _)]);
    rewrite Em in *; simpl in Hu.
  - left. destruct (env_keys e !! eb_KEKID rec); by simplify_eq/=.
  - right. case_bool_decide; [done|]. rewrite Hk in Hu. split_and!; [done..|].
    exists k. split; [done|].
    destruct (DeriveKey _ _ _ _ _ _) as [[w| |] s2] eqn:Ed; simplify_eq/=.
    by apply DeriveKey_inv in Ed as (_ & _ & ->).
Qed.

(** No stored record, however malformed or hostile, makes [Open] panic. *)
Lemma Open_no_panic c id t rec pw s :
  (forall s, fst (gate_Acquire (env_gate e) c s) <> Panic) ->
  (forall s, fst (gate_Release (env_gate e) s) <> Panic) ->
  (forall k, eb_KDF rec = Some k -> params_typed (kdf_params k)) ->
  fst (Open e c id t rec pw s) <> Panic.
Proof.
  intros Ha Hr Hty. unfold Open. go_unfold.
  destruct (validateRecord e rec) as [[]| |] eqn:Hv; [|done|by apply validateRecord_no_panic in Hv].
  apply validateRecord_ok in Hv as (Hn & Hwn & Hm).
  assert (Hu : fst (unwrapKey e c rec pw s) <> Panic).
  { destruct Hm as [(Em & _)|(Em & _ & k & Hk & _ & Hp & _)]; unfold unwrapKey; rewrite Em.
    - simpl. by case_match.
    - rewrite Hk. simpl. case_bool_decide; [done|].
      apply validateArgon2Params_ok in Hp; [|by apply Hty].
      unfold DeriveKey, argon2_IDKey. go_unfold. specialize (Ha s).
      destruct (gate_Acquire _ c s) as [[[]| |] s1]; [|done..]. specialize (Hr s1).
      replace ((a2_Time (kdf_params k) <? 1) || (a2_Threads (kdf_params k) <? 1)) with false by lia.
      by destruct (gate_Release _ s1) as [[[]| |] s2]. }
  destruct (unwrapKey e c rec pw s) as [[wk| |] s1]; [|done..].
  destruct (newGCM wk) as [wa| |] eqn:Hg; [|done|by apply newGCM_no_panic in Hg].
  unfold aead_Open. rewrite Hn, Hwn, !(bool_decide_true (12%nat = 12%nat)) by done.
  go_unfold. destruct (gcm_Open wa _ _ _) as [dek|]; [|done]. simpl.
  case_bool_decide; [|done]. simpl.
  destruct (newGCM dek) as [wb| |] eqn:Hg2; [|done|by apply newGCM_no_panic in Hg2].
  by destruct (gcm_Open wb _ _ _).
Qed.

(** A record whose stored derivation costs exceed the configured budget is
    refused before any work: the gate is not even asked for a slot. *)
Lemma Open_kdf_budget c id t rec pw s k :
  eb_WrapMode rec = WrapPassword -> eb_KDF rec = Some k ->
  a2_Time (env_params e) < kdf_Time k \/ a2_MemoryKiB (env_params e) < kdf_MemoryKiB k \/
    a2_Threads (env_params e) < kdf_Threads k ->
  exists err, Open e c id t rec pw s = (Err err, s).
Proof.
  intros Hm Hk Hx.
  unfold Open. go_unfold.
  destruct (validateRecord e rec) as [[]|err|] eqn:Hv; [|by exists err|by apply validateRecord_no_panic in Hv].
  exfalso. apply validateRecord_ok in Hv as (_ & _ & [(Em & _)|(_ & _ & k' & Hk' & _ & _ & Hb)]).
  - by rewrite Hm in Em.
  - rewrite Hk in Hk'. simplify_eq. lia.
Qed.

(** C36. A password-protected record opens with nothing else: without a
    password the server keys are of no use, and a password whose derived key
    does not authenticate the wrapped data key is reported as wrong. *)
Theorem Open_password_only `{!RandLaws rand} c id t plain pw s rec s' :
  env_wf e -> pw <> "" ->
  Seal rand e c id t plain pw s = (Ok rec, s') ->
  eb_KEKID rec = "" /\
  (forall c' id' t' s1, Open e c' id' t' rec "" s1 = (Err ErrPasswordRequired, s1)) /\
  exists k, eb_KDF rec = Some k /\
    forall c' t' pw' s1 s2 s3,
      pw' <> "" ->
      gate_Acquire (env_gate e) c' s1 = (Ok tt, s2) -> gate_Release (env_gate e) s2 = (Ok tt, s3) ->
      gcm_Open (IDKey (of_str pw') (kdf_Salt k) (kdf_Time k) (kdf_MemoryKiB k) (kdf_Threads k))
        (eb_WrapNonce rec) (eb_WrappedDEK rec) (wrapAAD id) = None ->
      Open e c' id t' rec pw' s1 = (Err ErrWrongPassword, s3).
Proof.
  intros Hwf Hpw Hseal. pose proof (Seal_sealed _ _ _ _ _ _ _ _ Hwf Hseal) as Hs.
  pose proof (sealed_valid _ _ _ _ _ Hwf Hs) as Hv.
  destruct Hs as (dek & wk & Hd & Hw & _ & _ & _ & Hwn & Ect & Ewd & [(? & _)|Hm]); [done|].
  destruct Hm as (_ & Em & Ek & k & Ekdf & Hsalt & Hp & _). split_and!; [done| |].
  { intros c' id' t' s1. unfold Open. go_unfold. rewrite Hv. unfold unwrapKey. by rewrite Em. }
  exists k. split; [done|]. intros c' t' pw' s1 s2 s3 Hpw' Ha Hr Hf.
  pose proof (wf_costs e Hwf) as [Ht1 Ht2].
  unfold Open. go_unfold. rewrite Hv. unfold unwrapKey. rewrite Em, Ekdf.
  rewrite (bool_decide_false (WrapPassword = WrapKEK)), (bool_decide_false (pw' = "")) by done.
  rewrite (bool_decide_true (WrapPassword = WrapPassword)) by done.
  unfold DeriveKey, argon2_IDKey, aead_Open. go_unfold. rewrite Ha, Hp.
  replace ((a2_Time (env_params e) <? 1) || (a2_Threads (env_params e) <? 1)) with false by lia.
  rewrite Hr, <-Hp. simpl. rewrite newGCM_32 by apply IDKey_length. by rewrite Hwn, Hf.
Qed.

Lemma bodyAAD_inj id id' t t' :
  rfc3339_year t -> rfc3339_year t' ->
  bodyAAD id t = bodyAAD id' t' -> id = id' /\ t / Second = t' / Second.
Proof.
  unfold bodyAAD. rewrite !of_str_app. intros Ht Ht' E.
  apply app_inj_1 in E as [E1 E2]; [|by rewrite !uuid_String_length].
  apply app_inv_head in E2. apply (inj of_str) in E1, E2.
  split; [by apply uuid_String_inj|by apply Format_RFC3339_inj].
Qed.

Lemma wrapAAD_inj id id' : wrapAAD id = wrapAAD id' -> id = id'.
Proof. unfold wrapAAD. intros E%(inj of_str). by apply uuid_String_inj. Qed.

(** What authentication means for one sealed text: under the key it was sealed
    with, it does not open with the additional data [a'] if these are others. *)
Definition authentic_for (k n p a a' : bytes) : Prop := a' <> a -> gcm_Open k n (gcm_Seal k n p a) a' = None.

(** C8. A record belongs to one paste and one second of expiry: whoever has the key
    or the password, [Open] yields nothing when it is given the id of another
    paste or another expiry.  The two hypotheses are the authentication of the
    additional data by the cipher, for the two texts of the record, under the
    keys they were sealed with, and for the data of this call. *)
Theorem Open_binds_id_and_expiry `{!RandLaws rand} c id t plain pw s rec s' :
  env_wf e -> rfc3339_year t ->
  Seal rand e c id t plain pw s = (Ok rec, s') ->
  exists dek wrapKey,
    eb_WrappedDEK rec = gcm_Seal wrapKey (eb_WrapNonce rec) dek (wrapAAD id) /\
    eb_Ciphertext rec = gcm_Seal dek (eb_Nonce rec) plain (bodyAAD id t) /\
    (forall c' pw' s1 k s2, pw = "" \/ pw' = pw -> unwrapKey e c' rec pw' s1 = (Ok k, s2) -> k = wrapKey) /\
    forall c' id' t' pw' s1, pw = "" \/ pw' = pw -> rfc3339_year t' -> id' <> id \/ t' / Second <> t / Second ->
      authentic_for wrapKey (eb_WrapNonce rec) dek (wrapAAD id) (wrapAAD id') ->
      authentic_for dek (eb_Nonce rec) plain (bodyAAD id t) (bodyAAD id' t') ->
      forall p s2, Open e c' id' t' rec pw' s1 <> (Ok p, s2).
Proof.
  intros Hwf Ht Hseal. pose proof (Seal_sealed _ _ _ _ _ _ _ _ Hwf Hseal) as Hs.
  destruct (unwrapKey_sealed _ _ _ _ _ Hs) as (dek & wk & Ewd & Ect & Hkey). exists dek, wk. split; [done|]. split; [done|]. split; [exact Hkey|].
  intros c' id' t' pw' s1 Hpw Ht' Hother Hwrap Hbody p s2 Ho.
  apply Open_steps in Ho as (_ & k & s3 & dek' & Hu & _ & Hod & Hob). apply Hkey in Hu as ->; [|done].
  rewrite Ewd in Hod. rewrite Ect in Hob.
  destruct (decide (wrapAAD id' = wrapAAD id)) as [Eid|Hne]; [|by rewrite Hwrap in Hod].
  rewrite Eid, gcm_Open_Seal in Hod. injection Hod as <-.
  destruct (decide (bodyAAD id' t' = bodyAAD id t)) as [Eb|Hne]; [|by rewrite Hbody in Hob].
  apply bodyAAD_inj in Eb as [-> Et]; [|done..]. by destruct Hother.
Qed.
End Properties.

(** ** Running the definitions *)
#[local] Existing Instance toy_primitives.
#[local] Existing Instance canonical_uuid_text.

Definition demo_expiry : Z := 1757592000 * Second + 123456789.
Definition demo_seal (pw : string) : res EncryptedBody :=
  fst (Seal (S := unit) zero_rand demo_envelope Background uuid_Nil demo_expiry (of_str "secret") pw tt).
Definition demo_rec (pw : string) : EncryptedBody :=
  match demo_seal pw with
  | Ok r => r
  | _ => MkEncryptedBody 0 "" [] [] "" "" None [] []
  end.

Lemma demo_seal_ok pw :
  Seal (S := unit) zero_rand demo_envelope Background uuid_Nil demo_expiry (of_str "secret") pw tt =
    (Ok (demo_rec pw), tt).
Proof. unfold demo_rec, demo_seal, Seal. go_unfold. simpl. by case_bool_decide. Qed.

Lemma Seal_Open_witness :
  Open demo_envelope Background uuid_Nil (1757592000 * Second) (demo_rec "") "" tt =
    (Ok (of_str "secret"), tt) /\
  Open demo_envelope Background uuid_Nil demo_expiry (demo_rec "hunter2hunter2") "hunter2hunter2" tt =
    (Ok (of_str "secret"), tt).
Proof.
  split.
  - apply (Seal_Open zero_rand demo_envelope Background uuid_Nil demo_expiry (of_str "secret") ""
             tt _ tt demo_envelope_wf (demo_seal_ok "")); reflexivity.
  - apply (Seal_Open zero_rand demo_envelope Background uuid_Nil demo_expiry (of_str "secret")
             "hunter2hunter2" tt _ tt demo_envelope_wf (demo_seal_ok _)) with (s2 := tt); done.
Defined.

Lemma Open_authentic_witness :
  exists dek wrapKey,
    length dek = 32%nat /\
    eb_Ciphertext (demo_rec "") = gcm_Seal dek (eb_Nonce (demo_rec "")) (of_str "secret")
                                    (bodyAAD uuid_Nil demo_expiry) /\
    eb_WrappedDEK (demo_rec "") = gcm_Seal wrapKey (eb_WrapNonce (demo_rec "")) dek (wrapAAD uuid_Nil) /\
    ((eb_WrapMode (demo_rec "") = WrapKEK /\
      env_keys (@demo_envelope unit) !! eb_KEKID (demo_rec "") = Some wrapKey) \/
     (eb_WrapMode (demo_rec "") = WrapPassword /\ "" <> "" /\
      exists k, eb_KDF (demo_rec "") = Some k /\
        wrapKey = IDKey (of_str "") (kdf_Salt k) (kdf_Time k) (kdf_MemoryKiB k) (kdf_Threads k))).
Proof.
  apply (Open_authentic demo_envelope Background uuid_Nil demo_expiry (demo_rec "") "" tt
           (of_str "secret") tt).
  vm_compute. reflexivity.
Defined.

Lemma Open_no_panic_witness :
  fst (Open (@demo_envelope unit) Background uuid_Nil 0
         (MkEncryptedBody 1 "aes256gcm" [] [] "pw" "" (Some (MkKDFParams [] 0 0 0)) [] []) "x" tt)
    <> Panic.
Proof.
  apply (Open_no_panic demo_envelope); [done|done|].
  intros k [= <-]. unfold params_typed. simpl. lia.
Defined.

Lemma Open_kdf_budget_witness :
  exists err, Open (@demo_envelope unit) Background uuid_Nil 0
    (MkEncryptedBody 1 "aes256gcm" (replicate 12 Byte.x00) (replicate 16 Byte.x00) "pw" ""
       (Some (MkKDFParams (replicate 16 Byte.x00) 4 32768 2)) (replicate 12 Byte.x00)
       (replicate 48 Byte.x00)) "x" tt = (Err err, tt).
Proof.
  apply (Open_kdf_budget demo_envelope) with (k := MkKDFParams (replicate 16 Byte.x00) 4 32768 2);
    [done|done|]. simpl. lia.
Defined.

Lemma Open_password_only_witness :
  Open (@demo_envelope unit) Background uuid_Nil demo_expiry (demo_rec "hunter2hunter2") "guess" tt =
    (Err ErrWrongPassword, tt).
Proof.
  destruct (Open_password_only zero_rand demo_envelope Background uuid_Nil demo_expiry
              (of_str "secret") "hunter2hunter2" tt _ tt demo_envelope_wf ltac:(done) (demo_seal_ok _))
    as (_ & _ & k & Hk & Hw).
  apply (Hw Background demo_expiry "guess" tt tt tt); [done|done|done|].
  injection Hk as <-. vm_compute. reflexivity.
Defined.

Definition other_id : uuid := vreplicate 16 Byte.x01.
Abbreviation locked_rec := (demo_rec "hunter2hunter2").
Abbreviation demo_open id t := (Open (S := unit) demo_envelope Background id t locked_rec "hunter2hunter2" tt).

Lemma Open_binds_id_and_expiry_witness :
  demo_open uuid_Nil demo_expiry = (Ok (of_str "secret"), tt) /\
  (forall p s2, demo_open other_id demo_expiry <> (Ok p, s2)) /\
  (forall p s2, demo_open uuid_Nil (demo_expiry + Second) <> (Ok p, s2)).
Proof.
  split; [vm_compute; reflexivity|].
  assert (Hy : forall t, t = demo_expiry \/ t = demo_expiry + Second -> rfc3339_year t)
    by (intros t [-> | ->]; unfold rfc3339_year; vm_compute; repeat split; try discriminate; reflexivity).
  destruct (Open_binds_id_and_expiry zero_rand demo_envelope Background uuid_Nil demo_expiry (of_str "secret") "hunter2hunter2"
    tt locked_rec tt demo_envelope_wf (Hy _ (or_introl eq_refl)) (demo_seal_ok _)) as (dek & wk & Ewd & Ect & Hk & H).
  destruct (unwrapKey (S := unit) demo_envelope Background locked_rec "hunter2hunter2" tt) as [[k|err|] s] eqn:Eu;
    [|vm_compute in Eu; discriminate|vm_compute in Eu; discriminate].
  specialize (Hk _ _ _ _ _ (or_intror eq_refl) Eu). subst k.
  assert (Hwk : unwrapKey (S := unit) demo_envelope Background locked_rec "hunter2hunter2" tt = (Ok wk, s)) by exact Eu.
  vm_compute in Eu. injection Eu as Ewk _. subst wk.
  match type of Ewd with _ = gcm_Seal ?wk ?n _ ?a => pose proof (gcm_Open_Seal wk n dek a) as Edek end.
  rewrite <-Ewd in Edek. vm_compute in Edek. injection Edek as Edek. subst dek.
  split.
  - apply H; [by right|apply Hy; by left|left; intros E; by apply (f_equal vec_to_list) in E| |].
    all: unfold authentic_for; rewrite <-?Ewd, <-?Ect; intros _; vm_compute; reflexivity.
  - apply H; [by right|apply Hy; by right|right; vm_compute; discriminate| |].
    + intros Hne. by destruct Hne.
    + unfold authentic_for. rewrite <-Ect. intros _. vm_compute. reflexivity.
Defined.
