(* ===== verification/Ports.v ===== *)
(** * Interfaces between the components

    The Go interfaces of [internal/paste/ports.go] and [internal/audit/ports.go]
    as records of operations on a state [S].  Clients are verified against
    these records; the stores, the envelope and the sinks instantiate them. *)
From S2P Require Import Prelude GoNum GoStr Codec Errors PasteTypes.

Section Ports.
Context (S : Type).

Record BodyStore : Type := MkBodyStore {
  Bodies_Put : ctx -> uuid -> EncryptedBody -> Z -> M S unit;
  Bodies_Get : ctx -> uuid -> M S EncryptedBody;
  Bodies_Delete : ctx -> uuid -> M S unit;
  Bodies_MarkUnavailableOnce : ctx -> uuid -> Z -> M S bool;
  Bodies_Ping : ctx -> M S unit
}.

Record MetaStore : Type := MkMetaStore {
  Metas_Create : ctx -> PasteMeta -> M S unit;
  Metas_Get : ctx -> uuid -> M S PasteMeta;
  Metas_IncrementViews : ctx -> uuid -> M S unit;
  Metas_MarkDeleted : ctx -> uuid -> uuid -> Z -> M S unit;
  Metas_ListByOwner : ctx -> uuid -> Page -> M S (list PasteMeta);
  Metas_ListAll : ctx -> option uuid -> Page -> M S (list PasteMeta);
  Metas_ListExpiredUnaudited : ctx -> Z -> Z -> M S (list PasteMeta);
  Metas_MarkExpiredAudited : ctx -> list uuid -> Z -> M S unit;
  Metas_PurgeOlderThan : ctx -> Z -> M S Z;
  Metas_CountActive : ctx -> Z -> M S Z;
  Metas_Ping : ctx -> M S unit
}.

Record EnvelopePort : Type := MkEnvelopePort {
  Env_Seal : ctx -> uuid -> Z -> bytes -> string -> M S EncryptedBody;
  Env_Open : ctx -> uuid -> Z -> EncryptedBody -> string -> M S bytes;
  Env_ActiveKEKID : string
}.

(** [audit.Sink]: recording an event returns nothing and cannot fail its caller. *)
Definition Sink : Type := ctx -> Event -> S -> S.

Record Service : Type := MkService {
  Svc_Create : ctx -> Principal -> CreateInput -> M S CreateResult;
  Svc_Read : ctx -> option Principal -> uuid -> string -> M S ReadResult;
  Svc_Verify : ctx -> uuid -> string -> M S VerifyResult;
  Svc_Delete : ctx -> Principal -> uuid -> M S unit;
  Svc_ListMine : ctx -> Principal -> Page -> M S (list PasteMeta);
  Svc_ListAll : ctx -> Principal -> option uuid -> Page -> M S (list PasteMeta)
}.
End Ports.

Arguments Bodies_Put {S} _. Arguments Bodies_Get {S} _. Arguments Bodies_Delete {S} _.
Arguments Bodies_MarkUnavailableOnce {S} _. Arguments Bodies_Ping {S} _.
Arguments Metas_Create {S} _. Arguments Metas_Get {S} _. Arguments Metas_IncrementViews {S} _.
Arguments Metas_MarkDeleted {S} _. Arguments Metas_ListByOwner {S} _. Arguments Metas_ListAll {S} _.
Arguments Metas_ListExpiredUnaudited {S} _. Arguments Metas_MarkExpiredAudited {S} _.
Arguments Metas_PurgeOlderThan {S} _. Arguments Metas_CountActive {S} _. Arguments Metas_Ping {S} _.
Arguments Env_Seal {S} _. Arguments Env_Open {S} _. Arguments Env_ActiveKEKID {S} _.
Arguments Svc_Create {S} _. Arguments Svc_Read {S} _. Arguments Svc_Verify {S} _.
Arguments Svc_Delete {S} _. Arguments Svc_ListMine {S} _. Arguments Svc_ListAll {S} _.

(** Reading the clock: it always answers and the state remembers that time has
    passed.  Writing to a sink: only the state changes. *)
Definition read_clock {S} (now : S -> Z * S) : M S Z := fun s => let '(t, s') := now s in (Ok t, s').
Definition emit {S} (sink : Sink S) (c : ctx) (ev : Event) : M S unit := fun s => (Ok tt, sink c ev s).

(** ** Audit sinks ([internal/audit]) *)

(** [audit.WithRequestInfo] and [audit.RequestInfo] *)
Definition WithRequestInfo (c : ctx) (ip ua : string) : ctx :=
  Ctx (Some (ip, ua)) (ctx_cancelable c) (ctx_timeout c).
Definition RequestInfo (c : ctx) : string * string := default ("", "") (ctx_info c).

(** The part the sinks share: an empty address or user agent is filled from
    the request, and a zero instant from the clock. *)
Definition fill_request (c : ctx) (e : Event) : Event :=
  if bool_decide (ev_IP e = "") || bool_decide (ev_UserAgent e = "") then
    let '(ip, ua) := RequestInfo c in
    MkEvent (ev_At e) (ev_Event e) (ev_ActorID e) (ev_PasteID e)
      (if bool_decide (ev_IP e = "") then ip else ev_IP e)
      (if bool_decide (ev_UserAgent e = "") then ua else ev_UserAgent e)
      (ev_Outcome e) (ev_Details e)
  else e.

Definition set_At (t : Z) (e : Event) : Event :=
  MkEvent t (ev_Event e) (ev_ActorID e) (ev_PasteID e) (ev_IP e) (ev_UserAgent e)
    (ev_Outcome e) (ev_Details e).

Definition fill_time {S} (now : S -> Z * S) (e : Event) (s : S) : Event * S :=
  if IsZero (ev_At e) then let '(t, s') := now s in (set_At t e, s') else (e, s).

(** [logSink.Record]: the attributes of the log line, in order. *)
Definition log_attrs `{UUIDText} (e : Event) : list (string * value) :=
  [("event", VStr (ev_Event e)); ("outcome", VStr (ev_Outcome e)); ("at", VTime (ev_At e));
   ("ip", VStr (ev_IP e)); ("user_agent", VStr (ev_UserAgent e))] ++
  match ev_ActorID e with Some a => [("actor_id", VStr (uuid_String a))] | None => [] end ++
  match ev_PasteID e with Some p => [("paste_id", VStr (uuid_String p))] | None => [] end ++
  match ev_Details e with [] => [] | d => [("details", VObj d)] end.

Definition logSink_Record `{UUIDText} {S} (now : S -> Z * S)
    (info : list (string * value) -> S -> S) : Sink S := fun c e s =>
  let '(e, s) := fill_time now e s in
  info (log_attrs (fill_request c e)) s.

(** [audit.Multi.Record]: every sink gets the event, in order. *)
Fixpoint Multi_Record {S} (sinks : list (Sink S)) : Sink S := fun c e s =>
  match sinks with
  | [] => s
  | sink :: rest => Multi_Record rest c e (sink c e s)
  end.
