(* ===== verification/Service.v ===== *)
(** * The paste service ([internal/paste/service.go]) *)
From S2P Require Import Prelude GoNum GoStr Codec Json Errors PasteTypes Canonical Crypto Ports.

Record Limits : Type := MkLimits {
  MaxSize : Z;
  TTLDefault : Z;
  TTLMin : Z;
  TTLMax : Z
}.

Record Deps (S : Type) : Type := MkDeps {
  d_Bodies : BodyStore S;
  d_Metas : MetaStore S;
  d_Envelope : EnvelopePort S;
  d_Audit : option (Sink S);      (* nil disables auditing *)
  d_Now : S -> Z * S;
  d_NewUUID : M S uuid;           (* uuid.New *)
  d_BaseURL : string;
  d_Limits : Limits
}.
Arguments d_Bodies {S} _. Arguments d_Metas {S} _. Arguments d_Envelope {S} _.
Arguments d_Audit {S} _. Arguments d_Now {S} _. Arguments d_NewUUID {S} _.
Arguments d_BaseURL {S} _. Arguments d_Limits {S} _.

Definition PasteURL `{UUIDText} (baseURL : string) (id : uuid) : string :=
  TrimRight baseURL Byte.x2f +:+ "/pastebin/" +:+ uuid_String id.

Definition actorOf (p : option Principal) : option uuid :=
  match p with None => None | Some p => Some (pr_UserID p) end.

Section Service.
Context `{UUIDText} {S : Type} (d : Deps S).

Definition Now : M S Z := read_clock (d_Now d).

Definition record (c : ctx) (event : string) (actor id : option uuid) (outcome : string)
    (details : list (string * value)) : M S unit :=
  match d_Audit d with
  | None => mret tt
  | Some sink =>
      at_ ← Now;
      emit sink c (MkEvent at_ event actor id "" "" outcome details)
  end.

(** The checks of [Create] that come before any effect: the TTL in force and
    the canonical buffer. *)
Definition create_checks (inp : CreateInput) : res (Z * bytes) :=
  let ttl := if in_TTLSeconds inp =? 0 then TTLDefault (d_Limits d) else in_TTLSeconds inp in
  if (ttl <? TTLMin (d_Limits d)) || (TTLMax (d_Limits d) <? ttl) then Err ErrInvalidTTL
  else if negb (utf8_ValidString (in_Password inp)) ||
          (negb (bool_decide (in_Password inp = "")) &&
           (128 <? RuneCountInString (in_Password inp)))
  then Err ErrInvalidPassword
  else
    match Canonicalize (in_Content inp) (MaxSize (d_Limits d)) with
    | Ok canonical => Ok (ttl, canonical)
    | Err e => Err e
    | Panic => Panic
    end.

(** The row [Create] builds. *)
Definition create_meta (p : Principal) (inp : CreateInput) (ttl : Z) (canonical : bytes)
    (now : Z) (id : uuid) : PasteMeta :=
  MkPasteMeta id (pr_UserID p) now (time_Add now (dur_mul ttl Second)) ttl
    (Z.of_nat (length canonical)) "sha256" (HashHex canonical)
    (negb (bool_decide (in_Password inp = ""))) "" 0 None None None.

Definition with_KEKID (m : PasteMeta) (kek : string) : PasteMeta :=
  MkPasteMeta (pm_ID m) (pm_OwnerID m) (pm_CreatedAt m) (pm_ExpiresAt m) (pm_TTLSeconds m)
    (pm_SizeBytes m) (pm_HashAlgo m) (pm_ContentHash m) (pm_PasswordProtected m) kek
    (pm_ViewCount m) (pm_ExpiredAuditedAt m) (pm_DeletedAt m) (pm_DeletedBy m).

(** The two [zeroBytes(canonical)] overwrite a buffer that nothing reads
    afterwards: [Seal] returns bytes of its own. *)
Definition Create (c : ctx) (p : Principal) (inp : CreateInput) : M S CreateResult :=
  '(ttl, canonical) ← lift (create_checks inp);
  now ← Now;
  id ← d_NewUUID d;
  let m := create_meta p inp ttl canonical now id in
  rec ← Env_Seal (d_Envelope d) c id (pm_ExpiresAt m) canonical (in_Password inp);
  let m := if negb (pm_PasswordProtected m) then with_KEKID m (eb_KEKID rec) else m in
  now2 ← Now;
  let remaining := time_Sub (pm_ExpiresAt m) now2 in
  if remaining <=? 0 then throw ErrExpired
  else
    wrap (Errorf "store body") (Bodies_Put (d_Bodies d) c id rec remaining) ;;
    r ← try (Metas_Create (d_Metas d) c m);
    match r with
    | inl err =>
        ignore (Bodies_Delete (d_Bodies d) (WithTimeout (WithoutCancel c) (5 * Second)) id) ;;
        throw (Errorf "store metadata" err)
    | inr _ =>
        record c PasteCreated (Some (pr_UserID p)) (Some id) OutcomeSuccess
          [("size_bytes", VInt (pm_SizeBytes m)); ("ttl_seconds", VInt ttl);
           ("password_protected", VBool (pm_PasswordProtected m))] ;;
        mret (MkCreateResult m (PasteURL (d_BaseURL d) id))
    end.

Definition Read (c : ctx) (p : option Principal) (id : uuid) (password : string) : M S ReadResult :=
  m ← Metas_Get (d_Metas d) c id;
  now ← Now;
  let hashVisible := negb (pm_PasswordProtected m) in
  let result st := MkReadResult m st None hashVisible in
  let status := PasteMeta_Status m now in
  if negb (bool_decide (status = StatusActive)) then mret (result status)
  else
    r ← try (Bodies_Get (d_Bodies d) c id);
    now ← Now;
    if negb (Before now (pm_ExpiresAt m)) then mret (result StatusExpired)
    else
      match r with
      | inl err =>
          if errors_Is err ErrNotFound then
            first ← try (Bodies_MarkUnavailableOnce (d_Bodies d) c id
                           (int64 (time_Sub (pm_ExpiresAt m) now + Hour)));
            match first with
            | inr true => record c PasteUnavailable (actorOf p) (Some id) OutcomeFailure []
            | _ => mret tt
            end ;;
            mret (result StatusUnavailable)
          else throw err
      | inr rec =>
          if pm_PasswordProtected m && bool_decide (password = "") then mret (result status)
          else
            o ← try (Env_Open (d_Envelope d) c id (pm_ExpiresAt m) rec password);
            match o with
            | inl err =>
                (if errors_Is err ErrWrongPassword
                 then record c PasteUnlockFailure (actorOf p) (Some id) OutcomeFailure []
                 else mret tt) ;;
                throw err
            | inr plain =>
                now ← Now;
                if negb (Before now (pm_ExpiresAt m)) then mret (result StatusExpired)
                else
                  ignore (Metas_IncrementViews (d_Metas d) c id) ;;
                  now ← Now;
                  if negb (Before now (pm_ExpiresAt m)) then mret (result StatusExpired)
                  else
                    (if pm_PasswordProtected m
                     then record c PasteUnlockSuccess (actorOf p) (Some id) OutcomeSuccess []
                     else record c PasteViewed (actorOf p) (Some id) OutcomeSuccess []) ;;
                    now ← Now;
                    if negb (Before now (pm_ExpiresAt m)) then mret (result StatusExpired)
                    else mret (MkReadResult m status (Some plain) true)
            end
      end.

Definition Verify (c : ctx) (id : uuid) (sha256hex : string) : M S VerifyResult :=
  m ← Metas_Get (d_Metas d) c id;
  let matched := EqualFold (TrimSpace sha256hex) (pm_ContentHash m) in
  now ← Now;
  let status := PasteMeta_Status m now in
  let outcome := if matched then OutcomeSuccess else OutcomeFailure in
  record c PasteVerify None (Some id) outcome
    [("match", VBool matched); ("status", VStr (Status_string status))] ;;
  mret (MkVerifyResult matched status m).

Definition Delete (c : ctx) (p : Principal) (id : uuid) : M S unit :=
  m ← Metas_Get (d_Metas d) c id;
  if negb (bool_decide (pm_OwnerID m = pr_UserID p)) && negb (pr_IsAdmin p)
  then throw ErrForbidden
  else
    now ← Now;
    if negb (bool_decide (pm_DeletedAt m = None)) || negb (Before now (pm_ExpiresAt m))
    then mret tt
    else
      wrap (Errorf "delete body") (Bodies_Delete (d_Bodies d) c id) ;;
      wrap (Errorf "mark deleted") (Metas_MarkDeleted (d_Metas d) c id (pr_UserID p) now) ;;
      record c PasteDeleted (Some (pr_UserID p)) (Some id) OutcomeSuccess
        [("by_admin", VBool (pr_IsAdmin p && negb (bool_decide (pm_OwnerID m = pr_UserID p))))].

Definition ListMine (c : ctx) (p : Principal) (page : Page) : M S (list PasteMeta) :=
  Metas_ListByOwner (d_Metas d) c (pr_UserID p) page.

Definition ListAll (c : ctx) (p : Principal) (ownerFilter : option uuid) (page : Page)
    : M S (list PasteMeta) :=
  if negb (pr_IsAdmin p) then throw ErrForbidden
  else Metas_ListAll (d_Metas d) c ownerFilter page.

(** [NewService]: the operations as the port the HTTP layer consumes. *)
Definition NewService : Service S :=
  MkService S Create Read Verify Delete ListMine ListAll.
End Service.

(** ** Properties that need nothing of the stores *)
Section Properties.
Context `{UUIDText} {S : Type} (d : Deps S).

(** C5. Plaintext is never released late: when [Read] returns content, the last
    thing that happened is a clock reading strictly before the expiry, the paste
    is active and its hash is shown. *)
Theorem Read_never_releases_late c p id pw s r b s' :
  Read d c p id pw s = (Ok r, s') -> rr_Content r = Some b ->
  rr_Status r = StatusActive /\ rr_HashVisible r = true /\
  exists s0 t, d_Now d s0 = (t, s') /\ t < pm_ExpiresAt (rr_Meta r).
Proof.
  unfold Read, Now, read_clock. intros Hr Hb. go_inv Hr; simplify_eq/=.
  all: gobool; split_and!; try done.
  all: eexists _, _; split; [eassumption|]; unfold Before in *; gobool; lia.
Qed.

(** What [Read] discloses: the hash of a protected paste is visible only
    together with its content, and content is what the envelope opened, with the
    password given, from the body stored for this paste. *)
Theorem Read_discloses c p id pw s r s' :
  Read d c p id pw s = (Ok r, s') ->
  (rr_HashVisible r = true <->
     pm_PasswordProtected (rr_Meta r) = false \/ is_Some (rr_Content r)) /\
  (forall b, rr_Content r = Some b ->
     (pm_PasswordProtected (rr_Meta r) = true -> pw <> "") /\
     exists rec s1 s2 s3 s4,
       Bodies_Get (d_Bodies d) c id s1 = (Ok rec, s2) /\
       Env_Open (d_Envelope d) c id (pm_ExpiresAt (rr_Meta r)) rec pw s3 = (Ok b, s4)).
Proof.
  unfold Read, Now, read_clock. intros Hr. go_inv Hr; simplify_eq/=.
  all: gobool; split; [destruct (pm_PasswordProtected a); naive_solver|].
  all: intros b' Hb'; simplify_eq/=; (split; [congruence|eauto 10]).
Qed.

(** The inputs [Create] lets through. *)
Lemma create_checks_ok inp ttl b :
  create_checks d inp = Ok (ttl, b) <->
  (ttl = (if in_TTLSeconds inp =? 0 then TTLDefault (d_Limits d) else in_TTLSeconds inp) /\
   TTLMin (d_Limits d) <= ttl <= TTLMax (d_Limits d) /\
   utf8_ValidString (in_Password inp) = true /\ RuneCountInString (in_Password inp) <= 128 /\
   Canonicalize (in_Content inp) (MaxSize (d_Limits d)) = Ok b).
Proof.
  unfold create_checks. cbv zeta.
  set (t := if in_TTLSeconds inp =? 0 then _ else _).
  destruct ((t <? _) || (_ <? t)) eqn:E1; gobool.
  { split; [done|]. intros (-> & Ht & _). lia. }
  destruct (negb _ || _) eqn:E2.
  { split; [done|]. intros (-> & _ & Hu & Hc & _). rewrite Hu in E2. simpl in E2.
    gobool. lia. }
  gobool. destruct E2 as [Hu Hn].
  destruct (Canonicalize _ _) as [b'| |] eqn:Ec; split; try done.
  - intros [= <- <-]. split_and!; try done; try lia.
    destruct Hn as [Hn|Hn]; [|lia]. by rewrite Hn.
  - by intros (-> & _ & _ & _ & [= ->]).
  - by intros (_ & _ & _ & _ & ?).
  - by intros (_ & _ & _ & _ & ?).
Qed.

(** C19. An input that fails a check is refused before anything happens: no id is
    drawn, no key is used, nothing is stored.  The error names the first check
    that fails, the TTL before the password before the content. *)
Theorem Create_refuses c p inp s :
  let ttl := if in_TTLSeconds inp =? 0 then TTLDefault (d_Limits d) else in_TTLSeconds inp in
  let bad_ttl := ttl < TTLMin (d_Limits d) \/ TTLMax (d_Limits d) < ttl in
  let bad_password :=
    utf8_ValidString (in_Password inp) = false \/ 128 < RuneCountInString (in_Password inp) in
  (bad_ttl -> Create d c p inp s = (Err ErrInvalidTTL, s)) /\
  (~ bad_ttl -> bad_password -> Create d c p inp s = (Err ErrInvalidPassword, s)) /\
  (~ bad_ttl -> ~ bad_password -> forall err,
     Canonicalize (in_Content inp) (MaxSize (d_Limits d)) = Err err ->
     Create d c p inp s = (Err err, s)).
Proof.
  intros ttl bad_ttl bad_password. unfold bad_ttl, bad_password, Create, create_checks. cbv zeta.
  fold ttl. split_and!.
  - intros Hb. replace ((ttl <? _) || (_ <? ttl)) with true by lia. done.
  - intros Hb Hp. replace ((ttl <? _) || (_ <? ttl)) with false by lia.
    replace (negb (utf8_ValidString _) || _) with true; [done|].
    destruct Hp as [-> |Hp]; [done|]. case_bool_decide as E; [by rewrite E in Hp|].
    replace (128 <? _) with true by lia. by rewrite orb_true_r.
  - intros Hb Hp err Hc. replace ((ttl <? _) || (_ <? ttl)) with false by lia.
    destruct (utf8_ValidString (in_Password inp)); [|by destruct Hp; left].
    replace (128 <? _) with false by lia. rewrite andb_false_r. cbn [negb orb]. by rewrite Hc.
Qed.

(** The row a successful creation reports: it lives for exactly the TTL asked
    for (or the default), carries the size and the hash of the canonical
    content, starts unviewed and undeleted, names a server key only when there
    is no password, and its URL is made of its id. *)
Theorem Create_result c p inp s r s' :
  Create d c p inp s = (Ok r, s') ->
  TTLMin (d_Limits d) * Second >= - 2 ^ 63 -> TTLMax (d_Limits d) * Second < 2 ^ 63 ->
  let m := cr_Meta r in
  exists b,
    Canonicalize (in_Content inp) (MaxSize (d_Limits d)) = Ok b /\
    pm_OwnerID m = pr_UserID p /\
    pm_TTLSeconds m = (if in_TTLSeconds inp =? 0 then TTLDefault (d_Limits d) else in_TTLSeconds inp) /\
    TTLMin (d_Limits d) <= pm_TTLSeconds m <= TTLMax (d_Limits d) /\
    pm_ExpiresAt m = pm_CreatedAt m + pm_TTLSeconds m * Second /\
    pm_SizeBytes m = Z.of_nat (length b) /\ pm_ContentHash m = HashHex b /\ pm_HashAlgo m = "sha256" /\
    (pm_PasswordProtected m = true <-> in_Password inp <> "") /\
    (in_Password inp <> "" -> pm_KEKID m = "") /\
    pm_ViewCount m = 0 /\ pm_DeletedAt m = None /\ pm_ExpiredAuditedAt m = None /\
    cr_URL r = PasteURL (d_BaseURL d) (pm_ID m).
Proof.
  intros Hr Hlo Hhi m. unfold Create, Now, read_clock in Hr. go_unfold.
  destruct (create_checks d inp) as [[ttl b]| |] eqn:Ec; [|done..].
  apply create_checks_ok in Ec as (Httl & Hrange & _ & _ & Hcan). exists b. split; [done|].
  go_inv Hr; simplify_eq/=; unfold m; clear m.
  all: unfold dur_mul; rewrite int64_id by (unfold in_int64, Second in *; lia).
  all: unfold time_Add; gobool; split_and!; try done; try lia; naive_solver.
Qed.

(** C20. Who may do what: only the owner or an administrator deletes, only an
    administrator lists everybody's pastes; anybody else is refused, and a
    refused deletion has done nothing but look the row up. *)
Theorem Service_authorises c p id o pg s :
  pr_IsAdmin p = false ->
  (forall m s1, Metas_Get (d_Metas d) c id s = (Ok m, s1) -> pm_OwnerID m <> pr_UserID p ->
     Delete d c p id s = (Err ErrForbidden, s1)) /\
  ListAll d c p o pg s = (Err ErrForbidden, s) /\
  ListMine d c p pg s = Metas_ListByOwner (d_Metas d) c (pr_UserID p) pg s.
Proof.
  intros Ha. split_and!; [|by unfold ListAll; rewrite Ha|done].
  intros m s1 Hm Hne. unfold Delete. go_unfold. rewrite Hm, Ha.
  by rewrite bool_decide_false.
Qed.

(** Folding against a lower-case hexadecimal text only equates the cases of the
    ASCII letters. *)
Lemma EqualFold_hex s h :
  Forall (fun b => Hex.lower_hex b = true) (of_str h) ->
  EqualFold s h = true <-> map lower_byte (of_str s) = of_str h.
Proof.
  intros Hh.
  assert (Ha : forall l, Forall (fun b => Hex.lower_hex b = true) l -> Forall (fun b => ascii b = true) l).
  { intros l Hl. eapply Forall_impl; [exact Hl|]. intros b. unfold Hex.lower_hex, ascii. lia. }
  assert (Hlow : map lower_byte (of_str h) = of_str h).
  { clear -Hh. induction Hh as [|b l Hb _ IH]; simpl; [done|]. rewrite IH. f_equal.
    apply (inj bval). rewrite lower_byte_val. unfold Hex.lower_hex in Hb. gobool.
    destruct (_ && _) eqn:E; [|done]. gobool. lia. }
  split; intros H'.
  - rewrite <-Hlow. apply EqualFold_ascii; [|by apply Ha|done].
    unfold EqualFold in H'. gobool. rewrite (runes_ascii (of_str h)) in H' by by apply Ha.
    rewrite map_map in H'.
    assert (Hr : Forall (fun r => exists b, r = Rune (bval b) [b] /\ ascii b = true) (runes (of_str s))).
    { assert (Hf : Forall (fun r => rune_ok r = true /\ rune_code r < 128) (runes (of_str s))).
      { clear Hlow. revert H'. generalize (runes (of_str s)).
        induction Hh as [|b l Hb _ IH]; intros [|r rs]; simpl; try done. intros [= Hr Hrs].
        constructor; [|by apply IH]. clear IH Hrs. unfold Hex.lower_hex in Hb. gobool.
        destruct r as [c raw|b0]; simpl in *; repeat case_match; gobool; split; try done; lia. }
      assert (Hv : utf8_Valid (of_str s) = true).
      { unfold utf8_Valid. apply forallb_forall. intros r Hr. rewrite Forall_forall in Hf.
        by apply Hf, list_elem_of_In. }
      pose proof (good_runes _ Hv) as Hg. rewrite Forall_forall in Hf, Hg |- *. intros r Hr.
      destruct (good_ascii _ (Hg r Hr)) as [b Eb]; [by apply Hf|]. exists b. split; [done|].
      destruct (Hf r Hr) as [_ Hc]. rewrite Eb in Hc. simpl in Hc. unfold ascii. lia. }
    rewrite <-(runes_raw (of_str s)). clear -Hr. induction Hr as [|r rs (b & -> & Hb) _ IH]; simpl; [done|].
    by constructor.
  - rewrite <-Hlow in H'. apply EqualFold_ascii; [|by apply Ha|done]. rewrite Hlow in H'.
    rewrite <-H' in Hh. rewrite Forall_map in Hh. eapply Forall_impl; [exact Hh|]. intros b. simpl.
    unfold Hex.lower_hex, ascii. rewrite lower_byte_val. pose proof (bval_range b).
    destruct ((65 <=? bval b) && (bval b <=? 90)) eqn:E; lia.
Qed.

(** [Verify] answers "match" exactly for the paste's hash, up to surrounding
    white space and the case of the hexadecimal digits; it never discloses
    content and answers for expired and deleted pastes too. *)
Theorem Verify_matches c id t s v s' b :
  Verify d c id t s = (Ok v, s') -> pm_ContentHash (vr_Meta v) = HashHex b ->
  (vr_Match v = true <-> map lower_byte (of_str (TrimSpace t)) = of_str (HashHex b)) /\
  exists now, vr_Status v = PasteMeta_Status (vr_Meta v) now.
Proof.
  unfold Verify, Now, read_clock. intros Hv Hh. go_inv Hv; simplify_eq/=.
  all: split; [|eauto]; rewrite <-(EqualFold_hex _ _ (HashHex_lower b)), <-Hh.
  all: by match goal with X : EqualFold _ _ = _ |- _ => rewrite X end.
Qed.
End Properties.
