(* ===== verification/Redis.v ===== *)
(** * The Redis server

    The commands the program sends, with the documented behaviour of each on
    the one key it names, and an interface to a server that behaves so.  Times
    are the server's clock in milliseconds.  The Lua scripts of the program run
    their commands one after the other at one instant. *)
From S2P Require Import Prelude GoNum GoStr Codec Errors.

(** A key holds a string or a hash, and may carry an expiry instant. *)
Inductive rval : Type :=
| RString (b : bytes)
| RHash (h : gmap string string).

Definition entry : Type := rval * option Z.

#[warnings="-register-all"]
Inductive reply : Type :=
| RNil
| RStatus (s : string)
| RInt (z : Z)
| RBulk (b : bytes)
| RMap (h : gmap string string)
| RArray (l : list reply)
| RError (msg : string).

Inductive cmd : Type :=
| SET (k : string) (v : bytes) (px : option Z)
| SETNX (k : string) (v : bytes) (px : option Z)
| GET (k : string)
| GETDEL (k : string)
| DEL (k : string)
| EXISTS (k : string)
| HSET (k : string) (fields : list (string * string))
| HGET (k f : string)
| HGETALL (k : string)
| PEXPIRE (k : string) (ms : Z)
| PEXPIREAT (k : string) (at_ : Z)
| PTTL (k : string)
| INCR (k : string).

(** [SETNX] with an expiry is the client's [SET key value PX ms NX]. *)
Definition key_of (c : cmd) : string :=
  match c with
  | SET k _ _ | SETNX k _ _ | GET k | GETDEL k | DEL k | EXISTS k | HSET k _ | HGET k _
  | HGETALL k | PEXPIRE k _ | PEXPIREAT k _ | PTTL k | INCR k => k
  end.

Definition WRONGTYPE : reply := RError "WRONGTYPE Operation against a key holding the wrong kind of value".
Definition NOTANINT : reply := RError "ERR value is not an integer or out of range".

Definition hset (h : gmap string string) (fields : list (string * string)) : gmap string string :=
  foldl (fun h '(f, v) => <[f := v]> h) h fields.

Definition set_expiry (now at_ : Z) (v : rval) : option entry :=
  if at_ <=? now then None else Some (v, Some at_).

(** The documented effect of a command on the live entry of its key. *)
Definition documented (c : cmd) (now : Z) (e : option entry) : reply * option entry :=
  match c with
  | SET _ v px => (RStatus "OK", Some (RString v, (fun ms => now + ms) <$> px))
  | SETNX _ v px =>
      match e with
      | Some _ => (RInt 0, e)
      | None => (RInt 1, Some (RString v, (fun ms => now + ms) <$> px))
      end
  | GET _ =>
      match e with
      | None => (RNil, e)
      | Some (RString b, _) => (RBulk b, e)
      | Some _ => (WRONGTYPE, e)
      end
  | GETDEL _ =>
      match e with
      | None => (RNil, e)
      | Some (RString b, _) => (RBulk b, None)
      | Some _ => (WRONGTYPE, e)
      end
  | DEL _ => (RInt (if e is Some _ then 1 else 0), None)
  | EXISTS _ => (RInt (if e is Some _ then 1 else 0), e)
  | HSET _ fields =>
      match e with
      | None => (RInt (Z.of_nat (size (hset ∅ fields))), Some (RHash (hset ∅ fields), None))
      | Some (RHash h, x) =>
          (RInt (Z.of_nat (size (hset h fields)) - Z.of_nat (size h)), Some (RHash (hset h fields), x))
      | Some _ => (WRONGTYPE, e)
      end
  | HGET _ f =>
      match e with
      | None => (RNil, e)
      | Some (RHash h, _) => (match h !! f with Some v => RBulk (of_str v) | None => RNil end, e)
      | Some _ => (WRONGTYPE, e)
      end
  | HGETALL _ =>
      match e with
      | None => (RMap ∅, e)
      | Some (RHash h, _) => (RMap h, e)
      | Some _ => (WRONGTYPE, e)
      end
  | PEXPIRE _ ms =>
      match e with
      | None => (RInt 0, e)
      | Some (v, _) => (RInt 1, set_expiry now (now + ms) v)
      end
  | PEXPIREAT _ at_ =>
      match e with
      | None => (RInt 0, e)
      | Some (v, _) => (RInt 1, set_expiry now at_ v)
      end
  | PTTL _ =>
      match e with
      | None => (RInt (-2), e)
      | Some (_, None) => (RInt (-1), e)
      | Some (_, Some at_) => (RInt (at_ - now), e)
      end
  | INCR _ =>
      match e with
      | None => (RInt 1, Some (RString (of_str "1"), None))
      | Some (RString b, x) =>
          match Decimal.ParseInt (to_str b) with
          | Some n =>
              if n <? max_int64
              then (RInt (n + 1), Some (RString (of_str (Decimal.FormatInt (n + 1))), x))
              else (NOTANINT, e)
          | None => (NOTANINT, e)
          end
      | Some _ => (WRONGTYPE, e)
      end
  end.

(** An entry lives until its expiry instant, exclusively. *)
Definition alive (t : Z) (e : option entry) : option entry :=
  match e with
  | Some (v, Some at_) => if t <? at_ then e else None
  | _ => e
  end.

(** A server: its database, the execution of a command at an instant, and the
    entries a client can observe at an instant. *)
Class RedisServer : Type := {
  rdb : Type;
  exec : cmd -> Z -> rdb -> reply * rdb;
  live : Z -> rdb -> string -> option entry;
  (* nothing observable has expired, and only expiry removes an entry *)
  live_alive : forall t d k, alive t (live t d k) = live t d k;
  live_later : forall t t' d k, t <= t' -> live t' d k = alive t' (live t d k);
  exec_reply : forall c t d, fst (exec c t d) = fst (documented c t (live t d (key_of c)));
  exec_key : forall c t d,
    live t (snd (exec c t d)) (key_of c) = alive t (snd (documented c t (live t d (key_of c))));
  exec_other : forall c t d k, k <> key_of c -> live t (snd (exec c t d)) k = live t d k
}.

(** What the client library makes of an expiration: milliseconds, and a
    positive duration never becomes "no expiry". *)
Class RedisClient : Type := {
  px_of : Z -> option Z;
  px_of_pos : forall d, Millisecond <= d -> px_of d = Some (d / Millisecond);
  px_of_tiny : forall d, 0 < d < Millisecond -> px_of d = Some 1
}.

(** Instances, to run the definitions. *)
Definition map_server : RedisServer.
Proof.
  refine {| rdb := gmap string entry;
            exec c t d :=
              let '(r, e) := documented c t (alive t (d !! key_of c)) in
              (r, partial_alter (fun _ => e) (key_of c) d);
            live t d k := alive t (d !! k) |}.
  - intros t d k. destruct (d !! k) as [[v [a|]]|]; simpl; [|done..].
    destruct (t <? a) eqn:E; simpl; [by rewrite E|done].
  - intros t t' d k Ht. destruct (d !! k) as [[v [a|]]|]; simpl; [|done..].
    destruct (t' <? a) eqn:E'; destruct (t <? a) eqn:E; simpl; rewrite ?E'; [done| |done..].
    lia.
  - intros c t d. by destruct (documented _ _ _).
  - intros c t d. destruct (documented _ _ _). simpl. by rewrite lookup_partial_alter_eq.
  - intros c t d k Hk. destruct (documented _ _ _). simpl.
    by rewrite lookup_partial_alter_ne by done.
Defined.

Definition ms_client : RedisClient.
Proof.
  refine {| px_of d := if d <=? 0 then None else Some (Z.max 1 (d / Millisecond)) |};
    unfold Millisecond; intros d Hd; destruct (d <=? 0) eqn:E; try lia; f_equal; lia.
Defined.

(** ** Reasoning about a run of commands *)
Section Exec.
Context `{RedisServer}.

Lemma live_exec c t d k :
  live t (snd (exec c t d)) k =
    if bool_decide (k = key_of c) then alive t (snd (documented c t (live t d k))) else live t d k.
Proof.
  case_bool_decide as E; [subst; apply exec_key|by apply exec_other].
Qed.

Lemma alive_lt t v a : t < a -> alive t (Some (v, Some a)) = Some (v, Some a).
Proof. intros Ht. simpl. by destruct (t <? a) eqn:E; [|lia]. Qed.

Lemma alive_ge t v a : a <= t -> alive t (Some (v, Some a)) = None.
Proof. intros Ht. simpl. by destruct (t <? a) eqn:E; [lia|]. Qed.

Lemma live_expiry t d k v a : live t d k = Some (v, Some a) -> t < a.
Proof.
  intros Hl. pose proof (live_alive t d k) as Ha. rewrite Hl in Ha. simpl in Ha.
  destruct (t <? a) eqn:E; [lia|done].
Qed.

(** An absent key stays absent until it is written. *)
Lemma live_none_later t t' d k : t <= t' -> live t d k = None -> live t' d k = None.
Proof. intros Ht Hl. by rewrite (live_later t t'), Hl. Qed.

Lemma live_some_later t t' d k e :
  t <= t' -> live t' d k = Some e -> live t d k = Some e.
Proof.
  intros Ht. rewrite (live_later t t') by done.
  destruct (live t d k) as [[v [a|]]|]; simpl; try done. by destruct (t' <? a).
Qed.
End Exec.
