(* ===== verification/Pg.v ===== *)
(** * The Postgres tables ([internal/store/postgres/migrations/0001_init.sql])

    The rows of the three tables with their column types, the constraints the
    migration declares, and the statements of the stores as functions on the
    tables.  A statement runs at the server's clock [now()]. *)
From stdpp Require Import sorting.
From S2P Require Import Prelude GoNum GoStr Codec NetIP Json Errors PasteTypes.

Record UserRow : Type := MkUserRow {
  u_id : uuid;
  u_username : string;
  u_display_name : option string;
  u_auth_provider : string;
  u_oidc_issuer : option string;
  u_oidc_subject : option string;
  u_password_hash : option string;
  u_is_admin : bool;
  u_disabled : bool;
  u_created_at : Z;
  u_last_login_at : option Z
}.

Record PasteRow : Type := MkPasteRow {
  p_id : uuid;
  p_owner_id : uuid;
  p_created_at : Z;
  p_expires_at : Z;
  p_ttl_seconds : Z;
  p_size_bytes : Z;
  p_hash_algo : string;
  p_content_hash : string;
  p_password_protected : bool;
  p_kek_id : option string;
  p_view_count : Z;
  p_expired_audited_at : option Z;
  p_deleted_at : option Z;
  p_deleted_by : option uuid
}.

Record AuditRow : Type := MkAuditRow {
  a_id : Z;
  a_at : Z;
  a_event : string;
  a_actor_id : option uuid;
  a_paste_id : option uuid;
  a_ip : option Addr;
  a_user_agent : option string;
  a_outcome : string;
  a_details : json
}.

Record Tables : Type := MkTables {
  t_users : list UserRow;
  t_pastes : list PasteRow;
  t_audit_events : list AuditRow;
  t_audit_seq : Z
}.

Definition set_users (us : list UserRow) (t : Tables) : Tables :=
  MkTables us (t_pastes t) (t_audit_events t) (t_audit_seq t).
Definition set_pastes (ps : list PasteRow) (t : Tables) : Tables :=
  MkTables (t_users t) ps (t_audit_events t) (t_audit_seq t).
Definition set_audit (l : list AuditRow) (n : Z) (t : Tables) : Tables :=
  MkTables (t_users t) (t_pastes t) l n.

(** ** Column types *)

(** A [timestamptz] counts microseconds: the driver cuts an instant down to
    that resolution.  The order of [text] belongs to the database's collation.
    [inet_of] is what the driver binds for an address; [None] refuses it. *)
Class PgTypes : Type := {
  timestamptz : Z -> Z;
  timestamptz_floor : forall t, timestamptz t = t / Microsecond * Microsecond;
  text_le : string -> string -> bool;
  text_le_total : forall a b, text_le a b = true \/ text_le b a = true;
  text_le_trans : forall a b c, text_le a b = true -> text_le b c = true -> text_le a c = true;
  inet_of : Addr -> option Addr;
  inet_of_v4 : forall b, inet_of (Addr4 b) = Some (Addr4 b);
  inet_of_v6 : forall b, inet_of (Addr6 b "") = Some (Addr6 b "")
}.

Lemma bytes_leb_total a b : bytes_leb a b = true \/ bytes_leb b a = true.
Proof.
  revert b. induction a as [|x a IH]; intros [|y b]; simpl; auto.
  destruct (Z.lt_total (bval x) (bval y)) as [?|[?|?]]; [left; lia| |right; lia].
  destruct (IH b) as [-> | ->]; [left|right]; rewrite andb_true_r; lia.
Qed.

Lemma bytes_leb_trans a b c : bytes_leb a b = true -> bytes_leb b c = true -> bytes_leb a c = true.
Proof.
  revert b c. induction a as [|x a IH]; intros [|y b] [|z c]; simpl; try done.
  specialize (IH b c). intros H1 H2. apply orb_true_iff in H1, H2.
  destruct H1 as [H1|[H1 H1']%andb_true_iff], H2 as [H2|[H2 H2']%andb_true_iff]; try lia.
  rewrite IH by done. lia.
Qed.

Lemma bytes_leb_antisym a b : bytes_leb a b = true -> bytes_leb b a = true -> a = b.
Proof.
  revert b. induction a as [|x a IH]; intros [|y b]; simpl; try done. intros H1 H2.
  apply orb_true_iff in H1, H2. rewrite !andb_true_iff in H1, H2.
  assert (bval x = bval y) as E by lia. f_equal; [by apply (inj bval)|].
  apply IH; [destruct H1 as [?|[_ ?]]|destruct H2 as [?|[_ ?]]]; (done || lia).
Qed.

Definition byte_collation : PgTypes.
Proof.
  refine {| timestamptz t := t / Microsecond * Microsecond;
            text_le a b := bytes_leb (of_str a) (of_str b);
            inet_of a := match a with Addr6 b _ => Some (Addr6 b "") | _ => Some a end |}.
  - done.
  - intros a b. apply bytes_leb_total.
  - intros a b c. apply bytes_leb_trans.
  - done.
  - done.
Defined.

(** [text]: valid UTF-8 without the zero byte. *)
Definition text_ok (s : string) : bool :=
  utf8_ValidString s && negb (bool_decide (Byte.x00 ∈ of_str s)).
Definition opt_text_ok (s : option string) : bool := if s is Some s then text_ok s else true.
(** [integer]: four bytes, signed. *)
Definition int4_ok (z : Z) : bool := (- 2 ^ 31 <=? z) && (z <? 2 ^ 31).

Definition unique_violation : error := PgError "23505".
Definition foreign_key_violation : error := PgError "23503".
Definition check_violation : error := PgError "23514".
Definition invalid_text : error := PgError "22021".
Definition out_of_range : error := PgError "22003".

(** ** Queries *)

(** [ORDER BY]: sorted by a total order. *)
Definition le_rel {A} (le : A -> A -> bool) : relation A := fun x y => le x y = true.
#[export] Instance le_rel_dec {A} (le : A -> A -> bool) : RelDecision (le_rel le).
Proof. intros x y. unfold le_rel. apply _. Defined.

Definition order_by {A} (le : A -> A -> bool) (l : list A) : list A := merge_sort (le_rel le) l.

Definition limit_offset {A} (limit offset : Z) (l : list A) : list A :=
  take (Z.to_nat limit) (drop (Z.to_nat offset) l).

Lemma order_by_perm {A} (le : A -> A -> bool) l : order_by le l ≡ₚ l.
Proof. apply merge_sort_Permutation. Qed.

Lemma order_by_sorted {A} (le : A -> A -> bool) l :
  (forall x y, le x y = true \/ le y x = true) ->
  (forall x y z, le x y = true -> le y z = true -> le x z = true) ->
  StronglySorted (le_rel le) (order_by le l).
Proof.
  intros Ht Htr. apply StronglySorted_merge_sort.
  - intros x y z. apply Htr.
  - intros x y. apply Ht.
Qed.

Lemma limit_offset_sub {A} n k (l : list A) x : x ∈ limit_offset n k l -> x ∈ l.
Proof.
  intros [i Hi]%list_elem_of_lookup_1. unfold limit_offset in Hi.
  rewrite lookup_take_Some in Hi. destruct Hi as [Hi _]. rewrite lookup_drop in Hi.
  by apply list_elem_of_lookup_2 in Hi.
Qed.

Lemma limit_offset_sorted {A} (R : relation A) n k l :
  StronglySorted R l -> StronglySorted R (limit_offset n k l).
Proof.
  unfold limit_offset. intros Hl.
  assert (Hd : forall i l, StronglySorted R l -> StronglySorted R (drop i l)).
  { clear. induction i as [|i IH]; intros l Hl; [done|]. destruct Hl; simpl; [constructor|by apply IH]. }
  assert (Ht : forall i l, StronglySorted R l -> StronglySorted R (take i l)).
  { clear. induction i as [|i IH]; intros l Hl; [constructor|]. destruct Hl; simpl; constructor.
    - by apply IH.
    - by apply Forall_take. }
  by apply Ht, Hd.
Qed.
