(* ===== verification/World.v ===== *)
(** * The world outside the process

    The clock, the Redis database, the Postgres tables, the random source and
    the log, as one state.  Every call that leaves the process consumes one
    step of an arbitrary environment: how long the call took and whether it was
    carried out and answered, never carried out, or carried out with its answer
    lost.  Theorems quantify over the environment, so they hold for every
    sequence of delays and failures. *)
From S2P Require Import Prelude GoNum GoStr Codec Json Errors PasteTypes Crypto Redis Pg.

(** What a client sees when a call fails on the way. *)
Inductive transport : Type := TCanceled | TDeadline | TIO (text : string).

Definition terr (k : transport) : error :=
  match k with
  | TCanceled => Canceled
  | TDeadline => DeadlineExceeded
  | TIO text => NewError text
  end.

Inductive Fate : Type :=
| Done
| NotRun (k : transport)
| AckLost (k : transport).

(** A call under a context that cannot be cancelled is not cancelled. *)
Definition fate_for (c : ctx) (f : Fate) : Fate :=
  if ctx_cancelable c then f
  else match f with
       | NotRun TCanceled | AckLost TCanceled => Done
       | _ => f
       end.

Section World.
Context `{RedisServer}.

Record World : Type := MkWorld {
  w_time : Z;                                   (* nanoseconds since the epoch *)
  w_redis : rdb;
  w_pg : Tables;
  w_env : list (N * Fate);                      (* delay before, and fate of, each call *)
  w_rand : nat -> byte;
  w_log : list (string * list (string * value)); (* newest last *)
  w_warned : gset string                        (* warnOnce of the rate limiter *)
}.

Definition set_redis (d : rdb) (w : World) : World :=
  MkWorld (w_time w) d (w_pg w) (w_env w) (w_rand w) (w_log w) (w_warned w).
Definition set_pg (t : Tables) (w : World) : World :=
  MkWorld (w_time w) (w_redis w) t (w_env w) (w_rand w) (w_log w) (w_warned w).

(** One step of the environment; an exhausted one answers at once. *)
Definition step (w : World) : Fate * World :=
  match w_env w with
  | [] => (Done, w)
  | (delay, fate) :: env =>
      (fate, MkWorld (w_time w + Z.of_N delay) (w_redis w) (w_pg w) env (w_rand w) (w_log w) (w_warned w))
  end.

(** [time.Now().UTC()] *)
Definition clock (w : World) : Z * World := let w' := snd (step w) in (w_time w', w').

(** The clock of the Redis server. *)
Definition server_ms (w : World) : Z := w_time w / Millisecond.

(** A round trip to Redis that runs [f] at the server, atomically. *)
Definition redis_do {A} (c : ctx) (f : Z -> rdb -> A * rdb) : M World A := fun w =>
  let '(fate, w) := step w in
  let '(a, d) := f (server_ms w) (w_redis w) in
  match fate_for c fate with
  | Done => (Ok a, set_redis d w)
  | NotRun k => (Err (terr k), w)
  | AckLost k => (Err (terr k), set_redis d w)
  end.

(** A round trip to Postgres: one statement, which is atomic, at the server's
    [now()]. *)
Definition pg_do {A} (c : ctx) (stmt : Z -> Tables -> res A * Tables) : M World A := fun w =>
  let '(fate, w) := step w in
  let '(r, t) := stmt (w_time w) (w_pg w) in
  match fate_for c fate with
  | Done => (r, set_pg t w)
  | NotRun k => (Err (terr k), w)
  | AckLost k => (Err (terr k), set_pg t w)
  end.

(** [crypto/rand] *)
Definition draw (n : nat) (w : World) : bytes * World :=
  (map (w_rand w) (seq 0 n),
   MkWorld (w_time w) (w_redis w) (w_pg w) (w_env w) (fun i => w_rand w (n + i)%nat) (w_log w) (w_warned w)).

Definition world_rand : RandOps World :=
  MkRandOps World (fun n w => let '(b, w') := draw n w in (Ok b, w')).

#[export] Instance world_rand_laws : RandLaws world_rand.
Proof. split. intros n w b w' [= <- <-]. by rewrite length_map, length_seq. Qed.

Definition write_log (msg : string) (attrs : list (string * value)) (w : World) : World :=
  MkWorld (w_time w) (w_redis w) (w_pg w) (w_env w) (w_rand w) (w_log w ++ [(msg, attrs)]) (w_warned w).

(** The part of the world the program's own stores hold. *)
Definition stores (w : World) : rdb * Tables := (w_redis w, w_pg w).

(** ** What a call can do *)

Lemma step_inv w fate w' :
  step w = (fate, w') -> w_time w <= w_time w' /\ stores w' = stores w.
Proof.
  unfold step, stores. destruct (w_env w) as [|[d f] env]; intros [= <- <-]; simpl; [done|].
  split; [lia|done].
Qed.

Lemma clock_inv w t w' :
  clock w = (t, w') -> w_time w <= t /\ w_time w' = t /\ stores w' = stores w.
Proof.
  unfold clock. destruct (step w) as [f w1] eqn:E. intros [= <- <-].
  apply step_inv in E as [? ?]. by split_and!.
Qed.

(** The outcomes of a Redis round trip: never carried out, or carried out at
    some instant and possibly not answered. *)
Lemma redis_do_inv {A} c (f : Z -> rdb -> A * rdb) w r w' :
  redis_do c f w = (r, w') ->
  w_time w <= w_time w' /\ w_pg w' = w_pg w /\
  ((w_redis w' = w_redis w /\ exists k, r = Err (terr k)) \/
   (w_redis w' = snd (f (server_ms w') (w_redis w)) /\
    (r = Ok (fst (f (server_ms w') (w_redis w))) \/ exists k, r = Err (terr k)))).
Proof.
  unfold redis_do. destruct (step w) as [fate w1] eqn:E. apply step_inv in E as [Ht Hs].
  unfold stores in Hs. injection Hs as Hr Hp. rewrite <-Hr.
  destruct (f (server_ms w1) (w_redis w1)) as [a d] eqn:Ef.
  destruct (fate_for c fate) as [|k|k]; intros [= <- <-]; cbn [w_time w_redis w_pg set_redis];
    (split; [done|]; split; [done|]).
  - right. change (server_ms (set_redis d w1)) with (server_ms w1). rewrite Ef. auto.
  - left. eauto.
  - right. change (server_ms (set_redis d w1)) with (server_ms w1). rewrite Ef. eauto.
Qed.

Lemma pg_do_inv {A} c (stmt : Z -> Tables -> res A * Tables) w r w' :
  pg_do c stmt w = (r, w') ->
  w_time w <= w_time w' /\ w_redis w' = w_redis w /\
  ((w_pg w' = w_pg w /\ exists k, r = Err (terr k)) \/
   (w_pg w' = snd (stmt (w_time w') (w_pg w)) /\
    (r = fst (stmt (w_time w') (w_pg w)) \/ exists k, r = Err (terr k)))).
Proof.
  unfold pg_do. destruct (step w) as [fate w1] eqn:E. apply step_inv in E as [Ht Hs].
  unfold stores in Hs. injection Hs as Hr Hp. rewrite <-Hp.
  destruct (stmt (w_time w1) (w_pg w1)) as [a d] eqn:Ef.
  destruct (fate_for c fate) as [|k|k]; intros [= <- <-]; cbn [w_time w_redis w_pg set_pg];
    (split; [done|]; split; [done|]).
  - right. rewrite Ef. auto.
  - left. eauto.
  - right. rewrite Ef. eauto.
Qed.

(** A run consumes a prefix of the environment. *)
Definition consumes (w w' : World) : Prop := exists k, w_env w' = drop k (w_env w).

#[export] Instance consumes_preorder : PreOrder consumes.
Proof.
  split; [intros w; by exists 0%nat|]. intros w1 w2 w3 [k Hk] [j Hj]. exists (k + j)%nat.
  by rewrite Hj, Hk, drop_drop.
Qed.

Lemma step_consumes w fate w' : step w = (fate, w') -> consumes w w'.
Proof.
  unfold step. destruct (w_env w) as [|[d f] env] eqn:E; intros [= <- <-].
  - reflexivity.
  - exists 1%nat. by rewrite E.
Qed.

Lemma clock_consumes w t w' : clock w = (t, w') -> consumes w w'.
Proof. unfold clock. destruct (step w) eqn:E. intros [= <- <-]. by apply step_consumes in E. Qed.

Lemma redis_do_consumes {A} c (f : Z -> rdb -> A * rdb) w r w' :
  redis_do c f w = (r, w') -> consumes w w'.
Proof.
  unfold redis_do. destruct (step w) as [fate w1] eqn:E. apply step_consumes in E.
  destruct (f _ _). by destruct (fate_for c fate); intros [= <- <-].
Qed.

Lemma pg_do_consumes {A} c (stmt : Z -> Tables -> res A * Tables) w r w' :
  pg_do c stmt w = (r, w') -> consumes w w'.
Proof.
  unfold pg_do. destruct (step w) as [fate w1] eqn:E. apply step_consumes in E.
  destruct (stmt _ _). by destruct (fate_for c fate); intros [= <- <-].
Qed.

(** With an environment that answers every call, a round trip is its function. *)
Lemma redis_do_calm {A} c (f : Z -> rdb -> A * rdb) w :
  w_env w = [] ->
  redis_do c f w =
    (Ok (fst (f (server_ms w) (w_redis w))), set_redis (snd (f (server_ms w) (w_redis w))) w).
Proof.
  intros He. unfold redis_do, step. rewrite He. destruct (f _ _) eqn:E. simpl.
  unfold fate_for. by destruct (ctx_cancelable c).
Qed.
End World.

(** ** The client library

    A command and the typed reading of its reply; an error reply of the server
    is an error of the call. *)
Section Client.
Context `{RedisServer} `{RedisClient}.

Definition run_cmd (c : ctx) (m : cmd) : M World reply :=
  r ← redis_do c (exec m);
  match r with
  | RError msg => throw (NewError msg)
  | r => mret r
  end.

Definition unexpected {A} : M World A := throw (NewError "redis: unexpected reply").

Definition client_Set (c : ctx) (k : string) (v : bytes) (expiration : Z) : M World unit :=
  run_cmd c (SET k v (px_of expiration)) ;; mret tt.

Definition client_SetNX (c : ctx) (k : string) (v : bytes) (expiration : Z) : M World bool :=
  r ← run_cmd c (SETNX k v (px_of expiration));
  match r with RInt n => mret (n =? 1) | _ => unexpected end.

Definition as_bytes (r : reply) : M World bytes :=
  match r with
  | RBulk b => mret b
  | RNil => throw RedisNil
  | _ => unexpected
  end.
Definition client_Get (c : ctx) (k : string) : M World bytes := run_cmd c (GET k) ≫= as_bytes.
Definition client_GetDel (c : ctx) (k : string) : M World bytes := run_cmd c (GETDEL k) ≫= as_bytes.

Definition client_Del (c : ctx) (k : string) : M World unit := run_cmd c (DEL k) ;; mret tt.

Definition client_HGetAll (c : ctx) (k : string) : M World (gmap string string) :=
  r ← run_cmd c (HGETALL k);
  match r with RMap h => mret h | _ => unexpected end.

Definition client_Ping (c : ctx) : M World unit := redis_do c (fun _ d => (tt, d)).

(** A single command: what it may do to the database, and that an answer is
    the documented one. *)
Lemma run_cmd_inv c m w r w' :
  run_cmd c m w = (r, w') ->
  w_time w <= w_time w' /\ w_pg w' = w_pg w /\
  (w_redis w' = w_redis w \/ w_redis w' = snd (exec m (server_ms w') (w_redis w))) /\
  match r with
  | Ok rep => w_redis w' = snd (exec m (server_ms w') (w_redis w)) /\
      rep = fst (documented m (server_ms w') (live (server_ms w') (w_redis w) (key_of m)))
  | Err e => (exists k, e = terr k) \/
      (exists msg, e = NewError msg /\
         fst (documented m (server_ms w') (live (server_ms w') (w_redis w) (key_of m))) = RError msg)
  | Panic => False
  end.
Proof.
  unfold run_cmd. intros Hr. go_unfold. destruct (redis_do c (exec m) w) as [r0 w0] eqn:E.
  apply redis_do_inv in E as (Ht & Hp & Hd). rewrite exec_reply in Hd.
  destruct Hd as [(Hd & k & ->)|(Hd & [-> |(k & ->)])]; simplify_eq/=.
  - eauto 10.
  - destruct (documented m _ _).1 eqn:Erep; simplify_eq/=; rewrite Erep; eauto 10.
  - eauto 10.
Qed.
End Client.

(** A world to run the definitions in: an empty database one second after the
    epoch's billionth second, and an environment that answers. *)
Definition empty_tables : Tables := MkTables [] [] [] 0.
Definition demo_world : @World map_server :=
  @MkWorld map_server (1700000000 * Second) (∅ : gmap string entry) empty_tables []
    (fun n => byte_of (Z.of_nat n)) [] ∅.
