(* ===== verification/RedisBody.v ===== *)
(** * Encrypted bodies in Redis ([internal/store/redis/body.go])

    The JSON form of an encrypted body, the body store over the Redis server,
    and the proof that the store keeps what it is given until its time to live
    has passed and never longer. *)
From S2P Require Import Prelude GoNum GoStr Codec Json Errors PasteTypes Ports Redis Pg World.

(** ** The JSON form of [paste.EncryptedBody] *)

Definition jint (z : Z) : json := JNum (of_str (Decimal.FormatInt z)).
Definition jbytes (b : bytes) : json := JStr (of_str (Base64.std_EncodeToString b)).
Definition jstr (s : string) : json := JStr (of_str s).

Definition KDFParams_json (k : KDFParams) : json :=
  JObj [(of_str "salt", jbytes (kdf_Salt k)); (of_str "t", jint (kdf_Time k));
        (of_str "m", jint (kdf_MemoryKiB k)); (of_str "p", jint (kdf_Threads k))].

(** Fields in declaration order; [omitempty] drops an empty key id and an
    absent parameter block. *)
Definition EncryptedBody_json (rec : EncryptedBody) : json :=
  JObj ([(of_str "v", jint (eb_Version rec)); (of_str "alg", jstr (eb_Alg rec));
         (of_str "nonce", jbytes (eb_Nonce rec)); (of_str "ct", jbytes (eb_Ciphertext rec));
         (of_str "wrap", jstr (eb_WrapMode rec))] ++
        (if bool_decide (eb_KEKID rec = "") then [] else [(of_str "kek_id", jstr (eb_KEKID rec))]) ++
        (if eb_KDF rec is Some k then [(of_str "kdf", KDFParams_json k)] else []) ++
        [(of_str "wrap_nonce", jbytes (eb_WrapNonce rec));
         (of_str "wrapped_dek", jbytes (eb_WrappedDEK rec))]).

(** Reading a document into a Go value of each kind; [old] is what the field
    held, which [null] leaves in place for a scalar. *)
Definition into_int (old : Z) (j : json) : option Z :=
  match j with
  | JNull => Some old
  | JNum lit => Decimal.ParseInt (to_str lit)
  | _ => None
  end.
Definition into_uint (bits old : Z) (j : json) : option Z :=
  match j with
  | JNull => Some old
  | JNum lit => n ← Decimal.parse_unsigned lit; if n <? 2 ^ bits then Some n else None
  | _ => None
  end.
Definition into_string (old : string) (j : json) : option string :=
  match j with
  | JNull => Some old
  | JStr s => Some (to_str s)
  | _ => None
  end.
Definition into_bytes (j : json) : option bytes :=
  match j with
  | JNull => Some []
  | JStr s => Base64.std_DecodeString (to_str s)
  | JArr l => mapM (fun j => byte_of <$> into_uint 8 0 j) l
  | _ => None
  end.

(** A member sets the field whose name it matches, ignoring case; members that
    match no field are skipped, and a later member overrides an earlier one. *)
Definition matches (k : bytes) (name : string) : bool := EqualFold (to_str k) name.

Definition KDFParams_member (k : KDFParams) (m : bytes * json) : option KDFParams :=
  let '(n, j) := m in
  if matches n "salt" then
    b ← into_bytes j; Some (MkKDFParams b (kdf_Time k) (kdf_MemoryKiB k) (kdf_Threads k))
  else if matches n "t" then
    z ← into_uint 32 (kdf_Time k) j; Some (MkKDFParams (kdf_Salt k) z (kdf_MemoryKiB k) (kdf_Threads k))
  else if matches n "m" then
    z ← into_uint 32 (kdf_MemoryKiB k) j; Some (MkKDFParams (kdf_Salt k) (kdf_Time k) z (kdf_Threads k))
  else if matches n "p" then
    z ← into_uint 8 (kdf_Threads k) j; Some (MkKDFParams (kdf_Salt k) (kdf_Time k) (kdf_MemoryKiB k) z)
  else Some k.

Fixpoint members {A} (set : A -> bytes * json -> option A) (a : A) (l : list (bytes * json)) : option A :=
  match l with
  | [] => Some a
  | m :: l => a ← set a m; members set a l
  end.

Definition into_KDF (old : option KDFParams) (j : json) : option (option KDFParams) :=
  match j with
  | JNull => Some None
  | JObj l => Some <$> members KDFParams_member (default (MkKDFParams [] 0 0 0) old) l
  | _ => None
  end.

Definition EncryptedBody_member (r : EncryptedBody) (m : bytes * json) : option EncryptedBody :=
  let '(MkEncryptedBody v alg nonce ct wrap kek kdf wn wd) := r in
  let '(n, j) := m in
  if matches n "v" then x ← into_int v j; Some (MkEncryptedBody x alg nonce ct wrap kek kdf wn wd)
  else if matches n "alg" then x ← into_string alg j; Some (MkEncryptedBody v x nonce ct wrap kek kdf wn wd)
  else if matches n "nonce" then x ← into_bytes j; Some (MkEncryptedBody v alg x ct wrap kek kdf wn wd)
  else if matches n "ct" then x ← into_bytes j; Some (MkEncryptedBody v alg nonce x wrap kek kdf wn wd)
  else if matches n "wrap" then x ← into_string wrap j; Some (MkEncryptedBody v alg nonce ct x kek kdf wn wd)
  else if matches n "kek_id" then x ← into_string kek j; Some (MkEncryptedBody v alg nonce ct wrap x kdf wn wd)
  else if matches n "kdf" then x ← into_KDF kdf j; Some (MkEncryptedBody v alg nonce ct wrap kek x wn wd)
  else if matches n "wrap_nonce" then x ← into_bytes j; Some (MkEncryptedBody v alg nonce ct wrap kek kdf x wd)
  else if matches n "wrapped_dek" then x ← into_bytes j; Some (MkEncryptedBody v alg nonce ct wrap kek kdf wn x)
  else Some r.

Definition zero_body : EncryptedBody := MkEncryptedBody 0 "" [] [] "" "" None [] [].

Definition EncryptedBody_of_json (j : json) : option EncryptedBody :=
  match j with
  | JNull => Some zero_body
  | JObj l => members EncryptedBody_member zero_body l
  | _ => None
  end.

(** [json.Marshal(rec)] and [json.Unmarshal(body, &rec)] *)
Definition marshal_body (rec : EncryptedBody) : bytes := Marshal (EncryptedBody_json rec).
Definition unmarshal_body (b : bytes) : option EncryptedBody := parse_json b ≫= EncryptedBody_of_json.

Lemma jbytes_ok b : json_ok (jbytes b).
Proof. constructor. apply ascii_utf8, Base64.std_EncodeToString_ascii. Qed.

Lemma into_jbytes b : into_bytes (jbytes b) = Some b.
Proof. cbn. by rewrite to_of_str, Base64.std_roundtrip. Qed.

Lemma into_jint old z : in_int64 z -> into_int old (jint z) = Some z.
Proof. intros Hz. cbn. rewrite to_of_str. by apply Decimal.ParseInt_FormatInt. Qed.

Lemma into_juint bits old z : 0 <= z < 2 ^ bits -> into_uint bits old (jint z) = Some z.
Proof.
  intros Hz. cbn. unfold Decimal.FormatInt. destruct (z <? 0) eqn:E; [lia|].
  rewrite of_to_str, Decimal.parse_format_nonneg by lia. cbn.
  by destruct (z <? 2 ^ bits) eqn:E2; [|lia].
Qed.

Lemma into_jstr old s : into_string old (jstr s) = Some s.
Proof. cbn. by rewrite to_of_str. Qed.

Ltac solve_json :=
  cbn [fst snd]; first
    [ apply jbytes_ok | apply ok_num | by apply ok_str | done
    | apply Forall_nil_2 | apply Forall_cons_2; solve_json | split; solve_json ].

Lemma KDFParams_json_ok k : json_ok (KDFParams_json k).
Proof. apply ok_obj. solve_json. Qed.

Lemma EncryptedBody_json_ok r : body_typed r -> json_ok (EncryptedBody_json r).
Proof.
  intros (_ & Ha & Hw & Hk & _). apply ok_obj.
  destruct r as [v alg nonce ct wrap kek kdf wn wd]; cbn [eb_KEKID eb_KDF eb_Alg eb_WrapMode] in *.
  repeat apply Forall_app_2.
  - solve_json.
  - case_bool_decide; solve_json.
  - destruct kdf; [|done]. apply Forall_singleton. split; [done|]. apply KDFParams_json_ok.
  - solve_json.
Qed.

Lemma into_KDF_json k :
  0 <= kdf_Time k < 2 ^ 32 -> 0 <= kdf_MemoryKiB k < 2 ^ 32 -> 0 <= kdf_Threads k < 2 ^ 8 ->
  into_KDF None (KDFParams_json k) = Some (Some k).
Proof.
  intros Ht Hm Hp. destruct k as [salt t m p]. cbn [kdf_Salt kdf_Time kdf_MemoryKiB kdf_Threads] in *.
  unfold into_KDF, KDFParams_json. cbn [members default kdf_Salt kdf_Time kdf_MemoryKiB kdf_Threads].
  change (KDFParams_member ?k (of_str "salt", ?j)) with
    (b ← into_bytes j; Some (MkKDFParams b (kdf_Time k) (kdf_MemoryKiB k) (kdf_Threads k))).
  rewrite into_jbytes. cbn [mbind option_bind].
  change (KDFParams_member ?k (of_str "t", ?j)) with
    (z ← into_uint 32 (kdf_Time k) j; Some (MkKDFParams (kdf_Salt k) z (kdf_MemoryKiB k) (kdf_Threads k))).
  rewrite into_juint by done. cbn [mbind option_bind].
  change (KDFParams_member ?k (of_str "m", ?j)) with
    (z ← into_uint 32 (kdf_MemoryKiB k) j; Some (MkKDFParams (kdf_Salt k) (kdf_Time k) z (kdf_Threads k))).
  rewrite into_juint by done. cbn [mbind option_bind].
  change (KDFParams_member ?k (of_str "p", ?j)) with
    (z ← into_uint 8 (kdf_Threads k) j; Some (MkKDFParams (kdf_Salt k) (kdf_Time k) (kdf_MemoryKiB k) z)).
  rewrite into_juint by done. done.
Qed.

(** Each member the encoder writes sets its own field. *)
Section Members.
Context (v : Z) (alg : string) (nonce ct : bytes) (wrap kek : string) (kdf : option KDFParams)
  (wn wd : bytes) (l : list (bytes * json)).
Let read r k j := members EncryptedBody_member r ((of_str k, j) :: l).
Let r0 := MkEncryptedBody v alg nonce ct wrap kek kdf wn wd.

Lemma read_v x : in_int64 x ->
  read r0 "v" (jint x) = members EncryptedBody_member (MkEncryptedBody x alg nonce ct wrap kek kdf wn wd) l.
Proof.
  intros Hx. unfold read. cbn [members].
  change (EncryptedBody_member r0 (of_str "v", ?j)) with
    (x ← into_int v j; Some (MkEncryptedBody x alg nonce ct wrap kek kdf wn wd)).
  by rewrite into_jint.
Qed.

Lemma read_strings x :
  read r0 "alg" (jstr x) = members EncryptedBody_member (MkEncryptedBody v x nonce ct wrap kek kdf wn wd) l /\
  read r0 "wrap" (jstr x) = members EncryptedBody_member (MkEncryptedBody v alg nonce ct x kek kdf wn wd) l /\
  read r0 "kek_id" (jstr x) = members EncryptedBody_member (MkEncryptedBody v alg nonce ct wrap x kdf wn wd) l.
Proof.
  unfold read. cbn [members].
  change (EncryptedBody_member r0 (of_str "alg", ?j)) with
    (x ← into_string alg j; Some (MkEncryptedBody v x nonce ct wrap kek kdf wn wd)).
  change (EncryptedBody_member r0 (of_str "wrap", ?j)) with
    (x ← into_string wrap j; Some (MkEncryptedBody v alg nonce ct x kek kdf wn wd)).
  change (EncryptedBody_member r0 (of_str "kek_id", ?j)) with
    (x ← into_string kek j; Some (MkEncryptedBody v alg nonce ct wrap x kdf wn wd)).
  by rewrite !into_jstr.
Qed.

Lemma read_blobs x :
  read r0 "nonce" (jbytes x) = members EncryptedBody_member (MkEncryptedBody v alg x ct wrap kek kdf wn wd) l /\
  read r0 "ct" (jbytes x) = members EncryptedBody_member (MkEncryptedBody v alg nonce x wrap kek kdf wn wd) l /\
  read r0 "wrap_nonce" (jbytes x) = members EncryptedBody_member (MkEncryptedBody v alg nonce ct wrap kek kdf x wd) l /\
  read r0 "wrapped_dek" (jbytes x) = members EncryptedBody_member (MkEncryptedBody v alg nonce ct wrap kek kdf wn x) l.
Proof.
  unfold read. cbn [members].
  change (EncryptedBody_member r0 (of_str "nonce", ?j)) with
    (x ← into_bytes j; Some (MkEncryptedBody v alg x ct wrap kek kdf wn wd)).
  change (EncryptedBody_member r0 (of_str "ct", ?j)) with
    (x ← into_bytes j; Some (MkEncryptedBody v alg nonce x wrap kek kdf wn wd)).
  change (EncryptedBody_member r0 (of_str "wrap_nonce", ?j)) with
    (x ← into_bytes j; Some (MkEncryptedBody v alg nonce ct wrap kek kdf x wd)).
  change (EncryptedBody_member r0 (of_str "wrapped_dek", ?j)) with
    (x ← into_bytes j; Some (MkEncryptedBody v alg nonce ct wrap kek kdf wn x)).
  by rewrite !into_jbytes.
Qed.

Lemma read_kdf j x : into_KDF kdf j = Some x ->
  read r0 "kdf" j = members EncryptedBody_member (MkEncryptedBody v alg nonce ct wrap kek x wn wd) l.
Proof.
  intros Hx. unfold read. cbn [members].
  change (EncryptedBody_member r0 (of_str "kdf", j)) with
    (x ← into_KDF kdf j; Some (MkEncryptedBody v alg nonce ct wrap kek x wn wd)).
  by rewrite Hx.
Qed.
End Members.

(** The stored form of a body is read back as the body. *)
Lemma unmarshal_marshal_body r : body_typed r -> unmarshal_body (marshal_body r) = Some r.
Proof.
  intros Hr. unfold unmarshal_body, marshal_body. rewrite parse_Marshal by by apply EncryptedBody_json_ok.
  cbn [mbind option_bind]. destruct Hr as (Hv & _ & _ & _ & Hk).
  destruct r as [v alg nonce ct wrap kek kdf wn wd].
  unfold EncryptedBody_of_json, EncryptedBody_json, zero_body.
  cbn [eb_Version eb_Alg eb_Nonce eb_Ciphertext eb_WrapMode eb_KEKID eb_KDF eb_WrapNonce eb_WrappedDEK] in *.
  cbn [app]. rewrite read_v by done.
  rewrite (proj1 (read_strings _ _ _ _ _ _ _ _ _ _ _)), (proj1 (read_blobs _ _ _ _ _ _ _ _ _ _ _)).
  rewrite (proj1 (proj2 (read_blobs _ _ _ _ _ _ _ _ _ _ _))).
  rewrite (proj1 (proj2 (read_strings _ _ _ _ _ _ _ _ _ _ _))).
  assert (Htail : forall kek kdf,
    members EncryptedBody_member (MkEncryptedBody v alg nonce ct wrap kek kdf [] [])
      [(of_str "wrap_nonce", jbytes wn); (of_str "wrapped_dek", jbytes wd)] =
    Some (MkEncryptedBody v alg nonce ct wrap kek kdf wn wd)).
  { intros kek' kdf'. rewrite (proj1 (proj2 (proj2 (read_blobs _ _ _ _ _ _ _ _ _ _ _)))).
    by rewrite (proj2 (proj2 (proj2 (read_blobs _ _ _ _ _ _ _ _ _ _ _)))). }
  assert (Hkdf : forall kek, members EncryptedBody_member (MkEncryptedBody v alg nonce ct wrap kek None [] [])
      ((if kdf is Some k then [(of_str "kdf", KDFParams_json k)] else []) ++
       [(of_str "wrap_nonce", jbytes wn); (of_str "wrapped_dek", jbytes wd)]) =
    Some (MkEncryptedBody v alg nonce ct wrap kek kdf wn wd)).
  { intros kek'. destruct kdf as [k|]; cbn [app]; [|apply Htail].
    destruct Hk as (? & ? & ?). erewrite read_kdf by by apply into_KDF_json. apply Htail. }
  case_bool_decide as E; cbn [app]; [subst; apply Hkdf|].
  rewrite (proj2 (proj2 (read_strings _ _ _ _ _ _ _ _ _ _ _))). apply Hkdf.
Qed.

(** ** The store *)
Section BodyStore.
Context `{RedisServer} `{RedisClient} `{UUIDText}.

Definition bodyKey (id : uuid) : string := "paste:" +:+ uuid_String id.
Definition unavailableKey (id : uuid) : string := "unavailable:" +:+ uuid_String id.

Definition expiringTTL (ttl : Z) : res Z :=
  if ttl <=? 0 then Err (NewError "redis: ttl must be positive")
  else if ttl <? Millisecond then Ok Millisecond
  else Ok ttl.

(** [json.Marshal] of this struct does not fail. *)
Definition Body_Put (c : ctx) (id : uuid) (rec : EncryptedBody) (ttl : Z) : M World unit :=
  expiration ← lift (expiringTTL ttl);
  wrap (Errorf "redis: put body") (client_Set c (bodyKey id) (marshal_body rec) expiration).

Definition Body_Get (c : ctx) (id : uuid) : M World EncryptedBody :=
  r ← try (client_Get c (bodyKey id));
  match r with
  | inl err =>
      if errors_Is err RedisNil then throw ErrNotFound
      else throw (Errorf "redis: get body" err)
  | inr body =>
      match unmarshal_body body with
      | None => throw (Errorf "redis: decode body" (NewError "json"))
      | Some rec => mret rec
      end
  end.

Definition Body_Delete (c : ctx) (id : uuid) : M World unit :=
  wrap (Errorf "redis: delete body") (client_Del c (bodyKey id)).

Definition Body_MarkUnavailableOnce (c : ctx) (id : uuid) (ttl : Z) : M World bool :=
  expiration ← lift (expiringTTL ttl);
  wrap (Errorf "redis: mark unavailable") (client_SetNX c (unavailableKey id) (of_str "1") expiration).

Definition Body_Ping (c : ctx) : M World unit := client_Ping c.

Definition NewBodyStore : BodyStore World :=
  MkBodyStore World Body_Put Body_Get Body_Delete Body_MarkUnavailableOnce Body_Ping.

(** Keys of different pastes, and of different kinds, are different. *)
Lemma bodyKey_inj id id' : bodyKey id = bodyKey id' -> id = id'.
Proof. intros E%str_app_inj_l. by apply uuid_String_inj. Qed.

Lemma bodyKey_unavailable id id' : bodyKey id <> unavailableKey id'.
Proof. unfold bodyKey, unavailableKey. done. Qed.

Lemma expiringTTL_ok ttl e :
  expiringTTL ttl = Ok e -> 0 < ttl /\ e = Z.max ttl Millisecond /\ px_of e = Some (e / Millisecond).
Proof.
  unfold expiringTTL, Millisecond. intros He. repeat case_match; simplify_eq; gobool.
  - split_and!; [lia|lia|]. apply px_of_pos. unfold Millisecond. lia.
  - split_and!; [lia|lia|]. apply px_of_pos. unfold Millisecond. lia.
Qed.

(** What a reader of the database is given for a paste: the stored text and the
    instant, in milliseconds, at which it disappears. *)
Definition stored (w : World) (id : uuid) : option entry :=
  live (server_ms w) (w_redis w) (bodyKey id).

(** The two databases give the same entry for a key from the instant [t] on. *)
Definition same_key (t : Z) (d d' : rdb) (k : string) : Prop :=
  forall t', t <= t' -> live t' d' k = live t' d k.

Lemma same_key_exec m t d k : k <> key_of m -> same_key t d (snd (exec m t d)) k.
Proof.
  intros Hk t' Ht. rewrite (live_later t t') by done. rewrite exec_other by done.
  by rewrite <-(live_later t t').
Qed.

Lemma same_key_read m t d k :
  (forall e, snd (documented m t e) = e) -> same_key t d (snd (exec m t d)) k.
Proof.
  intros Hd t' Ht. rewrite (live_later t t' (snd _)), (live_later t t' d) by done. f_equal.
  rewrite live_exec, Hd, live_alive. by case_bool_decide.
Qed.

(** The entry a successful [Put] leaves. *)
Definition put_entry (rec : EncryptedBody) (ttl now : Z) : entry :=
  (RString (marshal_body rec), Some (now + Z.max ttl Millisecond / Millisecond)).

Lemma Body_Put_spec c id rec ttl w r w' :
  Body_Put c id rec ttl w = (r, w') ->
  w_time w <= w_time w' /\ w_pg w' = w_pg w /\
  (forall k, k <> bodyKey id -> same_key (server_ms w') (w_redis w) (w_redis w') k) /\
  match r with
  | Ok _ => 0 < ttl /\ stored w' id = Some (put_entry rec ttl (server_ms w'))
  | Err _ => w_redis w' = w_redis w \/
             (0 < ttl /\ stored w' id = Some (put_entry rec ttl (server_ms w')))
  | Panic => False
  end.
Proof.
  unfold Body_Put. intros Hr.
  destruct (expiringTTL ttl) as [e|err|] eqn:Ee.
  2: { unfold expiringTTL in Ee. go_unfold. simplify_eq/=. by split_and!; auto. }
  2: { unfold expiringTTL in Ee. by repeat case_match. }
  apply expiringTTL_ok in Ee as (Hpos & -> & Hpx).
  unfold client_Set in Hr. go_unfold. simpl in Hr.
  destruct (run_cmd c _ w) as [r0 w0] eqn:Ec. apply run_cmd_inv in Ec as (Ht & Hp & Hd & Hr0).
  assert (w' = w0) as -> by (by destruct r0; simplify_eq/=).
  assert (Hst : w_redis w0 = snd (exec (SET (bodyKey id) (marshal_body rec)
                  (px_of (Z.max ttl Millisecond))) (server_ms w0) (w_redis w)) ->
                stored w0 id = Some (put_entry rec ttl (server_ms w0))).
  { intros E. unfold stored. rewrite E, live_exec, bool_decide_true by done. rewrite Hpx. simpl.
    destruct (_ <? _) eqn:El; [done|]. unfold Millisecond in *. lia. }
  split_and!; [done|done| |].
  - intros k Hk. destruct Hd as [-> | ->]; [done|by apply same_key_exec].
  - destruct r0 as [a|err|]; simplify_eq/=; [destruct Hr0; auto|destruct Hd; auto|done].
Qed.

Lemma Body_Get_spec c id w r w' :
  Body_Get c id w = (r, w') ->
  w_time w <= w_time w' /\ w_pg w' = w_pg w /\
  (forall k, same_key (server_ms w') (w_redis w) (w_redis w') k) /\
  match r with
  | Ok rec => exists b x, stored w' id = Some (RString b, x) /\ unmarshal_body b = Some rec
  | Err ErrNotFound => stored w' id = None
  | Err e => (exists k, e = Errorf "redis: get body" (terr k)) \/
      (exists v x, stored w' id = Some (v, x) /\ forall b, v = RString b -> unmarshal_body b = None)
  | Panic => False
  end.
Proof.
  unfold Body_Get, client_Get. intros Hr. go_unfold. simpl in Hr.
  destruct (run_cmd c _ w) as [r0 w0] eqn:Ec. apply run_cmd_inv in Ec as (Ht & Hp & Hd & Hr0).
  assert (Hk : forall k, same_key (server_ms w0) (w_redis w) (w_redis w0) k).
  { intros k. destruct Hd as [-> | ->]; [done|]. apply same_key_read. intros e. simpl.
    by destruct e as [[[] ?]|]. }
  assert (Hst : stored w0 id = live (server_ms w0) (w_redis w) (bodyKey id)) by by apply Hk.
  assert (w' = w0) as -> by (unfold as_bytes, unexpected in Hr; go_unfold; repeat case_match; by simplify_eq/=).
  split_and!; [done|done|done|]. simpl in Hr0. rewrite <-Hst in Hr0.
  destruct r0 as [rep|err|]; [|simplify_eq/=|done].
  - destruct Hr0 as [_ ->]. destruct (stored w0 id) as [[[b|h] x]|] eqn:Es; simplify_eq/=; [| |done].
    2: { right. by eexists _, _. }
    destruct (unmarshal_body b) eqn:Eb; simplify_eq/=; [eauto|].
    right. eexists _, _. split; [done|]. intros b' [= <-]. done.
  - assert (errors_Is err RedisNil = false) as Hne.
    { destruct Hr0 as [[[] ->]|[msg [-> _]]]; done. }
    rewrite Hne in Hr. simplify_eq/=. destruct Hr0 as [[k ->]|(msg & -> & Hm)]; [eauto|].
    right. destruct (stored w0 id) as [[[b|h] x]|]; simplify_eq/=. eexists _, _. by split.
Qed.

Lemma Body_Delete_spec c id w r w' :
  Body_Delete c id w = (r, w') ->
  w_time w <= w_time w' /\ w_pg w' = w_pg w /\
  (forall k, k <> bodyKey id -> same_key (server_ms w') (w_redis w) (w_redis w') k) /\
  (w_redis w' = w_redis w \/ stored w' id = None) /\
  match r with
  | Ok _ => stored w' id = None
  | Err e => exists k, e = Errorf "redis: delete body" (terr k)
  | Panic => False
  end.
Proof.
  unfold Body_Delete, client_Del. intros Hr. go_unfold. simpl in Hr.
  destruct (run_cmd c _ w) as [r0 w0] eqn:Ec. apply run_cmd_inv in Ec as (Ht & Hp & Hd & Hr0).
  assert (w' = w0) as -> by (by destruct r0; simplify_eq/=).
  assert (Hst : w_redis w0 = snd (exec (DEL (bodyKey id)) (server_ms w0) (w_redis w)) ->
                stored w0 id = None).
  { intros E. unfold stored. by rewrite E, live_exec, bool_decide_true. }
  split_and!; [done|done| | |].
  - intros k Hk. destruct Hd as [-> | ->]; [done|by apply same_key_exec].
  - destruct Hd as [Hd|Hd]; auto.
  - destruct r0 as [a|err|]; simplify_eq/=; [by apply Hst, Hr0| |done].
    destruct Hr0 as [[k ->]|(msg & -> & Hm)]; [eauto|done].
Qed.

Lemma Body_MarkUnavailableOnce_spec c id ttl w r w' :
  Body_MarkUnavailableOnce c id ttl w = (r, w') ->
  w_time w <= w_time w' /\ w_pg w' = w_pg w /\
  (forall k, k <> unavailableKey id -> same_key (server_ms w') (w_redis w) (w_redis w') k) /\
  match r with
  | Ok first =>
      is_Some (live (server_ms w') (w_redis w') (unavailableKey id)) /\
      (first = true <-> live (server_ms w') (w_redis w) (unavailableKey id) = None) /\
      (first = true -> live (server_ms w') (w_redis w') (unavailableKey id) =
         Some (RString (of_str "1"), Some (server_ms w' + Z.max ttl Millisecond / Millisecond)))
  | Err _ => True
  | Panic => False
  end.
Proof.
  unfold Body_MarkUnavailableOnce. intros Hr.
  destruct (expiringTTL ttl) as [e|err|] eqn:Ee.
  2: { unfold expiringTTL in Ee. go_unfold. by simplify_eq/=. }
  2: { unfold expiringTTL in Ee. by repeat case_match. }
  apply expiringTTL_ok in Ee as (Hpos & -> & Hpx).
  unfold client_SetNX in Hr. go_unfold. simpl in Hr.
  destruct (run_cmd c _ w) as [r0 w0] eqn:Ec. apply run_cmd_inv in Ec as (Ht & Hp & Hd & Hr0).
  assert (w' = w0) as -> by (unfold unexpected, throw in Hr; repeat case_match; by simplify_eq/=).
  split_and!; [done|done| |].
  - intros k Hk. destruct Hd as [-> | ->]; [done|by apply same_key_exec].
  - destruct r0 as [rep|err|]; [|by simplify_eq/=|done]. destruct Hr0 as [Hx ->].
    assert (Hl : live (server_ms w0) (w_redis w0) (unavailableKey id) = _)
      by (rewrite Hx, live_exec, bool_decide_true by done; reflexivity).
    pose proof (live_alive (server_ms w0) (w_redis w) (unavailableKey id)) as Ha.
    cbn [documented fst snd key_of] in Hr, Hl.
    destruct (live (server_ms w0) (w_redis w) (unavailableKey id)) as [en|] eqn:El;
      cbn [fst snd] in Hr, Hl; injection Hr as <-.
    + split_and!; [|done|done]. rewrite Hl, Ha. eauto.
    + rewrite Hl, Hpx. cbn [fmap option_fmap option_map]. rewrite alive_lt; [by eauto|].
      unfold Millisecond in *. lia.
Qed.

(** A stored body is served, as it was stored, exactly until its time to live
    has passed: a [Get] at any later moment, with nobody writing the key in
    between, returns the body before the deadline and [ErrNotFound] from it on,
    or reports that Redis could not be asked. *)
Lemma Body_Put_Get c id rec ttl w w1 c' w2 r w3 :
  body_typed rec -> Body_Put c id rec ttl w = (Ok tt, w1) ->
  w_time w1 <= w_time w2 ->
  same_key (server_ms w1) (w_redis w1) (w_redis w2) (bodyKey id) ->
  Body_Get c' id w2 = (r, w3) ->
  let deadline := server_ms w1 + Z.max ttl Millisecond / Millisecond in
  (exists k, r = Err (Errorf "redis: get body" (terr k))) \/
  r = (if server_ms w3 <? deadline then Ok rec else Err ErrNotFound).
Proof.
  intros Hty Hput Ht Hsame Hget deadline.
  apply Body_Put_spec in Hput as (_ & _ & _ & _ & Hst).
  apply Body_Get_spec in Hget as (Ht3 & _ & Hk3 & Hr).
  assert (Hm : server_ms w1 <= server_ms w3) by (unfold server_ms, Millisecond; lia).
  assert (Hs3 : stored w3 id = alive (server_ms w3) (Some (put_entry rec ttl (server_ms w1)))).
  { unfold stored. rewrite Hk3 by done. rewrite Hsame by done.
    rewrite (live_later (server_ms w1)) by done. by rewrite <-Hst. }
  unfold put_entry in Hs3. fold deadline in Hs3. cbn [alive] in Hs3.
  destruct (server_ms w3 <? deadline) eqn:E.
  - destruct r as [rec'|e|]; [|destruct e|done]; try (right; congruence).
    1: { right. destruct Hr as (b & x & Hb & Hu). rewrite Hs3 in Hb. simplify_eq.
         rewrite unmarshal_marshal_body in Hu by done. congruence. }
    all: destruct Hr as [[k ->]|(v & x & Hv & Hn)]; [by eauto|].
    all: rewrite Hs3 in Hv; simplify_eq; specialize (Hn _ eq_refl).
    all: by rewrite unmarshal_marshal_body in Hn.
  - destruct r as [rec'|e|]; [|destruct e|done]; try (by right).
    1: { destruct Hr as (b & x & Hb & Hu). congruence. }
    all: destruct Hr as [[k ->]|(v & x & Hv & Hn)]; [by eauto|congruence].
Qed.

(** One report per disappearance: after a call that answered "first", no call
    answers "first" again before the marker's own time to live has passed. *)
Theorem MarkUnavailableOnce_once c id ttl w w1 c' ttl' w2 w3 :
  Body_MarkUnavailableOnce c id ttl w = (Ok true, w1) ->
  w_time w1 <= w_time w2 ->
  same_key (server_ms w1) (w_redis w1) (w_redis w2) (unavailableKey id) ->
  Body_MarkUnavailableOnce c' id ttl' w2 = (Ok true, w3) ->
  server_ms w1 + Z.max ttl Millisecond / Millisecond <= server_ms w3.
Proof.
  intros Hfst Ht Hs Hsnd.
  apply Body_MarkUnavailableOnce_spec in Hfst as (_ & _ & _ & _ & _ & He).
  apply Body_MarkUnavailableOnce_spec in Hsnd as (Ht3 & _ & _ & _ & Hn & _).
  assert (Hm : server_ms w1 <= server_ms w3) by (unfold server_ms, Millisecond; lia).
  specialize (He eq_refl). apply proj1 in Hn. specialize (Hn eq_refl).
  rewrite Hs, (live_later (server_ms w1)), He in Hn by done. simpl in Hn.
  destruct (_ <? _) eqn:E in Hn; [done|]. lia.
Qed.
End BodyStore.

(** ** Runs *)
#[local] Existing Instance map_server.
#[local] Existing Instance ms_client.
#[local] Existing Instance canonical_uuid_text.

Definition demo_body : EncryptedBody :=
  MkEncryptedBody 1 "aes256gcm" [Byte.x01; Byte.xff] [Byte.x02] "pw" ""
    (Some (MkKDFParams [Byte.x03] 3 65536 2)) [Byte.x04] [Byte.x05].
Definition demo_put : res unit * World := Body_Put Background uuid_Nil demo_body (5 * Second) demo_world.
Definition demo_get : res EncryptedBody * World := Body_Get Background uuid_Nil (snd demo_put).

Lemma Body_Put_Get_witness :
  fst demo_put = Ok tt /\ fst demo_get = Ok demo_body /\
  let deadline := server_ms (snd demo_put) + Z.max (5 * Second) Millisecond / Millisecond in
  (exists k, fst demo_get = Err (Errorf "redis: get body" (terr k))) \/
  fst demo_get = (if server_ms (snd demo_get) <? deadline then Ok demo_body else Err ErrNotFound).
Proof.
  split; [vm_compute; reflexivity|]. split; [vm_compute; reflexivity|].
  apply (Body_Put_Get Background uuid_Nil demo_body (5 * Second) demo_world (snd demo_put)
           Background (snd demo_put)).
  - unfold body_typed, in_int64. simpl. split_and!; (done || lia).
  - apply run_fst. vm_compute. reflexivity.
  - apply Z.le_refl.
  - intros t _. reflexivity.
  - apply surjective_pairing.
Defined.

Definition demo_mark (ttl : Z) (w : World) : res bool * World :=
  Body_MarkUnavailableOnce Background uuid_Nil ttl w.
Definition later (t : Z) (w : World) : World :=
  MkWorld (w_time w + t) (w_redis w) (w_pg w) (w_env w) (w_rand w) (w_log w) (w_warned w).

Lemma MarkUnavailableOnce_once_witness :
  let w1 := snd (demo_mark Second demo_world) in
  let w2 := later (2 * Second) w1 in
  fst (demo_mark Second w2) = Ok true /\
  server_ms w1 + Z.max Second Millisecond / Millisecond <= server_ms (snd (demo_mark Second w2)).
Proof.
  intros w1 w2. split; [vm_compute; reflexivity|].
  apply (MarkUnavailableOnce_once Background uuid_Nil Second demo_world w1 Background Second w2).
  - apply run_fst. vm_compute. reflexivity.
  - unfold w2, later, Second. simpl. lia.
  - intros t _. reflexivity.
  - apply run_fst. vm_compute. reflexivity.
Defined.
