(* ===== verification/RateLimit.v ===== *)
(** * Rate limiting ([internal/ratelimit])

    The fixed-window limiter over Redis: the Lua script that counts a call and
    starts the window with the first one, the decision, and the bounds on what
    the limiter lets through whatever fails on the way. *)
From S2P Require Import Prelude GoNum GoStr Codec Errors PasteTypes Redis Pg World RedisBody.

Record Rule : Type := MkRule { rule_Limit : Z; rule_Window : Z }.

Record Decision : Type := MkDecision { dec_Allowed : bool; dec_RetryAfter : Z }.

(** [Scope] is a string type. *)
Definition ScopeLogin := "login".
Definition ScopeLoginIP := "login_ip".
Definition ScopePasteCreate := "paste_create".
Definition ScopeChallengeIssue := "challenge_issue".
Definition ScopeUnlock := "unlock".
Definition ScopeUnlockIP := "unlock_ip".
Definition ScopeVerify := "verify".
Definition ScopeVerifyGlobal := "verify_global".
Definition ScopeDelete := "delete".

(** [config.RateConfig] *)
Record RateConfig : Type := MkRateConfig {
  PastePerMin : Z; LoginPerMin : Z; LoginIPPerMin : Z; UnlockPer15Min : Z; UnlockIPPer15Min : Z;
  VerifyPerMin : Z; VerifyGlobalPerMin : Z; ChallengePerMin : Z; DeletePerMin : Z
}.

Definition RulesFromConfig (c : RateConfig) : gmap string Rule :=
  list_to_map
    [(ScopeLogin, MkRule (LoginPerMin c) Minute);
     (ScopeLoginIP, MkRule (LoginIPPerMin c) Minute);
     (ScopePasteCreate, MkRule (PastePerMin c) Minute);
     (ScopeChallengeIssue, MkRule (ChallengePerMin c) Minute);
     (ScopeUnlock, MkRule (UnlockPer15Min c) (15 * Minute));
     (ScopeUnlockIP, MkRule (UnlockIPPer15Min c) (15 * Minute));
     (ScopeVerify, MkRule (VerifyPerMin c) Minute);
     (ScopeVerifyGlobal, MkRule (VerifyGlobalPerMin c) Minute);
     (ScopeDelete, MkRule (DeletePerMin c) Minute)].

Definition failClosedRetry : Z := 5 * Second.
Definition failClosedDecision : Decision := MkDecision false failClosedRetry.

Definition parseWindowResult (result : list reply) : option (Z * Z) :=
  match result with
  | [RInt count; RInt ttlMillis] =>
      if (count <=? 0) || (ttlMillis <=? 0) then None else Some (count, ttlMillis)
  | _ => None
  end.

Section Limiter.
Context `{RedisServer}.

(** The script: [redis.call] raises the error replies of the server. *)
Definition fixedWindowScript (key : string) (window : Z) (t : Z) (d : rdb) : reply * rdb :=
  let '(count, d) := exec (INCR key) t d in
  match count with
  | RError msg => (RError msg, d)
  | _ =>
      let d := if match count with RInt n => n =? 1 | _ => false end
               then snd (exec (PEXPIRE key window) t d) else d in
      let '(ttl, d) := exec (PTTL key) t d in
      (RArray [count; ttl], d)
  end.

Definition log_line (msg : string) (attrs : list (string * value)) : M World unit :=
  fun w => (Ok tt, write_log msg attrs w).

Definition warnAllowOnce (scope message : string) : M World unit := fun w =>
  if bool_decide (scope ∈ w_warned w) then (Ok tt, w)
  else (Ok tt, write_log message [("scope", VStr scope)]
                 (MkWorld (w_time w) (w_redis w) (w_pg w) (w_env w) (w_rand w) (w_log w)
                    ({[scope]} ∪ w_warned w))).

Definition window_key (scope key : string) : string := "rl:" +:+ scope +:+ ":" +:+ key.

(** [script.Run(...).Slice()] *)
Definition run_window (c : ctx) (scope key : string) (window : Z) : M World (list reply) :=
  r ← redis_do c (fixedWindowScript (window_key scope key) window);
  match r with
  | RError msg => throw (NewError msg)
  | RArray l => mret l
  | _ => throw (NewError "redis: unexpected type")
  end.

(** The source also denies when its client, script or context is nil, which
    the constructor and the callers exclude. *)
Definition Allow (rules : gmap string Rule) (c : ctx) (scope key : string) : M World Decision :=
  match rules !! scope with
  | None =>
      warnAllowOnce scope "rate limit scope not configured; allowing" ;;
      mret (MkDecision true 0)
  | Some rule =>
      if rule_Limit rule <=? 0 then
        warnAllowOnce scope "rate limit scope has non-positive limit; allowing" ;;
        mret (MkDecision true 0)
      else
        let windowMillis := Milliseconds (rule_Window rule) in
        if windowMillis <=? 0 then
          log_line "rate limiter has invalid window; denying" [("scope", VStr scope)] ;;
          mret failClosedDecision
        else
          r ← try (run_window c scope key windowMillis);
          match r with
          | inl _ =>
              log_line "rate limiter backend error; denying" [("scope", VStr scope)] ;;
              mret failClosedDecision
          | inr result =>
              match parseWindowResult result with
              | None =>
                  log_line "rate limiter returned malformed result; denying" [("scope", VStr scope)] ;;
                  mret failClosedDecision
              | Some (count, ttlMillis) =>
                  if rule_Limit rule <? count
                  then mret (MkDecision false (dur_mul ttlMillis Millisecond))
                  else mret (MkDecision true 0)
              end
          end
  end.

(** ** The counter behind a window *)

(** A counter as the script leaves it: its value and the end of its window. *)
Definition counter (n x : Z) : entry := (RString (of_str (Decimal.FormatInt n)), Some x).

Lemma counter_inj n n' x x' :
  1 <= n <= max_int64 -> 1 <= n' <= max_int64 ->
  counter n' x' = counter n x -> n' = n /\ x' = x.
Proof.
  unfold max_int64. intros Hn Hn' [= E ->]. split; [|done].
  apply (inj of_str) in E. apply (f_equal Decimal.ParseInt) in E.
  rewrite !Decimal.ParseInt_FormatInt in E by (unfold in_int64; lia). congruence.
Qed.

Lemma script_start key window t d :
  0 < window -> live t d key = None ->
  fst (fixedWindowScript key window t d) = RArray [RInt 1; RInt window] /\
  live t (snd (fixedWindowScript key window t d)) key = Some (counter 1 (t + window)).
Proof.
  intros Hw Hl. unfold fixedWindowScript.
  destruct (exec (INCR key) t d) as [r d1] eqn:Ei.
  pose proof (exec_reply (INCR key) t d) as Hr. pose proof (exec_key (INCR key) t d) as Hk.
  rewrite Ei in Hr, Hk. cbn [fst snd key_of] in Hr, Hk. rewrite Hl in Hr, Hk. cbn in Hr, Hk. subst r.
  cbn [Z.eqb Pos.eqb].
  destruct (exec (PEXPIRE key window) t d1) as [r2 d2] eqn:Ep.
  pose proof (exec_key (PEXPIRE key window) t d1) as Hk2. rewrite Ep in Hk2.
  cbn [fst snd key_of] in Hk2. rewrite Hk in Hk2. cbn in Hk2. unfold set_expiry in Hk2.
  destruct (t + window <=? t) eqn:E1; [lia|]. cbn in Hk2.
  destruct (t <? t + window) eqn:E2; [|lia].
  destruct (exec (PTTL key) t (r2, d2).2) as [r3 d3] eqn:Et. cbn [snd] in Et.
  pose proof (exec_reply (PTTL key) t d2) as Hr3. pose proof (exec_key (PTTL key) t d2) as Hk3.
  rewrite Et in Hr3, Hk3. cbn [fst snd key_of] in Hr3, Hk3. rewrite Hk2 in Hr3, Hk3. cbn in Hr3, Hk3.
  rewrite E2 in Hk3. subst r3. cbn [fst snd]. split; [|done].
  by replace (t + window - t) with window by lia.
Qed.

Lemma script_count key window t d n x :
  1 <= n <= max_int64 -> live t d key = Some (counter n x) ->
  (n = max_int64 /\ fst (fixedWindowScript key window t d) = NOTANINT /\
   live t (snd (fixedWindowScript key window t d)) key = Some (counter n x)) \/
  (n < max_int64 /\ fst (fixedWindowScript key window t d) = RArray [RInt (n + 1); RInt (x - t)] /\
   live t (snd (fixedWindowScript key window t d)) key = Some (counter (n + 1) x)).
Proof.
  intros Hn Hl. pose proof (live_expiry _ _ _ _ _ Hl) as Hx. unfold fixedWindowScript.
  destruct (exec (INCR key) t d) as [r d1] eqn:Ei.
  pose proof (exec_reply (INCR key) t d) as Hr. pose proof (exec_key (INCR key) t d) as Hk.
  rewrite Ei in Hr, Hk. cbn [fst snd key_of] in Hr, Hk. rewrite Hl in Hr, Hk.
  unfold counter in Hr, Hk. cbn [documented] in Hr, Hk.
  rewrite to_of_str, Decimal.ParseInt_FormatInt in Hr, Hk by (unfold in_int64, max_int64 in *; lia).
  destruct (n <? max_int64) eqn:En; cbn [fst snd] in Hr, Hk; subst r.
  - right. split; [lia|]. destruct (n + 1 =? 1) eqn:E1; [lia|].
    rewrite alive_lt in Hk by done.
    destruct (exec (PTTL key) t d1) as [r3 d3] eqn:Et.
    pose proof (exec_reply (PTTL key) t d1) as Hr3. pose proof (exec_key (PTTL key) t d1) as Hk3.
    rewrite Et in Hr3, Hk3. cbn [fst snd key_of] in Hr3, Hk3. rewrite Hk in Hr3, Hk3.
    cbn [documented fst snd] in Hr3, Hk3. subst r3. rewrite alive_lt in Hk3 by done. done.
  - left. split; [lia|]. cbn. split; [done|]. by rewrite Hk, alive_lt.
Qed.

(** What the server answered to the script of a call, if it answered. *)
Definition replied (c : ctx) (scope key : string) (window : Z) (w : World) (count ttl : Z) : Prop :=
  exists w1, redis_do c (fixedWindowScript ("rl:" +:+ scope +:+ ":" +:+ key) window) w = (Ok (RArray [RInt count; RInt ttl]), w1).

Lemma run_window_replied c scope key window w count ttl w1 :
  run_window c scope key window w = (Ok [RInt count; RInt ttl], w1) -> replied c scope key window w count ttl.
Proof.
  unfold run_window, replied, window_key. go_unfold.
  destruct (redis_do c _ w) as [[[]|e|] w2]; intros; simplify_eq; by eexists.
Qed.

Lemma run_window_no_panic c scope key window w w1 : run_window c scope key window w <> (Panic, w1).
Proof.
  unfold run_window. go_unfold. destruct (redis_do c _ w) as [r0 w0] eqn:Ed.
  apply redis_do_inv in Ed as (_ & _ & [(_ & k & ->)|(_ & [-> |[k ->]])]); try by intros; simplify_eq.
  intros Hr. by repeat case_match; simplify_eq.
Qed.

(** C23. The limiter always answers.  A scope with a positive limit fails closed:
    a call is allowed only when Redis answered the script of that scope and key
    with a count within the limit and a window that is still open; otherwise it
    is refused, for five seconds, or for the rest of the window when the count
    answered is above the limit; and a window of less than a millisecond
    refuses every call.  A scope that is not configured, or whose limit is not
    positive, is not limited: it allows every call, and without asking Redis. *)
Theorem Allow_fails_closed rules scope key c w :
  match rules !! scope with
  | Some rule =>
      0 < rule_Limit rule ->
      let window := Milliseconds (rule_Window rule) in
      exists d w', Allow rules c scope key w = (Ok d, w') /\
        (dec_Allowed d = true ->
         exists count ttl, replied c scope key window w count ttl /\ 1 <= count <= rule_Limit rule /\ 0 < ttl) /\
        (dec_Allowed d = false -> dec_RetryAfter d = 5 * Second \/
         exists count ttl, replied c scope key window w count ttl /\ rule_Limit rule < count /\
           dec_RetryAfter d = dur_mul ttl Millisecond) /\
        (window <= 0 -> d = MkDecision false (5 * Second))
  | None => True
  end /\
  (match rules !! scope with Some rule => rule_Limit rule <= 0 | None => True end ->
   exists w', Allow rules c scope key w = (Ok (MkDecision true 0), w') /\
     w_redis w' = w_redis w /\ w_env w' = w_env w /\ w_time w' = w_time w).
Proof.
  unfold Allow. destruct (rules !! scope) as [rule|].
  2: { split; [done|]. intros _. unfold warnAllowOnce. go_unfold. case_bool_decide; by eexists. }
  split.
  2: { intros Hl. replace (rule_Limit rule <=? 0) with true by lia. unfold warnAllowOnce. go_unfold.
       case_bool_decide; by eexists. }
  intros Hlimit. set (window := Milliseconds (rule_Window rule)). replace (rule_Limit rule <=? 0) with false by lia. unfold log_line, failClosedDecision.
  go_unfold. destruct (window <=? 0) eqn:E2; [by do 2 eexists; split; [|split; [|split; [left|]]]|].
  destruct (run_window c scope key window w) as [[l|e|] w1] eqn:Er; [| |by apply run_window_no_panic in Er].
  - destruct (parseWindowResult l) as [[count ttl]|] eqn:Ep; [|by do 2 eexists; split; [|split; [|split; [left|lia]]]].
    assert (l = [RInt count; RInt ttl] /\ 1 <= count /\ 0 < ttl) as (-> & Hc & Ht).
    { unfold parseWindowResult in Ep. repeat case_match; simplify_eq. gobool. split_and!; [done|lia..]. }
    apply run_window_replied in Er.
    destruct (rule_Limit rule <? count) eqn:E; do 2 eexists; (split; [done|]); cbn [dec_Allowed dec_RetryAfter].
    + split; [done|]. split; [|lia]. intros _. right. exists count, ttl. split_and!; [done|lia|done].
    + split; [|split; [done|lia]]. intros _. exists count, ttl. split_and!; [done|lia..].
  - by do 2 eexists; split; [|split; [|split; [left|lia]]].
Qed.

Context (rules : gmap string Rule) (scope key : string) (rule : Rule).
Context (Hrule : rules !! scope = Some rule) (Hlimit : 0 < rule_Limit rule)
  (Hwindow : 0 < Milliseconds (rule_Window rule)).
Let wkey := window_key scope key.
Let window := Milliseconds (rule_Window rule).

Lemma Allow_time c w r w' : Allow rules c scope key w = (r, w') -> w_time w <= w_time w'.
Proof.
  unfold Allow, run_window, log_line, warnAllowOnce. intros Hr. go_inv Hr; simplify_eq/=; try lia.
  all: match goal with E : redis_do _ _ _ = _ |- _ => apply redis_do_inv in E as [? _] end; done.
Qed.

(** What the key of a window may hold at an instant. *)
Definition window_entry (e : option entry) : Prop :=
  e = None \/ exists n x, e = Some (counter n x) /\ 1 <= n <= max_int64.

(** One call, seen at the instant [server_ms w'] at which the server may have
    run it: [e] and [e'] are the entry before and after. *)
Inductive allow_step (now : Z) (d : Decision) : option entry -> option entry -> Prop :=
| step_denied e : d = failClosedDecision -> allow_step now d e e
| step_start :
    d = failClosedDecision \/ d = MkDecision true 0 ->
    allow_step now d None (Some (counter 1 (now + window)))
| step_count n x :
    1 <= n < max_int64 -> now < x ->
    (d = failClosedDecision \/ (d = MkDecision true 0 /\ n + 1 <= rule_Limit rule) \/
     (d = MkDecision false (dur_mul (x - now) Millisecond) /\ rule_Limit rule < n + 1)) ->
    allow_step now d (Some (counter n x)) (Some (counter (n + 1) x)).

Lemma Allow_step c w r w' :
  Allow rules c scope key w = (r, w') ->
  window_entry (live (server_ms w') (w_redis w) wkey) ->
  w_time w <= w_time w' /\ w_pg w' = w_pg w /\
  exists d, r = Ok d /\
    allow_step (server_ms w') d (live (server_ms w') (w_redis w) wkey)
      (live (server_ms w') (w_redis w') wkey).
Proof.
  unfold Allow. rewrite Hrule. destruct (rule_Limit rule <=? 0) eqn:E1; [lia|].
  destruct (Milliseconds (rule_Window rule) <=? 0) eqn:E2; [lia|].
  unfold run_window, log_line. intros Hr He. fold wkey window in Hr. go_unfold. simpl in Hr.
  destruct (redis_do c _ w) as [r0 w0] eqn:Er. apply redis_do_inv in Er as (Ht & Hp & Hd).
  assert (Hw : exists d, r = Ok d /\ w_time w' = w_time w0 /\ w_redis w' = w_redis w0 /\ w_pg w' = w_pg w0 /\
    d = match r0 with
        | Ok (RArray l) =>
            match parseWindowResult l with
            | Some (count, ttl) =>
                if rule_Limit rule <? count then MkDecision false (dur_mul ttl Millisecond)
                else MkDecision true 0
            | None => failClosedDecision
            end
        | _ => failClosedDecision
        end).
  { destruct r0 as [[]|e|]; simplify_eq/=; try (by eexists; split_and!).
    - destruct (parseWindowResult l) as [[count ttl]|]; [|by simplify_eq/=; eexists; split_and!].
      destruct (rule_Limit rule <? count); simplify_eq/=; by eexists; split_and!.
    - by destruct Hd as [(_ & k & ?)|(_ & [?|[k ?]])]. }
  destruct Hw as (d & -> & Ht' & Hr' & Hp' & Hdec).
  assert (Hms : server_ms w' = server_ms w0) by (unfold server_ms; by rewrite Ht').
  rewrite Hms, Hr' in *. split_and!; [lia|congruence|]. exists d. split; [done|].
  destruct Hd as [(-> & k & ->)|(Hd & Hres)]; [subst d; by constructor|].
  rewrite Hd. destruct He as [He|(n & x & He & Hn)]; rewrite He.
  - destruct (script_start wkey window (server_ms w0) (w_redis w) Hwindow He) as [Hf ->].
    constructor. destruct Hres as [-> |[k ->]]; [|by left]. rewrite Hf in Hdec. cbn in Hdec.
    destruct (window <=? 0) eqn:Ew; [unfold window in *; lia|].
    destruct (rule_Limit rule <? 1) eqn:E; [lia|by right].
  - pose proof (live_expiry _ _ _ _ _ He) as Hx.
    destruct (script_count wkey window _ _ n x Hn He) as [(-> & Hf & ->)|(Hlt & Hf & ->)].
    + constructor. destruct Hres as [-> |[k ->]]; [|done]. by rewrite Hf in Hdec.
    + constructor; [lia|done|]. destruct Hres as [-> |[k ->]]; [|by left]. rewrite Hf in Hdec.
      cbn [parseWindowResult] in Hdec.
      destruct ((n + 1 <=? 0) || (x - server_ms w0 <=? 0)) eqn:Ez; [lia|].
      destruct (rule_Limit rule <? n + 1) eqn:E; [right; right; by split; [|lia]|].
      right. left. by split; [|lia].
Qed.

(** A history of calls on one key: between two calls time passes and others
    may do anything that does not write the key. *)
Definition elapses (w w' : World) : Prop :=
  w_time w <= w_time w' /\ same_key (server_ms w) (w_redis w) (w_redis w') wkey.

Inductive allow_run : World -> list Decision -> World -> Prop :=
| run_nil w : allow_run w [] w
| run_cons w w0 c d w1 ds w2 :
    elapses w w0 -> Allow rules c scope key w0 = (Ok d, w1) -> allow_run w1 ds w2 ->
    allow_run w (d :: ds) w2.

Fixpoint allowed (ds : list Decision) : Z :=
  match ds with
  | [] => 0
  | d :: ds => (if dec_Allowed d then 1 else 0) + allowed ds
  end.

(** Calls that can still be allowed up to the instant [stop]: what the current
    window has left and, when it ends by then, one more window. *)
Inductive budget (stop : Z) : option entry -> Z -> Prop :=
| budget_none : budget stop None (rule_Limit rule)
| budget_some n x : 1 <= n <= max_int64 ->
    budget stop (Some (counter n x))
      (Z.max 0 (rule_Limit rule - n) + if stop <? x then 0 else rule_Limit rule).

Lemma budget_entry stop e b : budget stop e b -> window_entry e.
Proof. destruct 1; [by left|right; eauto]. Qed.

Lemma entry_budget stop e : window_entry e -> exists b, budget stop e b.
Proof. intros [-> |(n & x & -> & Hn)]; eexists; by constructor. Qed.

Lemma budget_alive stop t e b :
  t <= stop -> budget stop e b -> exists b', budget stop (alive t e) b' /\ b' <= b.
Proof.
  intros Ht [|n x Hn]; cbn; [eexists; split; [constructor|lia]|].
  destruct (t <? x) eqn:E; [eexists; split; [by constructor|lia]|].
  eexists. split; [constructor|]. destruct (stop <? x) eqn:E2; lia.
Qed.

Lemma budget_nonneg stop e b : budget stop e b -> 0 <= b.
Proof. destruct 1; [lia|]. destruct (stop <? x); lia. Qed.

Lemma step_budget stop now d e e' b :
  allow_step now d e e' -> budget stop e b -> stop < now + window ->
  exists b', budget stop e' b' /\ (if dec_Allowed d then 1 else 0) + b' <= b.
Proof.
  intros Hs Hb Hstop. destruct Hs as [e ->|Hd|n x Hn Hx Hd].
  - exists b. by split; [|simpl; lia].
  - inversion Hb; subst. eexists. split; [apply budget_some; unfold max_int64; lia|].
    destruct (stop <? now + window) eqn:E; [|lia]. destruct Hd as [-> | ->]; simpl; lia.
  - remember (Some (counter n x)) as e eqn:Ee. destruct Hb as [|n' x' Hn']; [done|].
    assert (counter n' x' = counter n x) as [-> ->]%counter_inj by congruence; [|lia|done].
    eexists. split; [apply budget_some; unfold max_int64 in *; lia|].
    destruct Hd as [-> |[[-> ?]|[-> ?]]]; simpl; destruct (stop <? x); lia.
Qed.

Lemma allow_run_budget w ds w' start :
  allow_run w ds w' -> start <= server_ms w -> server_ms w' < start + window ->
  window_entry (live (server_ms w) (w_redis w) wkey) ->
  w_time w <= w_time w' /\
  forall b, budget (server_ms w') (live (server_ms w) (w_redis w) wkey) b -> allowed ds <= b.
Proof.
  intros Hrun Hstart Hstop. revert Hstart.
  induction Hrun as [w|w w0 c d w1 ds w2 [Ht Hs] Ha Hrun IH]; intros Hstart He.
  { split; [lia|]. intros b Hb. simpl. by eapply budget_nonneg. }
  assert (Ht0 : forall t, server_ms w <= t -> live t (w_redis w0) wkey =
                  alive t (live (server_ms w) (w_redis w) wkey)).
  { intros t Htt. rewrite Hs by done. by apply live_later. }
  assert (Hms : forall w w' : World, w_time w <= w_time w' -> server_ms w <= server_ms w')
    by (unfold server_ms, Millisecond; intros; lia).
  (* the instant of the call is not known to be later until it is run *)
  destruct (entry_budget (server_ms w2) _ He) as [b0 Hb0].
  assert (Hcall : w_time w0 <= w_time w1).
  { eapply (Allow_time c). exact Ha. }
  pose proof (Hms _ _ Ht). pose proof (Hms _ _ Hcall).
  assert (He1 : window_entry (live (server_ms w1) (w_redis w0) wkey)).
  { rewrite Ht0 by lia. destruct He as [-> |(n & x & -> & Hn)]; [by left|]. cbn.
    destruct (_ <? x); [|by left]. right. by exists n, x. }
  destruct (Allow_step _ _ _ _ Ha He1) as (_ & _ & d' & [= <-] & Hstep).
  assert (He2 : window_entry (live (server_ms w1) (w_redis w1) wkey)).
  { destruct Hstep as [e| |n x]; [done| |].
    - right. exists 1, (server_ms w1 + window). split; [done|]. unfold max_int64. lia.
    - right. exists (n + 1), x. split; [done|lia]. }
  destruct IH as [Ht12 IH]; [lia|lia|done|].
  split; [lia|]. intros b Hb. pose proof (Hms _ _ Ht12).
  destruct (budget_alive (server_ms w2) (server_ms w1) _ b ltac:(lia) Hb) as (b1 & Hb1 & Hle1).
  rewrite <-Ht0 in Hb1 by lia.
  destruct (step_budget _ _ _ _ _ _ Hstep Hb1) as (b2 & Hb2 & Hle2); [lia|].
  specialize (IH _ Hb2). simpl. lia.
Qed.

(** C22. The limit of a configured scope, with a positive limit and window, holds:
    in any stretch of time shorter than the window,
    whatever calls fail, hang or lose their answer, at most [Limit] calls are
    allowed when no window was open at its start, and never more than twice
    that. *)
Theorem Allow_bounds_calls w ds w' :
  allow_run w ds w' -> window_entry (live (server_ms w) (w_redis w) wkey) ->
  server_ms w' < server_ms w + window ->
  allowed ds <= 2 * rule_Limit rule /\
  (live (server_ms w) (w_redis w) wkey = None -> allowed ds <= rule_Limit rule).
Proof.
  intros Hrun He Hstop.
  destruct (allow_run_budget w ds w' (server_ms w) Hrun) as [_ Hb]; [lia|done|done|].
  destruct (entry_budget (server_ms w') _ He) as [b Hbb]. specialize (Hb _ Hbb).
  destruct Hbb as [|n x Hn]; [lia|]. split; [|done]. destruct (_ <? x); lia.
Qed.
End Limiter.

(** ** Runs *)
#[local] Existing Instance map_server.

Definition demo_rules : gmap string Rule := {[ ScopeLogin := MkRule 2 Minute ]}.
Definition demo_allow (w : World) : res Decision * World :=
  Allow demo_rules Background ScopeLogin "alice" w.
Definition demo_w1 : World := snd (demo_allow demo_world).
Definition demo_w2 : World := snd (demo_allow demo_w1).
Definition demo_w3 : World := snd (demo_allow demo_w2).

Lemma Allow_bounds_calls_witness :
  allowed [MkDecision true 0; MkDecision true 0; MkDecision false (60 * Second)] = 2 /\
  allowed [MkDecision true 0; MkDecision true 0; MkDecision false (60 * Second)] <= 2 * 2 /\
  (live (server_ms demo_world) (w_redis demo_world) (window_key ScopeLogin "alice") = None ->
   allowed [MkDecision true 0; MkDecision true 0; MkDecision false (60 * Second)] <= 2).
Proof.
  split; [reflexivity|].
  apply (Allow_bounds_calls demo_rules ScopeLogin "alice" (MkRule 2 Minute)
           ltac:(reflexivity) ltac:(simpl; lia) ltac:(vm_compute; reflexivity) demo_world
           [MkDecision true 0; MkDecision true 0; MkDecision false (60 * Second)] demo_w3).
  - assert (He : forall w, elapses ScopeLogin "alice" w w).
    { intros w. split; [apply Z.le_refl|]. intros t _. reflexivity. }
    eapply (run_cons _ _ _ _ demo_world Background _ demo_w1); [apply He| |].
    { apply run_fst. vm_compute. reflexivity. }
    eapply (run_cons _ _ _ _ demo_w1 Background _ demo_w2); [apply He| |].
    { apply run_fst. vm_compute. reflexivity. }
    eapply (run_cons _ _ _ _ demo_w2 Background _ demo_w3); [apply He| |apply run_nil].
    apply run_fst. vm_compute. reflexivity.
  - left. reflexivity.
  - vm_compute. reflexivity.
Defined.

Lemma Allow_fails_closed_witness :
  (exists d w', Allow demo_rules Background ScopeLogin "alice" demo_world = (Ok d, w') /\
    (dec_Allowed d = true ->
     exists count ttl, replied Background ScopeLogin "alice" 60000 demo_world count ttl /\ 1 <= count <= 2 /\ 0 < ttl)) /\
  (exists w', Allow demo_rules Background "unlock" "alice" demo_world = (Ok (MkDecision true 0), w')) /\
  (exists w', Allow {[ ScopeLogin := MkRule 2 0 ]} Background ScopeLogin "alice" demo_world =
     (Ok (MkDecision false (5 * Second)), w')).
Proof.
  split_and!.
  - pose proof (Allow_fails_closed demo_rules ScopeLogin "alice" Background demo_world) as [Hc _].
    destruct (Hc ltac:(simpl; lia)) as (d & w' & Ha & Hok & _). exists d, w'. split; [exact Ha|]. exact Hok.
  - destruct (Allow_fails_closed demo_rules "unlock" "alice" Background demo_world) as [_ Hopen].
    destruct (Hopen I) as (w' & Ha & _). by exists w'.
  - destruct (Allow_fails_closed {[ ScopeLogin := MkRule 2 0 ]} ScopeLogin "alice" Background demo_world) as [Hc _].
    destruct (Hc ltac:(simpl; lia)) as (d & w' & Ha & _ & _ & Hw). exists w'. by rewrite Ha, Hw.
Defined.
