(* ===== verification/PgPastes.v ===== *)
(** * Paste metadata in Postgres ([internal/store/postgres/pastes.go])

    The statements of the paste store as functions on the tables, the store
    over them, the invariant the schema keeps and what each query returns. *)
From stdpp Require Import sorting.
From S2P Require Import Prelude GoNum GoStr Codec Json Errors PasteTypes Ports Redis Pg World.

Section Pastes.
Context `{RedisServer} `{PgTypes}.

(** ** Rows *)

(** The values [Create] binds: an empty key id is NULL. *)
Definition row_of_meta (m : PasteMeta) : PasteRow :=
  MkPasteRow (pm_ID m) (pm_OwnerID m) (timestamptz (pm_CreatedAt m)) (timestamptz (pm_ExpiresAt m))
    (pm_TTLSeconds m) (pm_SizeBytes m) (pm_HashAlgo m) (pm_ContentHash m) (pm_PasswordProtected m)
    (if bool_decide (pm_KEKID m = "") then None else Some (pm_KEKID m)) (pm_ViewCount m)
    (timestamptz <$> pm_ExpiredAuditedAt m) (timestamptz <$> pm_DeletedAt m) (pm_DeletedBy m).

(** [scanPaste] over [pasteColumns]: [COALESCE(kek_id, '')]. *)
Definition scanPaste (r : PasteRow) : PasteMeta :=
  MkPasteMeta (p_id r) (p_owner_id r) (p_created_at r) (p_expires_at r) (p_ttl_seconds r)
    (p_size_bytes r) (p_hash_algo r) (p_content_hash r) (p_password_protected r)
    (default "" (p_kek_id r)) (p_view_count r) (p_expired_audited_at r) (p_deleted_at r)
    (p_deleted_by r).

Definition set_view_count (n : Z) (r : PasteRow) : PasteRow :=
  MkPasteRow (p_id r) (p_owner_id r) (p_created_at r) (p_expires_at r) (p_ttl_seconds r)
    (p_size_bytes r) (p_hash_algo r) (p_content_hash r) (p_password_protected r) (p_kek_id r)
    n (p_expired_audited_at r) (p_deleted_at r) (p_deleted_by r).
Definition set_audited (at_ : option Z) (r : PasteRow) : PasteRow :=
  MkPasteRow (p_id r) (p_owner_id r) (p_created_at r) (p_expires_at r) (p_ttl_seconds r)
    (p_size_bytes r) (p_hash_algo r) (p_content_hash r) (p_password_protected r) (p_kek_id r)
    (p_view_count r) at_ (p_deleted_at r) (p_deleted_by r).
Definition set_deleted (at_ : option Z) (by_ : option uuid) (r : PasteRow) : PasteRow :=
  MkPasteRow (p_id r) (p_owner_id r) (p_created_at r) (p_expires_at r) (p_ttl_seconds r)
    (p_size_bytes r) (p_hash_algo r) (p_content_hash r) (p_password_protected r) (p_kek_id r)
    (p_view_count r) (p_expired_audited_at r) at_ by_.

(** ** Statements *)

Definition has_user (t : Tables) (id : uuid) : bool :=
  existsb (fun u => bool_decide (u_id u = id)) (t_users t).
Definition has_paste (t : Tables) (id : uuid) : bool :=
  existsb (fun p => bool_decide (p_id p = id)) (t_pastes t).

(** INSERT INTO pastes: the check constraint, then the primary key, then the
    foreign keys. *)
Definition insert_paste (r : PasteRow) (_ : Z) (t : Tables) : res unit * Tables :=
  if negb (text_ok (p_hash_algo r) && text_ok (p_content_hash r) && opt_text_ok (p_kek_id r))
  then (Err invalid_text, t)
  else if negb ((1 <=? p_ttl_seconds r) && (p_ttl_seconds r <=? 86400)) then (Err check_violation, t)
  else if has_paste t (p_id r) then (Err unique_violation, t)
  else if negb (has_user t (p_owner_id r) && (if p_deleted_by r is Some u then has_user t u else true))
  then (Err foreign_key_violation, t)
  else (Ok tt, set_pastes (t_pastes t ++ [r]) t).

(** UPDATE ... SET f WHERE q *)
Definition update_pastes (q : PasteRow -> bool) (f : PasteRow -> PasteRow) (t : Tables) : Tables :=
  set_pastes (map (fun r => if q r then f r else r) (t_pastes t)) t.
Definition delete_pastes (q : PasteRow -> bool) (t : Tables) : Z * Tables :=
  (Z.of_nat (length (List.filter q (t_pastes t))),
   set_pastes (List.filter (fun r => negb (q r)) (t_pastes t)) t).

Definition id_is (id : uuid) (r : PasteRow) : bool := bool_decide (p_id r = id).
Definition is_null {A} (x : option A) : bool := if x is None then true else false.

Definition select_paste (id : uuid) (_ : Z) (t : Tables) : res PasteMeta * Tables :=
  (match List.find (id_is id) (t_pastes t) with
   | Some r => Ok (scanPaste r)
   | None => Err ErrNoRows
   end, t).

(** view_count=view_count+1: an integer overflow aborts the statement. *)
Definition increment_views (id : uuid) (_ : Z) (t : Tables) : res unit * Tables :=
  if existsb (fun r => id_is id r && negb (int4_ok (p_view_count r + 1))) (t_pastes t)
  then (Err out_of_range, t)
  else (Ok tt, update_pastes (id_is id) (fun r => set_view_count (p_view_count r + 1) r) t).

Definition mark_deleted (id by_ : uuid) (at_ : Z) (_ : Z) (t : Tables) : res unit * Tables :=
  let q r := id_is id r && is_null (p_deleted_at r) in
  if existsb q (t_pastes t) && negb (has_user t by_) then (Err foreign_key_violation, t)
  else (Ok tt, update_pastes q (set_deleted (Some (timestamptz at_)) (Some by_)) t).

Definition mark_audited (ids : list uuid) (at_ : Z) (_ : Z) (t : Tables) : res unit * Tables :=
  (Ok tt, update_pastes (fun r => bool_decide (p_id r ∈ ids) && is_null (p_expired_audited_at r))
            (set_audited (Some (timestamptz at_))) t).

(** ORDER BY created_at DESC, id DESC, and ORDER BY expires_at ASC, id ASC *)
Definition newest_first (a b : PasteRow) : bool :=
  (p_created_at b <? p_created_at a) ||
  ((p_created_at b =? p_created_at a) && uuid_leb (p_id b) (p_id a)).
Definition expiring_first (a b : PasteRow) : bool :=
  (p_expires_at a <? p_expires_at b) ||
  ((p_expires_at a =? p_expires_at b) && uuid_leb (p_id a) (p_id b)).

Definition select_page (q : PasteRow -> bool) (le : PasteRow -> PasteRow -> bool) (limit offset : Z)
    (_ : Z) (t : Tables) : res (list PasteMeta) * Tables :=
  (Ok (map scanPaste (limit_offset limit offset (order_by le (List.filter q (t_pastes t))))), t).

Definition purge (q : PasteRow -> bool) (_ : Z) (t : Tables) : res Z * Tables :=
  let '(n, t') := delete_pastes q t in (Ok n, t').

Definition completed (r : PasteRow) : bool :=
  negb (is_null (p_deleted_at r)) || negb (is_null (p_expired_audited_at r)).
Definition expired_unaudited (now : Z) (r : PasteRow) : bool :=
  (p_expires_at r <=? now) && is_null (p_deleted_at r) && is_null (p_expired_audited_at r).
Definition active_row (now : Z) (r : PasteRow) : bool :=
  (now <? p_expires_at r) && is_null (p_deleted_at r).

(** ** The store *)

(** The driver refuses to bind an integer that does not fit its column. *)
Definition Paste_Create (c : ctx) (m : PasteMeta) : M World unit :=
  if negb (int4_ok (pm_TTLSeconds m) && int4_ok (pm_SizeBytes m) && int4_ok (pm_ViewCount m))
  then throw (NewError "int4: value out of range")
  else pg_do c (insert_paste (row_of_meta m)).

Definition Paste_Get (c : ctx) (id : uuid) : M World PasteMeta :=
  r ← try (pg_do c (select_paste id));
  match r with
  | inl err => if errors_Is err ErrNoRows then throw ErrNotFound else throw err
  | inr m => mret m
  end.

Definition Paste_IncrementViews (c : ctx) (id : uuid) : M World unit := pg_do c (increment_views id).
Definition Paste_MarkDeleted (c : ctx) (id by_ : uuid) (at_ : Z) : M World unit :=
  pg_do c (mark_deleted id by_ at_).

Definition normalizePage (page : Page) : Page :=
  MkPage (if (pg_Limit page <=? 0) || (200 <? pg_Limit page) then 50 else pg_Limit page)
    (if pg_Offset page <? 0 then 0 else pg_Offset page).

Definition Paste_ListByOwner (c : ctx) (ownerID : uuid) (page : Page) : M World (list PasteMeta) :=
  let page := normalizePage page in
  pg_do c (select_page (fun r => bool_decide (p_owner_id r = ownerID)) newest_first
             (pg_Limit page) (pg_Offset page)).

Definition Paste_ListAll (c : ctx) (ownerFilter : option uuid) (page : Page) : M World (list PasteMeta) :=
  let page := normalizePage page in
  pg_do c (select_page
             (fun r => match ownerFilter with None => true | Some o => bool_decide (p_owner_id r = o) end)
             newest_first (pg_Limit page) (pg_Offset page)).

(** A negative LIMIT is refused by the server. *)
Definition Paste_ListExpiredUnaudited (c : ctx) (now limit : Z) : M World (list PasteMeta) :=
  pg_do c (fun s t =>
    if limit <? 0 then (Err (PgError "2201W"), t)
    else select_page (expired_unaudited (timestamptz now)) expiring_first limit 0 s t).

Definition Paste_MarkExpiredAudited (c : ctx) (ids : list uuid) (at_ : Z) : M World unit :=
  match ids with
  | [] => mret tt
  | _ => pg_do c (mark_audited ids at_)
  end.

Definition Paste_PurgeOlderThan (c : ctx) (cutoff : Z) : M World Z :=
  pg_do c (purge (fun r => p_created_at r <? timestamptz cutoff)).
Definition Paste_PurgeCompletedOlderThan (c : ctx) (cutoff : Z) : M World Z :=
  pg_do c (purge (fun r => (p_created_at r <? timestamptz cutoff) && completed r)).

Definition Paste_CountActive (c : ctx) (now : Z) : M World Z :=
  pg_do c (fun _ t =>
    (Ok (Z.of_nat (length (List.filter (active_row (timestamptz now)) (t_pastes t)))), t)).

Definition Paste_Ping (c : ctx) : M World unit := pg_do c (fun _ t => (Ok tt, t)).

Definition NewPasteStore : MetaStore World :=
  MkMetaStore World Paste_Create Paste_Get Paste_IncrementViews Paste_MarkDeleted Paste_ListByOwner
    Paste_ListAll Paste_ListExpiredUnaudited Paste_MarkExpiredAudited Paste_PurgeOlderThan
    Paste_CountActive Paste_Ping.

(** ** The schema's invariant *)

Definition row_ok (t : Tables) (r : PasteRow) : Prop :=
  1 <= p_ttl_seconds r <= 86400 /\ has_user t (p_owner_id r) = true /\
  (forall u, p_deleted_by r = Some u -> has_user t u = true).

Definition pastes_ok (t : Tables) : Prop :=
  NoDup (map p_id (t_pastes t)) /\ Forall (row_ok t) (t_pastes t).

(** The row a query for one paste finds. *)
Definition row_at (t : Tables) (id : uuid) : option PasteRow := List.find (id_is id) (t_pastes t).

(** What no operation on a paste may change. *)
Definition core (r : PasteRow) : PasteRow := set_view_count 0 (set_audited None (set_deleted None None r)).

Lemma has_paste_false t id : has_paste t id = false <-> id ∉ map p_id (t_pastes t).
Proof.
  unfold has_paste. induction (t_pastes t) as [|r l IH]; simpl; [by split; [inversion 2|]|].
  rewrite orb_false_iff, IH, bool_decide_eq_false, not_elem_of_cons. naive_solver.
Qed.

Lemma row_at_id t id r : row_at t id = Some r -> p_id r = id /\ r ∈ t_pastes t.
Proof.
  unfold row_at. intros [Hin Hid]%List.find_some. unfold id_is in Hid. gobool.
  split; [done|by apply list_elem_of_In].
Qed.

Lemma row_at_in t id r :
  NoDup (map p_id (t_pastes t)) -> r ∈ t_pastes t -> p_id r = id -> row_at t id = Some r.
Proof.
  unfold row_at. induction (t_pastes t) as [|r' l IH]; simpl; [inversion 2|].
  intros Hnd Hin Hid. inversion Hnd as [|? ? Hn Hl]; subst. unfold id_is at 1.
  case_bool_decide as E.
  - inversion Hin; subst; [done|]. destruct Hn. rewrite E. by apply (list_elem_of_fmap_2 p_id).
  - inversion Hin; subst; [done|]. by apply IH.
Qed.

Lemma row_at_update q f t id :
  (forall r, p_id (f r) = p_id r) ->
  row_at (update_pastes q f t) id = (fun r => if q r then f r else r) <$> row_at t id.
Proof.
  intros Hf. unfold row_at, update_pastes. simpl. induction (t_pastes t) as [|r l IH]; [done|].
  simpl. assert (E : id_is id (if q r then f r else r) = id_is id r).
  { unfold id_is. destruct (q r); [by rewrite Hf|done]. }
  rewrite E. by destruct (id_is id r).
Qed.

Lemma row_at_delete q t id :
  NoDup (map p_id (t_pastes t)) ->
  row_at (snd (delete_pastes q t)) id =
    match row_at t id with Some r => if q r then None else Some r | None => None end.
Proof.
  intros Hnd. unfold row_at, delete_pastes. simpl. induction (t_pastes t) as [|r l IH]; [done|].
  simpl in *. inversion Hnd as [|? ? Hn Hl]; subst. specialize (IH Hl).
  destruct (id_is id r) eqn:Eid; destruct (q r) eqn:Eq; simpl; rewrite ?Eid; try done.
  rewrite IH. destruct (List.find (id_is id) l) as [r'|] eqn:Ef; [|done].
  apply List.find_some in Ef as [Hin Hid]. unfold id_is in *. gobool.
  destruct Hn. rewrite Eid, <-Hid. apply (list_elem_of_fmap_2 p_id). by apply list_elem_of_In.
Qed.

Lemma row_at_insert r now t t' id :
  insert_paste r now t = (Ok tt, t') ->
  has_paste t (p_id r) = false /\
  row_at t' id = if bool_decide (p_id r = id) then Some r else row_at t id.
Proof.
  unfold insert_paste. intros Hi.
  assert (t' = set_pastes (t_pastes t ++ [r]) t /\ has_paste t (p_id r) = false) as [-> Hn]
    by (repeat case_match; by simplify_eq).
  split; [done|]. apply has_paste_false in Hn. unfold row_at. simpl. clear -Hn.
  induction (t_pastes t) as [|r' l IH]; simpl in *; unfold id_is in *.
  - by case_bool_decide.
  - rewrite not_elem_of_cons in Hn. destruct Hn as [Hne Hn]. rewrite IH by done.
    case_bool_decide as E; case_bool_decide as E'; try done. congruence.
Qed.

Lemma row_ok_map t f r :
  row_ok t r -> p_ttl_seconds (f r) = p_ttl_seconds r -> p_owner_id (f r) = p_owner_id r ->
  (forall u, p_deleted_by (f r) = Some u -> p_deleted_by r = Some u \/ has_user t u = true) ->
  row_ok t (f r).
Proof.
  unfold row_ok. intros (? & ? & Hu) -> -> Hd. split_and!; [lia|lia|done|].
  intros u [Hr|Hr]%Hd; [by apply Hu|done].
Qed.

Lemma update_ok q f t :
  (forall r, p_id (f r) = p_id r) ->
  (forall r, r ∈ t_pastes t -> q r = true -> row_ok t r -> row_ok t (f r)) ->
  pastes_ok t -> pastes_ok (update_pastes q f t).
Proof.
  intros Hid Hf [Hnd Hrows]. split; simpl.
  - rewrite map_map. rewrite (map_ext _ p_id); [done|]. intros r. by destruct (q r).
  - apply Forall_map. rewrite Forall_forall in Hrows |- *. intros r Hr. simpl.
    destruct (q r) eqn:E; [|by apply Hrows]. by apply (Hf r Hr E), Hrows.
Qed.

Lemma filter_NoDup q l : NoDup (map p_id l) -> NoDup (map p_id (List.filter q l)).
Proof.
  induction l as [|r l IH]; intros Hnd; simpl in *; [constructor|].
  inversion Hnd as [|? ? Hn Hl]; subst. destruct (q r); simpl; [|by apply IH].
  constructor; [|by apply IH]. intros Hin. destruct Hn.
  apply list_elem_of_fmap in Hin as (r' & -> & Hin). apply (list_elem_of_fmap_2 p_id).
  apply list_elem_of_In, List.filter_In in Hin as [Hin _]. by apply list_elem_of_In.
Qed.

Lemma filter_ok q t : pastes_ok t -> pastes_ok (set_pastes (List.filter q (t_pastes t)) t).
Proof.
  intros [Hnd Hrows]. split; simpl; [by apply filter_NoDup|].
  rewrite Forall_forall in Hrows |- *. intros r Hr.
  apply list_elem_of_In, List.filter_In in Hr as [Hr _]. by apply Hrows, list_elem_of_In.
Qed.

Lemma insert_ok r now t : pastes_ok t -> pastes_ok (snd (insert_paste r now t)).
Proof.
  intros [Hnd Hrows]. unfold insert_paste. repeat case_match; try done; simpl; split; simpl.
  1, 3: rewrite map_app; apply NoDup_app; split_and!; [done| |apply NoDup_singleton];
    intros x Hx Hy; simpl in Hy; apply list_elem_of_singleton in Hy as ->;
    match goal with Hp : has_paste _ _ = false |- _ => by apply has_paste_false in Hp end.
  all: apply Forall_app_2; [done|]; apply Forall_singleton; gobool; destruct_and?;
    unfold row_ok; simpl; split_and!; try lia; [done|]; intros u Hu;
    simplify_eq; unfold has_user in *; done.
Qed.

(** ** Every operation of the store *)

Inductive PasteOp : Type :=
| OpCreate (m : PasteMeta)
| OpGet (id : uuid)
| OpIncrementViews (id : uuid)
| OpMarkDeleted (id by_ : uuid) (at_ : Z)
| OpListByOwner (owner : uuid) (page : Page)
| OpListAll (owner : option uuid) (page : Page)
| OpListExpiredUnaudited (now limit : Z)
| OpMarkExpiredAudited (ids : list uuid) (at_ : Z)
| OpPurgeOlderThan (cutoff : Z)
| OpPurgeCompletedOlderThan (cutoff : Z)
| OpCountActive (now : Z)
| OpPing.

Definition run_op (c : ctx) (op : PasteOp) : M World unit :=
  match op with
  | OpCreate m => Paste_Create c m
  | OpGet id => ignore (Paste_Get c id)
  | OpIncrementViews id => Paste_IncrementViews c id
  | OpMarkDeleted id by_ at_ => Paste_MarkDeleted c id by_ at_
  | OpListByOwner owner page => ignore (Paste_ListByOwner c owner page)
  | OpListAll owner page => ignore (Paste_ListAll c owner page)
  | OpListExpiredUnaudited now limit => ignore (Paste_ListExpiredUnaudited c now limit)
  | OpMarkExpiredAudited ids at_ => Paste_MarkExpiredAudited c ids at_
  | OpPurgeOlderThan cutoff => ignore (Paste_PurgeOlderThan c cutoff)
  | OpPurgeCompletedOlderThan cutoff => ignore (Paste_PurgeCompletedOlderThan c cutoff)
  | OpCountActive now => ignore (Paste_CountActive c now)
  | OpPing => Paste_Ping c
  end.

(** A row that is there after an operation was there before with the same
    core, and a recorded deletion is never changed; only [Create] adds one. *)
Definition row_kept (r r' : PasteRow) : Prop :=
  core r' = core r /\
  (p_deleted_at r <> None -> p_deleted_at r' = p_deleted_at r /\ p_deleted_by r' = p_deleted_by r).

Definition rows_kept (new : option PasteMeta) (t t' : Tables) : Prop :=
  forall id r', row_at t' id = Some r' ->
    (exists r, row_at t id = Some r /\ row_kept r r') \/
    (exists m, new = Some m /\ pm_ID m = id /\ r' = row_of_meta m /\ row_at t id = None).

Definition created_by (op : PasteOp) : option PasteMeta :=
  if op is OpCreate m then Some m else None.

Lemma rows_kept_refl new t : rows_kept new t t.
Proof. intros id r' Hr. left. exists r'. by repeat split. Qed.

Lemma rows_kept_update new q f t :
  (forall r, p_id (f r) = p_id r) -> (forall r, q r = true -> row_kept r (f r)) ->
  rows_kept new t (update_pastes q f t).
Proof.
  intros Hid Hf id r'. rewrite row_at_update by done.
  destruct (row_at t id) as [r|]; [|done]. intros [= <-]. left. exists r. split; [done|].
  destruct (q r) eqn:E; [by apply Hf|by repeat split].
Qed.

Lemma rows_kept_delete new q t :
  NoDup (map p_id (t_pastes t)) -> rows_kept new t (snd (delete_pastes q t)).
Proof.
  intros Hnd id r'. rewrite row_at_delete by done.
  destruct (row_at t id) as [r|]; [|done]. destruct (q r); [done|]. intros [= <-].
  left. exists r. by repeat split.
Qed.

Definition keeps (op : PasteOp) (t t' : Tables) : Prop :=
  pastes_ok t -> pastes_ok t' /\ rows_kept (created_by op) t t' /\ t_users t' = t_users t.

Lemma keeps_same op t : keeps op t t.
Proof. intros Hok. split_and!; [done|apply rows_kept_refl|done]. Qed.

(** A call keeps what its statement keeps, carried out or not. *)
Lemma keeps_pg op {A} c (stmt : Z -> Tables -> res A * Tables) w :
  (forall now, keeps op (w_pg w) (snd (stmt now (w_pg w)))) ->
  keeps op (w_pg w) (w_pg (snd (pg_do c stmt w))).
Proof.
  intros Hs. destruct (pg_do c stmt w) as [r w'] eqn:E. apply pg_do_inv in E as (_ & _ & Hd).
  simpl. destruct Hd as [[-> _]|[-> _]]; [apply keeps_same|apply Hs].
Qed.

Lemma keeps_insert m now t : keeps (OpCreate m) t (snd (insert_paste (row_of_meta m) now t)).
Proof.
  intros Hok. split_and!; [by apply insert_ok| |unfold insert_paste; by repeat case_match].
  destruct (insert_paste (row_of_meta m) now t) as [[[]|e|] t'] eqn:Ei; simpl.
  - intros id r'. destruct (row_at_insert _ _ _ _ id Ei) as [Hn ->]. case_bool_decide as E.
    + intros [= <-]. right. exists m. split_and!; try done. simpl in Hn, E. subst id.
      destruct (row_at t (pm_ID m)) as [r|] eqn:Er; [|done].
      apply row_at_id in Er as [Hid Hin]. apply has_paste_false in Hn. destruct Hn.
      rewrite <-Hid. by apply (list_elem_of_fmap_2 p_id).
    + intros Hr. left. exists r'. by repeat split.
  - assert (t' = t) as -> by (unfold insert_paste in Ei; repeat case_match; by simplify_eq).
    apply rows_kept_refl.
  - unfold insert_paste in Ei. by repeat case_match.
Qed.

Lemma keeps_op c op w : keeps op (w_pg w) (w_pg (snd (run_op c op w))).
Proof.
  destruct op as [m|id|id|id by_ at_|o pg|o pg|now l|ids at_|cut|cut|now|]; cbn [run_op];
    rewrite ?snd_ignore.
  - unfold Paste_Create. case_match; [apply keeps_same|]. apply keeps_pg. intros now. apply keeps_insert.
  - unfold Paste_Get. go_unfold.
    assert (Hk : keeps (OpGet id) (w_pg w) (w_pg (snd (pg_do c (select_paste id) w))))
      by (apply keeps_pg; intros; apply keeps_same).
    destruct (pg_do c (select_paste id) w) as [[m|e|] w']; simpl in *; try done. by destruct (errors_Is e _).
  - apply keeps_pg. intros now. unfold increment_views. case_match; [apply keeps_same|].
    intros Hok. split_and!; [|by apply rows_kept_update|done].
    apply update_ok; [done| |done]. intros r _ _ Hr. by apply row_ok_map; auto.
  - apply keeps_pg. intros now. unfold mark_deleted. case_match eqn:Eu; [apply keeps_same|].
    intros Hok. split_and!; [| |done].
    + apply update_ok; [done| |done]. intros r Hin Hq Hr. apply row_ok_map; auto.
      intros u [= <-]. right. apply andb_false_iff in Eu as [Eu|Eu]; [|by apply negb_false_iff].
      assert (existsb (fun r => id_is id r && is_null (p_deleted_at r)) (t_pastes (w_pg w)) = true);
        [|congruence]. apply existsb_exists. exists r. split; [by apply list_elem_of_In|done].
    + apply rows_kept_update; [done|]. intros r Hq. gobool. destruct Hq as [_ Hq].
      split; [done|]. by destruct (p_deleted_at r).
  - unfold Paste_ListByOwner. apply keeps_pg. intros. apply keeps_same.
  - unfold Paste_ListAll. apply keeps_pg. intros. apply keeps_same.
  - unfold Paste_ListExpiredUnaudited. apply keeps_pg. intros. case_match; apply keeps_same.
  - unfold Paste_MarkExpiredAudited. destruct ids; [apply keeps_same|]. apply keeps_pg. intros now.
    intros Hok. split_and!; [|by apply rows_kept_update|done].
    apply update_ok; [done| |done]. intros r _ _ Hr. by apply row_ok_map; auto.
  - apply keeps_pg. intros now Hok. unfold purge, delete_pastes.
    split_and!; [by apply filter_ok|by apply (rows_kept_delete _ _ _ (proj1 Hok))|done].
  - apply keeps_pg. intros now Hok. unfold purge, delete_pastes.
    split_and!; [by apply filter_ok|by apply (rows_kept_delete _ _ _ (proj1 Hok))|done].
  - apply keeps_pg. intros. apply keeps_same.
  - apply keeps_pg. intros. apply keeps_same.
Qed.

(** The listing order is a total order. *)
Lemma newest_first_total x y : newest_first x y = true \/ newest_first y x = true.
Proof.
  unfold newest_first, uuid_leb.
  destruct (Z.lt_total (p_created_at x) (p_created_at y)) as [?|[?|?]]; [right; lia| |left; lia].
  destruct (bytes_leb_total (p_id x) (p_id y)) as [-> | ->]; [right|left]; rewrite andb_true_r; lia.
Qed.

Lemma newest_first_trans x y z :
  newest_first x y = true -> newest_first y z = true -> newest_first x z = true.
Proof.
  unfold newest_first, uuid_leb. rewrite !orb_true_iff, !andb_true_iff.
  intros [Hx|[Hx Hx']] [Hy|[Hy Hy']]; [left; lia..|]. right. split; [lia|].
  by apply bytes_leb_trans with (p_id y).
Qed.

(** ** What the store promises *)

(** C37. Whatever operation runs, and however it fails, the table keeps its keys
    unique, its TTLs in bounds and its references valid; a row keeps its
    identity, owner, times, size, hash and protection for as long as it exists,
    a recorded deletion is never overwritten, and only [Create] adds a row. *)
Theorem Paste_ops_keep_rows c op w :
  pastes_ok (w_pg w) ->
  let w' := snd (run_op c op w) in
  pastes_ok (w_pg w') /\ rows_kept (created_by op) (w_pg w) (w_pg w') /\
  t_users (w_pg w') = t_users (w_pg w).
Proof. intros Hok. by apply keeps_op. Qed.

Lemma Paste_Get_spec c id w r w' :
  Paste_Get c id w = (r, w') ->
  w_time w <= w_time w' /\ stores w' = stores w /\
  ((exists k, r = Err (terr k)) \/
   r = match row_at (w_pg w) id with Some row => Ok (scanPaste row) | None => Err ErrNotFound end).
Proof.
  unfold Paste_Get. intros Hr. go_unfold. destruct (pg_do c (select_paste id) w) as [r0 w0] eqn:E.
  apply pg_do_inv in E as (Ht & Hrd & Hd).
  assert (Hw : stores w0 = stores w).
  { unfold stores. rewrite Hrd. by destruct Hd as [[-> _]|[-> _]]. }
  destruct Hd as [(_ & k & ->)|(_ & [-> |(k & ->)])]; simpl in *.
  - assert (errors_Is (terr k) ErrNoRows = false) as E by by destruct k. rewrite E in Hr.
    simplify_eq. split_and!; [done|unfold stores; congruence|eauto].
  - unfold row_at. destruct (List.find (id_is id) (t_pastes (w_pg w))); simplify_eq/=;
      (split_and!; [done|unfold stores; congruence|by auto]).
  - assert (errors_Is (terr k) ErrNoRows = false) as E by by destruct k. rewrite E in Hr.
    simplify_eq. split_and!; [done|unfold stores; congruence|eauto].
Qed.

Lemma Paste_Create_spec c m w r w' :
  Paste_Create c m w = (r, w') ->
  w_time w <= w_time w' /\ w_redis w' = w_redis w /\
  (r = Ok tt -> row_at (w_pg w') (pm_ID m) = Some (row_of_meta m)) /\
  (forall id, id <> pm_ID m -> row_at (w_pg w') id = row_at (w_pg w) id) /\
  (row_at (w_pg w') (pm_ID m) = row_at (w_pg w) (pm_ID m) \/
   row_at (w_pg w') (pm_ID m) = Some (row_of_meta m)) /\ r <> Panic.
Proof.
  unfold Paste_Create. case_match; [intros [= <- <-]; by split_and!; auto|].
  intros (Ht & Hr & Hd)%pg_do_inv. split_and!; [done|done|..].
  all: destruct (insert_paste (row_of_meta m) (w_time w') (w_pg w)) as [ri t'] eqn:Ei; simpl in Hd.
  all: assert (Hsame : forall e, ri = Err e -> t' = w_pg w)
    by (unfold insert_paste in Ei; repeat case_match; by simplify_eq).
  all: assert (ri <> Panic) by (unfold insert_paste in Ei; repeat case_match; by simplify_eq).
  - intros ->. destruct Hd as [[_ [k ?]]|[-> [<-|[k ?]]]]; [done| |done].
    destruct (row_at_insert _ _ _ _ (pm_ID m) Ei) as [_ ->]. by rewrite bool_decide_true.
  - intros id Hid. destruct Hd as [[-> _]|[-> _]]; [done|]. destruct ri as [[]|e|]; [|by erewrite Hsame|done].
    destruct (row_at_insert _ _ _ _ id Ei) as [_ ->]. by rewrite bool_decide_false.
  - destruct Hd as [[-> _]|[-> _]]; [by left|]. destruct ri as [[]|e|]; [|by left; erewrite Hsame|done].
    right. destruct (row_at_insert _ _ _ _ (pm_ID m) Ei) as [_ ->]. by rewrite bool_decide_true.
  - destruct Hd as [[_ [k ->]]|[_ [-> |[k ->]]]]; done.
Qed.

(** What comes back of a metadata row: everything [Create] was given, with the
    instants cut to the microsecond. *)
Theorem Paste_Create_Get c m w w1 c' w2 r w3 :
  Paste_Create c m w = (Ok tt, w1) -> w_pg w2 = w_pg w1 -> Paste_Get c' (pm_ID m) w2 = (r, w3) ->
  (exists k, r = Err (terr k)) \/
  r = Ok (MkPasteMeta (pm_ID m) (pm_OwnerID m)
            (pm_CreatedAt m / Microsecond * Microsecond) (pm_ExpiresAt m / Microsecond * Microsecond)
            (pm_TTLSeconds m) (pm_SizeBytes m) (pm_HashAlgo m) (pm_ContentHash m)
            (pm_PasswordProtected m) (pm_KEKID m) (pm_ViewCount m)
            ((fun t => t / Microsecond * Microsecond) <$> pm_ExpiredAuditedAt m)
            ((fun t => t / Microsecond * Microsecond) <$> pm_DeletedAt m) (pm_DeletedBy m)).
Proof.
  intros (_ & _ & Hrow & _)%Paste_Create_spec Hpg (_ & _ & Hr)%Paste_Get_spec.
  rewrite Hpg, Hrow in Hr by done. destruct Hr as [Hr| ->]; [by left|]. right.
  unfold scanPaste, row_of_meta. cbn. rewrite !timestamptz_floor.
  assert (Hk : default "" (if bool_decide (pm_KEKID m = "") then None else Some (pm_KEKID m)) = pm_KEKID m)
    by (case_bool_decide; simpl; congruence).
  rewrite Hk. destruct (pm_ExpiredAuditedAt m), (pm_DeletedAt m); simpl; by rewrite ?timestamptz_floor.
Qed.

(** A page of a listing: only rows that match, in the listed order, at most the
    normalised limit of them, which is between 1 and 200, and nothing skipped
    but the offset. *)
Theorem Paste_ListByOwner_page c owner page w ms w' :
  Paste_ListByOwner c owner page w = (Ok ms, w') ->
  exists rows, ms = map scanPaste rows /\
    (forall r, r ∈ rows -> r ∈ t_pastes (w_pg w) /\ p_owner_id r = owner) /\
    StronglySorted (le_rel newest_first) rows /\ 1 <= pg_Limit (normalizePage page) <= 200 /\
    Z.of_nat (length rows) =
      Z.min (pg_Limit (normalizePage page))
        (Z.max 0 (Z.of_nat (length (List.filter (fun r => bool_decide (p_owner_id r = owner))
                                      (t_pastes (w_pg w)))) - pg_Offset (normalizePage page))).
Proof.
  unfold Paste_ListByOwner. intros (_ & _ & Hd)%pg_do_inv.
  destruct Hd as [[_ [k ?]]|[_ [[= ->]|[k ?]]]]; [done| |done].
  set (all := List.filter _ _). set (sorted := order_by newest_first all).
  exists (limit_offset (pg_Limit (normalizePage page)) (pg_Offset (normalizePage page)) sorted).
  split; [done|]. assert (Hso : StronglySorted (le_rel newest_first) sorted).
  { apply order_by_sorted; [apply newest_first_total|apply newest_first_trans]. }
  split_and!.
  - intros r Hr. apply limit_offset_sub in Hr. unfold sorted in Hr. rewrite order_by_perm in Hr.
    apply list_elem_of_In, List.filter_In in Hr as [Hr Ho]. gobool. split; [by apply list_elem_of_In|done].
  - by apply limit_offset_sorted.
  - unfold normalizePage. simpl. destruct (_ || _) eqn:E; gobool; lia.
  - unfold normalizePage. simpl. destruct (_ || _) eqn:E; gobool; lia.
  - unfold limit_offset. rewrite length_take, length_drop.
    assert (length sorted = length all) as -> by (unfold sorted; by rewrite order_by_perm).
    unfold normalizePage. simpl. destruct (_ || _) eqn:E, (pg_Offset page <? 0) eqn:E2; gobool; lia.
Qed.
End Pastes.

(** ** Runs *)
#[local] Existing Instance map_server.
#[local] Existing Instance byte_collation.

Definition demo_user : UserRow :=
  MkUserRow uuid_Nil "alice" None "local" None None (Some "$argon2id$") false false 0 None.
Definition demo_users : World := set_pg (MkTables [demo_user] [] [] 0) demo_world.
Definition demo_meta : PasteMeta :=
  MkPasteMeta (vreplicate 16 Byte.x01) uuid_Nil (1700000000 * Second + 123456789)
    (1700000600 * Second + 123456789) 600 5 "sha256" "00" false "k1" 0 None None None.
Definition demo_created : World := snd (Paste_Create Background demo_meta demo_users).

Lemma demo_users_ok : pastes_ok (w_pg demo_users).
Proof. split; constructor. Qed.

Lemma Paste_ops_keep_rows_witness :
  let w' := snd (run_op Background (OpCreate demo_meta) demo_users) in
  length (t_pastes (w_pg w')) = 1%nat /\
  pastes_ok (w_pg w') /\ rows_kept (Some demo_meta) (w_pg demo_users) (w_pg w') /\
  t_users (w_pg w') = t_users (w_pg demo_users).
Proof.
  split; [vm_compute; reflexivity|].
  apply (Paste_ops_keep_rows Background (OpCreate demo_meta) demo_users). apply demo_users_ok.
Defined.

Definition demo_got : res PasteMeta * World := Paste_Get Background (pm_ID demo_meta) demo_created.

Lemma Paste_Create_Get_witness :
  fst demo_got = Ok (MkPasteMeta (pm_ID demo_meta) uuid_Nil (1700000000 * Second + 123456000)
    (1700000600 * Second + 123456000) 600 5 "sha256" "00" false "k1" 0 None None None) /\
  ((exists k, fst demo_got = Err (terr k)) \/
   fst demo_got = Ok (MkPasteMeta (pm_ID demo_meta) (pm_OwnerID demo_meta)
            (pm_CreatedAt demo_meta / Microsecond * Microsecond)
            (pm_ExpiresAt demo_meta / Microsecond * Microsecond)
            (pm_TTLSeconds demo_meta) (pm_SizeBytes demo_meta) (pm_HashAlgo demo_meta)
            (pm_ContentHash demo_meta) (pm_PasswordProtected demo_meta) (pm_KEKID demo_meta)
            (pm_ViewCount demo_meta)
            ((fun t => t / Microsecond * Microsecond) <$> pm_ExpiredAuditedAt demo_meta)
            ((fun t => t / Microsecond * Microsecond) <$> pm_DeletedAt demo_meta)
            (pm_DeletedBy demo_meta))).
Proof.
  split; [vm_compute; reflexivity|].
  apply (Paste_Create_Get Background demo_meta demo_users demo_created Background demo_created
           _ (snd demo_got)).
  - apply run_fst. vm_compute. reflexivity.
  - reflexivity.
  - apply surjective_pairing.
Defined.

Lemma Paste_ListByOwner_page_witness :
  exists ms rows,
    fst (Paste_ListByOwner Background uuid_Nil (MkPage 0 (-3)) demo_created) = Ok ms /\
    length ms = 1%nat /\ ms = map scanPaste rows /\
    (forall r, r ∈ rows -> r ∈ t_pastes (w_pg demo_created) /\ p_owner_id r = uuid_Nil).
Proof.
  destruct (Paste_ListByOwner_page Background uuid_Nil (MkPage 0 (-3)) demo_created
    [MkPasteMeta (pm_ID demo_meta) uuid_Nil (1700000000 * Second + 123456000)
    (1700000600 * Second + 123456000) 600 5 "sha256" "00" false "k1" 0 None None None]
    (snd (Paste_ListByOwner Background uuid_Nil (MkPage 0 (-3)) demo_created)))
    as (rows & Hms & Hin & _).
  - apply run_fst. vm_compute. reflexivity.
  - eexists _, rows. split; [vm_compute; reflexivity|]. split; [reflexivity|]. by split.
Defined.
