(* ===== verification/PgAudit.v ===== *)
(** * Audit events in Postgres ([internal/store/postgres/audit.go])

    The sink that writes audit rows, its counts and its retention purge.  A
    failed insert is logged and never reaches the caller: what the table
    refuses is lost to it. *)
From S2P Require Import Prelude GoNum GoStr Codec NetIP Json Errors Rfc3339 PasteTypes Ports Redis Pg World.

Section Audit.
Context `{RedisServer} `{PgTypes} `{UUIDText}.

(** ** [json.Marshal] of the details

    Go sorts the keys of a map; the values of the program's details are
    strings, integers, booleans and instants. *)
Fixpoint insert_member (m : string * value) (l : list (string * value)) : list (string * value) :=
  match l with
  | [] => [m]
  | m' :: l' => if bytes_leb (of_str m.1) (of_str m'.1) then m :: l else m' :: insert_member m l'
  end.
Definition sort_members (l : list (string * value)) : list (string * value) := foldr insert_member [] l.

(** A string goes through UTF-8: an invalid byte becomes U+FFFD. *)
Definition coerce_utf8 (b : bytes) : bytes :=
  concat (map (fun r => if rune_ok r then rune_raw r else RuneError) (runes b)).

Fixpoint value_json (v : value) : json :=
  match v with
  | VStr s => JStr (coerce_utf8 (of_str s))
  | VInt z => JNum (of_str (Decimal.FormatInt z))
  | VBool b => JBool b
  | VTime t => JStr (Format_RFC3339Nano t)
  | VStrs l => JArr (map (fun s => JStr (coerce_utf8 (of_str s))) l)
  | VObj l => JObj (map (fun '(k, v) => (coerce_utf8 (of_str k), value_json v)) l)
  | VList l => JArr (map value_json l)
  end.

Definition details_json (l : list (string * value)) : json := value_json (VObj (sort_members l)).

(** [jsonb] cannot hold the zero character. *)
Fixpoint jsonb_ok (j : json) : bool :=
  match j with
  | JStr s => negb (bool_decide (Byte.x00 ∈ s))
  | JArr l => forallb jsonb_ok l
  | JObj l => forallb (fun '(k, v) => negb (bool_decide (Byte.x00 ∈ k)) && jsonb_ok v) l
  | _ => true
  end.

(** ** Statements *)

(** INSERT INTO audit_events: the text parameters are checked as they arrive. *)
Definition insert_audit (e : Event) (ip : option Addr) (ua : option string) (details : json)
    (_ : Z) (t : Tables) : res unit * Tables :=
  if negb (text_ok (ev_Event e) && text_ok (ev_Outcome e) && opt_text_ok ua)
  then (Err invalid_text, t)
  else if negb (jsonb_ok details) then (Err (PgError "22P05"), t)
  else
    (Ok tt, set_audit (t_audit_events t ++
       [MkAuditRow (t_audit_seq t) (timestamptz (ev_At e)) (ev_Event e) (ev_ActorID e) (ev_PasteID e)
          ip ua (ev_Outcome e) details]) (t_audit_seq t + 1) t).

Definition nullIfEmpty (s : string) : option string := if bool_decide (s = "") then None else Some s.

(** [AuditStore.Record] *)
Definition Audit_Record : Sink World := fun c e w =>
  let e := fill_request c e in
  let '(e, w) := fill_time clock e w in
  let ip := ParseAddr (ev_IP e) in
  let writeCtx := WithTimeout (WithoutCancel c) (3 * Second) in
  let insert : M World unit :=
    match (if ip is Some a then Some <$> inet_of a else Some None) with
    | None => throw (NewError "inet: address refused")
    | Some ip => pg_do writeCtx (insert_audit e ip (nullIfEmpty (ev_UserAgent e)) (details_json (ev_Details e)))
    end in
  match insert w with
  | (Err err, w) =>
      write_log "audit insert failed" [("event", VStr (ev_Event e)); ("err", VStr (Error err))] w
  | (_, w) => w
  end.

Definition Audit_Count (c : ctx) (event : string) : M World Z :=
  pg_do c (fun _ t =>
    if negb (text_ok event) then (Err invalid_text, t)
    else (Ok (Z.of_nat (length (List.filter (fun r => bool_decide (a_event r = event)) (t_audit_events t)))), t)).

Definition Audit_PurgeOlderThan (c : ctx) (cutoff : Z) : M World Z :=
  pg_do c (fun _ t =>
    let old r := a_at r <? timestamptz cutoff in
    (Ok (Z.of_nat (length (List.filter old (t_audit_events t)))),
     set_audit (List.filter (fun r => negb (old r)) (t_audit_events t)) (t_audit_seq t) t)).

(** ** What recording does *)

(** The event as it is written: gaps filled from the request and the clock. *)
Definition filled (c : ctx) (e : Event) (t : Z) : Event :=
  let e := fill_request c e in if IsZero (ev_At e) then set_At t e else e.

Lemma Audit_Record_frame c e w :
  w_time w <= w_time (Audit_Record c e w) /\ w_redis (Audit_Record c e w) = w_redis w /\
  t_users (w_pg (Audit_Record c e w)) = t_users (w_pg w) /\
  t_pastes (w_pg (Audit_Record c e w)) = t_pastes (w_pg w).
Proof.
  unfold Audit_Record. set (e1 := fill_request c e).
  destruct (fill_time clock e1 w) as [e2 w1] eqn:Ef.
  assert (Hw1 : w_time w <= w_time w1 /\ stores w1 = stores w).
  { unfold fill_time in Ef. destruct (IsZero (ev_At e1)); [|by simplify_eq].
    destruct (clock w) as [t w2] eqn:Ec. apply clock_inv in Ec as (? & ? & ?). injection Ef as <- <-.
    split; [lia|done]. }
  destruct Hw1 as [Ht Hs]. unfold stores in Hs. injection Hs as Hr Hp. rewrite <-Hr, <-Hp.
  cbv zeta. destruct (if ParseAddr (ev_IP e2) is Some a then _ else _) as [ip|]; [|done].
  set (stmt := insert_audit _ _ _ _).
  assert (Hst : forall now t, t_users (snd (stmt now t)) = t_users t /\ t_pastes (snd (stmt now t)) = t_pastes t).
  { intros now t. unfold stmt, insert_audit. by repeat case_match. }
  destruct (pg_do _ stmt w1) as [r w2] eqn:E. apply pg_do_inv in E as (Ht2 & Hr2 & Hd).
  assert (Hpg : t_users (w_pg w2) = t_users (w_pg w1) /\ t_pastes (w_pg w2) = t_pastes (w_pg w1)).
  { destruct Hd as [[-> _]|[-> _]]; [done|apply Hst]. }
  destruct r; simpl; split_and!; try lia; by destruct Hpg.
Qed.

(** C38. While Postgres answers, an event that the table can hold adds exactly one row, and one that it
    cannot hold adds none: in particular a request whose user agent is not
    valid UTF-8 leaves no audit row, whatever it did. *)
Theorem Audit_Record_rows c e w :
  w_env w = [] -> (forall a, ParseAddr (ev_IP (filled c e (w_time w))) = Some a -> inet_of a <> None) ->
  let f := filled c e (w_time w) in
  let details := details_json (ev_Details e) in
  length (t_audit_events (w_pg (Audit_Record c e w))) =
    (length (t_audit_events (w_pg w)) +
     if text_ok (ev_Event e) && text_ok (ev_Outcome e) && opt_text_ok (nullIfEmpty (ev_UserAgent f)) &&
        jsonb_ok details then 1 else 0)%nat.
Proof.
  intros Henv Hip f details. unfold Audit_Record, fill_time, clock, step. rewrite Henv. cbn [snd w_time].
  set (e1 := fill_request c e) in *.
  assert (He1 : ev_Event e1 = ev_Event e /\ ev_Outcome e1 = ev_Outcome e /\ ev_Details e1 = ev_Details e).
  { unfold e1, fill_request. destruct (_ || _); [|done]. by destruct (RequestInfo c). }
  assert (Hf : f = if IsZero (ev_At e1) then set_At (w_time w) e1 else e1) by done.
  assert (Hff : (if IsZero (ev_At e1) then (set_At (w_time w) e1, w) else (e1, w)) = (f, w))
    by (rewrite Hf; by destruct (IsZero _)).
  rewrite Hff. cbv zeta. fold f in Hip.
  assert (Hfe : ev_Event f = ev_Event e /\ ev_Outcome f = ev_Outcome e /\ ev_Details f = ev_Details e).
  { rewrite Hf. by destruct (IsZero _). }
  destruct Hfe as (E1 & E2 & E3).
  assert (exists ip, (if ParseAddr (ev_IP f) is Some a then Some <$> inet_of a else Some None) = Some ip) as [ip ->].
  { destruct (ParseAddr (ev_IP f)) as [a|]; [|eauto]. specialize (Hip a eq_refl).
    destruct (inet_of a); [simpl; eauto|done]. }
  unfold pg_do, step. rewrite Henv. unfold fate_for. cbn [ctx_cancelable WithTimeout WithoutCancel].
  unfold insert_audit. rewrite E1, E2, E3. fold details.
  destruct (text_ok (ev_Event e) && text_ok (ev_Outcome e) && _) eqn:Et; cbn [negb andb];
    [|rewrite Nat.add_0_r; reflexivity].
  destruct (jsonb_ok details) eqn:Ej; cbn [negb]; [|rewrite Nat.add_0_r; reflexivity].
  cbn. by rewrite length_app.
Qed.
End Audit.

(** ** Runs *)
#[local] Existing Instance map_server.
#[local] Existing Instance byte_collation.
#[local] Existing Instance canonical_uuid_text.

(** A client that sends one byte 0xff as its user agent. *)
Definition bad_agent : ctx := WithRequestInfo Background "192.0.2.1" (to_str [Byte.xff]).
Definition login_failed : Event :=
  MkEvent (1700000000 * Second) LoginFailure None None "" "" OutcomeFailure [("username", VStr "root")].

Lemma Audit_Record_rows_witness :
  length (t_audit_events (w_pg (Audit_Record bad_agent login_failed demo_world))) = 0%nat.
Proof.
  rewrite (Audit_Record_rows bad_agent login_failed demo_world).
  - vm_compute. reflexivity.
  - reflexivity.
  - vm_compute. intros a [= <-]. discriminate.
Defined.
