(* ===== verification/PasteLaws.v ===== *)
(** * Integrity of pastes

    What the paste service needs of its stores, as an interface: which bodies
    and which rows a state may yield, and how each port operation may change
    that, whatever fails.  Against this interface the service is shown to serve
    only what was submitted, and nothing after a deletion.  The stores over
    Redis and Postgres implement it (PasteSystem). *)
From S2P Require Import Prelude GoNum GoStr Codec Errors PasteTypes Canonical Crypto Envelope Ports Service.

(** The fields of a row that no operation changes. *)
Definition same_core (m m' : PasteMeta) : Prop :=
  pm_ID m' = pm_ID m /\ pm_OwnerID m' = pm_OwnerID m /\ pm_CreatedAt m' = pm_CreatedAt m /\
  pm_ExpiresAt m' = pm_ExpiresAt m /\ pm_TTLSeconds m' = pm_TTLSeconds m /\
  pm_SizeBytes m' = pm_SizeBytes m /\ pm_HashAlgo m' = pm_HashAlgo m /\
  pm_ContentHash m' = pm_ContentHash m /\ pm_PasswordProtected m' = pm_PasswordProtected m /\
  pm_KEKID m' = pm_KEKID m /\ (pm_DeletedAt m <> None -> pm_DeletedAt m' <> None).

#[export] Instance same_core_preorder : PreOrder same_core.
Proof.
  split.
  - intros m. by repeat split.
  - intros m1 m2 m3 H12 H23. unfold same_core in *. destruct_and!. split_and!; try congruence. auto.
Qed.

(** What a stored row has in common with the row that was handed in. *)
Definition stored_as (m m' : PasteMeta) : Prop :=
  pm_ID m' = pm_ID m /\ pm_SizeBytes m' = pm_SizeBytes m /\ pm_ContentHash m' = pm_ContentHash m /\
  pm_PasswordProtected m' = pm_PasswordProtected m /\
  pm_ExpiresAt m' / Second = pm_ExpiresAt m / Second /\ pm_ExpiresAt m' <= pm_ExpiresAt m /\
  (pm_DeletedAt m = None -> pm_DeletedAt m' = None).

Section Laws.
Context {S : Type} (body : S -> uuid -> EncryptedBody -> Prop) (meta : S -> uuid -> option PasteMeta)
  (time : S -> Z).

(** Nothing new becomes readable: bodies only vanish, rows only vanish or are
    marked, time only advances. *)
Definition keeps (s s' : S) : Prop :=
  (forall id rec, body s' id rec -> body s id rec) /\
  (forall id m', meta s' id = Some m' -> exists m, meta s id = Some m /\ same_core m m') /\
  time s <= time s'.

#[export] Instance keeps_preorder : PreOrder keeps.
Proof.
  split.
  - intros s. split_and!; [done| |lia]. intros id m Hm. exists m. by split.
  - intros s1 s2 s3 (Hb & Hm & Ht) (Hb' & Hm' & Ht'). split_and!; [auto| |lia].
    intros id m3 H3. destruct (Hm' _ _ H3) as (m2 & H2 & Hc2).
    destruct (Hm _ _ H2) as (m1 & H1 & Hc1). exists m1. split; [done|]. by transitivity m2.
Qed.
End Laws.

(** The promises of the ports to the service. *)
Class PasteStores {S : Type} (d : Deps S) : Type := {
  st_body : S -> uuid -> EncryptedBody -> Prop;
  st_meta : S -> uuid -> option PasteMeta;
  st_time : S -> Z;
  law_now : forall s t s', d_Now d s = (t, s') -> keeps st_body st_meta st_time s s' /\ st_time s <= t <= st_time s';
  law_uuid : forall s r s', d_NewUUID d s = (r, s') -> keeps st_body st_meta st_time s s';
  law_audit : forall sink c ev s, d_Audit d = Some sink -> keeps st_body st_meta st_time s (sink c ev s);
  law_put : forall c id rec ttl s r s', Bodies_Put (d_Bodies d) c id rec ttl s = (r, s') ->
    (forall id' rec', st_body s' id' rec' -> st_body s id' rec' \/ (id' = id /\ (body_typed rec -> rec' = rec))) /\
    (forall id', st_meta s' id' = st_meta s id') /\ st_time s <= st_time s';
  law_get : forall c id s r s', Bodies_Get (d_Bodies d) c id s = (r, s') ->
    keeps st_body st_meta st_time s s' /\ (forall rec, r = Ok rec -> st_body s id rec);
  law_delete : forall c id s r s', Bodies_Delete (d_Bodies d) c id s = (r, s') ->
    keeps st_body st_meta st_time s s' /\ (forall u, r = Ok u -> forall rec, ~ st_body s' id rec);
  law_mark : forall c id ttl s r s', Bodies_MarkUnavailableOnce (d_Bodies d) c id ttl s = (r, s') ->
    keeps st_body st_meta st_time s s';
  law_create : forall c m s r s', Metas_Create (d_Metas d) c m s = (r, s') ->
    (forall id rec, st_body s' id rec -> st_body s id rec) /\ st_time s <= st_time s' /\
    forall id m', st_meta s' id = Some m' -> st_meta s id = Some m' \/ (id = pm_ID m /\ stored_as m m');
  law_mget : forall c id s r s', Metas_Get (d_Metas d) c id s = (r, s') ->
    keeps st_body st_meta st_time s s' /\ (forall m, r = Ok m -> st_meta s id = Some m);
  law_views : forall c id s r s', Metas_IncrementViews (d_Metas d) c id s = (r, s') ->
    keeps st_body st_meta st_time s s';
  law_deleted : forall c id by_ at_ s r s', Metas_MarkDeleted (d_Metas d) c id by_ at_ s = (r, s') ->
    keeps st_body st_meta st_time s s';
  law_seal : forall c id t b pw s r s', Env_Seal (d_Envelope d) c id t b pw s = (r, s') ->
    keeps st_body st_meta st_time s s';
  law_open : forall c id t rec pw s r s', Env_Open (d_Envelope d) c id t rec pw s = (r, s') ->
    keeps st_body st_meta st_time s s';
  law_owner : forall c o pg s r s', Metas_ListByOwner (d_Metas d) c o pg s = (r, s') ->
    keeps st_body st_meta st_time s s';
  law_all : forall c o pg s r s', Metas_ListAll (d_Metas d) c o pg s = (r, s') ->
    keeps st_body st_meta st_time s s'
}.

Abbreviation Keeps := (keeps st_body st_meta st_time).

Section Integrity.
Context `{Primitives} `{UUIDText} {S : Type} (d : Deps S) `{!PasteStores d}.

(** ** Operations that only observe *)

Lemma record_keeps c ev a i o l s r s' : record d c ev a i o l s = (r, s') -> Keeps s s'.
Proof.
  unfold record, Now, read_clock, emit. destruct (d_Audit d) as [sink|] eqn:Ea.
  - go_unfold. destruct (d_Now d s) as [t s1] eqn:En. intros [= <- <-].
    apply law_now in En as [Hn _]. transitivity s1; [done|by apply law_audit].
  - go_unfold. intros [= <- <-]. reflexivity.
Qed.

(** Turn what ran into the law of each call. *)
Ltac law_facts :=
  repeat match goal with
  | X : ignore _ _ = _ |- _ => apply ignore_inv in X as [? X]
  | X : record _ _ _ _ _ _ _ _ = _ |- _ => apply record_keeps in X
  | X : d_Now d _ = _ |- _ => apply law_now in X as [X ?]
  | X : d_NewUUID d _ = _ |- _ => apply law_uuid in X
  | X : Bodies_Get _ _ _ _ = _ |- _ => apply law_get in X as [X ?]
  | X : Bodies_Delete _ _ _ _ = _ |- _ => apply law_delete in X as [X ?]
  | X : Bodies_MarkUnavailableOnce _ _ _ _ _ = _ |- _ => apply law_mark in X
  | X : Metas_Get _ _ _ _ = _ |- _ => apply law_mget in X as [X ?]
  | X : Metas_IncrementViews _ _ _ _ = _ |- _ => apply law_views in X
  | X : Metas_MarkDeleted _ _ _ _ _ _ = _ |- _ => apply law_deleted in X
  | X : Env_Seal _ _ _ _ _ _ _ = _ |- _ => apply law_seal in X
  | X : Env_Open _ _ _ _ _ _ _ = _ |- _ => apply law_open in X
  end.

(** Chain the steps of a run. *)
Ltac keeps_chain :=
  repeat match goal with
  | X : keeps _ _ _ ?s ?s1 |- keeps _ _ _ ?s ?s' => transitivity s1; [exact X|clear X]
  end; reflexivity.

Lemma Read_keeps c p id pw s r s' : Read d c p id pw s = (r, s') -> Keeps s s'.
Proof.
  unfold Read, Now, read_clock. intros Hr. go_inv Hr; simplify_eq/=; law_facts; keeps_chain.
Qed.

Lemma Verify_keeps c id h s r s' : Verify d c id h s = (r, s') -> Keeps s s'.
Proof. unfold Verify, Now, read_clock. intros Hr. go_inv Hr; simplify_eq/=; law_facts; keeps_chain. Qed.

Lemma Delete_keeps c p id s r s' : Delete d c p id s = (r, s') -> Keeps s s'.
Proof. unfold Delete, Now, read_clock. intros Hr. go_inv Hr; simplify_eq/=; law_facts; keeps_chain. Qed.

Lemma ListMine_keeps c p pg s r s' : ListMine d c p pg s = (r, s') -> Keeps s s'.
Proof. apply law_owner. Qed.

Lemma ListAll_keeps c p o pg s r s' : ListAll d c p o pg s = (r, s') -> Keeps s s'.
Proof.
  unfold ListAll. destruct (negb (pr_IsAdmin p)); [intros [= <- <-]; reflexivity|apply law_all].
Qed.

(** ** The invariant *)
Context (rand : RandOps S) `{!RandLaws rand} (e : Envelope S) (Hwf : env_wf e)
  (Hkek : utf8_ValidString (env_active e) = true)
  (Henv : d_Envelope d = MkEnvelopePort S (Seal rand e) (Open e) (env_active e)).

(** A body that belongs to its row: the sealing, for this paste and this second
    of expiry, of a canonical buffer with the row's hash and size, under a
    password exactly when the row is marked as protected. *)
Definition genuine (id : uuid) (m : PasteMeta) (rec : EncryptedBody) (b : bytes) (pw : string) : Prop :=
  canonical_bytes (MaxSize (d_Limits d)) b /\ pm_ContentHash m = HashHex b /\
  pm_SizeBytes m = Z.of_nat (length b) /\
  pm_PasswordProtected m = negb (bool_decide (pw = "")) /\
  exists t : Z, t / Second = pm_ExpiresAt m / Second /\ sealed e id t b pw rec.

Definition Inv (s : S) : Prop :=
  forall id m rec, st_meta s id = Some m -> st_body s id rec -> exists b pw, genuine id m rec b pw.

Lemma genuine_core id m m' rec b pw : same_core m m' -> genuine id m rec b pw -> genuine id m' rec b pw.
Proof.
  intros (_ & _ & _ & He & _ & Hz & _ & Hh & Hp & _) (Hcan & Hh' & Hz' & Hp' & t & Ht & Hs).
  refine (conj Hcan (conj _ (conj _ (conj _ (ex_intro _ t (conj _ Hs)))))); congruence.
Qed.

(** The same with more to say about where the content and the password come
    from: [Q] relates them to the id. *)
Definition InvQ (Q : uuid -> bytes -> string -> Prop) (s : S) : Prop :=
  forall id m rec, st_meta s id = Some m -> st_body s id rec -> exists b pw, genuine id m rec b pw /\ Q id b pw.

Lemma Inv_InvQ s : Inv s <-> InvQ (fun _ _ _ => True) s.
Proof.
  split; intros Hi id m rec Hm Hr; [destruct (Hi id m rec Hm Hr) as (b & pw & Hg)|
    destruct (Hi id m rec Hm Hr) as (b & pw & Hg & _)]; by exists b, pw.
Qed.

Lemma InvQ_mono (Q Q' : uuid -> bytes -> string -> Prop) s :
  (forall id b pw, Q id b pw -> Q' id b pw) -> InvQ Q s -> InvQ Q' s.
Proof. intros HQ Hi id m rec Hm Hr. destruct (Hi id m rec Hm Hr) as (b & pw & Hg & Hq). exists b, pw. auto. Qed.

Lemma InvQ_keeps Q s s' : InvQ Q s -> Keeps s s' -> InvQ Q s'.
Proof.
  intros Hi (Hb & Hm & _) id m' rec Hm' Hrec.
  destruct (Hm _ _ Hm') as (m & Hs & Hc). destruct (Hi id m rec Hs (Hb _ _ Hrec)) as (b & pw & Hg & Hq).
  exists b, pw. split; [by eapply genuine_core|done].
Qed.

(** A sealed body can be stored: its text fields are valid UTF-8 and its
    parameters fit their types. *)
Lemma sealed_typed id t b pw rec : sealed e id t b pw rec -> body_typed rec.
Proof.
  intros (dek & wk & _ & _ & Hv & Ha & _ & _ & _ & _ & Hmode). unfold body_typed.
  rewrite Hv, Ha. destruct Hwf as [_ _ (Ht & Hm & Hp) _].
  destruct Hmode as [(_ & -> & -> & -> & _)|(_ & -> & -> & k & -> & _ & Hk & _)].
  - split_and!; [unfold envelopeVersion, in_int64; lia..|done|done|done|done].
  - rewrite <-Hk in Ht, Hm, Hp. simpl in *. split_and!; try done; unfold envelopeVersion; lia.
Qed.

(** An id that names nothing in either store. *)
Definition fresh (s : S) (id : uuid) : Prop := st_meta s id = None /\ forall rec, ~ st_body s id rec.

Lemma fresh_keeps s s' id : fresh s id -> Keeps s s' -> fresh s' id.
Proof.
  intros [Hf Hb] (Kb & Km & _). split.
  - destruct (st_meta s' id) eqn:E; [|done]. by destruct (Km _ _ E) as (? & ? & _); congruence.
  - intros rec Hr. by apply (Hb rec), Kb.
Qed.

(** The two writing steps of [Create], in order. *)
Lemma put_InvQ Q c id rec ttl s r1 s1 :
  InvQ Q s -> fresh s id -> body_typed rec -> Bodies_Put (d_Bodies d) c id rec ttl s = (r1, s1) ->
  InvQ Q s1 /\ st_meta s1 id = None /\ forall rec', st_body s1 id rec' -> rec' = rec.
Proof.
  intros Hi [Hfm Hfb] Hty Hput. apply law_put in Hput as (Pb & Pm & _). split_and!.
  - intros id' m' rec' Hm' Hb'. rewrite Pm in Hm'.
    destruct (Pb _ _ Hb') as [Hb|[-> _]]; [by eapply Hi|congruence].
  - by rewrite Pm.
  - intros rec' Hb'. destruct (Pb _ _ Hb') as [Hb|[_ E]]; [by destruct (Hfb rec')|by apply E].
Qed.

Lemma create_InvQ Q c m rec s r s' b pw :
  InvQ Q s -> Q (pm_ID m) b pw -> (forall rec', st_body s (pm_ID m) rec' -> rec' = rec) ->
  Metas_Create (d_Metas d) c m s = (r, s') ->
  sealed e (pm_ID m) (pm_ExpiresAt m) b pw rec ->
  canonical_bytes (MaxSize (d_Limits d)) b -> pm_ContentHash m = HashHex b ->
  pm_SizeBytes m = Z.of_nat (length b) -> pm_PasswordProtected m = negb (bool_decide (pw = "")) ->
  InvQ Q s'.
Proof.
  intros Hi Hq Honly Hcr Hs Hcan Hh Hsz Hp. apply law_create in Hcr as (Cb & _ & Cm).
  intros id' m' rec' Hm' Hb'. apply Cb in Hb'.
  destruct (Cm _ _ Hm') as [Hold|[-> Hst]]; [by eapply Hi|].
  rewrite (Honly _ Hb') in *. destruct Hst as (? & ? & ? & ? & Hsec & _). exists b, pw. split; [|done].
  refine (conj Hcan (conj _ (conj _ (conj _ (ex_intro _ (pm_ExpiresAt m) (conj _ Hs)))))); congruence.
Qed.

(** [uuid.New] drew an id that names nothing yet. *)
Definition draws_fresh (s : S) : Prop :=
  forall t s1 id s2, d_Now d s = (t, s1) -> d_NewUUID d s1 = (Ok id, s2) -> fresh s2 id.

(** The id drawn by a creation at [s]. *)
Definition draws (s : S) (id : uuid) : Prop := exists t s1 s2, d_Now d s = (t, s1) /\ d_NewUUID d s1 = (Ok id, s2).

Lemma Create_InvQ (Q : uuid -> bytes -> string -> Prop) c p inp s r s' :
  InvQ Q s -> draws_fresh s ->
  (forall id b, draws s id -> Canonicalize (in_Content inp) (MaxSize (d_Limits d)) = Ok b -> Q id b (in_Password inp)) ->
  Create d c p inp s = (r, s') -> InvQ Q s'.
Proof.
  intros Hi Hfresh HQ Hr. unfold Create, Now, read_clock in Hr. go_unfold.
  destruct (create_checks d inp) as [[ttl b]|err|] eqn:Ec; [|by simplify_eq/=..].
  apply create_checks_ok in Ec as (_ & _ & _ & _ & Hcan).
  destruct (d_Now d s) as [now s1] eqn:E1. specialize (Hfresh now s1).
  assert (Hq : forall id s2, d_NewUUID d s1 = (Ok id, s2) -> Q id b (in_Password inp))
    by (intros id0 s0 E0; apply HQ; [by exists now, s1, s0|done]).
  apply Canonicalize_ok in Hcan.
  pose proof (law_now _ _ _ E1) as [K1 _]. apply (InvQ_keeps Q _ _ Hi) in K1.
  destruct (d_NewUUID d s1) as [[id|err|] s2] eqn:E2;
    pose proof (law_uuid _ _ _ E2) as K2; apply (InvQ_keeps Q _ _ K1) in K2; [|by simplify_eq/=..].
  specialize (Hfresh id s2 E1 eq_refl). specialize (Hq id s2 eq_refl).
  destruct (Env_Seal (d_Envelope d) c id _ b (in_Password inp) s2) as [[rec|err|] s3] eqn:E3;
    pose proof (law_seal _ _ _ _ _ _ _ _ E3) as K3; [|simplify_eq/=; by eapply InvQ_keeps..].
  rewrite Henv in E3. cbn [Env_Seal] in E3. apply Seal_sealed in E3; [|done..].
  pose proof (fresh_keeps _ _ _ Hfresh K3) as F3. apply (InvQ_keeps Q _ _ K2) in K3.
  destruct (d_Now d s3) as [now2 s4] eqn:E4. pose proof (law_now _ _ _ E4) as [K4 _].
  pose proof (fresh_keeps _ _ _ F3 K4) as F4. apply (InvQ_keeps Q _ _ K3) in K4.
  destruct (time_Sub _ now2 <=? 0); [by simplify_eq/=|].
  destruct (Bodies_Put (d_Bodies d) c id rec _ s4) as [[[]|err|] s5] eqn:E5;
    destruct (put_InvQ _ _ _ _ _ _ _ _ K4 F4 (sealed_typed _ _ _ _ _ E3) E5) as (I5 & _ & O5); [|by simplify_eq/=..].
  set (m := if negb (pm_PasswordProtected _) then _ else _) in *.
  assert (Hm : pm_ID m = id /\ pm_ContentHash m = HashHex b /\ pm_SizeBytes m = Z.of_nat (length b) /\
    pm_PasswordProtected m = negb (bool_decide (in_Password inp = "")) /\
    pm_ExpiresAt m = time_Add now (dur_mul ttl Second)) by (unfold m; by destruct (negb (pm_PasswordProtected _))).
  destruct Hm as (Hid & Hh & Hsz & Hp & Hexp). 
  change (pm_ExpiresAt (create_meta p inp ttl b now id)) with (time_Add now (dur_mul ttl Second)) in E3.
  rewrite <-Hexp in E3. clearbody m. subst id.
  destruct (Metas_Create (d_Metas d) c m s5) as [r6 s6] eqn:E6.
  pose proof (create_InvQ _ _ _ _ _ _ _ _ _ I5 Hq O5 E6 E3 Hcan Hh Hsz Hp) as I6.
  destruct r6 as [[]|err|]; [| |by simplify_eq/=].
  - destruct (record d _ _ _ _ _ _ s6) as [r7 s7] eqn:E7. apply record_keeps in E7.
    assert (s' = s7) as -> by (by destruct r7; simplify_eq/=). by eapply InvQ_keeps.
  - destruct (ignore _ s6) as [r7 s7] eqn:E7. apply ignore_inv in E7 as [r8 E7].
    apply law_delete in E7 as [K7 _].
    assert (s' = s7) as -> by (by destruct r7; simplify_eq/=). by eapply InvQ_keeps.
Qed.

Lemma Create_Inv c p inp s r s' :
  Inv s -> draws_fresh s -> Create d c p inp s = (r, s') -> Inv s'.
Proof. rewrite !Inv_InvQ. intros Hi Hf. by apply Create_InvQ. Qed.

(** ** What a reader is given *)

Lemma Open_inv_unwrap c id t rec pw s b s' :
  Open e c id t rec pw s = (Ok b, s') -> exists wk s1, unwrapKey e c rec pw s = (Ok wk, s1).
Proof.
  unfold Open. go_unfold. destruct (validateRecord e rec); [|done..].
  destruct (unwrapKey e c rec pw s) as [[wk| |] s1]; [eauto|done..].
Qed.

(** Opening a sealed body, with the right password where it has one, can only
    yield what was sealed. *)
Lemma Open_sealed_content c id t t' b pw rec pw' s b' s' :
  sealed e id t b pw rec -> t' / Second = t / Second -> pw = "" \/ pw' = pw ->
  Open e c id t' rec pw' s = (Ok b', s') -> b' = b.
Proof.
  intros Hs Ht Hpw Ho. destruct (Open_inv_unwrap _ _ _ _ _ _ _ _ Ho) as (wk & s1 & Hu).
  pose proof Hs as (dek & k & Hd & Hk & _ & _ & _ & _ & Ect & Ewd & Hmode).
  enough (k = wk) as E.
  { erewrite (Open_sealed e c id t t' b pw rec pw' s s1 wk) in Ho by eauto. congruence. }
  unfold unwrapKey in Hu. destruct Hmode as [(-> & Em & Ek & _ & Hkey)|(Hne & Em & _ & kp & Ekdf & _ & Hp & ->)].
  - rewrite Em, Ek, Hkey, (bool_decide_true (WrapKEK = WrapKEK)) in Hu by done.
    unfold mret, M_ret in Hu. congruence.
  - destruct Hpw as [Hpw| ->]; [done|]. rewrite Em, Ekdf in Hu.
    rewrite (bool_decide_false (WrapPassword = WrapKEK)), (bool_decide_false (pw = "")) in Hu by done.
    rewrite (bool_decide_true (WrapPassword = WrapPassword)) in Hu by done.
    unfold wrap in Hu. destruct (DeriveKey _ _ _ _ _ _) as [[w| |] s2] eqn:Ed; simplify_eq/=.
    apply DeriveKey_inv in Ed as (_ & _ & ->). by rewrite Hp.
Qed.

(** Every operation of the service keeps the invariant, whatever fails in it;
    [Create] needs its new id to name nothing yet. *)
Inductive ServiceOp : Type :=
| SCreate (p : Principal) (inp : CreateInput)
| SRead (p : option Principal) (id : uuid) (password : string)
| SVerify (id : uuid) (sha256hex : string)
| SDelete (p : Principal) (id : uuid)
| SListMine (p : Principal) (page : Page)
| SListAll (p : Principal) (owner : option uuid) (page : Page).

Definition run_service (c : ctx) (op : ServiceOp) (s : S) : S :=
  match op with
  | SCreate p inp => snd (Create d c p inp s)
  | SRead p id pw => snd (Read d c p id pw s)
  | SVerify id h => snd (Verify d c id h s)
  | SDelete p id => snd (Delete d c p id s)
  | SListMine p pg => snd (ListMine d c p pg s)
  | SListAll p o pg => snd (ListAll d c p o pg s)
  end.

(** One operation, however it ends. *)
Lemma Service_op_InvQ Q c op s :
  InvQ Q s -> (forall p inp, op = SCreate p inp -> draws_fresh s) ->
  (forall p inp id b, op = SCreate p inp -> draws s id ->
     Canonicalize (in_Content inp) (MaxSize (d_Limits d)) = Ok b -> Q id b (in_Password inp)) ->
  InvQ Q (run_service c op s).
Proof.
  intros Hi Hf HQ. destruct op as [p inp|p id pw|id h|p id|p pg|p o pg]; cbn [run_service].
  - eapply (Create_InvQ Q c p inp); [done|by eapply Hf|by eauto|apply surjective_pairing].
  - eapply InvQ_keeps; [done|]. eapply (Read_keeps c p id pw), surjective_pairing.
  - eapply InvQ_keeps; [done|]. eapply (Verify_keeps c id h), surjective_pairing.
  - eapply InvQ_keeps; [done|]. eapply (Delete_keeps c p id), surjective_pairing.
  - eapply InvQ_keeps; [done|]. eapply (ListMine_keeps c p pg), surjective_pairing.
  - eapply InvQ_keeps; [done|]. eapply (ListAll_keeps c p o pg), surjective_pairing.
Qed.

Lemma Service_op_Inv c op s :
  Inv s -> (forall p inp, op = SCreate p inp -> draws_fresh s) -> Inv (run_service c op s).
Proof. rewrite !Inv_InvQ. intros Hi Hf. by apply Service_op_InvQ. Qed.

(** A history of the service; other clients of the stores are the business of
    PasteSystem. *)
Fixpoint run_history (ops : list (ctx * ServiceOp)) (s : S) : S :=
  match ops with
  | [] => s
  | (c, op) :: ops => run_history ops (run_service c op s)
  end.
(** Every creation in it draws an id that is not in use. *)
Fixpoint fresh_history (ops : list (ctx * ServiceOp)) (s : S) : Prop :=
  match ops with
  | [] => True
  | (c, op) :: ops =>
      (forall p inp, op = SCreate p inp -> draws_fresh s) /\ fresh_history ops (run_service c op s)
  end.

(** C13. Whatever operations of the service run, in whatever order, and however
    each of them ends, every stored body of a paste stays one that the envelope
    sealed for that paste's id and expiry from content whose hash and size its
    row carries. *)
Theorem Service_keeps_integrity ops s :
  Inv s -> fresh_history ops s -> Inv (run_history ops s).
Proof.
  revert s. induction ops as [|[c op] ops IH]; [done|]. intros s Hi [Hf Hops]. cbn [run_history].
  apply IH; [|done]. by apply Service_op_Inv.
Qed.

(** Content that [Read] returns is what was sealed: there are canonical bytes
    [b0] and a password [pw0], whose hash and size the row carries, and the
    reader of an unprotected paste, or one who gives that password, gets exactly
    [b0]. *)
Lemma Read_returns_sealed Q c p id pw s r s' b :
  InvQ Q s -> Read d c p id pw s = (Ok r, s') -> rr_Content r = Some b ->
  exists b0 pw0, Q id b0 pw0 /\
    canonical_bytes (MaxSize (d_Limits d)) b0 /\ pm_ContentHash (rr_Meta r) = HashHex b0 /\
    pm_SizeBytes (rr_Meta r) = Z.of_nat (length b0) /\
    pm_PasswordProtected (rr_Meta r) = negb (bool_decide (pw0 = "")) /\
    (pm_PasswordProtected (rr_Meta r) = false \/ pw = pw0 -> b = b0).
Proof.
  unfold Read, Now, read_clock. intros Hi Hr Hb. go_inv Hr; simplify_eq/=.
  all: match goal with X : Metas_Get _ _ _ _ = (Ok ?m, _) |- _ =>
         apply law_mget in X as [Kg Hm]; specialize (Hm m eq_refl) end.
  all: match goal with X : Bodies_Get _ _ _ _ = (Ok ?rec, _), Y : d_Now d ?s1 = (_, ?s2) |- _ =>
         lazymatch type of X with _ s2 = _ =>
           apply law_get in X as [_ Hbody]; specialize (Hbody rec eq_refl);
           apply law_now in Y as [Kn _] end end.
  all: destruct Kn as (Kb & _ & _); destruct Kg as (Kb' & _ & _); apply Kb, Kb' in Hbody.
  all: destruct (Hi _ _ _ Hm Hbody) as (b0 & pw0 & (Hcan & Hh & Hz & Hp & t & Ht & Hs) & Hq).
  all: exists b0, pw0; split_and!; try done.
  all: intros Hpw; match goal with X : Env_Open _ _ _ _ _ _ _ = _ |- _ => rewrite Henv in X; cbn in X;
         eapply (Open_sealed_content _ _ t); [exact Hs| | |exact X] end; [done|].
  all: destruct Hpw as [Hpw| ->]; [left|by right].
  all: rewrite Hp in Hpw; gobool; done.
Qed.

(** ** Deletion *)

(** What a reading that yields content saw: the row, then a clock before the
    expiry, then a body, all of them there at the start. *)
Lemma Read_content_inv c p id pw s r s' b :
  Read d c p id pw s = (Ok r, s') -> rr_Content r = Some b ->
  st_meta s id = Some (rr_Meta r) /\ pm_DeletedAt (rr_Meta r) = None /\
  st_time s < pm_ExpiresAt (rr_Meta r) /\ exists rec, st_body s id rec.
Proof.
  unfold Read, Now, read_clock. intros Hr Hb. go_inv Hr; simplify_eq/=.
  all: match goal with X : Metas_Get _ _ _ _ = (Ok ?m, _) |- _ =>
         apply law_mget in X as [(Kb' & _ & Kt') Hm]; specialize (Hm m eq_refl) end.
  all: match goal with X : Bodies_Get _ _ _ _ = (Ok ?rec, _), Y : d_Now d ?s1 = (_, ?s2) |- _ =>
         lazymatch type of X with _ s2 = _ =>
           apply law_get in X as [_ Hbody]; specialize (Hbody rec eq_refl);
           apply law_now in Y as [(Kb & _ & _) Hts] end end.
  all: gobool; match goal with X : PasteMeta_Status _ _ = StatusActive |- _ =>
         apply Status_active_iff in X as [Hdel Hlt] end.
  all: split_and!; [done|done|lia|eauto].
Qed.

(** C6. A deletion is final: once [Delete] has returned without error, no later
    [Read] returns content, whatever password it brings and whatever the stores
    do in between short of creating the paste anew. *)
Theorem Delete_final c p id s s1 s2 c' p' pw r s3 :
  Delete d c p id s = (Ok tt, s1) -> Keeps s1 s2 -> Read d c' p' id pw s2 = (Ok r, s3) ->
  rr_Content r = None.
Proof.
  intros Hd K2 Hr. destruct (rr_Content r) as [b|] eqn:Eb; [|done]. exfalso.
  destruct (Read_content_inv _ _ _ _ _ _ _ _ Hr Eb) as (Hm & Hdel & Ht & rec & Hb).
  pose proof (Delete_keeps _ _ _ _ _ _ Hd) as K1.
  assert (K : Keeps s s2) by by transitivity s1.
  destruct K as (_ & Km & Kt). destruct (Km _ _ Hm) as (m0 & Hm0 & Hc).
  destruct Hc as (_ & _ & _ & He & _ & _ & _ & _ & _ & _ & Hcd).
  unfold Delete, Now, read_clock in Hd. go_inv Hd; simplify_eq/=.
  all: match goal with X : Metas_Get _ _ _ _ = (Ok ?m, _) |- _ =>
         apply law_mget in X as [Kg Hmg]; specialize (Hmg m eq_refl) end.
  all: rewrite Hm0 in Hmg; injection Hmg as ->.
  - (* already deleted or expired *)
    match goal with X : negb _ || negb _ = true |- _ => gobool; destruct X as [X|X] end.
    + by apply Hcd.
    + match goal with Y : d_Now d _ = _ |- _ => apply law_now in Y as [_ Hts] end.
      destruct K2 as (_ & _ & Kt2). unfold Before in *. gobool. lia.
  - (* the body was deleted *)
    match goal with X : Bodies_Delete _ _ _ _ = (Ok ?u, _) |- _ =>
      apply law_delete in X as [_ Hgone]; specialize (Hgone u eq_refl) end.
    law_facts. destruct K2 as (Kb2 & _ & _).
    match goal with A : keeps _ _ _ ?x ?y, B : keeps _ _ _ ?y s1 |- _ =>
      destruct A as (A & _ & _); destruct B as (B & _ & _); apply (Hgone rec), A, B, Kb2, Hb end.
Qed.
End Integrity.
