(* ===== verification/PasteSystem.v ===== *)
(** * The paste service over Redis and Postgres

    The paste service with its real parts, as [internal/paste/integration_test.go]
    puts them together: the body store over Redis, the metadata store and the
    audit sinks over Postgres, the envelope ([internal/cli/serve.go] does not
    mount the service yet).  The stores implement the interface of PasteLaws, so the service's
    integrity and finality hold for the composed system; and a paste that was
    created is read back. *)
From S2P Require Import Prelude GoNum GoStr Codec NetIP Json Errors Rfc3339 PasteTypes Canonical.
From S2P Require Import Crypto Envelope Ports Service Redis Pg World RedisBody PgPastes PgAudit.
From S2P Require Import PasteLaws.

Section System.
Context `{RedisServer} `{RedisClient} `{PgTypes} `{UUIDText} `{Primitives}.

(** Recording an event must not touch what the stores hold. *)
Definition sink_keeps (sink : Sink World) : Prop := forall c ev w,
  w_time w <= w_time (sink c ev w) /\ w_redis (sink c ev w) = w_redis w /\
  t_pastes (w_pg (sink c ev w)) = t_pastes (w_pg w).

Lemma Audit_Record_keeps : sink_keeps Audit_Record.
Proof. intros c ev w. destruct (Audit_Record_frame c ev w) as (? & ? & _ & ?). done. Qed.

(** The sink that writes the log, [logSink]. *)
Definition log_sink : Sink World := logSink_Record clock (write_log "audit").

Lemma log_sink_keeps : sink_keeps log_sink.
Proof.
  intros c ev w. unfold log_sink, logSink_Record, fill_time.
  destruct (IsZero (ev_At ev)); [|simpl; split_and!; (done || lia)].
  destruct (clock w) as [t w1] eqn:E. apply clock_inv in E as (Ht & Ht' & Hs).
  unfold stores in Hs. injection Hs as Hr Hp. simpl. split_and!; [lia|done|congruence].
Qed.

Lemma Multi_keeps sinks : Forall sink_keeps sinks -> sink_keeps (Multi_Record sinks).
Proof.
  induction 1 as [|sink sinks Hs _ IH]; intros c ev w; simpl; [split_and!; (done || lia)|].
  destruct (Hs c ev w) as (? & E1 & E2), (IH c ev (sink c ev w)) as (? & E3 & E4).
  split_and!; [lia|congruence|congruence].
Qed.

(** [audit.Multi{auditStore, audit.NewLogSink(...)}] *)
Definition audit_sinks : Sink World := Multi_Record [Audit_Record; log_sink].

Lemma audit_sinks_keep : sink_keeps audit_sinks.
Proof.
  apply Multi_keeps, Forall_cons_2; [apply Audit_Record_keeps|].
  apply Forall_cons_2; [apply log_sink_keeps|apply Forall_nil_2].
Qed.

Context (newUUID : M World uuid) (e : Envelope World) (baseURL : string) (limits : Limits).

Definition paste_deps : Deps World :=
  MkDeps World NewBodyStore NewPasteStore
    (MkEnvelopePort World (Seal world_rand e) (Open e) (env_active e))
    (Some audit_sinks) clock newUUID baseURL limits.

(** ** The stores implement the interface *)

(** [crypto/rand], the id source and the gate leave the stores alone. *)
Definition quiet {A} (m : M World A) : Prop := forall w r w', m w = (r, w') ->
  w_time w <= w_time w' /\ stores w' = stores w /\ consumes w w'.

Context (Huuid : quiet newUUID)
  (Hacquire : forall c, quiet (gate_Acquire (env_gate e) c)) (Hrelease : quiet (gate_Release (env_gate e))).

Definition w_body (w : World) (id : uuid) (rec : EncryptedBody) : Prop :=
  exists b x, stored w id = Some (RString b, x) /\ unmarshal_body b = Some rec.
Definition w_meta (w : World) (id : uuid) : option PasteMeta := scanPaste <$> row_at (w_pg w) id.

Abbreviation WKeeps := (keeps w_body w_meta w_time).

Lemma server_ms_mono w w' : w_time w <= w_time w' -> server_ms w <= server_ms w'.
Proof. unfold server_ms, Millisecond. lia. Qed.

(** A body readable later in an unchanged key was readable before. *)
Lemma w_body_later w w' id rec :
  w_time w <= w_time w' -> same_key (server_ms w') (w_redis w) (w_redis w') (bodyKey id) ->
  w_body w' id rec -> w_body w id rec.
Proof.
  intros Ht Hs (b & x & Hst & Hu). exists b, x. split; [|done]. unfold stored in *.
  rewrite Hs in Hst by done. eapply live_some_later; [|exact Hst]. by apply server_ms_mono.
Qed.

Lemma keeps_frame w w' :
  w_time w <= w_time w' -> (forall k, same_key (server_ms w') (w_redis w) (w_redis w') k) ->
  t_pastes (w_pg w') = t_pastes (w_pg w) -> WKeeps w w'.
Proof.
  intros Ht Hr Hp. split_and!; [|unfold w_meta, row_at; rewrite Hp; intros id m Hm; by exists m|done].
  intros id rec. by apply w_body_later.
Qed.

Lemma keeps_stores w w' : w_time w <= w_time w' -> stores w' = stores w -> WKeeps w w'.
Proof.
  unfold stores. intros Ht [= Hr Hp]. apply keeps_frame; [done| |congruence]. by rewrite Hr.
Qed.

Lemma quiet_keeps {A} (m : M World A) w r w' : quiet m -> m w = (r, w') -> WKeeps w w'.
Proof. intros Hq E. destruct (Hq _ _ _ E) as (? & ? & _). by apply keeps_stores. Qed.

(** A run made of quiet steps is quiet. *)
Lemma quiet_lift {A} (x : res A) : quiet (lift x).
Proof. intros w r w' [= <- <-]. split_and!; [lia|done|reflexivity]. Qed.
Lemma quiet_ret {A} (a : A) : quiet (mret a).
Proof. apply (quiet_lift (Ok a)). Qed.
Lemma quiet_throw {A} err : quiet (throw err : M World A).
Proof. apply (quiet_lift (Err err)). Qed.
Lemma quiet_panic {A} : quiet (panic : M World A).
Proof. apply (quiet_lift Panic). Qed.
Lemma quiet_bind {A B} (m : M World A) (f : A -> M World B) :
  quiet m -> (forall a, quiet (f a)) -> quiet (m ≫= f).
Proof.
  intros Hm Hf w r w'. unfold mbind, M_bind. destruct (m w) as [[a|err|] w1] eqn:E;
    destruct (Hm _ _ _ E) as (Ht & Hs & Hc).
  - intros E2. destruct (Hf a _ _ _ E2) as (Ht2 & Hs2 & Hc2).
    split_and!; [lia|congruence|by transitivity w1].
  - intros [= <- <-]. done.
  - intros [= <- <-]. done.
Qed.
Lemma quiet_wrap {A} f (m : M World A) : quiet m -> quiet (wrap f m).
Proof.
  intros Hm w r w'. unfold wrap. destruct (m w) as [[a|err|] w1] eqn:E;
    intros [= <- <-]; by destruct (Hm _ _ _ E).
Qed.
Lemma quiet_defer {A} (dd : M World unit) (m : M World A) : quiet dd -> quiet m -> quiet (defer dd m).
Proof.
  intros Hd Hm w r w'. unfold defer. destruct (m w) as [r1 w1] eqn:E1.
  destruct (dd w1) as [r2 w2] eqn:E2. destruct (Hm _ _ _ E1) as (? & ? & ?), (Hd _ _ _ E2) as (? & ? & ?).
  assert (consumes w w2) by by transitivity w1.
  destruct r2; intros [= <- <-]; (split_and!; [lia|congruence|done]).
Qed.
Lemma quiet_rand n : quiet (rand_Read world_rand n).
Proof. intros w r w' [= <- <-]. simpl. split_and!; [lia|done|by exists 0%nat]. Qed.

Ltac quiet_step :=
  first [ apply quiet_ret | apply quiet_throw | apply quiet_panic | apply quiet_lift | apply quiet_rand
        | apply Hacquire | apply Hrelease
        | apply quiet_wrap | apply quiet_defer | apply quiet_bind
        | progress intros | case_match ].

Lemma quiet_Seal c id t b pw : quiet (Seal world_rand e c id t b pw).
Proof. unfold Seal, randomBytes, aead_Seal, DeriveKey, argon2_IDKey. repeat quiet_step. Qed.

Lemma quiet_Open c id t rec pw : quiet (Open e c id t rec pw).
Proof. unfold Open, unwrapKey, aead_Open, DeriveKey, argon2_IDKey. repeat quiet_step. Qed.

(** A row's core, as the service sees it. *)
Lemma core_same r r' : row_kept r r' -> same_core (scanPaste r) (scanPaste r').
Proof.
  intros [Hc Hd]. unfold core, set_view_count, set_audited, set_deleted in Hc.
  destruct r, r'. simpl in *. injection Hc as -> -> -> -> -> -> -> -> -> ->.
  repeat (split; [done|]). simpl. intros Hne. rewrite (proj1 (Hd Hne)). exact Hne.
Qed.

Lemma w_meta_kept new w w' :
  rows_kept new (w_pg w) (w_pg w') -> new = None ->
  forall id m', w_meta w' id = Some m' -> exists m, w_meta w id = Some m /\ same_core m m'.
Proof.
  intros Hk -> id m'. unfold w_meta. destruct (row_at (w_pg w') id) as [r'|] eqn:E; [|done].
  intros [= <-]. destruct (Hk _ _ E) as [(r & -> & Hr)|(m & ? & _)]; [|done].
  exists (scanPaste r). split; [done|by apply core_same].
Qed.

(** An update that keeps the core of every row it touches. *)
Lemma pg_update_keeps c (stmt : Z -> Tables -> res unit * Tables) w r w' :
  (forall now, rows_kept None (w_pg w) (snd (stmt now (w_pg w)))) ->
  pg_do c stmt w = (r, w') -> WKeeps w w'.
Proof.
  intros Hs (Ht & Hr & Hd)%pg_do_inv.
  assert (Hk : rows_kept None (w_pg w) (w_pg w'))
    by (destruct Hd as [[-> _]|[-> _]]; [apply rows_kept_refl|apply Hs]).
  split_and!; [|by eapply w_meta_kept|done]. intros id rec. apply w_body_later; [done|]. by rewrite Hr.
Qed.

Lemma pg_query_keeps {A} c (stmt : Z -> Tables -> res A * Tables) w r w' :
  (forall now t, snd (stmt now t) = t) -> pg_do c stmt w = (r, w') -> WKeeps w w'.
Proof.
  intros Hs (Ht & Hr & Hd)%pg_do_inv. apply keeps_frame; [done|by rewrite Hr|].
  destruct Hd as [[-> _]|[-> _]]; [done|by rewrite Hs].
Qed.

Lemma increment_views_kept id now t : rows_kept None t (snd (increment_views id now t)).
Proof.
  unfold increment_views. case_match; [apply rows_kept_refl|]. by apply rows_kept_update.
Qed.

Lemma mark_deleted_kept id by_ at_ now t : rows_kept None t (snd (mark_deleted id by_ at_ now t)).
Proof.
  unfold mark_deleted. case_match; [apply rows_kept_refl|]. apply rows_kept_update; [done|].
  intros r Hq. gobool. destruct Hq as [_ Hq]. split; [done|]. by destruct (p_deleted_at r).
Qed.

Lemma row_of_meta_stored m : stored_as m (scanPaste (row_of_meta m)).
Proof.
  unfold stored_as, scanPaste, row_of_meta. simpl. repeat (split; [done|]).
  rewrite timestamptz_floor. unfold Microsecond, Second. split; [lia|]. split; [lia|].
  by intros ->.
Qed.

#[program] Definition paste_stores : PasteStores paste_deps :=
  {| st_body := w_body; st_meta := w_meta; st_time := w_time |}.
Next Obligation.
  intros w t w' E. cbn in E. pose proof (clock_inv _ _ _ E) as (Ht & Ht' & Hs).
  split; [|lia]. by apply keeps_stores; [lia|].
Qed.
Next Obligation. intros w r w' E. exact (quiet_keeps _ _ _ _ Huuid E). Qed.
Next Obligation.
  intros sink c ev w [= <-].
  destruct (audit_sinks_keep c ev w) as (Ht & Hr & Hp).
  apply keeps_frame; [done| |done]. by rewrite Hr.
Qed.
Next Obligation.
  intros c id rec ttl w r w' E. cbn in E. apply Body_Put_spec in E as (Ht & Hp & Ho & Hr).
  split_and!; [|intros id'; unfold w_meta; by rewrite Hp|done]. intros id' rec' Hb.
  destruct (decide (id' = id)) as [-> |Hne].
  - assert (Hput : stored w' id = Some (put_entry rec ttl (server_ms w')) -> body_typed rec -> rec' = rec).
    { intros Hst Hty. destruct Hb as (b & x & Hb & Hu). rewrite Hst in Hb. unfold put_entry in Hb.
      simplify_eq. rewrite unmarshal_marshal_body in Hu by done. congruence. }
    destruct r as [u|err|]; [|destruct Hr as [Hr|[_ Hr]]|done].
    + right. destruct Hr. auto.
    + left. eapply w_body_later; [done| |exact Hb]. by rewrite Hr.
    + right. auto.
  - left. eapply w_body_later; [done| |exact Hb]. apply Ho. intros E. by apply bodyKey_inj in E.
Qed.
Next Obligation.
  intros c id w r w' E. cbn in E. apply Body_Get_spec in E as (Ht & Hp & Hk & Hr).
  split; [apply keeps_frame; [done|done|congruence]|]. intros rec ->.
  destruct Hr as (b & x & Hst & Hu). eapply w_body_later; [done|apply Hk|]. by exists b, x.
Qed.
Next Obligation.
  intros c id w r w' E. cbn in E. apply Body_Delete_spec in E as (Ht & Hp & Ho & Hd & Hr).
  assert (Hgone : stored w' id = None -> forall rec, ~ w_body w' id rec)
    by (intros Hn rec (b & x & Hst & _); congruence).
  split; [|intros u -> ; by apply Hgone].
  split_and!; [|unfold w_meta; rewrite Hp; intros id' m Hm; by exists m|done].
  intros id' rec Hb. destruct (decide (id' = id)) as [-> |Hne].
  - destruct Hd as [Hd|Hd]; [|by destruct (Hgone Hd rec)].
    eapply w_body_later; [done| |exact Hb]. by rewrite Hd.
  - eapply w_body_later; [done| |exact Hb]. apply Ho. intros E. by apply bodyKey_inj in E.
Qed.
Next Obligation.
  intros c id ttl w r w' E. cbn in E. apply Body_MarkUnavailableOnce_spec in E as (Ht & Hp & Ho & _).
  split_and!; [|unfold w_meta; rewrite Hp; intros id' m Hm; by exists m|done].
  intros id' rec Hb. eapply w_body_later; [done| |exact Hb]. apply Ho, bodyKey_unavailable.
Qed.
Next Obligation.
  intros c m w r w' E. cbn in E. apply Paste_Create_spec in E as (Ht & Hr & _ & Ho & Hm & _).
  split_and!; [|done|].
  - intros id rec. apply w_body_later; [done|]. by rewrite Hr.
  - intros id m'. unfold w_meta. destruct (decide (id = pm_ID m)) as [-> |Hne]; [|rewrite Ho by done; by left].
    destruct Hm as [-> | ->]; [by left|]. intros [= <-]. right. split; [done|apply row_of_meta_stored].
Qed.
Next Obligation.
  intros c id w r w' E. cbn in E. apply Paste_Get_spec in E as (Ht & Hs & Hr).
  split; [by apply keeps_stores|]. intros m ->. unfold w_meta.
  destruct Hr as [[k ?]|Hr]; [done|]. destruct (row_at (w_pg w) id); [by simplify_eq/=|done].
Qed.
Next Obligation. intros c id w r w' E. eapply pg_update_keeps; [|exact E]. intros. apply increment_views_kept. Qed.
Next Obligation. intros c id by_ at_ w r w' E. eapply pg_update_keeps; [|exact E]. intros. apply mark_deleted_kept. Qed.
Next Obligation. intros c id t b pw w r w' E. eapply quiet_keeps; [apply quiet_Seal|exact E]. Qed.
Next Obligation. intros c id t rec pw w r w' E. eapply quiet_keeps; [apply quiet_Open|exact E]. Qed.
Next Obligation. intros c o pg w r w' E. eapply pg_query_keeps; [|exact E]. done. Qed.
Next Obligation. intros c o pg w r w' E. eapply pg_query_keeps; [|exact E]. done. Qed.

(** ** Integrity of the composed system *)

#[local] Existing Instance paste_stores.

Context (Hwf : env_wf e) (Hkek : utf8_ValidString (env_active e) = true).

(** The id that a creation draws in [w], and what a service operation submits
    under it.  This is the caller's side: the id is what [uuid.New] gives after
    the clock was read, the input is the argument of the operation. *)
Definition drawn (w : World) : option uuid :=
  match fst (newUUID (snd (clock w))) with Ok id => Some id | _ => None end.
Definition submissions (op : ServiceOp) (w : World) : list (uuid * CreateInput) :=
  match op, drawn w with
  | SCreate _ inp, Some id => [(id, inp)]
  | _, _ => []
  end.

(** The histories of the system, with the submissions made so far: it starts
    without pastes; every service operation may run, under any context and any
    failures; and in between anything may happen that creates no paste, such as
    expiry and sweeping. *)
Inductive history : World -> list (uuid * CreateInput) -> Prop :=
| hist_start w : t_pastes (w_pg w) = [] -> history w []
| hist_op c op w subs : history w subs -> (forall p inp, op = SCreate p inp -> draws_fresh paste_deps w) ->
    history (run_service paste_deps c op w) (submissions op w ++ subs)
| hist_other w w' subs : history w subs -> WKeeps w w' -> history w' subs.

(** The content [b] was submitted under [id] with the password [pw]. *)
Definition submitted (subs : list (uuid * CreateInput)) (id : uuid) (b : bytes) (pw : string) : Prop :=
  exists inp, (id, inp) ∈ subs /\ Canonicalize (in_Content inp) (MaxSize limits) = Ok b /\ pw = in_Password inp.

Lemma history_InvQ w subs : history w subs -> InvQ paste_deps e (submitted subs) w.
Proof.
  induction 1 as [w Hw|c op w subs _ IH Hf|w w' subs _ IH Hk].
  - intros id m rec Hm. cbn in Hm. unfold w_meta, row_at in Hm. by rewrite Hw in Hm.
  - eapply (Service_op_InvQ paste_deps world_rand e); try done.
    + eapply InvQ_mono; [|exact IH]. intros id b pw (inp & Hin & ?). exists inp. split; [|done]. apply elem_of_app. by right.
    + intros p inp id b -> (t & w1 & w2 & Hn & Hu) Hcan. exists inp. split; [|done]. apply elem_of_app. left.
      cbn in Hn, Hu. unfold submissions, drawn. rewrite Hn. cbn [snd]. rewrite Hu. by apply list_elem_of_singleton.
  - eapply InvQ_keeps; [exact IH|exact Hk].
Qed.

(** C3. Whatever fails in a history, content that is read under an id was
    submitted: some creation of that history drew this id, with an input whose
    canonical bytes have the hash and the size that the reader is told, and
    whose password is empty exactly when the paste is not protected; and if that
    password is empty or the one the reader gave, the content is exactly these
    bytes. *)
Theorem System_serves_submissions c p id pw w subs r w' b :
  history w subs -> Read paste_deps c p id pw w = (Ok r, w') -> rr_Content r = Some b ->
  exists inp b0, (id, inp) ∈ subs /\ Canonicalize (in_Content inp) (MaxSize limits) = Ok b0 /\
    pm_ContentHash (rr_Meta r) = HashHex b0 /\ pm_SizeBytes (rr_Meta r) = Z.of_nat (length b0) /\
    (pm_PasswordProtected (rr_Meta r) = false <-> in_Password inp = "") /\
    (in_Password inp = "" \/ pw = in_Password inp -> b = b0).
Proof.
  intros Hr Hread Hb.
  destruct (Read_returns_sealed paste_deps world_rand e Hwf eq_refl _ c p id pw w r w' b (history_InvQ _ _ Hr) Hread Hb)
    as (b0 & pw0 & (inp & Hin & Hcan & ->) & _ & Hh & Hz & Hp & Heq).
  assert (Hprot : pm_PasswordProtected (rr_Meta r) = false <-> in_Password inp = "")
    by (rewrite Hp, negb_false_iff; apply bool_decide_eq_true).
  exists inp, b0. split_and!; try done. intros [He|He]; apply Heq; [left; by apply Hprot|by right].
Qed.

(** ** What [Create] leaves behind *)

Lemma record_frame c ev a i o l w r w' : record paste_deps c ev a i o l w = (r, w') ->
  r = Ok tt /\ w_time w <= w_time w' /\ w_redis w' = w_redis w /\ t_pastes (w_pg w') = t_pastes (w_pg w).
Proof.
  unfold record, Now, read_clock, emit. cbn [paste_deps d_Audit d_Now]. go_unfold.
  destruct (clock w) as [t w1] eqn:Ec. apply clock_inv in Ec as (Ht & Ht' & Hs).
  unfold stores in Hs. injection Hs as Hr Hp. intros [= <- <-].
  destruct (audit_sinks_keep c (MkEvent t ev a i "" "" o l) w1) as (Ht2 & Hr2 & Hp2).
  split_and!; [done|lia|congruence|congruence].
Qed.

Lemma Create_leaves c p inp w r w1 :
  Create paste_deps c p inp w = (Ok r, w1) ->
  let m := cr_Meta r in
  exists b rec deadline,
    Canonicalize (in_Content inp) (MaxSize limits) = Ok b /\
    sealed e (pm_ID m) (pm_ExpiresAt m) b (in_Password inp) rec /\
    pm_PasswordProtected m = negb (bool_decide (in_Password inp = "")) /\
    pm_DeletedAt m = None /\
    row_at (w_pg w1) (pm_ID m) = Some (row_of_meta m) /\
    (forall t, server_ms w1 <= t ->
       live t (w_redis w1) (bodyKey (pm_ID m)) = alive t (Some (RString (marshal_body rec), Some deadline))) /\
    pm_ExpiresAt m < (deadline + 2) * Millisecond.
Proof.
  intros Hr. unfold Create, Now, read_clock in Hr. go_unfold. cbn [paste_deps d_Now d_NewUUID d_Envelope
    d_Bodies d_Metas d_Limits Env_Seal] in Hr.
  destruct (create_checks paste_deps inp) as [[ttl b]|err|] eqn:Ec; [|done..].
  apply create_checks_ok in Ec as (_ & _ & _ & _ & Hcan).
  destruct (clock w) as [now w2] eqn:E1. apply clock_inv in E1 as (T1 & T1' & _).
  destruct (newUUID w2) as [[id|err|] w3] eqn:E2; [|done..]. destruct (Huuid _ _ _ E2) as (T2 & _ & _).
  set (m0 := create_meta p inp ttl b now id) in *.
  destruct (Seal world_rand e c id (pm_ExpiresAt m0) b (in_Password inp) w3) as [[rec|err|] w4] eqn:E3; [|done..].
  destruct (quiet_Seal _ _ _ _ _ _ _ _ E3) as (T3 & _ & _). apply Seal_sealed in E3; [|apply _|done].
  destruct (clock w4) as [now2 w5] eqn:E4. apply clock_inv in E4 as (T4 & T4' & _).
  set (m := if negb (pm_PasswordProtected m0) then _ else _) in *.
  assert (Hm : pm_ID m = id /\ pm_ExpiresAt m = now + dur_mul ttl Second /\ pm_DeletedAt m = None /\
    pm_PasswordProtected m = negb (bool_decide (in_Password inp = "")))
    by (unfold m; by destruct (negb (pm_PasswordProtected m0))).
  destruct Hm as (Hid & Hexp & Hdel & Hprot).
  change (pm_ExpiresAt m0) with (now + dur_mul ttl Second) in E3. rewrite <-Hexp, <-Hid in E3.
  destruct (time_Sub (pm_ExpiresAt m) now2 <=? 0) eqn:Erem; [done|].
  destruct (Bodies_Put NewBodyStore c id rec _ w5) as [[[]|err|] w6] eqn:E5; [|done..].
  apply Body_Put_spec in E5 as (T5 & _ & _ & _ & Hst).
  destruct (Metas_Create NewPasteStore c m w6) as [[[]|err|] w7] eqn:E6; [| |done].
  2: { by destruct (ignore _ w7) as [[] ?]. }
  apply Paste_Create_spec in E6 as (T6 & R6 & Hrow & _). specialize (Hrow eq_refl).
  destruct (record paste_deps c _ _ _ _ _ w7) as [r8 w8] eqn:E7.
  apply record_frame in E7 as (-> & T7 & R7 & P7). injection Hr as <- <-. cbn [cr_Meta].
  rewrite <-Hid in Hst. clearbody m.
  exists b, rec, (server_ms w6 + Z.max (time_Sub (pm_ExpiresAt m) now2) Millisecond / Millisecond).
  split_and!; [done|done|done|done|unfold row_at in *; by rewrite P7| |].
  - intros t Ht. rewrite R7, R6. rewrite (live_later (server_ms w6)).
    + unfold stored in Hst. by rewrite Hst.
    + pose proof (server_ms_mono w6 w8). lia.
  - unfold time_Sub in *. pose proof (int64_range (ttl * Second)) as Hd. unfold in_int64, dur_mul in *.
    unfold max_int64, min_int64, server_ms, Millisecond in *. lia.
Qed.

(** ** Created pastes are read back *)

(** A step that leaves an answering environment answering, and takes no time. *)
Definition calm_step (w w' : World) : Prop := w_env w' = [] /\ w_time w' = w_time w.

Lemma clock_calm w : w_env w = [] -> clock w = (w_time w, w).
Proof. intros He. unfold clock, step. by rewrite He. Qed.

Lemma pg_do_calm {A} c (stmt : Z -> Tables -> res A * Tables) w :
  w_env w = [] ->
  pg_do c stmt w = (fst (stmt (w_time w) (w_pg w)), set_pg (snd (stmt (w_time w) (w_pg w))) w).
Proof.
  intros He. unfold pg_do, step. rewrite He. destruct (stmt _ _). simpl. unfold fate_for.
  by destruct (ctx_cancelable c).
Qed.

Lemma set_pg_same w : set_pg (w_pg w) w = w.
Proof. by destruct w. Qed.

Lemma Paste_Get_calm c id w row :
  w_env w = [] -> row_at (w_pg w) id = Some row -> Paste_Get c id w = (Ok (scanPaste row), w).
Proof.
  intros He Hrow. unfold Paste_Get. go_unfold. rewrite pg_do_calm by done. unfold select_paste.
  unfold row_at in Hrow. rewrite Hrow. simpl. by rewrite set_pg_same.
Qed.

Lemma Body_Get_calm c id w rec x :
  w_env w = [] -> body_typed rec -> stored w id = Some (RString (marshal_body rec), x) ->
  exists w', Body_Get c id w = (Ok rec, w') /\ calm_step w w' /\ w_pg w' = w_pg w.
Proof.
  intros He Hty Hst. unfold Body_Get, client_Get, run_cmd. go_unfold. rewrite redis_do_calm by done.
  pose proof (exec_reply (GET (bodyKey id)) (server_ms w) (w_redis w)) as Hr. cbn [key_of] in Hr.
  unfold stored in Hst. rewrite Hst in Hr. cbn [documented fst] in Hr. rewrite Hr.
  cbn -[unmarshal_body marshal_body exec].
  rewrite unmarshal_marshal_body by done. eexists. split; [reflexivity|]. by split.
Qed.

Lemma Audit_Record_calm c ev w : w_env w = [] -> calm_step w (Audit_Record c ev w).
Proof.
  intros He. unfold Audit_Record, fill_time.
  assert (Hf : (if IsZero (ev_At (fill_request c ev))
                then let '(t, s') := clock w in (set_At t (fill_request c ev), s')
                else (fill_request c ev, w)) = (filled c ev (w_time w), w)).
  { unfold filled. destruct (IsZero _); [|done]. by rewrite clock_calm. }
  rewrite Hf. cbv zeta. destruct (if ParseAddr _ is Some a then _ else _) as [ip|]; [|done].
  rewrite pg_do_calm by done. destruct (fst _); by split.
Qed.

Lemma log_sink_calm c ev w : w_env w = [] -> calm_step w (log_sink c ev w).
Proof.
  intros He. unfold log_sink, logSink_Record, fill_time.
  destruct (IsZero (ev_At ev)); [rewrite clock_calm by done|]; by split.
Qed.

Lemma record_calm c ev a i o l w :
  w_env w = [] -> exists w', record paste_deps c ev a i o l w = (Ok tt, w') /\ calm_step w w'.
Proof.
  intros He. unfold record, Now, read_clock, emit. cbn [paste_deps d_Audit d_Now]. go_unfold.
  rewrite clock_calm by done. eexists. split; [reflexivity|]. unfold audit_sinks. cbn [Multi_Record].
  set (event := MkEvent _ _ _ _ _ _ _ _).
  destruct (Audit_Record_calm c event w He) as [He1 Ht1].
  destruct (log_sink_calm c event _ He1) as [He2 Ht2]. split; [done|congruence].
Qed.

Lemma IncrementViews_calm c id w :
  w_env w = [] -> exists w', ignore (Paste_IncrementViews c id) w = (Ok tt, w') /\ calm_step w w'.
Proof.
  intros He. unfold ignore, Paste_IncrementViews. go_unfold. rewrite pg_do_calm by done.
  unfold increment_views.
  destruct (existsb _ _); simpl; eexists; (split; [reflexivity|]; by split).
Qed.

(** Opening a sealed body with its password, through a free gate. *)
Lemma Open_sealed_calm c id t t' b pw rec w :
  sealed e id t b pw rec -> t' / Second = t / Second ->
  (forall w, gate_Acquire (env_gate e) c w = (Ok tt, w)) ->
  (forall w, gate_Release (env_gate e) w = (Ok tt, w)) ->
  Open e c id t' rec pw w = (Ok b, w).
Proof.
  intros Hs Ht Hacq Hrel. pose proof Hs as (dek & k & Hd & Hk & _ & _ & _ & _ & Ect & Ewd & Hmode).
  eapply Open_sealed; eauto. unfold unwrapKey.
  destruct Hmode as [(_ & -> & -> & _ & ->)|(Hne & -> & _ & kp & -> & _ & Hp & ->)]; [done|].
  rewrite (bool_decide_false (WrapPassword = WrapKEK)), (bool_decide_false (pw = "")) by done.
  rewrite (bool_decide_true (WrapPassword = WrapPassword)) by done.
  unfold DeriveKey, argon2_IDKey. go_unfold. rewrite Hacq, Hp.
  destruct (wf_costs e Hwf).
  replace ((a2_Time (env_params e) <? 1) || (a2_Threads (env_params e) <? 1)) with false by lia.
  by rewrite Hrel.
Qed.

(** C4. A paste that was created is read back, at any later moment up to two
    milliseconds before its expiry, by whoever gives the password it was
    created with: active, with its hash, and with exactly the canonical form of
    what was submitted.  The two milliseconds are the resolution of the expiry
    in Redis; the cut of the instants to microseconds in Postgres does no harm.
    The creation may have run under any delays; between it and the reading nobody
    has changed the row or the body of this paste, and the reading is answered,
    by stores that work and a gate that has room. *)
Theorem Create_then_Read c p inp w r w1 c' p' w2 :
  Create paste_deps c p inp w = (Ok r, w1) ->
  let m := cr_Meta r in
  w_time w1 <= w_time w2 -> w_time w2 + 2 * Millisecond <= pm_ExpiresAt m ->
  row_at (w_pg w2) (pm_ID m) = row_at (w_pg w1) (pm_ID m) ->
  same_key (server_ms w1) (w_redis w1) (w_redis w2) (bodyKey (pm_ID m)) ->
  w_env w2 = [] ->
  (forall w, gate_Acquire (env_gate e) c' w = (Ok tt, w)) ->
  (forall w, gate_Release (env_gate e) w = (Ok tt, w)) ->
  exists res w3 b,
    Read paste_deps c' p' (pm_ID m) (in_Password inp) w2 = (Ok res, w3) /\
    Canonicalize (in_Content inp) (MaxSize limits) = Ok b /\
    rr_Content res = Some b /\ rr_Status res = StatusActive /\ rr_HashVisible res = true /\
    pm_ContentHash (rr_Meta res) = pm_ContentHash m.
Proof.
  intros Hc m Hle Hbefore Hrow Hkey Henv Hacq Hrel.
  destruct (Create_leaves _ _ _ _ _ _ Hc) as (b & rec & deadline & Hcan & Hs & Hprot & Hdel & Hrow1 & Hlive & Hdead).
  fold m in Hs, Hprot, Hdel, Hrow1, Hlive, Hdead. rewrite Hrow1 in Hrow. clear Hrow1 Hc. clearbody m.
  set (m' := scanPaste (row_of_meta m)).
  destruct (row_of_meta_stored m) as (Sid & _ & Sh & Sp & Ssec & Sle & Sdel). fold m' in Sid, Sh, Sp, Ssec, Sle, Sdel.
  assert (Hexp : w_time w2 < pm_ExpiresAt m').
  { unfold m', scanPaste, row_of_meta. cbn. rewrite timestamptz_floor.
    unfold Microsecond, Millisecond in *. lia. }
  assert (Hty : body_typed rec) by by eapply sealed_typed.
  assert (Hst : stored w2 (pm_ID m) = Some (RString (marshal_body rec), Some deadline)).
  { unfold stored. pose proof (server_ms_mono w1 w2 Hle). rewrite Hkey by done. rewrite Hlive by done.
    apply alive_lt. unfold server_ms, Millisecond in *. lia. }
  unfold Read, Now, read_clock. go_unfold. cbn [paste_deps d_Now d_Metas d_Bodies d_Envelope
    Metas_Get Bodies_Get NewPasteStore NewBodyStore Env_Open Metas_IncrementViews].
  rewrite (Paste_Get_calm _ _ _ _ Henv Hrow), clock_calm by done. fold m'.
  assert (Hactive : PasteMeta_Status m' (w_time w2) = StatusActive).
  { apply Status_active_iff. split; [by apply Sdel|done]. }
  rewrite Hactive. cbn [negb bool_decide decide].
  destruct (Body_Get_calm c' (pm_ID m) w2 rec _ Henv Hty Hst) as (w3 & Hget & [He3 Ht3] & _).
  assert (Hbf : Before (w_time w2) (pm_ExpiresAt m') = true) by (unfold Before; lia).
  rewrite bool_decide_true by done. cbn [negb]. rewrite Hget.
  rewrite clock_calm, Ht3, Hbf by done. cbn [negb].
  assert (Hno : pm_PasswordProtected m' && bool_decide (in_Password inp = "") = false).
  { rewrite Sp, Hprot. by case_bool_decide. }
  rewrite Hno.
  assert (Hopen : Open e c' (pm_ID m) (pm_ExpiresAt m') rec (in_Password inp) w3 = (Ok b, w3)).
  { destruct (decide (in_Password inp = "")) as [Hpw|Hpw].
    - eapply Open_sealed_calm; eauto.
    - eapply Open_sealed_calm; eauto. }
  rewrite Hopen. rewrite clock_calm, Ht3, Hbf by done. cbn [negb].
  destruct (IncrementViews_calm c' (pm_ID m) w3 He3) as (w4 & Hiv & [He4 Ht4]). rewrite Hiv.
  rewrite clock_calm, Ht4, Ht3, Hbf by done. cbn [negb].
  assert (Hrec : exists w5, (if pm_PasswordProtected m'
      then record paste_deps c' PasteUnlockSuccess (actorOf p') (Some (pm_ID m)) OutcomeSuccess []
      else record paste_deps c' PasteViewed (actorOf p') (Some (pm_ID m)) OutcomeSuccess []) w4 = (Ok tt, w5) /\
      calm_step w4 w5) by (destruct (pm_PasswordProtected m'); by apply record_calm).
  destruct Hrec as (w5 & Hrec & [He5 Ht5]). rewrite Hrec.
  rewrite clock_calm, Ht5, Ht4, Ht3, Hbf by done. cbn [negb].
  eexists _, w5, b. split_and!; [reflexivity|done|done|done|done|done].
Qed.

(** ** Rollback *)

(** The context of the cleanup: not cancelled with the request, and five seconds
    long. *)
Definition cleanup_ctx (c : ctx) : ctx := Ctx (ctx_info c) false (Some (5 * Second)).

Lemma redis_do_uncancelled {A} c (f : Z -> rdb -> A * rdb) w w' :
  ctx_cancelable c = false -> redis_do c f w <> (Err Canceled, w').
Proof.
  intros Hx. unfold redis_do, fate_for. rewrite Hx. destruct (step w) as [fate w1]. destruct (f _ _) as [a d].
  by destruct fate as [|[]|[]].
Qed.

Lemma Body_Delete_uncancelled c id w r w' :
  ctx_cancelable c = false -> Body_Delete c id w = (r, w') ->
  r = Ok tt \/ exists err, r = Err (Errorf "redis: delete body" err) /\ err <> Canceled.
Proof.
  intros Hx E. pose proof (Body_Delete_spec _ _ _ _ _ E) as (_ & _ & _ & _ & Hr).
  destruct r as [[]|err|]; [by left| |done]. right. destruct Hr as [k ->]. exists (terr k). split; [done|].
  intros Hk. rewrite Hk in E. unfold Body_Delete, client_Del, run_cmd in E. go_unfold.
  destruct (redis_do c _ w) as [[rep|err|] w0] eqn:Ed; [by destruct rep| |done].
  simplify_eq. by eapply redis_do_uncancelled.
Qed.

(** C18. When the metadata cannot be written, whatever the reason, the body that was
    stored first is taken back: a creation that fails this way leaves no body
    that was not there before, unless Redis fails too.  Then the last thing done
    was the attempt to delete the body of the new id, under a context of its
    own, so that the end of the request is never what stopped it, and the body
    of this one id is all that can be left. *)
Theorem Create_rolls_back c p inp w err w1 :
  Create paste_deps c p inp w = (Err (Errorf "store metadata" err), w1) ->
  (forall id rec, w_body w1 id rec -> w_body w id rec) \/
  exists id w2 e,
    Body_Delete (cleanup_ctx c) id w2 = (Err (Errorf "redis: delete body" e), w1) /\ e <> Canceled /\
    forall id' rec, id' <> id -> w_body w1 id' rec -> w_body w id' rec.
Proof.
  intros Hr. unfold Create, Now, read_clock in Hr. go_unfold.
  cbn [paste_deps d_Now d_NewUUID d_Envelope d_Bodies d_Metas d_Limits Env_Seal] in Hr.
  destruct (create_checks paste_deps inp) as [[ttl b]|e0|]; [|by simplify_eq; left..].
  destruct (clock w) as [now w2] eqn:E1. apply clock_inv in E1 as (T1 & T1' & S1).
  assert (K1 : WKeeps w w2) by (apply keeps_stores; [lia|done]).
  destruct (newUUID w2) as [[id|e0|] w3] eqn:E2; pose proof (quiet_keeps _ _ _ _ Huuid E2) as K2;
    [|simplify_eq; left; intros id rec Hb; by apply K1, K2|done].
  set (m0 := create_meta p inp ttl b now id) in *.
  destruct (Seal world_rand e c id _ b (in_Password inp) w3) as [[rec|e0|] w4] eqn:E3;
    pose proof (quiet_keeps _ _ _ _ (quiet_Seal _ _ _ _ _) E3) as K3;
    [|simplify_eq; left; intros id' rec' Hb; by apply K1, K2, K3|done].
  destruct (clock w4) as [now2 w5] eqn:E4. apply clock_inv in E4 as (T4 & T4' & S4).
  assert (K4 : WKeeps w4 w5) by (apply keeps_stores; [lia|done]).
  destruct (time_Sub _ now2 <=? 0); [done|].
  destruct (Bodies_Put NewBodyStore c id rec _ w5) as [[[]|e0|] w6] eqn:E5; [|done..].
  apply Body_Put_spec in E5 as (T5 & _ & O5 & _).
  destruct (Metas_Create NewPasteStore c _ w6) as [[[]|e0|] w7] eqn:E6; [| |done].
  { by destruct (record _ _ _ _ _ _ _ w7) as [[] ?] eqn:E7; apply record_frame in E7 as (? & _). }
  apply Paste_Create_spec in E6 as (T6 & R6 & _).
  destruct (ignore _ w7) as [r8 w8] eqn:E7. apply ignore_inv in E7 as [r9 E7].
  assert (Hw : w8 = w1) by (destruct r8; by simplify_eq). subst w8. clear Hr.
  change (Body_Delete (cleanup_ctx c) id w7 = (r9, w1)) in E7.
  pose proof (Body_Delete_spec _ _ _ _ _ E7) as (T7 & _ & O7 & _ & Hgone).
  assert (Hothers : forall id' rec', id' <> id -> w_body w1 id' rec' -> w_body w id' rec').
  { intros id' rec' Hne Hb. assert (Hk : bodyKey id' <> bodyKey id) by (intros E; by apply bodyKey_inj in E).
    apply K1, K2, K3, K4. apply (w_body_later w5 w6); [lia|by apply O5|].
    apply (w_body_later w6 w7); [lia|by rewrite R6|]. apply (w_body_later w7 w1); [lia|by apply O7|done]. }
  destruct (Body_Delete_uncancelled (cleanup_ctx c) _ _ _ _ eq_refl E7) as [-> |(e1 & -> & Hne)]; [left|right; by exists id, w7, e1].
  intros id' rec' Hb. destruct (decide (id' = id)) as [-> |Hne]; [|by apply Hothers].
  destruct Hb as (? & ? & Hb & _). congruence.
Qed.
End System.
