(* ===== verification/Vault.v ===== *)
(** * The vault: what the paste service promises

    An abstract vault of pastes, as its users see it: no encryption, no keys, no
    two stores, no logs.  The paste service over Redis and Postgres refines it:
    as long as the stores answer, every answer the system gives in a history of
    calls is one the vault gives. *)
From stdpp Require Import sorting.
From S2P Require Import Prelude GoNum GoStr Codec NetIP Json Errors Rfc3339 PasteTypes Canonical Crypto Envelope Ports.
From S2P Require Import Service Redis Pg World RedisBody PgPastes PgAudit PasteLaws PasteSystem.

(** ** The vault *)

(** A paste in the vault: its metadata, the canonical bytes and the password. *)
Record secret : Type := MkSecret {
  v_meta : PasteMeta;
  v_plain : bytes;
  v_password : string
}.
Abbreviation vault := (list secret).   (* in the order of creation *)

Definition v_is (id : uuid) (s : secret) : bool := bool_decide (pm_ID (v_meta s) = id).
Definition v_find (id : uuid) (v : vault) : option secret := List.find (v_is id) v.
Definition v_update (id : uuid) (f : PasteMeta -> PasteMeta) (v : vault) : vault :=
  map (fun s => if v_is id s then MkSecret (f (v_meta s)) (v_plain s) (v_password s) else s) v.

Inductive call : Type :=
| CCreate (p : Principal) (inp : CreateInput)
| CRead (p : option Principal) (id : uuid) (password : string)
| CVerify (id : uuid) (sha256hex : string)
| CDelete (p : Principal) (id : uuid)
| CListMine (p : Principal) (page : Page)
| CListAll (p : Principal) (owner : option uuid) (page : Page).

Inductive outcome : Type :=
| Created (r : res CreateResult)
| ReadOut (r : res ReadResult)
| Verified (r : res VerifyResult)
| Deleted (r : res unit)
| Listed (r : res (list PasteMeta)).

(** Instants are kept to the microsecond. *)
Definition micro (t : Z) : Z := t / Microsecond * Microsecond.
Definition kept_meta (m : PasteMeta) : PasteMeta :=
  MkPasteMeta (pm_ID m) (pm_OwnerID m) (micro (pm_CreatedAt m)) (micro (pm_ExpiresAt m)) (pm_TTLSeconds m)
    (pm_SizeBytes m) (pm_HashAlgo m) (pm_ContentHash m) (pm_PasswordProtected m) (pm_KEKID m)
    (pm_ViewCount m) (micro <$> pm_ExpiredAuditedAt m) (micro <$> pm_DeletedAt m) (pm_DeletedBy m).

(** One more view, while the counter holds it. *)
Definition viewed (m : PasteMeta) : PasteMeta :=
  MkPasteMeta (pm_ID m) (pm_OwnerID m) (pm_CreatedAt m) (pm_ExpiresAt m) (pm_TTLSeconds m) (pm_SizeBytes m)
    (pm_HashAlgo m) (pm_ContentHash m) (pm_PasswordProtected m) (pm_KEKID m)
    (if int4_ok (pm_ViewCount m + 1) then pm_ViewCount m + 1 else pm_ViewCount m)
    (pm_ExpiredAuditedAt m) (pm_DeletedAt m) (pm_DeletedBy m).
Definition erased (now : Z) (by_ : uuid) (m : PasteMeta) : PasteMeta :=
  MkPasteMeta (pm_ID m) (pm_OwnerID m) (pm_CreatedAt m) (pm_ExpiresAt m) (pm_TTLSeconds m) (pm_SizeBytes m)
    (pm_HashAlgo m) (pm_ContentHash m) (pm_PasswordProtected m) (pm_KEKID m) (pm_ViewCount m)
    (pm_ExpiredAuditedAt m) (Some (micro now)) (Some by_).

Definition meta_newest_first (a b : PasteMeta) : bool :=
  (pm_CreatedAt b <? pm_CreatedAt a) ||
  ((pm_CreatedAt b =? pm_CreatedAt a) && uuid_leb (pm_ID b) (pm_ID a)).
Definition v_list (q : PasteMeta -> bool) (page : Page) (v : vault) : list PasteMeta :=
  let page := normalizePage page in
  limit_offset (pg_Limit page) (pg_Offset page) (order_by meta_newest_first (List.filter q (map v_meta v))).

Section Vault.
Context `{UUIDText} (limits : Limits) (baseURL active : string).

(** The rules for a submission: the lifetime in force and the canonical bytes. *)
Definition admit_paste (inp : CreateInput) : res (Z * bytes) :=
  let ttl := if in_TTLSeconds inp =? 0 then TTLDefault limits else in_TTLSeconds inp in
  if negb ((TTLMin limits <=? ttl) && (ttl <=? TTLMax limits)) then Err ErrInvalidTTL
  else if negb (utf8_ValidString (in_Password inp) && (RuneCountInString (in_Password inp) <=? 128)) then Err ErrInvalidPassword
  else match Canonicalize (in_Content inp) (MaxSize limits) with
       | Ok b => Ok (ttl, b)
       | Err err => Err err
       | Panic => Panic
       end.

Definition fresh_meta (now : Z) (id : uuid) (p : Principal) (inp : CreateInput) (ttl : Z) (b : bytes) : PasteMeta :=
  let protected := negb (bool_decide (in_Password inp = "")) in
  MkPasteMeta id (pr_UserID p) now (now + ttl * Second) ttl (Z.of_nat (length b)) "sha256" (HashHex b) protected
    (if protected then "" else active) 0 None None None.

(** The answer to a call at the instant [now] and the vault after it.  [id] is
    the id a creation draws.  [gone] says that the content has been dropped
    already, which may happen in the last millisecond of a paste. *)
Definition vault_create (now : Z) (id : uuid) (p : Principal) (inp : CreateInput) (v : vault) : res CreateResult * vault :=
  match admit_paste inp with
  | Ok (ttl, b) =>
      let m := fresh_meta now id p inp ttl b in
      (Ok (MkCreateResult m (PasteURL baseURL id)), v ++ [MkSecret (kept_meta m) b (in_Password inp)])
  | Err err => (Err err, v)
  | Panic => (Panic, v)
  end.

Definition vault_read (now : Z) (gone : bool) (id : uuid) (password : string) (v : vault) : res ReadResult * vault :=
  match v_find id v with
  | None => (Err ErrNotFound, v)
  | Some s =>
      let m := v_meta s in
      let locked st := (Ok (MkReadResult m st None (negb (pm_PasswordProtected m))), v) in
      if bool_decide (pm_DeletedAt m <> None) then locked StatusDeleted
      else if pm_ExpiresAt m <=? now then locked StatusExpired
      else if gone then locked StatusUnavailable
      else if pm_PasswordProtected m && bool_decide (password = "") then locked StatusActive
      else if pm_PasswordProtected m && negb (bool_decide (password = v_password s)) then (Err ErrWrongPassword, v)
      else (Ok (MkReadResult m StatusActive (Some (v_plain s)) true), v_update id viewed v)
  end.

Definition vault_verify (now : Z) (id : uuid) (sha256hex : string) (v : vault) : res VerifyResult :=
  match v_find id v with
  | None => Err ErrNotFound
  | Some s =>
      let m := v_meta s in
      Ok (MkVerifyResult (EqualFold (TrimSpace sha256hex) (pm_ContentHash m)) (PasteMeta_Status m now) m)
  end.

Definition vault_delete (now : Z) (p : Principal) (id : uuid) (v : vault) : res unit * vault :=
  match v_find id v with
  | None => (Err ErrNotFound, v)
  | Some s =>
      let m := v_meta s in
      if negb (bool_decide (pm_OwnerID m = pr_UserID p) || pr_IsAdmin p) then (Err ErrForbidden, v)
      else if bool_decide (pm_DeletedAt m <> None) || (pm_ExpiresAt m <=? now) then (Ok tt, v)
      else (Ok tt, v_update id (erased now (pr_UserID p)) v)
  end.

Definition vault_answer (now : Z) (gone : bool) (id : uuid) (k : call) (v : vault) : outcome * vault :=
  match k with
  | CCreate p inp => let '(r, v) := vault_create now id p inp v in (Created r, v)
  | CRead _ id pw => let '(r, v) := vault_read now gone id pw v in (ReadOut r, v)
  | CVerify id h => (Verified (vault_verify now id h v), v)
  | CDelete p id => let '(r, v) := vault_delete now p id v in (Deleted r, v)
  | CListMine p page => (Listed (Ok (v_list (fun m => bool_decide (pm_OwnerID m = pr_UserID p)) page v)), v)
  | CListAll p owner page =>
      (Listed (if pr_IsAdmin p
               then Ok (v_list (fun m => match owner with None => true | Some o => bool_decide (pm_OwnerID m = o) end) page v)
               else Err ErrForbidden), v)
  end.

(** What is observed: time passing, and calls with their answers. *)
Inductive event : Type :=
| Wait (d : Z)
| Call (k : call) (o : outcome).

(** The content of a paste may be gone only just before its expiry. *)
Definition may_be_gone (now : Z) (k : call) (v : vault) : Prop :=
  forall p id pw s, k = CRead p id pw -> v_find id v = Some s -> pm_ExpiresAt (v_meta s) < now + Millisecond.

(** A creation draws an id that is not in use. *)
Definition draws_new (id : uuid) (k : call) (v : vault) : Prop :=
  match k with CCreate _ _ => v_find id v = None | _ => True end.

Inductive vault_runs : Z * vault -> list event -> Z * vault -> Prop :=
| vault_done st : vault_runs st [] st
| vault_wait now v d tr st : 0 <= d -> vault_runs (now + d, v) tr st -> vault_runs (now, v) (Wait d :: tr) st
| vault_call now v gone id k o v' tr st :
    (gone = true -> may_be_gone now k v) -> draws_new id k v ->
    vault_answer now gone id k v = (o, v') -> vault_runs (now, v') tr st ->
    vault_runs (now, v) (Call k o :: tr) st.
End Vault.
