(* ===== verification/VaultSim.v ===== *)
(** * The paste service refines the vault

    The service over Redis and Postgres, with the envelope and the sinks, as a
    transition system whose stores answer; the relation between its state and a
    vault; and the simulation, one lemma per operation. *)
From stdpp Require Import sorting.
From S2P Require Import Prelude GoNum GoStr Codec NetIP Json Errors Rfc3339 PasteTypes Canonical Crypto Envelope Ports.
From S2P Require Import Service Redis Pg World RedisBody PgPastes PgAudit PasteLaws PasteSystem Vault.

(** ** Listings *)

(** Sorting commutes with a map that respects the order. *)
Section SortMap.
Context {A B} (f : A -> B) (leA : A -> A -> bool) (leB : B -> B -> bool)
  (Hle : forall x y, leB (f x) (f y) = leA x y).

Lemma list_merge_map l1 l2 :
  list_merge (le_rel leB) (map f l1) (map f l2) = map f (list_merge (le_rel leA) l1 l2).
Proof.
  revert l2. induction l1 as [|x l1 IH1]; [by intros []|].
  induction l2 as [|y l2 IH2]; [done|]. cbn [map]. rewrite !list_merge_cons. unfold le_rel in *.
  repeat case_decide; rewrite Hle in *; try congruence; cbn [map]; [by rewrite <-IH1|by rewrite <-IH2].
Qed.

Abbreviation map_stack := (map (fmap (M:=option) (map f))).

Lemma merge_list_to_stack_map st l :
  merge_list_to_stack (le_rel leB) (map_stack st) (map f l) = map_stack (merge_list_to_stack (le_rel leA) st l).
Proof.
  revert l. induction st as [|[l'|] st IH]; intros l; [done| |done]. cbn. by rewrite list_merge_map, IH.
Qed.

Lemma merge_stack_map st : merge_stack (le_rel leB) (map_stack st) = map f (merge_stack (le_rel leA) st).
Proof. induction st as [|[l|] st IH]; [done| |done]. cbn. by rewrite IH, list_merge_map. Qed.

Lemma order_by_map l : order_by leB (map f l) = map f (order_by leA l).
Proof.
  enough (Haux : forall st, merge_sort_aux (le_rel leB) (map_stack st) (map f l) = map f (merge_sort_aux (le_rel leA) st l))
    by apply (Haux []).
  induction l as [|x l IH]; intros st; [apply merge_stack_map|].
  cbn. change [f x] with (map f [x]). by rewrite merge_list_to_stack_map, IH.
Qed.
End SortMap.

Lemma filter_map {A B} (f : A -> B) (q : B -> bool) l :
  List.filter q (map f l) = map f (List.filter (fun x => q (f x)) l).
Proof. induction l as [|x l IH]; [done|]. cbn. destruct (q (f x)); cbn; by rewrite IH. Qed.

Lemma limit_offset_map {A B} (f : A -> B) n k l : limit_offset n k (map f l) = map f (limit_offset n k l).
Proof. unfold limit_offset. by rewrite skipn_map, firstn_map. Qed.

(** ** The system *)

Definition advance `{RedisServer} (d : Z) (w : World) : World :=
  MkWorld (w_time w + d) (w_redis w) (w_pg w) (w_env w) (w_rand w) (w_log w) (w_warned w).

Section Sim.
Context `{RedisServer} `{RedisClient} `{PgTypes} `{UUIDText} `{Primitives}.
Context (newUUID : M World uuid) (e : Envelope World) (baseURL : string) (limits : Limits).

Abbreviation deps := (paste_deps newUUID e baseURL limits).

Definition run_call (c : ctx) (k : call) (w : World) : outcome * World :=
  match k with
  | CCreate p inp => let '(r, w) := Create deps c p inp w in (Created r, w)
  | CRead p id pw => let '(r, w) := Read deps c p id pw w in (ReadOut r, w)
  | CVerify id h => let '(r, w) := Verify deps c id h w in (Verified r, w)
  | CDelete p id => let '(r, w) := Delete deps c p id w in (Deleted r, w)
  | CListMine p page => let '(r, w) := ListMine deps c p page w in (Listed r, w)
  | CListAll p o page => let '(r, w) := ListAll deps c p o page w in (Listed r, w)
  end.

(** The passwords of the creations that succeeded. *)
Definition note (k : call) (o : outcome) (pws : list (uuid * string)) : list (uuid * string) :=
  match k, o with
  | CCreate _ inp, Created (Ok r) => (pm_ID (cr_Meta r), in_Password inp) :: pws
  | _, _ => pws
  end.

(** The calls the refinement speaks of.  Users who create and delete are in the
    table, ids are drawn fresh, and the cipher does what it is for: a data key
    does not open under the key derived from a password that is not the
    paste's. *)
Definition allowed (k : call) (w : World) (pws : list (uuid * string)) : Prop :=
  match k with
  | CCreate p _ => has_user (w_pg w) (pr_UserID p) = true /\
      exists id w', newUUID w = (Ok id, w') /\ calm_step w w' /\ stores w' = stores w /\ row_at (w_pg w) id = None
  | CRead _ id pw => forall pw0 rec kdf, (id, pw0) ∈ pws -> pw <> pw0 -> w_body w id rec -> eb_KDF rec = Some kdf ->
      gcm_Open (IDKey (of_str pw) (kdf_Salt kdf) (kdf_Time kdf) (kdf_MemoryKiB kdf) (kdf_Threads kdf))
        (eb_WrapNonce rec) (eb_WrappedDEK rec) (wrapAAD id) = None
  | CDelete p _ => has_user (w_pg w) (pr_UserID p) = true
  | _ => True
  end.

Inductive sys_runs : World * list (uuid * string) -> list event -> World * list (uuid * string) -> Prop :=
| sys_done st : sys_runs st [] st
| sys_wait w pws d tr st : 0 <= d -> sys_runs (advance d w, pws) tr st -> sys_runs (w, pws) (Wait d :: tr) st
| sys_call w pws c k o w' tr st :
    allowed k w pws -> run_call c k w = (o, w') -> sys_runs (w', note k o pws) tr st ->
    sys_runs (w, pws) (Call k o :: tr) st.

(** ** The relation *)

(** The body of a secret is in Redis, sealed for it, until its last millisecond. *)
Definition body_at (w : World) (s : secret) : Prop := exists rec x t,
  sealed e (pm_ID (v_meta s)) t (v_plain s) (v_password s) rec /\
  pm_ExpiresAt (v_meta s) / Second = t / Second /\ pm_ExpiresAt (v_meta s) < (x + 1) * Millisecond /\
  forall t, server_ms w <= t ->
    live t (w_redis w) (bodyKey (pm_ID (v_meta s))) = alive t (Some (RString (marshal_body rec), Some x)).

Definition holds (w : World) (pws : list (uuid * string)) (s : secret) : Prop :=
  pm_PasswordProtected (v_meta s) = negb (bool_decide (v_password s = "")) /\
  (pm_ID (v_meta s), v_password s) ∈ pws /\
  (pm_DeletedAt (v_meta s) = None -> body_at w s).

Record tracks (w : World) (pws : list (uuid * string)) (v : vault) : Prop := {
  tr_env : w_env w = [];
  tr_rows : map scanPaste (t_pastes (w_pg w)) = map v_meta v;
  tr_ids : NoDup (map p_id (t_pastes (w_pg w)));
  tr_secrets : Forall (holds w pws) v
}.

(** Nothing a paste depends on has moved. *)
Definition still (w w' : World) : Prop :=
  calm_step w w' /\ t_pastes (w_pg w') = t_pastes (w_pg w) /\
  forall id, same_key (server_ms w) (w_redis w) (w_redis w') (bodyKey id).

Lemma server_ms_calm w w' : calm_step w w' -> server_ms w' = server_ms w.
Proof. intros [_ Ht]. unfold server_ms. by rewrite Ht. Qed.

Lemma still_refl w : w_env w = [] -> still w w.
Proof. intros He. split; [by split|]. split; [done|]. by intros id t. Qed.

Lemma still_trans w1 w2 w3 : still w1 w2 -> still w2 w3 -> still w1 w3.
Proof.
  intros (C1 & P1 & R1) (C2 & P2 & R2). pose proof (server_ms_calm _ _ C1) as Hms.
  destruct C1 as [_ T1], C2 as [E2 T2]. split; [split; [done|congruence]|]. split; [congruence|].
  intros id t Ht. rewrite R2 by (by rewrite Hms). by apply R1.
Qed.

Lemma body_at_still w w' s : server_ms w <= server_ms w' ->
  same_key (server_ms w') (w_redis w) (w_redis w') (bodyKey (pm_ID (v_meta s))) -> body_at w s -> body_at w' s.
Proof.
  intros Hms Hk (rec & x & t & Hs & Hsec & Hx & Hl). exists rec, x, t. split_and!; [done..|].
  intros t' Ht'. rewrite Hk by done. apply Hl. lia.
Qed.

Lemma tracks_still w w' pws v : still w w' -> tracks w pws v -> tracks w' pws v.
Proof.
  intros (Hc & Hp & Hk) [He Hr Hi Hs]. pose proof (server_ms_calm _ _ Hc) as Hms. split; rewrite ?Hp; [apply Hc|done|done|].
  eapply Forall_impl; [exact Hs|]. intros s (? & ? & Hb). split_and!; [done..|]. intros Hd.
  apply (body_at_still w); [lia|rewrite Hms; apply Hk|by apply Hb].
Qed.

Lemma tracks_advance w pws v d : 0 <= d -> tracks w pws v -> tracks (advance d w) pws v.
Proof.
  intros Hd [He Hr Hi Hs]. split; [done..|]. eapply Forall_impl; [exact Hs|]. intros s (? & ? & Hb). split_and!; [done..|].
  intros Hdel. apply (body_at_still w); [|by intros t|by apply Hb].
  unfold server_ms, advance, Millisecond. simpl. lia.
Qed.

(** ** Looking a paste up *)

Lemma find_map {A B} (f : A -> B) (q : B -> bool) l : List.find q (map f l) = f <$> List.find (fun x => q (f x)) l.
Proof. induction l as [|x l IH]; [done|]. cbn. destruct (q (f x)); [done|exact IH]. Qed.

Lemma v_find_row w pws v id : tracks w pws v -> scanPaste <$> row_at (w_pg w) id = v_meta <$> v_find id v.
Proof.
  intros [_ Hr _ _]. unfold row_at, v_find, v_is, id_is.
  etransitivity; [|exact (find_map v_meta (fun m => bool_decide (pm_ID m = id)) v)]. rewrite <-Hr, find_map. done.
Qed.

Lemma v_find_in id v s : v_find id v = Some s -> s ∈ v /\ pm_ID (v_meta s) = id.
Proof. unfold v_find. intros [Hin Hid]%List.find_some. unfold v_is in Hid. gobool. split; [by apply list_elem_of_In|done]. Qed.

Lemma Metas_Get_calm c w pws v id : tracks w pws v ->
  Paste_Get c id w = (match v_find id v with Some s => Ok (v_meta s) | None => Err ErrNotFound end, w).
Proof.
  intros Ht. pose proof (v_find_row _ _ _ id Ht) as Hf. pose proof (tr_env _ _ _ Ht) as He.
  destruct (row_at (w_pg w) id) as [row|] eqn:Hrow; destruct (v_find id v) as [s|]; try done; cbn in Hf.
  - rewrite (Paste_Get_calm _ _ _ row) by done. congruence.
  - unfold Paste_Get. go_unfold. rewrite pg_do_calm by done. unfold select_paste. unfold row_at in Hrow. rewrite Hrow.
    cbn. by rewrite set_pg_same.
Qed.

Lemma record_still c ev a i o l w : w_env w = [] ->
  exists w', record deps c ev a i o l w = (Ok tt, w') /\ still w w'.
Proof.
  intros He. destruct (record_calm newUUID e baseURL limits c ev a i o l w He) as (w' & Hr & Hc). exists w'. split; [done|].
  pose proof (record_frame _ _ _ _ _ _ _ _ _ _ _ _ _ Hr) as (_ & _ & Hred & Hp). split; [done|]. split; [done|].
  intros id t _. by rewrite Hred.
Qed.

(** ** One operation at a time *)

(** What the simulation says of a call that ends with [o] in [w']: the vault may
    give the same answer, and still stands for the system. *)
Definition answers (k : call) (w : World) (pws : list (uuid * string)) (v : vault) (o : outcome) (w' : World) : Prop :=
  exists gone id v', (gone = true -> may_be_gone (w_time w) k v) /\ draws_new id k v /\
    vault_answer limits baseURL (env_active e) (w_time w) gone id k v = (o, v') /\
    tracks w' (note k o pws) v' /\ w_time w' = w_time w.

(** A call the vault answers without changing. *)
Lemma answers_still k w pws v o w' id :
  tracks w pws v -> still w w' -> draws_new id k v -> note k o pws = pws ->
  vault_answer limits baseURL (env_active e) (w_time w) false id k v = (o, v) ->
  answers k w pws v o w'.
Proof.
  intros Ht Hs Hd Hn Ha. exists false, id, v. rewrite Hn. split_and!; [done..|by eapply tracks_still|apply Hs].
Qed.

Lemma sim_verify c id h w pws v o w' :
  tracks w pws v -> run_call c (CVerify id h) w = (o, w') -> answers (CVerify id h) w pws v o w'.
Proof.
  intros Ht. cbn [run_call]. unfold Verify, Now, read_clock. go_unfold. cbn [paste_deps d_Metas d_Now Metas_Get NewPasteStore].
  rewrite (Metas_Get_calm _ _ _ _ _ Ht). pose proof (tr_env _ _ _ Ht) as He.
  destruct (v_find id v) as [s|] eqn:Hf.
  - rewrite clock_calm by done.
    destruct (record_still c PasteVerify None (Some id)
      (if EqualFold (TrimSpace h) (pm_ContentHash (v_meta s)) then OutcomeSuccess else OutcomeFailure)
      [("match", VBool (EqualFold (TrimSpace h) (pm_ContentHash (v_meta s))));
       ("status", VStr (Status_string (PasteMeta_Status (v_meta s) (w_time w))))] w He) as (w1 & Hr & Hs).
    rewrite Hr. intros [= <- <-]. apply (answers_still _ _ _ _ _ _ uuid_Nil); [done..|].
    cbn. unfold vault_verify. by rewrite Hf.
  - intros [= <- <-]. apply (answers_still _ _ _ _ _ _ uuid_Nil); [done|by apply still_refl|done..|].
    cbn. unfold vault_verify. by rewrite Hf.
Qed.

Lemma page_tracks w pws v (q : PasteMeta -> bool) n k now :
  tracks w pws v ->
  fst (select_page (fun r => q (scanPaste r)) newest_first n k now (w_pg w)) =
  Ok (limit_offset n k (order_by meta_newest_first (List.filter q (map v_meta v)))).
Proof.
  intros [_ Hr _ _]. cbn. f_equal. rewrite <-Hr, filter_map, (order_by_map scanPaste newest_first meta_newest_first) by done.
  by rewrite limit_offset_map.
Qed.

Lemma sim_list c q page w pws v :
  tracks w pws v ->
  let p := normalizePage page in
  pg_do c (select_page (fun r => q (scanPaste r)) newest_first (pg_Limit p) (pg_Offset p)) w = (Ok (v_list q page v), w).
Proof.
  intros Ht p. rewrite pg_do_calm by apply Ht. rewrite (page_tracks _ _ _ _ _ _ _ Ht). cbn. by rewrite set_pg_same.
Qed.

Lemma sim_listmine c p page w pws v o w' :
  tracks w pws v -> run_call c (CListMine p page) w = (o, w') -> answers (CListMine p page) w pws v o w'.
Proof.
  intros Ht. cbn [run_call]. unfold ListMine. cbn [paste_deps d_Metas Metas_ListByOwner NewPasteStore]. unfold Paste_ListByOwner.
  pose proof (sim_list c (fun m => bool_decide (pm_OwnerID m = pr_UserID p)) page _ _ _ Ht) as E.
  unfold scanPaste in E. cbn [pm_OwnerID] in E. rewrite E. intros [= <- <-].
  apply (answers_still _ _ _ _ _ _ uuid_Nil); [done|apply still_refl, Ht|done..].
Qed.

Lemma sim_listall c p owner page w pws v o w' :
  tracks w pws v -> run_call c (CListAll p owner page) w = (o, w') -> answers (CListAll p owner page) w pws v o w'.
Proof.
  intros Ht. cbn [run_call]. unfold ListAll. destruct (pr_IsAdmin p) eqn:Ea; cbn [negb].
  - cbn [paste_deps d_Metas Metas_ListAll NewPasteStore]. unfold Paste_ListAll.
    pose proof (sim_list c (fun m => match owner with None => true | Some o => bool_decide (pm_OwnerID m = o) end)
      page _ _ _ Ht) as E.
    unfold scanPaste in E. cbn [pm_OwnerID] in E. rewrite E. intros [= <- <-]. apply (answers_still _ _ _ _ _ _ uuid_Nil); [done|apply still_refl, Ht|done..|]. cbn. by rewrite Ea.
  - intros [= <- <-]. apply (answers_still _ _ _ _ _ _ uuid_Nil); [done|apply still_refl, Ht|done..|]. cbn. by rewrite Ea.
Qed.

(** ** Updates of one row *)

Record meta_update (fm : PasteMeta -> PasteMeta) : Prop := {
  mu_id : forall m, pm_ID (fm m) = pm_ID m;
  mu_exp : forall m, pm_ExpiresAt (fm m) = pm_ExpiresAt m;
  mu_prot : forall m, pm_PasswordProtected (fm m) = pm_PasswordProtected m;
  mu_del : forall m, pm_DeletedAt (fm m) = None -> pm_DeletedAt m = None
}.

Lemma viewed_update : meta_update viewed.
Proof. by split. Qed.
Lemma erased_update now by_ : meta_update (erased now by_).
Proof. by split. Qed.

Lemma same_row w pws v id row r : tracks w pws v -> row_at (w_pg w) id = Some row ->
  r ∈ t_pastes (w_pg w) -> id_is id r = true -> r = row.
Proof.
  intros [_ _ Hi _] Hrow Hin Hid. unfold id_is in Hid. gobool.
  rewrite (row_at_in _ _ _ Hi Hin Hid) in Hrow. by injection Hrow.
Qed.

Lemma tracks_update w w' pws v id f fm :
  tracks w pws v -> meta_update fm -> calm_step w w' ->
  t_pastes (w_pg w') = map (fun r => if id_is id r then f r else r) (t_pastes (w_pg w)) ->
  (forall r, r ∈ t_pastes (w_pg w) -> id_is id r = true -> scanPaste (f r) = fm (scanPaste r)) ->
  (forall id', id' <> id -> same_key (server_ms w) (w_redis w) (w_redis w') (bodyKey id')) ->
  (forall m, pm_DeletedAt (fm m) = None -> same_key (server_ms w) (w_redis w) (w_redis w') (bodyKey id)) ->
  tracks w' pws (v_update id fm v).
Proof.
  intros [He Hr Hi Hs] Hmu Hc Hrows Hf Hother Hown. pose proof (server_ms_calm _ _ Hc) as Hms.
  assert (Hid : forall r, r ∈ t_pastes (w_pg w) -> p_id (if id_is id r then f r else r) = p_id r).
  { intros r Hin. destruct (id_is id r) eqn:E; [|done]. specialize (Hf r Hin E). apply (f_equal pm_ID) in Hf.
    rewrite (mu_id fm Hmu) in Hf. exact Hf. }
  split; [apply Hc| | |].
  - rewrite Hrows, map_map. unfold v_update. rewrite map_map.
    transitivity (map (fun m => if bool_decide (pm_ID m = id) then fm m else m) (map scanPaste (t_pastes (w_pg w)))).
    + rewrite map_map. apply map_ext_in. intros r Hin%list_elem_of_In. specialize (Hf r Hin). unfold id_is in *.
      change (pm_ID (scanPaste r)) with (p_id r). destruct (bool_decide (p_id r = id)); [by apply Hf|done].
    + rewrite Hr, map_map. apply map_ext. intros s. unfold v_is. by destruct (bool_decide _).
  - rewrite Hrows, map_map. erewrite map_ext_in; [exact Hi|]. intros r Hin%list_elem_of_In. by apply Hid.
  - unfold v_update. apply Forall_map. eapply Forall_impl; [exact Hs|]. intros s (Hp & Hpw & Hb). unfold v_is.
    destruct (bool_decide (pm_ID (v_meta s) = id)) eqn:E; gobool.
    + unfold holds. cbn [v_meta v_password]. rewrite (mu_id fm Hmu), (mu_prot fm Hmu). split_and!; [done..|].
      intros Hd. specialize (Hb (mu_del fm Hmu _ Hd)). destruct Hb as (rec & x & t & Hse & Hsec & Hx & Hl).
      exists rec, x, t. cbn [v_meta v_plain v_password]. rewrite (mu_id fm Hmu), (mu_exp fm Hmu). split_and!; [done..|].
      intros t' Ht'. rewrite E, (Hown _ Hd), <-E by lia. apply Hl. lia.
    + unfold holds. split_and!; [done..|]. intros Hd. apply (body_at_still w); [lia|rewrite Hms; by apply Hother|by apply Hb].
Qed.

Lemma run_cmd_calm c m w : w_env w = [] ->
  (forall msg, fst (documented m (server_ms w) (live (server_ms w) (w_redis w) (key_of m))) <> RError msg) ->
  run_cmd c m w = (Ok (fst (documented m (server_ms w) (live (server_ms w) (w_redis w) (key_of m)))),
                   set_redis (snd (exec m (server_ms w) (w_redis w))) w).
Proof.
  intros He Hne. unfold run_cmd. go_unfold. rewrite redis_do_calm, exec_reply by done.
  destruct (fst (documented _ _ _)) eqn:E; try done. by destruct (Hne msg).
Qed.

Lemma Body_Delete_calm c id w : w_env w = [] ->
  exists w', Body_Delete c id w = (Ok tt, w') /\ calm_step w w' /\ w_pg w' = w_pg w /\
    forall id', id' <> id -> same_key (server_ms w) (w_redis w) (w_redis w') (bodyKey id').
Proof.
  intros He. destruct (Body_Delete c id w) as [r w'] eqn:E. pose proof (Body_Delete_spec _ _ _ _ _ E) as (_ & Hp & Hk & _).
  unfold Body_Delete, client_Del in E. go_unfold. rewrite run_cmd_calm in E by done. injection E as <- <-.
  eexists. split; [reflexivity|]. split; [by split|]. split; [done|]. intros id' Hne. apply Hk. intros Heq. by apply bodyKey_inj in Heq.
Qed.

Lemma sim_delete c p id w pws v o w' :
  tracks w pws v -> allowed (CDelete p id) w pws -> run_call c (CDelete p id) w = (o, w') ->
  answers (CDelete p id) w pws v o w'.
Proof.
  intros Ht Hu. cbn [allowed run_call] in *. pose proof (tr_env _ _ _ Ht) as He.
  assert (Hsame : forall r, vault_delete (w_time w) p id v = (r, v) -> answers (CDelete p id) w pws v (Deleted r) w).
  { intros r Hr. apply (answers_still _ _ _ _ _ _ uuid_Nil); [done|by apply still_refl|done..|]. cbn. by rewrite Hr. }
  unfold Delete, Now, read_clock. go_unfold.
  cbn [paste_deps d_Metas d_Now d_Bodies Metas_Get Metas_MarkDeleted NewPasteStore Bodies_Delete NewBodyStore].
  rewrite (Metas_Get_calm _ _ _ _ _ Ht). unfold vault_delete in Hsame. pose proof (v_find_row _ _ _ id Ht) as Hf.
  destruct (v_find id v) as [s|] eqn:Hv; [|intros [= <- <-]; by apply Hsame].
  destruct (row_at (w_pg w) id) as [row|] eqn:Hrow; [|done]. cbn in Hf. injection Hf as Hf.
  rewrite <-negb_orb. set (own := negb (bool_decide (pm_OwnerID (v_meta s) = pr_UserID p) || pr_IsAdmin p)) in *.
  destruct own eqn:Eown; [intros [= <- <-]; by apply Hsame|].
  rewrite clock_calm by done. unfold Before.
  assert (Hexp : negb (w_time w <? pm_ExpiresAt (v_meta s)) = (pm_ExpiresAt (v_meta s) <=? w_time w)) by lia.
  assert (Hdel : negb (bool_decide (pm_DeletedAt (v_meta s) = None)) = bool_decide (pm_DeletedAt (v_meta s) <> None))
    by (by destruct (pm_DeletedAt (v_meta s))).
  rewrite Hexp, Hdel. set (over := bool_decide (pm_DeletedAt (v_meta s) <> None) || (pm_ExpiresAt (v_meta s) <=? w_time w)) in *.
  destruct over eqn:Eend; [intros [= <- <-]; by apply Hsame|]. clear Hsame. subst own over.
  destruct (Body_Delete_calm c id w He) as (w1 & Hbd & Hc1 & Hp1 & Hk1). rewrite Hbd.
  unfold Paste_MarkDeleted. rewrite pg_do_calm by apply Hc1. unfold mark_deleted. rewrite Hp1.
  destruct Hc1 as [He1 Ht1]. rewrite Hu, andb_false_r. cbn [fst snd].
  set (w2 := set_pg _ w1).
  destruct (record_still c PasteDeleted (Some (pr_UserID p)) (Some id) OutcomeSuccess
    [("by_admin", VBool (pr_IsAdmin p && negb (bool_decide (pm_OwnerID (v_meta s) = pr_UserID p))))] w2 He1)
    as (w3 & Hrec & Hst3). rewrite Hrec. intros [= <- <-].
  exists false, uuid_Nil, (v_update id (erased (w_time w) (pr_UserID p)) v). split; [done|]. split; [done|]. split.
  { cbn. unfold vault_delete. by rewrite Hv, Eown, Eend. }
  split; [|destruct Hst3 as [[_ ->] _]; exact Ht1].
  apply (tracks_still w2); [done|].
  apply (tracks_update w w2 pws v id (set_deleted (Some (timestamptz (w_time w))) (Some (pr_UserID p)))); try done.
  - unfold w2, update_pastes. cbn. apply map_ext_in. intros r Hin%list_elem_of_In.
    destruct (id_is id r) eqn:Eid; [|done]. rewrite (same_row _ _ _ _ _ _ Ht Hrow Hin Eid).
    assert (Hnull : p_deleted_at row = None).
    { change (p_deleted_at row) with (pm_DeletedAt (scanPaste row)). rewrite Hf. apply orb_false_iff in Eend as [Eend _].
      apply bool_decide_eq_false in Eend. destruct (pm_DeletedAt (v_meta s)); [by destruct Eend|done]. }
    by rewrite Hnull.
  - intros r _ _. unfold scanPaste, erased, set_deleted, micro. cbn. by rewrite timestamptz_floor.
Qed.

(** ** Creation *)

(** The gate has room, the keys and the limits are those of a configuration that
    loads, within what the columns of the table hold. *)
Context (Hgate : forall c w, gate_Acquire (env_gate e) c w = (Ok tt, w) /\ gate_Release (env_gate e) w = (Ok tt, w)).
Context (Hwf : env_wf e) (Hactive : text_ok (env_active e) = true).
Context (Hlimits : 1 <= TTLMin limits /\ TTLMax limits <= 86400 /\ MaxSize limits < 2 ^ 31).

Lemma admit_checks inp : create_checks deps inp = admit_paste limits inp.
Proof.
  unfold create_checks, admit_paste. cbn [d_Limits paste_deps]. cbv zeta.
  set (ttl := if in_TTLSeconds inp =? 0 then _ else _).
  replace (negb ((TTLMin limits <=? ttl) && (ttl <=? TTLMax limits))) with ((ttl <? TTLMin limits) || (TTLMax limits <? ttl)) by lia.
  destruct (_ || _); [done|].
  assert (Hpw : negb (utf8_ValidString (in_Password inp)) ||
                (negb (bool_decide (in_Password inp = "")) && (128 <? RuneCountInString (in_Password inp))) =
                negb (utf8_ValidString (in_Password inp) && (RuneCountInString (in_Password inp) <=? 128))).
  { destruct (utf8_ValidString (in_Password inp)); [|done]. cbn [negb orb andb].
    case_bool_decide as E; [by rewrite E|]. cbn [negb andb]. lia. }
  by rewrite Hpw.
Qed.

Lemma Seal_calm c id t b pw w : w_env w = [] ->
  exists rec w', Seal world_rand e c id t b pw w = (Ok rec, w') /\ calm_step w w' /\ stores w' = stores w /\
    sealed e id t b pw rec.
Proof.
  intros He.
  enough (Hs : exists rec w', Seal world_rand e c id t b pw w = (Ok rec, w') /\ calm_step w w' /\ stores w' = stores w).
  { destruct Hs as (rec & w' & Hs & ? & ?). exists rec, w'. split_and!; try done. eapply Seal_sealed; [apply _|done|exact Hs]. }
  destruct (wf_costs e Hwf) as [Htime Hthreads]. pose proof Hwf as [Hkeys [ak Hak] _ _].
  unfold Seal, randomBytes, aead_Seal. go_unfold. cbn [rand_Read world_rand draw].
  assert (Hlen : forall n w, length (map (w_rand w) (seq 0 n)) = n) by (intros; by rewrite length_map, length_seq).
  rewrite newGCM_32 by by rewrite Hlen. rewrite Hlen, bool_decide_true by done.
  destruct (bool_decide (pw = "")).
  - rewrite Hak. cbn [default]. rewrite newGCM_32 by (by eapply Hkeys). rewrite Hlen, bool_decide_true by done.
    eexists _, _. split; [reflexivity|]. by repeat split.
  - unfold DeriveKey, argon2_IDKey. go_unfold. rewrite (proj1 (Hgate _ _)).
    replace ((a2_Time (env_params e) <? 1) || (a2_Threads (env_params e) <? 1)) with false by lia.
    rewrite (proj2 (Hgate c _)). rewrite newGCM_32 by apply IDKey_length. rewrite Hlen, bool_decide_true by done.
    eexists _, _. split; [reflexivity|]. by repeat split.
Qed.

Lemma Body_Put_calm c id rec ttl w : w_env w = [] -> 0 < ttl ->
  exists w', Body_Put c id rec ttl w = (Ok tt, w') /\ calm_step w w' /\ w_pg w' = w_pg w /\
    (forall id', id' <> id -> same_key (server_ms w) (w_redis w) (w_redis w') (bodyKey id')) /\
    stored w' id = Some (put_entry rec ttl (server_ms w)).
Proof.
  intros He Hpos. destruct (Body_Put c id rec ttl w) as [r w'] eqn:E. pose proof (Body_Put_spec _ _ _ _ _ _ _ E) as (_ & Hp & Hk & Hr).
  unfold Body_Put, client_Set in E. go_unfold.
  assert (exists x, expiringTTL ttl = Ok x) as [x Hx]
    by (unfold expiringTTL; replace (ttl <=? 0) with false by lia; destruct (ttl <? Millisecond); by eexists).
  rewrite Hx in E.
  rewrite run_cmd_calm in E by done. injection E as <- <-. eexists. split; [reflexivity|]. split; [by split|]. split; [done|].
  split; [|apply Hr]. intros id' Hne. apply Hk. intros Heq. by apply bodyKey_inj in Heq.
Qed.

Lemma insert_fresh r now t :
  text_ok (p_hash_algo r) = true -> text_ok (p_content_hash r) = true -> opt_text_ok (p_kek_id r) = true ->
  1 <= p_ttl_seconds r <= 86400 -> row_at t (p_id r) = None -> has_user t (p_owner_id r) = true -> p_deleted_by r = None ->
  insert_paste r now t = (Ok tt, set_pastes (t_pastes t ++ [r]) t).
Proof.
  intros Ha Hh Hk Ht Hn Hu Hd. unfold insert_paste. rewrite Ha, Hh, Hk, Hu, Hd. cbn [negb andb].
  replace ((1 <=? p_ttl_seconds r) && (p_ttl_seconds r <=? 86400)) with true by lia. cbn [negb].
  assert (Hp : has_paste t (p_id r) = false).
  { apply not_true_iff_false. unfold has_paste. intros (r' & Hin & Hid)%existsb_exists.
    unfold row_at in Hn. pose proof (List.find_none _ _ Hn r' Hin) as Hno. unfold id_is in Hno. congruence. }
  by rewrite Hp.
Qed.

Lemma HashHex_text_ok b : text_ok (HashHex b) = true.
Proof.
  pose proof (HashHex_lower b) as Hl. unfold text_ok, utf8_ValidString. apply andb_true_iff. split.
  - apply ascii_utf8. eapply Forall_impl; [exact Hl|]. intros x Hx. unfold Hex.lower_hex in Hx. unfold ascii. lia.
  - apply negb_true_iff, bool_decide_eq_false. intros Hin. rewrite Forall_forall in Hl. specialize (Hl _ Hin). by vm_compute in Hl.
Qed.

Lemma scan_kept m : scanPaste (row_of_meta m) = kept_meta m.
Proof.
  unfold scanPaste, row_of_meta, kept_meta, micro. cbn. rewrite !timestamptz_floor.
  assert (Hk : default "" (if bool_decide (pm_KEKID m = "") then None else Some (pm_KEKID m)) = pm_KEKID m)
    by (case_bool_decide; cbn; congruence).
  rewrite Hk. by destruct (pm_ExpiredAuditedAt m), (pm_DeletedAt m); cbn; rewrite ?timestamptz_floor.
Qed.

Lemma Paste_Create_calm c m w :
  w_env w = [] -> 1 <= pm_TTLSeconds m <= 86400 -> 0 <= pm_SizeBytes m < 2 ^ 31 -> pm_ViewCount m = 0 ->
  pm_HashAlgo m = "sha256" -> text_ok (pm_ContentHash m) = true -> text_ok (pm_KEKID m) = true ->
  row_at (w_pg w) (pm_ID m) = None -> has_user (w_pg w) (pm_OwnerID m) = true -> pm_DeletedBy m = None ->
  Paste_Create c m w = (Ok tt, set_pg (set_pastes (t_pastes (w_pg w) ++ [row_of_meta m]) (w_pg w)) w).
Proof.
  intros He Ht Hs Hv Ha Hh Hk Hr Hu Hd. unfold Paste_Create. rewrite Hv.
  assert (Hi : int4_ok (pm_TTLSeconds m) && int4_ok (pm_SizeBytes m) && int4_ok 0 = true) by (unfold int4_ok; lia).
  rewrite Hi. cbn [negb]. rewrite pg_do_calm by done. rewrite insert_fresh; [done|..]; cbn; rewrite ?Ha; try done.
  by case_bool_decide.
Qed.

(** A new row, with its body, becomes a new secret. *)
Lemma tracks_insert w w' pws v m rec b pw n :
  tracks w pws v -> calm_step w w' -> row_at (w_pg w) (pm_ID m) = None ->
  t_pastes (w_pg w') = t_pastes (w_pg w) ++ [row_of_meta m] ->
  (forall id', id' <> pm_ID m -> same_key (server_ms w) (w_redis w) (w_redis w') (bodyKey id')) ->
  pm_PasswordProtected m = negb (bool_decide (pw = "")) -> sealed e (pm_ID m) (pm_ExpiresAt m) b pw rec ->
  pm_ExpiresAt m = w_time w + n * Second -> 0 < n ->
  stored w' (pm_ID m) = Some (put_entry rec (pm_ExpiresAt m - w_time w) (server_ms w)) ->
  tracks w' ((pm_ID m, pw) :: pws) (v ++ [MkSecret (kept_meta m) b pw]).
Proof.
  intros [He Hr Hi Hs] Hc Hnew Hrows Hother Hprot Hse Hexp Hpos Hst. pose proof (server_ms_calm _ _ Hc) as Hms.
  assert (Hnot : pm_ID m ∉ map p_id (t_pastes (w_pg w))).
  { intros (r & Hid & Hin)%list_elem_of_fmap. by rewrite (row_at_in _ _ r Hi Hin (eq_sym Hid)) in Hnew. }
  split; [apply Hc| | |].
  - rewrite Hrows, !map_app, Hr. cbn. by rewrite scan_kept.
  - rewrite Hrows, map_app. apply NoDup_app. split; [done|]. split; [|by apply NoDup_singleton].
    intros x Hx ->%list_elem_of_singleton. done.
  - apply Forall_app. split; [|apply Forall_singleton].
    + apply Forall_forall. intros s Hin. rewrite Forall_forall in Hs. destruct (Hs s Hin) as (? & ? & Hb).
      split; [done|]. split; [by right|]. intros Hd. apply (body_at_still w); [lia| |by apply Hb].
      rewrite Hms. apply Hother. intros Heq. apply Hnot. rewrite <-Heq.
      assert (Hin' : v_meta s ∈ map v_meta v) by by apply (list_elem_of_fmap_2 v_meta).
      rewrite <-Hr in Hin'. apply list_elem_of_fmap in Hin' as (r & -> & Hrin). by apply (list_elem_of_fmap_2 p_id).
    + split; [done|]. split; [by left|]. intros _.
      exists rec, (server_ms w + Z.max (pm_ExpiresAt m - w_time w) Millisecond / Millisecond), (pm_ExpiresAt m).
      cbn [v_meta v_plain v_password kept_meta pm_ID pm_ExpiresAt]. split; [done|].
      split; [unfold micro, Microsecond, Second; lia|].
      split; [unfold micro, server_ms, Microsecond, Millisecond, Second in *; lia|].
      intros t Ht. rewrite (live_later (server_ms w')) by done. unfold stored, put_entry in Hst. by rewrite Hst.
Qed.

Lemma sim_create c p inp w pws v o w' :
  tracks w pws v -> allowed (CCreate p inp) w pws -> run_call c (CCreate p inp) w = (o, w') ->
  answers (CCreate p inp) w pws v o w'.
Proof.
  intros Ht (Hu & id & w1 & Hid & Hc1 & Hst1 & Hnew). cbn [run_call]. pose proof (tr_env _ _ _ Ht) as He.
  assert (Hfresh : v_find id v = None).
  { pose proof (v_find_row _ _ _ id Ht) as Hf. rewrite Hnew in Hf. by destruct (v_find id v). }
  assert (Hsame : forall r, admit_paste limits inp = r -> (forall x, r <> Ok x) ->
    answers (CCreate p inp) w pws v (Created (match r with Ok _ => Panic | Err err => Err err | Panic => Panic end)) w).
  { intros r Hr Hno. apply (answers_still _ _ _ _ _ _ id); [done|by apply still_refl|done| |].
    - destruct r; [by destruct (Hno a)|done..].
    - cbn. unfold vault_create. rewrite Hr. destruct r; [by destruct (Hno a)|done..]. }
  unfold Create, Now, read_clock. go_unfold. rewrite admit_checks.
  cbn [paste_deps d_Now d_NewUUID d_Envelope d_Bodies d_Metas d_BaseURL Env_Seal Bodies_Put NewBodyStore Metas_Create NewPasteStore].
  destruct (admit_paste limits inp) as [[ttl b]|err|] eqn:Ea.
  2: { intros [= <- <-]. by apply (Hsame (Err err)). }
  2: { intros [= <- <-]. by apply (Hsame Panic). }
  clear Hsame. pose proof Ea as Hck. rewrite <-admit_checks in Hck. apply create_checks_ok in Hck as (_ & Httl & _ & _ & Hcan).
  apply Canonicalize_ok in Hcan as (_ & _ & Hsize). cbn [d_Limits paste_deps] in Httl, Hsize.
  rewrite clock_calm by done. rewrite Hid.
  set (m := fresh_meta (env_active e) (w_time w) id p inp ttl b).
  assert (Hdur : dur_mul ttl Second = ttl * Second) by (apply int64_id; unfold in_int64, Second; lia).
  assert (Hexp : pm_ExpiresAt (create_meta p inp ttl b (w_time w) id) = pm_ExpiresAt m) by (cbn; by rewrite Hdur).
  rewrite Hexp. destruct Hc1 as [He1 Ht1].
  destruct (Seal_calm c id (pm_ExpiresAt m) b (in_Password inp) w1 He1) as (rec & w2 & Hseal & [He2 Ht2] & Hst2 & Hsealed).
  rewrite Hseal, clock_calm by done.
  assert (Hm : (if negb (pm_PasswordProtected (create_meta p inp ttl b (w_time w) id))
                then with_KEKID (create_meta p inp ttl b (w_time w) id) (eb_KEKID rec)
                else create_meta p inp ttl b (w_time w) id) = m).
  { unfold create_meta, with_KEKID, m, fresh_meta, time_Add. cbn. rewrite Hdur, negb_involutive.
    destruct Hsealed as (? & ? & _ & _ & _ & _ & _ & _ & _ & _ & [(-> & _ & -> & _)|(Hne & _)]); [done|].
    by rewrite bool_decide_false. }
  rewrite Hm. clear Hm.
  assert (Hrem : time_Sub (pm_ExpiresAt m) (w_time w2) = pm_ExpiresAt m - w_time w).
  { rewrite time_Sub_exact; cbn; rewrite ?Ht2, ?Ht1; [lia|]. unfold in_int64, Second. lia. }
  rewrite Hrem. assert (Hpos : 0 < pm_ExpiresAt m - w_time w) by (cbn; unfold Second; lia).
  replace (pm_ExpiresAt m - w_time w <=? 0) with false by lia.
  destruct (Body_Put_calm c id rec (pm_ExpiresAt m - w_time w) w2 He2 Hpos) as (w3 & Hput & [He3 Ht3] & Hp3 & Hk3 & Hst3).
  rewrite Hput. assert (Hpg : w_pg w3 = w_pg w /\ w_redis w2 = w_redis w)
    by (unfold stores in *; split; congruence). destruct Hpg as [Hpg Hred].
  rewrite (Paste_Create_calm c m w3); try done; [|cbn; unfold text_ok in *; lia|cbn; lia|apply HashHex_text_ok|
    cbn; by destruct (negb _)|by rewrite Hpg|by rewrite Hpg].
  set (w4 := set_pg _ w3).
  destruct (record_still c PasteCreated (Some (pr_UserID p)) (Some id) OutcomeSuccess
    [("size_bytes", VInt (pm_SizeBytes m)); ("ttl_seconds", VInt ttl); ("password_protected", VBool (pm_PasswordProtected m))]
    w4 He3) as (w5 & Hrec & Hstill). rewrite Hrec. intros [= <- <-].
  exists false, id, (v ++ [MkSecret (kept_meta m) b (in_Password inp)]). split; [done|]. split; [done|]. split.
  { cbn. unfold vault_create. by rewrite Ea. }
  assert (Hc4 : calm_step w w4) by (split; [done|cbn; congruence]).
  split; [|destruct Hstill as [[_ ->] _]; apply Hc4].
  apply (tracks_still w4); [done|].
  assert (Hms : server_ms w2 = server_ms w) by (unfold server_ms; congruence).
  apply (tracks_insert w w4 pws v m rec b (in_Password inp) ttl); try done; [| |lia|].
  - unfold w4. cbn. by rewrite Hpg.
  - intros id' Hne. cbn. rewrite <-Hred, <-Hms. by apply Hk3.
  - rewrite <-Hms. exact Hst3.
Qed.

(** ** Reading *)

Lemma Body_Get_missing c id w : w_env w = [] -> stored w id = None ->
  exists w', Body_Get c id w = (Err ErrNotFound, w') /\ still w w'.
Proof.
  intros He Hst. destruct (Body_Get c id w) as [r w'] eqn:E. pose proof (Body_Get_spec _ _ _ _ _ E) as (_ & Hp & Hk & _).
  unfold Body_Get, client_Get, as_bytes in E. go_unfold. unfold stored in Hst.
  rewrite run_cmd_calm in E by (try done; cbn; by rewrite Hst). cbn in E. rewrite Hst in E. injection E as <- <-.
  eexists. split; [reflexivity|]. split; [by split|]. split; [by rewrite Hp|]. intros id'. apply Hk.
Qed.

Lemma Body_Get_there c id w rec x : w_env w = [] -> body_typed rec -> stored w id = Some (RString (marshal_body rec), x) ->
  exists w', Body_Get c id w = (Ok rec, w') /\ still w w'.
Proof.
  intros He Hty Hst. destruct (Body_Get_calm c id w rec x He Hty Hst) as (w' & E & Hc & Hp). exists w'. split; [done|].
  pose proof (Body_Get_spec _ _ _ _ _ E) as (_ & _ & Hk & _). split; [done|]. split; [by rewrite Hp|].
  rewrite <-(server_ms_calm _ _ Hc). intros id'. apply Hk.
Qed.

(** Reporting a missing body, once or not. *)
Lemma report_missing_still c p id ttl w : w_env w = [] ->
  exists r w', try (Body_MarkUnavailableOnce c id ttl) w = (Ok r, w') /\ still w w' /\
    exists w2, (match r with
                | inr true => record deps c PasteUnavailable p (Some id) OutcomeFailure []
                | _ => mret tt
                end) w' = (Ok tt, w2) /\ still w w2.
Proof.
  intros He.
  assert (Hm : exists r w', try (Body_MarkUnavailableOnce c id ttl) w = (Ok r, w') /\ calm_step w w').
  { unfold Body_MarkUnavailableOnce, client_SetNX, unexpected. go_unfold. destruct (expiringTTL ttl) as [x|err|] eqn:Ex.
    - rewrite run_cmd_calm by (try done; intros msg; cbn; by destruct (live _ _ _)). cbn [key_of documented].
      destruct (live _ _ _); cbn; eexists _, _; (split; [reflexivity|by split]).
    - eexists _, _. split; [reflexivity|by split].
    - unfold expiringTTL in Ex. by repeat case_match. }
  destruct Hm as (r & w' & Hm & Hc). exists r, w'. split; [done|].
  assert (Hs : still w w').
  { unfold try in Hm. destruct (Body_MarkUnavailableOnce c id ttl w) as [r0 w0] eqn:E. pose proof (Body_MarkUnavailableOnce_spec _ _ _ _ _ _ E) as (_ & Hp & Hk & _).
    assert (w0 = w') as -> by (by destruct r0; injection Hm). split; [done|]. split; [by rewrite Hp|].
    rewrite <-(server_ms_calm _ _ Hc). intros id'. apply Hk, bodyKey_unavailable. }
  split; [done|]. destruct r as [err|[]]; [by exists w'| |by exists w'].
  destruct (record_still c PasteUnavailable p (Some id) OutcomeFailure [] w') as (w2 & Hr & Hs2); [apply Hs|].
  exists w2. split; [done|by eapply still_trans].
Qed.

(** Opening with a server key does not look at the password. *)
Lemma Open_unprotected c id t rec pw w :
  eb_WrapMode rec = WrapKEK -> Open e c id t rec pw w = Open e c id t rec "" w.
Proof. intros Hm. unfold Open, unwrapKey. by rewrite Hm. Qed.

Lemma Open_wrong c id t t' b pw0 pw rec w :
  sealed e id t b pw0 rec -> pw0 <> "" -> pw <> "" ->
  (forall kdf, eb_KDF rec = Some kdf ->
     gcm_Open (IDKey (of_str pw) (kdf_Salt kdf) (kdf_Time kdf) (kdf_MemoryKiB kdf) (kdf_Threads kdf))
       (eb_WrapNonce rec) (eb_WrappedDEK rec) (wrapAAD id) = None) ->
  Open e c id t' rec pw w = (Err ErrWrongPassword, w).
Proof.
  intros Hs Hne Hpw Hno. pose proof (sealed_valid e _ _ _ _ _ Hwf Hs) as Hvalid. destruct (wf_costs e Hwf) as [Htime Hthreads].
  destruct Hs as (dek & wk & _ & _ & _ & _ & _ & Hn & _ & _ & [[? _]|(_ & Hmode & _ & kdf & Hkdf & _ & Hp & _)]); [done|].
  specialize (Hno _ Hkdf). unfold Open, unwrapKey. go_unfold. rewrite Hvalid, Hmode, Hkdf.
  rewrite (bool_decide_false (WrapPassword = WrapKEK)), (bool_decide_true (WrapPassword = WrapPassword)), (bool_decide_false (pw = "")) by done.
  unfold DeriveKey, argon2_IDKey. go_unfold. rewrite (proj1 (Hgate _ _)), Hp.
  replace ((a2_Time (env_params e) <? 1) || (a2_Threads (env_params e) <? 1)) with false by lia.
  rewrite (proj2 (Hgate c _)). rewrite newGCM_32 by apply IDKey_length. unfold aead_Open. rewrite Hn, bool_decide_true by done.
  assert (Hk : env_params e = kdf_params kdf) by done. rewrite Hk. cbn [kdf_params a2_Time a2_MemoryKiB a2_Threads]. by rewrite Hno.
Qed.

Definition bump (r : PasteRow) : PasteRow :=
  if int4_ok (p_view_count r + 1) then set_view_count (p_view_count r + 1) r else r.

Lemma IncrementViews_tracks c id w pws v : tracks w pws v ->
  exists w', ignore (Paste_IncrementViews c id) w = (Ok tt, w') /\ calm_step w w' /\ tracks w' pws (v_update id viewed v).
Proof.
  intros Ht. pose proof (tr_env _ _ _ Ht) as He. unfold ignore, Paste_IncrementViews. go_unfold. rewrite pg_do_calm by done. unfold increment_views.
  assert (Hup : forall w', calm_step w w' -> w_redis w' = w_redis w ->
    t_pastes (w_pg w') = map (fun r => if id_is id r then bump r else r) (t_pastes (w_pg w)) -> tracks w' pws (v_update id viewed v)).
  { intros w' Hc Hr Hp. apply (tracks_update w w' pws v id bump viewed); [done|apply viewed_update|done|done| |intros ? _ ? _; by rewrite Hr..].
    intros r _ _. unfold bump, viewed. by destruct (int4_ok (p_view_count r + 1)) eqn:E; cbn; rewrite E. }
  destruct (existsb _ (t_pastes (w_pg w))) eqn:Eo; cbn [fst snd].
  - eexists. split; [reflexivity|]. split; [by split|]. apply Hup; [by split|done|]. cbn.
    rewrite <-map_id at 1. apply map_ext_in. intros r Hin%list_elem_of_In. destruct (id_is id r) eqn:Eid; [|done].
    apply existsb_exists in Eo as (r' & Hin' & Hr'). apply andb_true_iff in Hr' as [Eid' Hov]. apply list_elem_of_In in Hin'.
    destruct (row_at (w_pg w) id) as [row|] eqn:Hrow.
    + rewrite (same_row _ _ _ _ _ _ Ht Hrow Hin Eid). rewrite (same_row _ _ _ _ _ _ Ht Hrow Hin' Eid') in Hov.
      unfold bump. apply negb_true_iff in Hov. by rewrite Hov.
    + apply list_elem_of_In in Hin. unfold row_at in Hrow. by rewrite (List.find_none _ _ Hrow r Hin) in Eid.
  - eexists. split; [reflexivity|]. split; [by split|]. apply Hup; [by split|done|]. cbn.
    apply map_ext_in. intros r Hin. destruct (id_is id r) eqn:Eid; [|done]. unfold bump.
    destruct (int4_ok (p_view_count r + 1)) eqn:E; [done|]. exfalso. apply not_true_iff_false in Eo. apply Eo, existsb_exists.
    exists r. by rewrite Eid, E.
Qed.

(** What Redis has for a paste that is active: its body, or nothing in the last
    millisecond. *)
Lemma body_now w s : body_at w s -> exists rec x t,
  sealed e (pm_ID (v_meta s)) t (v_plain s) (v_password s) rec /\ pm_ExpiresAt (v_meta s) / Second = t / Second /\
  (stored w (pm_ID (v_meta s)) = Some (RString (marshal_body rec), Some x) \/
   (stored w (pm_ID (v_meta s)) = None /\ pm_ExpiresAt (v_meta s) < w_time w + Millisecond)).
Proof.
  intros (rec & x & t & Hs & Hsec & Hx & Hl). exists rec, x, t. split; [done|]. split; [done|].
  unfold stored. rewrite Hl by lia. destruct (decide (server_ms w < x)) as [Hlt|Hge]; [left; by apply alive_lt|right].
  split; [apply alive_ge; lia|]. unfold server_ms, Millisecond in *. lia.
Qed.

Lemma Status_locked m now : pm_DeletedAt m = None -> pm_ExpiresAt m <= now -> PasteMeta_Status m now = StatusExpired.
Proof. intros Hd He. unfold PasteMeta_Status, Before. rewrite Hd. by replace (now <? pm_ExpiresAt m) with false by lia. Qed.

(** Opening the body of a secret, with the right password and with a wrong one. *)
Lemma Open_secret c w pws s t rec pw id :
  holds w pws s -> pm_ID (v_meta s) = id -> sealed e id t (v_plain s) (v_password s) rec ->
  pm_ExpiresAt (v_meta s) / Second = t / Second -> w_body w id rec -> allowed (CRead None id pw) w pws ->
  pm_PasswordProtected (v_meta s) && bool_decide (pw = "") = false ->
  forall w', Open e c id (pm_ExpiresAt (v_meta s)) rec pw w' =
    ((if pm_PasswordProtected (v_meta s) && negb (bool_decide (pw = v_password s)) then Err ErrWrongPassword else Ok (v_plain s)), w').
Proof.
  intros (Hprot & Hpws & _) Hid Hs Hsec Hb Hno Hpw w'. rewrite Hprot in *.
  assert (Hright : Open e c id (pm_ExpiresAt (v_meta s)) rec (v_password s) w' = (Ok (v_plain s), w')).
  { eapply Open_sealed_calm; [exact Hwf|exact Hs|exact Hsec|intros; exact (proj1 (Hgate c _))|intros; exact (proj2 (Hgate c _))]. }
  destruct (decide (v_password s = "")) as [He|Hne].
  - rewrite bool_decide_true in * by done. cbn. rewrite He in *. rewrite <-Hright. apply Open_unprotected.
    destruct Hs as (? & ? & _ & _ & _ & _ & _ & _ & _ & _ & [(_ & -> & _)|[? _]]); done.
  - rewrite (bool_decide_false (v_password s = "")) in * by done. cbn [negb andb] in *. gobool.
    case_bool_decide as Heq; cbn [negb]; [by rewrite Heq|].
    eapply Open_wrong; [exact Hs|done..|]. intros kdf Hk. rewrite Hid in Hpws. by eapply Hno.
Qed.

(** A read that shows the content: the view is counted and recorded. *)
Lemma read_shows c p id w pws v s : tracks w pws v ->
  exists w1 w2, ignore (Paste_IncrementViews c id) w = (Ok tt, w1) /\ w_time w1 = w_time w /\ w_env w1 = [] /\
    (if pm_PasswordProtected (v_meta s) then record deps c PasteUnlockSuccess (actorOf p) (Some id) OutcomeSuccess []
     else record deps c PasteViewed (actorOf p) (Some id) OutcomeSuccess []) w1 = (Ok tt, w2) /\
    w_time w2 = w_time w /\ tracks w2 pws (v_update id viewed v).
Proof.
  intros Ht. destruct (IncrementViews_tracks c id w pws v Ht) as (w1 & Hi & [He1 Ht1] & Htr).
  enough (Hr : exists w2, (if pm_PasswordProtected (v_meta s) then record deps c PasteUnlockSuccess (actorOf p) (Some id) OutcomeSuccess []
     else record deps c PasteViewed (actorOf p) (Some id) OutcomeSuccess []) w1 = (Ok tt, w2) /\ still w1 w2).
  { destruct Hr as (w2 & Hr & Hs). exists w1, w2. split_and!; try done; [|by eapply tracks_still].
    destruct Hs as [[_ ->] _]. done. }
  destruct (pm_PasswordProtected _); by apply record_still.
Qed.

(** The paste [s] is in the vault under [id], neither deleted nor expired. *)
Definition active_at (w : World) (v : vault) (id : uuid) (s : secret) : Prop :=
  v_find id v = Some s /\ pm_DeletedAt (v_meta s) = None /\ w_time w < pm_ExpiresAt (v_meta s).

Lemma vault_read_active w v id s gone pw : active_at w v id s ->
  vault_read (w_time w) gone id pw v =
    let m := v_meta s in
    let locked st := (Ok (MkReadResult m st None (negb (pm_PasswordProtected m))), v) in
    if gone then locked StatusUnavailable
    else if pm_PasswordProtected m && bool_decide (pw = "") then locked StatusActive
    else if pm_PasswordProtected m && negb (bool_decide (pw = v_password s)) then (Err ErrWrongPassword, v)
    else (Ok (MkReadResult m StatusActive (Some (v_plain s)) true), v_update id viewed v).
Proof.
  intros (Hv & Hd & Hl). unfold vault_read. rewrite Hv, Hd. cbv zeta. rewrite (bool_decide_false (None <> None)) by (by intros []).
  by replace (pm_ExpiresAt (v_meta s) <=? w_time w) with false by lia.
Qed.

Lemma active_before w v id s w' : active_at w v id s -> w_time w' = w_time w -> Before (w_time w') (pm_ExpiresAt (v_meta s)) = true.
Proof. intros (_ & _ & Hl) ->. unfold Before. lia. Qed.

(** Run the first half of a read, up to the body. *)
Ltac read_start Ht Ha :=
  unfold Read, Now, read_clock; go_unfold;
  cbn [paste_deps d_Metas d_Now d_Bodies d_Envelope Metas_Get Metas_IncrementViews NewPasteStore Bodies_Get Bodies_MarkUnavailableOnce NewBodyStore Env_Open];
  rewrite (Metas_Get_calm _ _ _ _ _ Ht), (proj1 Ha), clock_calm by apply Ht;
  rewrite (proj2 (Status_active_iff _ _) (proj2 Ha)), (bool_decide_true (StatusActive = StatusActive)) by done; cbn [negb].

Lemma Read_missing c p id pw w pws v s : tracks w pws v -> active_at w v id s -> stored w id = None ->
  exists w', Read deps c p id pw w = (fst (vault_read (w_time w) true id pw v), w') /\ still w w'.
Proof.
  intros Ht Ha Hno. rewrite (vault_read_active _ _ _ _ _ _ Ha). cbn [fst]. read_start Ht Ha.
  destruct (Body_Get_missing c id w (tr_env _ _ _ Ht) Hno) as (w1 & Hg & Hs1). rewrite Hg.
  pose proof Hs1 as [[He1 Ht1] _]. rewrite clock_calm, (active_before _ _ _ _ _ Ha Ht1) by done. cbn [negb].
  destruct (report_missing_still c (actorOf p) id (int64 (time_Sub (pm_ExpiresAt (v_meta s)) (w_time w1) + Hour)) w1 He1)
    as (r & w2 & Hm & _ & w3 & Hr & Hs3).
  exists w3. split; [|exact (still_trans _ _ _ Hs1 Hs3)].
  change (errors_Is ErrNotFound ErrNotFound) with true. cbv beta iota. unfold try in Hm.
  destruct (Body_MarkUnavailableOnce c id _ w1) as [[first|err|] w2']; try done;
    injection Hm as <- <-; [destruct first|]; by (rewrite Hr || (injection Hr as <-)).
Qed.

Lemma Read_there c p id pw w pws v s rec t x :
  tracks w pws v -> active_at w v id s -> allowed (CRead p id pw) w pws ->
  sealed e id t (v_plain s) (v_password s) rec -> pm_ExpiresAt (v_meta s) / Second = t / Second ->
  stored w id = Some (RString (marshal_body rec), x) ->
  exists w', Read deps c p id pw w = (fst (vault_read (w_time w) false id pw v), w') /\
    tracks w' pws (snd (vault_read (w_time w) false id pw v)) /\ w_time w' = w_time w.
Proof.
  intros Ht Ha Hno Hse Hsec Hbody. rewrite (vault_read_active _ _ _ _ _ _ Ha). cbv zeta. read_start Ht Ha.
  destruct (v_find_in _ _ _ (proj1 Ha)) as [Hin Hid]. pose proof (tr_secrets _ _ _ Ht) as Hs. rewrite Forall_forall in Hs. specialize (Hs s Hin).
  assert (Hty : body_typed rec).
  { eapply (sealed_typed e); [done| |exact Hse]. unfold text_ok in Hactive. by apply andb_true_iff in Hactive as [? _]. }
  destruct (Body_Get_there c id w rec _ (tr_env _ _ _ Ht) Hty Hbody) as (w1 & Hg & Hs1). unfold try. rewrite Hg.
  pose proof Hs1 as [[He1 Ht1] _]. rewrite clock_calm, (active_before _ _ _ _ _ Ha Ht1) by done. cbn [negb].
  pose proof (tracks_still _ _ _ _ Hs1 Ht) as Htr1.
  destruct (pm_PasswordProtected (v_meta s) && bool_decide (pw = "")) eqn:Elock; [by exists w1|].
  assert (Hwb : w_body w id rec) by (eexists _, _; split; [exact Hbody|by apply unmarshal_marshal_body]).
  rewrite (Open_secret c w pws s t rec pw id) by done.
  destruct (pm_PasswordProtected (v_meta s) && negb (bool_decide (pw = v_password s))).
  { destruct (record_still c PasteUnlockFailure (actorOf p) (Some id) OutcomeFailure [] w1 He1) as (w2 & Hr & Hs2).
    change (errors_Is ErrWrongPassword ErrWrongPassword) with true. cbv iota. rewrite Hr. exists w2. split; [done|].
    split; [by eapply tracks_still|]. destruct Hs2 as [[_ ->] _]. done. }
  rewrite clock_calm, (active_before _ _ _ _ _ Ha Ht1) by done. cbn [negb].
  destruct (read_shows c p id w1 pws v s Htr1) as (w2 & w3 & Hi & Ht2 & He2 & Hr & Ht3 & Htr3).
  unfold ignore, try in Hi |- *. go_unfold. rewrite Hi. rewrite Ht1 in Ht2, Ht3.
  rewrite clock_calm, (active_before _ _ _ _ _ Ha Ht2) by done. cbn [negb].
  rewrite Hr, clock_calm, (active_before _ _ _ _ _ Ha Ht3) by apply Htr3. cbn [negb]. by exists w3.
Qed.

Lemma Read_over c p id pw w pws v : tracks w pws v -> (forall s, ~ active_at w v id s) ->
  Read deps c p id pw w = (fst (vault_read (w_time w) false id pw v), w) /\ snd (vault_read (w_time w) false id pw v) = v.
Proof.
  intros Ht Hno. unfold Read, Now, read_clock, vault_read. go_unfold. cbn [paste_deps d_Metas d_Now Metas_Get NewPasteStore].
  rewrite (Metas_Get_calm _ _ _ _ _ Ht). destruct (v_find id v) as [s|] eqn:Hv; [|done]. rewrite clock_calm by apply Ht. cbv zeta.
  destruct (pm_DeletedAt (v_meta s)) as [del|] eqn:Hdel.
  { assert (Hst : PasteMeta_Status (v_meta s) (w_time w) = StatusDeleted) by (unfold PasteMeta_Status; by rewrite Hdel).
    by rewrite Hst. }
  rewrite (bool_decide_false (None <> None)) by (by intros []).
  assert (Hexp : pm_ExpiresAt (v_meta s) <= w_time w).
  { destruct (decide (pm_ExpiresAt (v_meta s) <= w_time w)); [done|]. destruct (Hno s). split_and!; [done..|lia]. }
  rewrite Status_locked by done. by replace (pm_ExpiresAt (v_meta s) <=? w_time w) with true by lia.
Qed.

Lemma sim_read c p id pw w pws v o w' :
  tracks w pws v -> allowed (CRead p id pw) w pws -> run_call c (CRead p id pw) w = (o, w') ->
  answers (CRead p id pw) w pws v o w'.
Proof.
  intros Ht Hno. cbn [run_call].
  assert (Hans : forall gone w', (gone = true -> may_be_gone (w_time w) (CRead p id pw) v) ->
    tracks w' pws (snd (vault_read (w_time w) gone id pw v)) -> w_time w' = w_time w ->
    answers (CRead p id pw) w pws v (ReadOut (fst (vault_read (w_time w) gone id pw v))) w').
  { intros gone w1 Hg Htr Htime. exists gone, uuid_Nil, (snd (vault_read (w_time w) gone id pw v)). split_and!; try done.
    cbn. by destruct (vault_read _ _ _ _ _). }
  assert (Hcases : (exists s, active_at w v id s) \/ forall s, ~ active_at w v id s).
  { unfold active_at. destruct (v_find id v) as [s|]; [|right; by intros s []].
    destruct (pm_DeletedAt (v_meta s)) eqn:Hd; [right; intros s' ([= <-] & ? & _); congruence|].
    destruct (decide (w_time w < pm_ExpiresAt (v_meta s))); [left; by exists s|right; by intros s' ([= <-] & _ & ?)]. }
  destruct Hcases as [[s Ha]|Hover].
  2: { destruct (Read_over c p id pw w pws v Ht Hover) as [E Esame]. rewrite E. intros [= <- <-].
    apply Hans; [done|by rewrite Esame|done]. }
  destruct (v_find_in _ _ _ (proj1 Ha)) as [Hin Hid]. pose proof (tr_secrets _ _ _ Ht) as Hs. rewrite Forall_forall in Hs.
  destruct (body_now w s) as (rec & x & t & Hse & Hsec & Hbody); [by apply (Hs s Hin), Ha|]. rewrite Hid in *.
  destruct Hbody as [Hbody|[Hbody Hlast]].
  - destruct (Read_there c p id pw w pws v s rec t (Some x)) as (w1 & E & Htr & Htime); try done.
    rewrite E. intros [= <- <-]. by apply Hans.
  - destruct (Read_missing c p id pw w pws v s Ht Ha Hbody) as (w1 & E & Hst). rewrite E. intros [= <- <-].
    apply Hans; [|rewrite (vault_read_active _ _ _ _ _ _ Ha); exact (tracks_still _ _ _ _ Hst Ht)|apply Hst].
    intros _ p0 id0 pw0 s0 Hk Hv'. injection Hk as <- <- <-. rewrite (proj1 Ha) in Hv'. by injection Hv' as <-.
Qed.

(** ** The refinement *)

Lemma sim_call c k w pws v o w' :
  tracks w pws v -> allowed k w pws -> run_call c k w = (o, w') -> answers k w pws v o w'.
Proof.
  intros Ht Ha. destruct k; [by apply sim_create|by apply sim_read|by apply sim_verify|by apply sim_delete|
    by apply sim_listmine|by apply sim_listall].
Qed.

(** A history from a state the vault stands for is a history of the vault. *)
Lemma sim_runs st tr st' : sys_runs st tr st' -> forall v, tracks (fst st) (snd st) v ->
  exists v', vault_runs limits baseURL (env_active e) (w_time (fst st), v) tr (w_time (fst st'), v') /\
    tracks (fst st') (snd st') v'.
Proof.
  induction 1 as [st|w pws d tr st Hd _ IH|w pws c k o w' tr st Ha Hc _ IH]; intros v Ht; cbn [fst snd] in *.
  - exists v. split; [constructor|done].
  - destruct (IH v) as (v' & Hr & Ht'); [by apply tracks_advance|]. exists v'. split; [by constructor|done].
  - destruct (sim_call c k w pws v o w' Ht Ha Hc) as (gone & id & v1 & Hg & Hn & Hv & Ht1 & Htime).
    destruct (IH v1 Ht1) as (v' & Hr & Ht'). exists v'. split; [|done]. rewrite Htime in Hr. by econstructor.
Qed.

Lemma tracks_empty w : w_env w = [] -> t_pastes (w_pg w) = [] -> tracks w [] [].
Proof. intros He Hp. split; rewrite ?Hp; [done|done|apply NoDup_nil_2|done]. Qed.

(** C1. The paste service refines the vault.  Take any history of calls - creations,
    reads, verifications, deletions, listings - with time passing between them,
    against a system that starts without pastes and whose stores answer.  Every
    answer in it is the answer of the vault: what is read is the canonical form
    of what was submitted, under the right password only, until expiry or
    deletion, with the counters, orders and pages of the listings; the content
    may be gone before its expiry in its last millisecond only.  The calls are
    those by users that exist, the ids drawn are new, a data key does not open
    under the key of a wrong password, the gate of the key derivation has room,
    and the limits are within what the table of pastes can hold. *)
Theorem Vault_refines w tr w' pws :
  w_env w = [] -> t_pastes (w_pg w) = [] -> sys_runs (w, []) tr (w', pws) ->
  exists v, vault_runs limits baseURL (env_active e) (w_time w, []) tr (w_time w', v).
Proof.
  intros He Hp Hr. destruct (sim_runs _ _ _ Hr []) as (v & Hv & _); [by apply tracks_empty|]. by exists v.
Qed.
End Sim.
