(* ===== verification/VaultLaws.v ===== *)
(** * What a history says

    The promise of the vault as a statement about histories alone, without its
    state: where content shown by a read comes from.  It holds for the vault,
    and so for the system. *)
From S2P Require Import Prelude GoNum GoStr Codec NetIP Json Errors Rfc3339 PasteTypes Canonical Crypto Envelope Ports.
From S2P Require Import Service Redis Pg World RedisBody PgPastes PgAudit PasteLaws PasteSystem Vault VaultSim.

(** ** Histories *)

(** The time that passes in a history. *)
Definition elapsed (tr : list event) : Z :=
  foldr (fun ev t => match ev with Wait d => d + t | Call _ _ => t end) 0 tr.

(** A deletion of the paste that was accepted. *)
Definition deletes (id : uuid) (ev : event) : bool :=
  match ev with
  | Call (CDelete _ id') (Deleted (Ok _)) => bool_decide (id' = id)
  | _ => false
  end.

Lemma elapsed_app tr tr' : elapsed (tr ++ tr') = elapsed tr + elapsed tr'.
Proof. unfold elapsed. induction tr as [|[d|k o] tr IH]; cbn in *; lia. Qed.

(** The history [tr] holds the creation of the paste [id] with the input [inp]
    and the answer [c]; [rest] came after it. *)
Definition created_in (tr : list event) (inp : CreateInput) (c : CreateResult) (rest : list event) : Prop :=
  exists before p, tr = before ++ Call (CCreate p inp) (Created (Ok c)) :: rest.

Lemma created_in_snoc tr inp c rest ev : created_in tr inp c rest -> created_in (tr ++ [ev]) inp c (rest ++ [ev]).
Proof. intros (before & p & ->). exists before, p. by rewrite <-app_assoc. Qed.

Lemma v_find_update id id' f v : (forall m, pm_ID (f m) = pm_ID m) ->
  v_find id (v_update id' f v) =
    (fun s => if v_is id' s then MkSecret (f (v_meta s)) (v_plain s) (v_password s) else s) <$> v_find id v.
Proof.
  intros Hf. unfold v_find, v_update. rewrite find_map. f_equal. induction v as [|s v IH]; [done|]. cbn.
  assert (Hid : v_is id (if v_is id' s then MkSecret (f (v_meta s)) (v_plain s) (v_password s) else s) = v_is id s)
    by (unfold v_is; destruct (bool_decide (pm_ID (v_meta s) = id')); cbn; by rewrite ?Hf).
  rewrite Hid. by destruct (v_is id s).
Qed.

Lemma v_find_snoc id v s : v_find id (v ++ [s]) = match v_find id v with Some x => Some x | None => if v_is id s then Some s else None end.
Proof. unfold v_find. induction v as [|x v IH]; [done|]. cbn. by destruct (v_is id x). Qed.

(** ** Where secrets come from *)
Section Laws.
Context `{UUIDText} (limits : Limits) (baseURL active : string).

(** The secret [s] is accounted for by the creation in [tr] and what followed. *)
Definition accounted (now : Z) (tr : list event) (s : secret) : Prop := exists inp c rest,
  created_in tr inp c rest /\ pm_ID (cr_Meta c) = pm_ID (v_meta s) /\
  Canonicalize (in_Content inp) (MaxSize limits) = Ok (v_plain s) /\ v_password s = in_Password inp /\
  pm_PasswordProtected (v_meta s) = negb (bool_decide (in_Password inp = "")) /\
  pm_ExpiresAt (v_meta s) + elapsed rest <= now + pm_TTLSeconds (cr_Meta c) * Second /\
  (existsb (deletes (pm_ID (v_meta s))) rest = true -> pm_DeletedAt (v_meta s) <> None \/ pm_ExpiresAt (v_meta s) <= now).

(** A step that leaves the secret as it is, or updates what does not matter. *)
Lemma accounted_step now now' tr ev s s' :
  accounted now tr s -> now' = now + elapsed [ev] -> 0 <= elapsed [ev] ->
  pm_ID (v_meta s') = pm_ID (v_meta s) -> v_plain s' = v_plain s -> v_password s' = v_password s ->
  pm_PasswordProtected (v_meta s') = pm_PasswordProtected (v_meta s) -> pm_ExpiresAt (v_meta s') = pm_ExpiresAt (v_meta s) ->
  (pm_DeletedAt (v_meta s) <> None -> pm_DeletedAt (v_meta s') <> None) ->
  (deletes (pm_ID (v_meta s)) ev = true -> pm_DeletedAt (v_meta s') <> None \/ pm_ExpiresAt (v_meta s) <= now) ->
  accounted now' (tr ++ [ev]) s'.
Proof.
  intros (inp & c & rest & Hc & Hid & Hcan & Hpw & Hprot & Hexp & Hdel) -> Hpos Eid Epl Epw Epr Eex Hd Hev.
  exists inp, c, (rest ++ [ev]). rewrite Eid, Epl, Epw, Epr, Eex. split; [by apply created_in_snoc|]. split_and!; try done.
  - rewrite elapsed_app. lia.
  - rewrite existsb_app. cbn [existsb]. rewrite orb_false_r. intros [Hr|Hr]%orb_true_iff.
    + destruct (Hdel Hr); [by left; apply Hd|right; lia].
    + destruct (Hev Hr); [by left|right; lia].
Qed.

Definition all_accounted (now : Z) (tr : list event) (v : vault) : Prop :=
  forall id s, v_find id v = Some s -> accounted now tr s.

(** Steps that do not touch the vault. *)
Lemma all_accounted_same now tr k o v :
  all_accounted now tr v -> (forall id s, v_find id v = Some s -> deletes id (Call k o) = true ->
    pm_DeletedAt (v_meta s) <> None \/ pm_ExpiresAt (v_meta s) <= now) ->
  all_accounted now (tr ++ [Call k o]) v.
Proof.
  intros Ha Hd id s Hs. apply (accounted_step now now tr (Call k o) s s); try done; [by apply (Ha id)|cbn; lia|].
  intros He. apply (Hd id s Hs). by rewrite <-(proj2 (v_find_in _ _ _ Hs)).
Qed.

(** Steps that update one secret. *)
Lemma all_accounted_update now tr k o v id f :
  all_accounted now tr v -> meta_update f -> (forall m, pm_DeletedAt m <> None -> pm_DeletedAt (f m) <> None) ->
  (forall id', deletes id' (Call k o) = true -> id' = id /\ forall m, pm_DeletedAt (f m) <> None) ->
  all_accounted now (tr ++ [Call k o]) (v_update id f v).
Proof.
  intros Ha Hf Hkeep Hd id' s'. rewrite v_find_update by apply Hf. destruct (v_find id' v) as [s|] eqn:Hs; [|done].
  intros [= <-]. destruct (v_find_in _ _ _ Hs) as [_ Hid].
  apply (accounted_step now now tr (Call k o) s); [by apply (Ha id')|cbn; lia|done|..]; try (destruct (v_is id s); [apply Hf|done]).
  - by destruct (v_is id s).
  - by destruct (v_is id s).
  - destruct (v_is id s); [apply Hkeep|done].
  - intros [Heq Hdel]%Hd. left. unfold v_is. rewrite bool_decide_true by done. apply Hdel.
Qed.

Lemma vault_call_accounted now gone id k o v v' tr :
  all_accounted now tr v -> vault_answer limits baseURL active now gone id k v = (o, v') ->
  all_accounted now (tr ++ [Call k o]) v'.
Proof.
  intros Ha. destruct k as [p inp|p rid pw|rid sha|p rid|p page|p owner page]; cbn [vault_answer].
  - unfold vault_create. destruct (admit_paste limits inp) as [[ttl b]|err|] eqn:Ea; intros [= <- <-];
      [|by apply all_accounted_same..].
    intros id' s. rewrite v_find_snoc. destruct (v_find id' v) as [s0|] eqn:Hs.
    + intros [= <-]. by apply (all_accounted_same now tr _ _ v Ha) with (id := id').
    + destruct (v_is id' _); [|done]. intros [= <-]. exists inp. eexists. exists []. split; [by exists tr, p|].
      cbn [cr_Meta v_meta v_plain v_password kept_meta fresh_meta pm_ID pm_PasswordProtected pm_ExpiresAt pm_TTLSeconds elapsed foldr existsb].
      split_and!; try done.
      * unfold admit_paste in Ea. by repeat case_match; simplify_eq.
      * unfold micro, Microsecond. lia.
  - destruct (vault_read now gone rid pw v) as [r v1] eqn:E. intros [= <- <-]. revert E. unfold vault_read. cbv zeta.
    repeat case_match; intros [= <- <-]; try by apply all_accounted_same.
    apply all_accounted_update; [done|apply viewed_update|done|done].
  - intros [= <- <-]. by apply all_accounted_same.
  - unfold vault_delete. destruct (v_find rid v) as [s|] eqn:Hs; [|intros [= <- <-]; by apply all_accounted_same].
    destruct (negb _); [intros [= <- <-]; by apply all_accounted_same|].
    destruct (_ || _) eqn:Eover; intros [= <- <-].
    + apply all_accounted_same; [done|]. intros id' s' Hs' He. cbn [deletes] in He. gobool. subst id'.
      rewrite Hs in Hs'. injection Hs' as <-. exact Eover.
    + apply all_accounted_update; [done|apply erased_update|done|]. intros id' He. cbn [deletes] in He. gobool. by split.
  - intros [= <- <-]. by apply all_accounted_same.
  - intros [= <- <-]. by apply all_accounted_same.
Qed.

(** ** What a read shows *)

(** The content [b] that a read under [pw] shows after the history [tr] was
    submitted, under this password or none, in a creation whose lifetime has not
    passed; and the paste has not been deleted since. *)
Definition shows_submission (tr : list event) (id : uuid) (pw : string) (b : bytes) : Prop := exists inp c rest,
  created_in tr inp c rest /\ pm_ID (cr_Meta c) = id /\ Canonicalize (in_Content inp) (MaxSize limits) = Ok b /\
  (in_Password inp = "" \/ in_Password inp = pw) /\ elapsed rest < pm_TTLSeconds (cr_Meta c) * Second /\
  existsb (deletes id) rest = false.

Lemma vault_read_shows now gone id pw v r v' b tr :
  all_accounted now tr v -> vault_read now gone id pw v = (Ok r, v') -> rr_Content r = Some b -> shows_submission tr id pw b.
Proof.
  intros Ha E Hb. unfold vault_read in E. destruct (v_find id v) as [s|] eqn:Hs; [|done].
  destruct (Ha id s Hs) as (inp & c & rest & Hc & Hid & Hcan & Hpw & Hprot & Hexp & Hdel).
  destruct (v_find_in _ _ _ Hs) as [_ Hsid]. rewrite Hsid in *. cbv zeta in E.
  destruct (bool_decide (pm_DeletedAt (v_meta s) <> None)) eqn:E1; [by injection E as <- _|].
  destruct (pm_ExpiresAt (v_meta s) <=? now) eqn:E2; [by injection E as <- _|].
  destruct gone; [by injection E as <- _|].
  destruct (pm_PasswordProtected (v_meta s) && bool_decide (pw = "")) eqn:E3; [by injection E as <- _|].
  destruct (pm_PasswordProtected (v_meta s) && negb (bool_decide (pw = v_password s))) eqn:E4; [done|].
  injection E as <- _. cbn in Hb. injection Hb as <-. apply bool_decide_eq_false in E1.
  exists inp, c, rest. split_and!; try done.
  - rewrite Hprot, Hpw in E4. case_bool_decide as Hno; [by left|]. cbn in E4. right. apply negb_false_iff in E4. by gobool.
  - lia.
  - destruct (existsb _ rest); [|done]. destruct (Hdel eq_refl); [done|lia].
Qed.

Lemma vault_runs_show st tr st' : vault_runs limits baseURL active st tr st' -> forall pre, all_accounted (fst st) pre (snd st) ->
  forall tr1 p id pw r b tr2, tr = tr1 ++ Call (CRead p id pw) (ReadOut (Ok r)) :: tr2 -> rr_Content r = Some b ->
  shows_submission (pre ++ tr1) id pw b.
Proof.
  induction 1 as [st|now v d tr st Hd _ IH|now v gone nid k o v' tr st _ _ Ha _ IH]; intros pre Hacc tr1 p id pw r b tr2 Htr Hb; cbn [fst snd] in *.
  - by destruct tr1.
  - destruct tr1 as [|ev tr1]; [done|]. injection Htr as <- Htr.
    replace (pre ++ Wait d :: tr1) with ((pre ++ [Wait d]) ++ tr1) by (by rewrite <-app_assoc). eapply IH; [|exact Htr|exact Hb].
    intros id' s Hs. apply (accounted_step now _ _ (Wait d) s s); try done; [by apply (Hacc id')|cbn; lia..].
  - destruct tr1 as [|ev tr1]; injection Htr as Hk Htr.
    + subst k o. rewrite app_nil_r. cbn [vault_answer] in Ha. destruct (vault_read now gone id pw v) as [r' v1] eqn:E.
      injection Ha as -> <-. by eapply vault_read_shows.
    + subst ev. replace (pre ++ Call k o :: tr1) with ((pre ++ [Call k o]) ++ tr1) by (by rewrite <-app_assoc).
      eapply IH; [|exact Htr|exact Hb]. by eapply vault_call_accounted.
Qed.
End Laws.

(** ** The system *)
Section System.
Context `{RedisServer} `{RedisClient} `{PgTypes} `{UUIDText} `{Primitives}.
Context (newUUID : M World uuid) (e : Envelope World) (baseURL : string) (limits : Limits).
Context (Hgate : forall c w, gate_Acquire (env_gate e) c w = (Ok tt, w) /\ gate_Release (env_gate e) w = (Ok tt, w)).
Context (Hwf : env_wf e) (Hactive : text_ok (env_active e) = true).
Context (Hlimits : 1 <= TTLMin limits /\ TTLMax limits <= 86400 /\ MaxSize limits < 2 ^ 31).

(** C2. In every history of the system, whatever content a read shows was submitted
    earlier in that history: there is a successful creation of that id whose
    content has these canonical bytes and whose password is empty or the one
    given; since then less time than its lifetime has passed, and no deletion of
    the paste has been accepted. *)
Theorem History_serves_submissions w w' pws tr1 p id pw r b tr2 :
  w_env w = [] -> t_pastes (w_pg w) = [] ->
  sys_runs newUUID e baseURL limits (w, []) (tr1 ++ Call (CRead p id pw) (ReadOut (Ok r)) :: tr2) (w', pws) ->
  rr_Content r = Some b -> shows_submission limits tr1 id pw b.
Proof.
  intros He Hp Hr Hb.
  destruct (sim_runs newUUID e baseURL limits Hgate Hwf Hactive Hlimits _ _ _ Hr []) as (v & Hv & _); [by apply tracks_empty|].
  by eapply (vault_runs_show limits baseURL _ _ _ _ Hv []).
Qed.
End System.
