(* ===== verification/PasteRuns.v ===== *)
(** * The paste system at work

    Concrete runs of the composed paste service: a paste is created, read and
    deleted, and a creation is cancelled half-way; they show that the hypotheses
    of the theorems of PasteLaws and PasteSystem can hold. *)
From S2P Require Import Prelude GoNum GoStr Codec NetIP Json Errors PasteTypes Canonical Crypto.
From S2P Require Import Envelope Ports Service Redis Pg World RedisBody PgPastes PgAudit PasteLaws.
From S2P Require Import PasteSystem Vault VaultSim VaultLaws.

#[local] Existing Instance map_server.
#[local] Existing Instance ms_client.
#[local] Existing Instance byte_collation.
#[local] Existing Instance canonical_uuid_text.
#[local] Existing Instance toy_primitives.

Definition demo_id : uuid := vreplicate 16 Byte.x2a.
Definition demo_uuid : M World uuid := mret demo_id.
Definition demo_limits : Limits := MkLimits 1048576 3600 60 86400.
Definition demo_deps : Deps World :=
  paste_deps demo_uuid demo_envelope "https://paste.example/" demo_limits.

Lemma demo_uuid_quiet : quiet demo_uuid.
Proof. apply quiet_ret. Qed.
Lemma free_acquire_quiet (c : ctx) : quiet (gate_Acquire (env_gate (@demo_envelope World)) c).
Proof. apply quiet_ret. Qed.
Lemma free_release_quiet : quiet (gate_Release (env_gate (@demo_envelope World))).
Proof. apply quiet_ret. Qed.

Definition demo_stores : PasteStores demo_deps :=
  paste_stores demo_uuid demo_envelope "https://paste.example/" demo_limits demo_uuid_quiet
    free_acquire_quiet free_release_quiet.
#[local] Existing Instance demo_stores.

Definition alice : Principal := MkPrincipal uuid_Nil "alice" false.
Definition demo_input : CreateInput := MkCreateInput "hello" "" 600.
Definition sys_create : res CreateResult * World := Create demo_deps Background alice demo_input demo_users.
Definition sys_result : CreateResult :=
  match fst sys_create with
  | Ok r => r
  | _ => MkCreateResult demo_meta ""
  end.
Definition sys_w1 : World := snd sys_create.
Definition sys_read : res ReadResult * World := Read demo_deps Background None demo_id "" sys_w1.

Lemma sys_create_ok :
  Create demo_deps Background alice demo_input demo_users = (Ok sys_result, sys_w1).
Proof. apply run_fst. vm_compute. reflexivity. Qed.

Lemma Create_then_Read_witness :
  exists res w3 b,
    Read demo_deps Background None (pm_ID (cr_Meta sys_result)) (in_Password demo_input) sys_w1 =
      (Ok res, w3) /\
    Canonicalize (in_Content demo_input) (MaxSize demo_limits) = Ok b /\
    rr_Content res = Some b /\ rr_Status res = StatusActive /\ rr_HashVisible res = true /\
    pm_ContentHash (rr_Meta res) = pm_ContentHash (cr_Meta sys_result).
Proof.
  apply (Create_then_Read demo_uuid demo_envelope "https://paste.example/" demo_limits demo_uuid_quiet
    free_acquire_quiet free_release_quiet demo_envelope_wf eq_refl Background alice demo_input demo_users
    sys_result sys_w1 Background None sys_w1 sys_create_ok).
  - apply Z.le_refl.
  - vm_compute. discriminate.
  - reflexivity.
  - intros t _. reflexivity.
  - vm_compute. reflexivity.
  - reflexivity.
  - reflexivity.
Defined.

Lemma demo_fresh : draws_fresh demo_deps demo_users.
Proof.
  intros t s1 id s2 Hn Hu. injection Hn as <- <-. injection Hu as <- <-. split; [reflexivity|].
  intros rec (b & x & Hst & _). discriminate.
Qed.

Lemma demo_start_Inv : Inv demo_deps demo_envelope demo_users.
Proof. intros id m rec Hm. discriminate. Qed.

Definition demo_history : list (ctx * ServiceOp) :=
  [(Background, SCreate alice demo_input); (Background, SRead None demo_id ""); (Background, SDelete alice demo_id)].

Lemma Service_keeps_integrity_witness :
  Inv demo_deps demo_envelope (run_history demo_deps demo_history demo_users).
Proof.
  apply (Service_keeps_integrity demo_deps world_rand demo_envelope demo_envelope_wf eq_refl eq_refl).
  - apply demo_start_Inv.
  - split; [intros p inp _; apply demo_fresh|]. split; [intros p inp [=]|]. split; [intros p inp [=]|exact I].
Defined.

Definition sys_read_result : ReadResult :=
  match fst sys_read with
  | Ok r => r
  | _ => MkReadResult demo_meta StatusDeleted None false
  end.
Lemma sys_read_ok : sys_read = (Ok sys_read_result, snd sys_read).
Proof. apply run_fst. vm_compute. reflexivity. Qed.

Definition sys_subs : list (uuid * CreateInput) := submissions demo_uuid (SCreate alice demo_input) demo_users ++ [].

Lemma sys_w1_history :
  history demo_uuid demo_envelope "https://paste.example/" demo_limits
    demo_uuid_quiet free_acquire_quiet free_release_quiet sys_w1 sys_subs.
Proof.
  refine (hist_op demo_uuid demo_envelope "https://paste.example/" demo_limits
    demo_uuid_quiet free_acquire_quiet free_release_quiet Background (SCreate alice demo_input) demo_users [] _ _).
  - apply hist_start. reflexivity.
  - intros p inp _. apply demo_fresh.
Qed.

Lemma System_serves_submissions_witness :
  sys_subs = [(demo_id, demo_input)] /\
  exists inp b0, (demo_id, inp) ∈ sys_subs /\ Canonicalize (in_Content inp) 1048576 = Ok b0 /\
    pm_ContentHash (rr_Meta sys_read_result) = HashHex b0 /\
    pm_SizeBytes (rr_Meta sys_read_result) = Z.of_nat (length b0) /\
    (pm_PasswordProtected (rr_Meta sys_read_result) = false <-> in_Password inp = "") /\
    (in_Password inp = "" \/ "" = in_Password inp -> BOM ++ of_str "hello" = b0).
Proof.
  split; [reflexivity|].
  apply (System_serves_submissions demo_uuid demo_envelope "https://paste.example/" demo_limits
    demo_uuid_quiet free_acquire_quiet free_release_quiet demo_envelope_wf eq_refl
    Background None demo_id "" sys_w1 sys_subs sys_read_result (snd sys_read) (BOM ++ of_str "hello")).
  - apply sys_w1_history.
  - apply sys_read_ok.
  - vm_compute. reflexivity.
Defined.

Definition sys_delete : res unit * World := Delete demo_deps Background alice demo_id sys_w1.
Definition sys_reread : res ReadResult * World := Read demo_deps Background None demo_id "" (snd sys_delete).
Definition sys_reread_result : ReadResult :=
  match fst sys_reread with
  | Ok r => r
  | _ => sys_read_result
  end.

Lemma Delete_final_witness :
  rr_Status sys_reread_result = StatusDeleted /\ rr_Content sys_reread_result = None.
Proof.
  split; [vm_compute; reflexivity|].
  apply (Delete_final demo_deps Background alice demo_id sys_w1 (snd sys_delete) (snd sys_delete)
    Background None "" sys_reread_result (snd sys_reread)).
  - apply run_fst. vm_compute. reflexivity.
  - apply keeps_preorder.
  - apply run_fst. vm_compute. reflexivity.
Defined.

(** A request that is cancelled while Postgres is down: first with Redis
    answering the cleanup, then without. *)
Definition failing_world (cleanup : Fate) : World :=
  @MkWorld map_server (w_time demo_users) (w_redis demo_users) (w_pg demo_users)
    [(0%N, Done); (0%N, Done); (0%N, Done); (0%N, NotRun (TIO "connection refused")); (0%N, cleanup)]
    (w_rand demo_users) [] ∅.
Definition request : ctx := Ctx None true None.
Definition sys_failed (cleanup : Fate) : res CreateResult * World :=
  Create demo_deps request alice demo_input (failing_world cleanup).
Definition refused : error := Errorf "store metadata" (NewError "connection refused").

Lemma Create_rolls_back_witness :
  fst (sys_failed (AckLost TCanceled)) = Err refused /\ stored (snd (sys_failed (AckLost TCanceled))) demo_id = None /\
  bool_decide (stored (snd (sys_failed (NotRun (TIO "eof")))) demo_id = None) = false /\
  ((forall id rec, w_body (snd (sys_failed (NotRun (TIO "eof")))) id rec -> w_body (failing_world (NotRun (TIO "eof"))) id rec) \/
   exists id w2 e, Body_Delete (cleanup_ctx request) id w2 =
       (Err (Errorf "redis: delete body" e), snd (sys_failed (NotRun (TIO "eof")))) /\ e <> Canceled /\
     forall id' rec, id' <> id -> w_body (snd (sys_failed (NotRun (TIO "eof")))) id' rec -> w_body (failing_world (NotRun (TIO "eof"))) id' rec).
Proof.
  split; [vm_compute; reflexivity|]. split; [vm_compute; reflexivity|]. split; [vm_compute; reflexivity|].
  apply (Create_rolls_back demo_uuid demo_envelope "https://paste.example/" demo_limits
    demo_uuid_quiet free_acquire_quiet free_release_quiet request alice demo_input (failing_world (NotRun (TIO "eof")))
    (NewError "connection refused") (snd (sys_failed (NotRun (TIO "eof"))))).
  apply run_fst. vm_compute. reflexivity.
Defined.

(** ** Runs of the single operations *)

Lemma Read_never_releases_late_witness :
  rr_Status sys_read_result = StatusActive /\ rr_HashVisible sys_read_result = true /\
  exists s0 t, d_Now demo_deps s0 = (t, snd sys_read) /\ t < pm_ExpiresAt (rr_Meta sys_read_result).
Proof.
  apply (Read_never_releases_late demo_deps Background None demo_id "" sys_w1 sys_read_result
           (BOM ++ of_str "hello") (snd sys_read)).
  - apply sys_read_ok.
  - vm_compute. reflexivity.
Defined.

Lemma Read_discloses_witness :
  rr_HashVisible sys_read_result = true <->
    pm_PasswordProtected (rr_Meta sys_read_result) = false \/ is_Some (rr_Content sys_read_result).
Proof.
  apply (Read_discloses demo_deps Background None demo_id "" sys_w1 sys_read_result (snd sys_read)).
  apply sys_read_ok.
Defined.

Lemma Create_result_witness :
  exists b,
    Canonicalize "hello" 1048576 = Ok b /\ pm_OwnerID (cr_Meta sys_result) = uuid_Nil /\
    pm_TTLSeconds (cr_Meta sys_result) = 600.
Proof.
  destruct (Create_result demo_deps Background alice demo_input demo_users sys_result sys_w1)
    as (b & Hb & Ho & Ht & _).
  - apply sys_create_ok.
  - vm_compute. discriminate.
  - vm_compute. reflexivity.
  - exists b. split; [exact Hb|]. split; [exact Ho|exact Ht].
Defined.

Definition mallory : Principal := MkPrincipal (vreplicate 16 Byte.x66) "mallory" false.

Lemma Service_authorises_witness :
  ListAll demo_deps Background mallory None (MkPage 10 0) sys_w1 = (Err ErrForbidden, sys_w1) /\
  fst (Delete demo_deps Background mallory demo_id sys_w1) = Err ErrForbidden.
Proof.
  destruct (Service_authorises demo_deps Background mallory demo_id None (MkPage 10 0) sys_w1 eq_refl)
    as (Hd & Hl & _).
  split; [exact Hl|].
  rewrite (Hd (rr_Meta sys_read_result) (snd (Metas_Get (d_Metas demo_deps) Background demo_id sys_w1))).
  - reflexivity.
  - apply run_fst. vm_compute. reflexivity.
  - vm_compute. discriminate.
Defined.

Definition upper_hash : string :=
  "  7489EBBCC2A00056DDAAAAC190BCE473E5C03696EA1BD8ED83CF59A174283862 ".
Definition sys_verify : res VerifyResult * World := Verify demo_deps Background demo_id upper_hash sys_w1.
Definition sys_verify_result : VerifyResult :=
  match fst sys_verify with
  | Ok v => v
  | _ => MkVerifyResult false StatusDeleted demo_meta
  end.

Lemma Verify_matches_witness :
  vr_Match sys_verify_result = true /\
  (vr_Match sys_verify_result = true <->
   map lower_byte (of_str (TrimSpace upper_hash)) = of_str (HashHex (BOM ++ of_str "hello"))).
Proof.
  split; [vm_compute; reflexivity|].
  apply (Verify_matches demo_deps Background demo_id upper_hash sys_w1 sys_verify_result (snd sys_verify)).
  - apply run_fst. vm_compute. reflexivity.
  - vm_compute. reflexivity.
Defined.

(** ** A history of the system and of the vault *)

Definition demo_url : string := "https://paste.example/".
Definition demo_call (k : call) (w : World) : outcome * World :=
  run_call demo_uuid demo_envelope demo_url demo_limits Background k w.

(** Waits and calls, one after the other. *)
Fixpoint play (l : list (Z + call)) (w : World) : list event * World :=
  match l with
  | [] => ([], w)
  | inl d :: l => let '(tr, w') := play l (advance d w) in (Wait d :: tr, w')
  | inr k :: l =>
      let '(o, w1) := demo_call k w in
      let '(tr, w') := play l w1 in (Call k o :: tr, w')
  end.

(** No recorded password but the one given opens the paste. *)
Definition wrong_fails (w : World) (id : uuid) (pw : string) : bool :=
  match stored w id with
  | Some (RString b, _) =>
      match unmarshal_body b ≫= (fun rec => pair rec <$> eb_KDF rec) with
      | Some (rec, kdf) =>
          bool_decide (gcm_Open (IDKey (of_str pw) (kdf_Salt kdf) (kdf_Time kdf) (kdf_MemoryKiB kdf) (kdf_Threads kdf))
            (eb_WrapNonce rec) (eb_WrappedDEK rec) (wrapAAD id) = None)
      | None => true
      end
  | _ => true
  end.
Definition allowed_b (k : call) (w : World) (pws : list (uuid * string)) : bool :=
  match k with
  | CCreate p _ => has_user (w_pg w) (pr_UserID p) && bool_decide (row_at (w_pg w) demo_id = None)
  | CRead _ id pw => forallb (fun x => negb (bool_decide (x.1 = id)) || bool_decide (pw = x.2) || wrong_fails w id pw) pws
  | CDelete p _ => has_user (w_pg w) (pr_UserID p)
  | _ => true
  end.
Fixpoint all_allowed (l : list (Z + call)) (w : World) (pws : list (uuid * string)) : bool :=
  match l with
  | [] => true
  | inl d :: l => (0 <=? d) && all_allowed l (advance d w) pws
  | inr k :: l =>
      let '(o, w1) := demo_call k w in
      allowed_b k w pws && bool_decide (w_env w = []) && all_allowed l w1 (note k o pws)
  end.

Lemma allowed_b_ok k w pws : w_env w = [] -> allowed_b k w pws = true -> allowed demo_uuid k w pws.
Proof.
  intros He. destruct k as [p inp|p id pw|id h|p id|p page|p owner page]; cbn [allowed_b allowed]; try done.
  - intros [Hu Hn]%andb_true_iff. split; [done|]. apply bool_decide_eq_true in Hn. by exists demo_id, w.
  - intros Hall pw0 rec kdf Hin Hne (b & x & Hst & Hun) Hkdf. rewrite forallb_forall in Hall.
    apply list_elem_of_In in Hin. specialize (Hall _ Hin). cbn [fst snd] in Hall.
    rewrite bool_decide_true, bool_decide_false in Hall by done. cbn [negb orb] in Hall.
    unfold wrong_fails in Hall. rewrite Hst, Hun in Hall. cbn [option_bind mbind] in Hall. rewrite Hkdf in Hall.
    cbn in Hall. by apply bool_decide_eq_true in Hall.
Qed.

Lemma play_runs l w pws : all_allowed l w pws = true ->
  exists pws', sys_runs demo_uuid demo_envelope demo_url demo_limits (w, pws) (fst (play l w)) (snd (play l w), pws').
Proof.
  revert w pws. induction l as [|[d|k] l IH]; intros w pws Ha; cbn [play all_allowed] in *.
  - exists pws. constructor.
  - apply andb_true_iff in Ha as [Hd Ha]. destruct (IH _ _ Ha) as [pws' Hr]. exists pws'.
    destruct (play l (advance d w)) as [tr w']. constructor; [lia|exact Hr].
  - destruct (demo_call k w) as [o w1] eqn:E. apply andb_true_iff in Ha as [[Hk He]%andb_true_iff Ha].
    apply bool_decide_eq_true in He. destruct (IH _ _ Ha) as [pws' Hr]. exists pws'.
    destruct (play l w1) as [tr w']. econstructor; [by apply allowed_b_ok|exact E|exact Hr].
Qed.

Definition vault_calls : list (Z + call) :=
  [inr (CCreate alice (MkCreateInput "hello" "open sesame" 600)); inl (5 * Second);
   inr (CRead None demo_id "sesame"); inr (CRead None demo_id "open sesame"); inr (CListMine alice (MkPage 10 0));
   inr (CVerify demo_id upper_hash); inr (CDelete alice demo_id); inr (CRead (Some alice) demo_id "open sesame");
   inr (CListAll alice None (MkPage 10 0))].
Definition vault_trace : list event := fst (play vault_calls demo_users).
Definition vault_end : World := snd (play vault_calls demo_users).

(** What the history shows: created, refused, read, listed, verified, deleted. *)
Definition summary (ev : event) : string :=
  match ev with
  | Call _ (Created (Ok _)) => "created"
  | Call _ (ReadOut (Ok r)) => match rr_Content r with Some b => to_str b | None => Status_string (rr_Status r) end
  | Call _ (ReadOut (Err e)) => if errors_Is e ErrWrongPassword then "wrong password" else "failed"
  | Call _ (Verified (Ok r)) => if vr_Match r then "match" else "no match"
  | Call _ (Deleted (Ok _)) => "deleted by call"
  | Call _ (Listed (Ok l)) => if bool_decide (map pm_ViewCount l = [1]) then "one paste, viewed once" else "listed"
  | Call _ (Listed (Err e)) => if errors_Is e ErrForbidden then "forbidden" else "failed"
  | Wait _ => "wait"
  | _ => "failed"
  end.

Lemma vault_trace_runs :
  exists pws, sys_runs demo_uuid demo_envelope demo_url demo_limits (demo_users, []) vault_trace (vault_end, pws).
Proof. apply play_runs. vm_compute. reflexivity. Qed.

Lemma Vault_refines_witness :
  map summary vault_trace =
    ["created"; "wait"; "wrong password"; to_str (BOM ++ of_str "hello"); "one paste, viewed once"; "match";
     "deleted by call"; "deleted"; "forbidden"] /\
  exists v, vault_runs demo_limits demo_url "k1" (w_time demo_users, []) vault_trace (w_time vault_end, v).
Proof.
  split; [vm_compute; reflexivity|].
  destruct vault_trace_runs as [pws Hr].
  apply (Vault_refines demo_uuid demo_envelope demo_url demo_limits (fun _ _ => conj eq_refl eq_refl) demo_envelope_wf
    eq_refl ltac:(cbn; lia) demo_users vault_trace vault_end pws eq_refl eq_refl Hr).
Defined.

Definition shown : ReadResult :=
  match vault_trace !! 3%nat with
  | Some (Call _ (ReadOut (Ok r))) => r
  | _ => MkReadResult demo_meta StatusDeleted None false
  end.
Lemma vault_trace_split :
  vault_trace = take 3 vault_trace ++ Call (CRead None demo_id "open sesame") (ReadOut (Ok shown)) :: drop 4 vault_trace.
Proof. vm_compute. reflexivity. Qed.

Lemma History_serves_submissions_witness :
  rr_Content shown = Some (BOM ++ of_str "hello") /\
  shows_submission demo_limits (take 3 vault_trace) demo_id "open sesame" (BOM ++ of_str "hello").
Proof.
  assert (Hc : rr_Content shown = Some (BOM ++ of_str "hello")) by (vm_compute; reflexivity). split; [exact Hc|].
  destruct vault_trace_runs as [pws Hr].
  pose proof (eq_ind _ (fun tr => sys_runs demo_uuid demo_envelope demo_url demo_limits (demo_users, []) tr (vault_end, pws))
    Hr _ vault_trace_split) as Hsplit.
  exact (History_serves_submissions demo_uuid demo_envelope demo_url demo_limits (fun _ _ => conj eq_refl eq_refl) demo_envelope_wf
    eq_refl ltac:(cbn; lia) demo_users vault_end pws (take 3 vault_trace) None demo_id "open sesame" shown
    (BOM ++ of_str "hello") (drop 4 vault_trace) eq_refl eq_refl Hsplit Hc).
Defined.
