(* ===== verification/Sweeper.v ===== *)
(** * The sweeper ([internal/sweeper/sweeper.go])

    One pass over expired pastes: delete the body, announce the expiry, mark the
    row; then purge what is past its retention and count what is active.  Over
    the real stores a pass creates nothing, and a row only disappears once its
    body has. *)
From S2P Require Import Prelude GoNum GoStr Codec NetIP Json Errors PasteTypes Crypto Envelope.
From S2P Require Import Ports Service Redis Pg World RedisBody PgPastes PgAudit PasteLaws.
From S2P Require Import PasteSystem PasteRuns.

Record SweeperConfig : Type := MkSweeperConfig {
  sc_Interval : Z;
  sc_MetadataRetentionDays : Z;
  sc_AuditRetentionDays : Z;
  sc_Batch : Z
}.

Record Stats : Type := MkStats {
  st_Expired : Z;
  st_MetadataPurged : Z;
  st_AuditPurged : Z;
  st_Active : Z
}.

(** [completed] is the [completedMetaPurger] the metadata store may implement. *)
Record Sweeper (S : Type) : Type := MkSweeper {
  sw_cfg : SweeperConfig;
  sw_metas : MetaStore S;
  sw_completed : option (ctx -> Z -> M S Z);
  sw_bodies : BodyStore S;
  sw_sink : Sink S;
  sw_purger : option (ctx -> Z -> M S Z);
  sw_warn : string -> list (string * value) -> S -> S;
  sw_now : S -> Z * S;
  sw_onActive : list (Z -> S -> S)
}.
Arguments sw_cfg {S} _. Arguments sw_metas {S} _. Arguments sw_completed {S} _.
Arguments sw_bodies {S} _. Arguments sw_sink {S} _. Arguments sw_purger {S} _.
Arguments sw_warn {S} _. Arguments sw_now {S} _. Arguments sw_onActive {S} _.

(** [New]: the defaults of the configuration. *)
Definition sweeper_defaults (cfg : SweeperConfig) : SweeperConfig :=
  MkSweeperConfig (if sc_Interval cfg <=? 0 then 30 * Second else sc_Interval cfg)
    (sc_MetadataRetentionDays cfg) (sc_AuditRetentionDays cfg)
    (if sc_Batch cfg <=? 0 then 500 else sc_Batch cfg).

Definition New {S} (cfg : SweeperConfig) (metas : MetaStore S) (completed : option (ctx -> Z -> M S Z))
    (bodies : BodyStore S) (sink : Sink S) (purger : option (ctx -> Z -> M S Z))
    (warn : string -> list (string * value) -> S -> S) (now : S -> Z * S) : Sweeper S :=
  MkSweeper S (sweeper_defaults cfg) metas completed bodies sink purger warn now [].

(** [OnActiveCount] *)
Definition OnActiveCount {S} (s : Sweeper S) (fn : Z -> S -> S) : Sweeper S :=
  MkSweeper S (sw_cfg s) (sw_metas s) (sw_completed s) (sw_bodies s) (sw_sink s) (sw_purger s)
    (sw_warn s) (sw_now s) (sw_onActive s ++ [fn]).

Section Pass.
Context `{UUIDText} {S : Type} (s : Sweeper S).

Definition run {A} (f : S -> S) (a : A) : M S A := fun st => (Ok a, f st).

Definition expired_event (now : Z) (meta : PasteMeta) : Event :=
  MkEvent now PasteExpired None (Some (pm_ID meta)) "" "" OutcomeSuccess
    [("expires_at", VTime (pm_ExpiresAt meta)); ("password_protected", VBool (pm_PasswordProtected meta))].

Definition purged_event (now : Z) (name : string) (count : Z) : Event :=
  MkEvent now name None None "" "" OutcomeSuccess [("count", VInt count)].

(** The loop over the expired rows: the ids whose bodies are gone, and whether
    some deletion failed. *)
Fixpoint sweep (c : ctx) (now : Z) (expired : list PasteMeta) (ids : list uuid) (retry : bool)
    : M S (list uuid * bool) :=
  match expired with
  | [] => mret (ids, retry)
  | meta :: rest =>
      r ← try (Bodies_Delete (sw_bodies s) c (pm_ID meta));
      match r with
      | inl err =>
          run (sw_warn s "defensive body delete failed"
                 [("paste_id", VStr (uuid_String (pm_ID meta))); ("err", VStr (Error err))]) tt ;;
          sweep c now rest ids true
      | inr _ =>
          run (sw_sink s c (expired_event now meta)) tt ;;
          sweep c now rest (ids ++ [pm_ID meta]) retry
      end
  end.

Definition purge_metadata (c : ctx) (now : Z) (retryPending : bool) : M S Z :=
  if 0 <? sc_MetadataRetentionDays (sw_cfg s) then
    let cutoff := AddDays now (- sc_MetadataRetentionDays (sw_cfg s)) in
    count ← match sw_completed s with
            | Some purge => purge c cutoff
            | None => if negb retryPending then Metas_PurgeOlderThan (sw_metas s) c cutoff else mret 0
            end;
    (if 0 <? count then run (sw_sink s c (purged_event now MetadataPurged count)) tt else mret tt) ;;
    mret count
  else mret 0.

Definition purge_audit (c : ctx) (now : Z) : M S Z :=
  match sw_purger s with
  | Some purge =>
      if 0 <? sc_AuditRetentionDays (sw_cfg s) then
        count ← purge c (AddDays now (- sc_AuditRetentionDays (sw_cfg s)));
        (if 0 <? count then run (sw_sink s c (purged_event now AuditPurged count)) tt else mret tt) ;;
        mret count
      else mret 0
  | None => mret 0
  end.

Definition RunOnce (c : ctx) : M S Stats :=
  now ← read_clock (sw_now s);
  expired ← Metas_ListExpiredUnaudited (sw_metas s) c now (sc_Batch (sw_cfg s));
  '(ids, retry) ← sweep c now expired [] (sc_Batch (sw_cfg s) <=? Z.of_nat (length expired));
  (if negb (bool_decide (ids = [])) then Metas_MarkExpiredAudited (sw_metas s) c ids now else mret tt) ;;
  metadataPurged ← purge_metadata c now retry;
  auditPurged ← purge_audit c now;
  active ← Metas_CountActive (sw_metas s) c now;
  run (fun st => foldl (fun st callback => callback active st) st (sw_onActive s)) tt ;;
  mret (MkStats (Z.of_nat (length ids)) metadataPurged auditPurged active).

(** [Run]: an immediate pass, then one per tick until the context ends.  The
    list says, for each tick that comes before the end, whether the context
    was still live when the pass before it ended; a failure under an ended
    context is not logged. *)
Fixpoint Run (c : ctx) (live : bool) (ticks : list bool) : M S unit :=
  r ← try (RunOnce c);
  match r with
  | inl err => if live then run (sw_warn s "sweeper pass failed" [("err", VStr (Error err))]) tt else mret tt
  | inr _ => mret tt
  end ;;
  match ticks with
  | [] => mret tt
  | live :: ticks => Run c live ticks
  end.
End Pass.

(** ** Over the real stores *)
Section World.
Context `{RedisServer} `{RedisClient} `{PgTypes} `{UUIDText} (cfg : SweeperConfig)
  (callbacks : list (Z -> World -> World)).

(** [sweeper.New] over the real stores, with the callbacks registered on it. *)
Definition world_sweeper : Sweeper World :=
  foldl OnActiveCount
    (New cfg NewPasteStore (Some Paste_PurgeCompletedOlderThan) NewBodyStore audit_sinks
       (Some Audit_PurgeOlderThan) write_log clock) callbacks.

Lemma world_sweeper_parts :
  sw_metas world_sweeper = NewPasteStore /\ sw_bodies world_sweeper = NewBodyStore /\
  sw_completed world_sweeper = Some Paste_PurgeCompletedOlderThan /\
  sw_sink world_sweeper = audit_sinks /\ sw_purger world_sweeper = Some Audit_PurgeOlderThan /\
  sw_warn world_sweeper = write_log /\ sw_now world_sweeper = clock /\
  sw_onActive world_sweeper = callbacks /\ sw_cfg world_sweeper = sweeper_defaults cfg.
Proof.
  unfold world_sweeper. set (s0 := New _ _ _ _ _ _ _ _).
  assert (Hgen : forall s : Sweeper World, let s' := foldl OnActiveCount s callbacks in
    sw_metas s' = sw_metas s /\ sw_bodies s' = sw_bodies s /\ sw_completed s' = sw_completed s /\
    sw_sink s' = sw_sink s /\ sw_purger s' = sw_purger s /\ sw_warn s' = sw_warn s /\
    sw_now s' = sw_now s /\ sw_onActive s' = sw_onActive s ++ callbacks /\ sw_cfg s' = sw_cfg s).
  { induction callbacks as [|f l IH]; intros s; simpl.
    - rewrite app_nil_r. by split_and!.
    - destruct (IH (OnActiveCount s f)) as (E1 & E2 & E3 & E4 & E5 & E6 & E7 & E8 & E9).
      split_and!; try done. rewrite E8. unfold OnActiveCount. simpl. by rewrite <-app_assoc. }
  apply Hgen.
Qed.

(** Observers of a pass: metrics and logs, not the stores. *)
Context (Hcallbacks : Forall (fun f : Z -> World -> World => forall n w,
  w_time w <= w_time (f n w) /\ stores (f n w) = stores w) callbacks).

Abbreviation WKeeps := (keeps w_body w_meta w_time).

Definition bodies_gone (ids : list uuid) (w : World) : Prop :=
  forall id rec, id ∈ ids -> ~ w_body w id rec.

Lemma bodies_gone_keeps ids w w' : bodies_gone ids w -> WKeeps w w' -> bodies_gone ids w'.
Proof. intros Hg (Hb & _ & _) id rec Hin Hbody. by eapply Hg; [|apply Hb]. Qed.

(** A row whose expiry has not been dealt with. *)
Definition pending (t : Tables) (id : uuid) : Prop :=
  exists row, row_at t id = Some row /\ completed row = false.

(** What one step of the pass guarantees, apart from the ids it deals with. *)
Definition sweeps (ids : list uuid) (w w' : World) : Prop :=
  NoDup (map p_id (t_pastes (w_pg w))) ->
  WKeeps w w' /\ NoDup (map p_id (t_pastes (w_pg w'))) /\
  forall id, id ∉ ids -> pending (w_pg w) id -> pending (w_pg w') id.

Lemma sweeps_refl ids w : sweeps ids w w.
Proof. intros Hn. split_and!; [reflexivity|done|done]. Qed.

Lemma sweeps_trans ids w1 w2 w3 : sweeps ids w1 w2 -> sweeps ids w2 w3 -> sweeps ids w1 w3.
Proof.
  intros H12 H23 Hn. destruct (H12 Hn) as (K12 & Hn2 & P12). destruct (H23 Hn2) as (K23 & Hn3 & P23).
  split_and!; [by transitivity w2|done|]. intros id Hid Hp. by apply P23, P12.
Qed.

Lemma sweeps_frame ids w w' :
  WKeeps w w' -> t_pastes (w_pg w') = t_pastes (w_pg w) -> sweeps ids w w'.
Proof. intros Hk Hp Hn. unfold pending, row_at. rewrite Hp. by split_and!. Qed.

Lemma sink_sweeps ids c ev w : sweeps ids w (audit_sinks c ev w).
Proof.
  destruct (audit_sinks_keep c ev w) as (Ht & Hr & Hp). apply sweeps_frame; [|done].
  apply keeps_frame; [done|by rewrite Hr|done].
Qed.

Lemma warn_sweeps ids msg attrs w : sweeps ids w (write_log msg attrs w).
Proof. apply sweeps_frame; [apply keeps_stores; (done || simpl; lia)|done]. Qed.

Lemma pg_sweeps ids {A} c (stmt : Z -> Tables -> res A * Tables) w r w' :
  (forall now, NoDup (map p_id (t_pastes (w_pg w))) ->
     rows_kept None (w_pg w) (snd (stmt now (w_pg w))) /\
     NoDup (map p_id (t_pastes (snd (stmt now (w_pg w))))) /\
     forall id, id ∉ ids -> pending (w_pg w) id -> pending (snd (stmt now (w_pg w))) id) ->
  pg_do c stmt w = (r, w') -> sweeps ids w w'.
Proof.
  intros Hs (Ht & Hr & Hd)%pg_do_inv Hn.
  destruct Hd as [[Hp _]|[Hp _]].
  - rewrite Hp. split_and!; [|done|done]. apply keeps_frame; [done|by rewrite Hr|by rewrite Hp].
  - destruct (Hs (w_time w') Hn) as (Hk & Hn' & Hpend). rewrite Hp. split_and!; [|done|done].
    split_and!; [|eapply w_meta_kept; [rewrite Hp; exact Hk|done]|done].
    intros id rec. apply w_body_later; [done|]. by rewrite Hr.
Qed.

Lemma sweep_loop c now expired ids retry w r w' :
  sweep world_sweeper c now expired ids retry w = (r, w') ->
  (forall ids0, sweeps ids0 w w') /\
  (NoDup (map p_id (t_pastes (w_pg w))) -> bodies_gone ids w ->
   forall ids' retry', r = Ok (ids', retry') -> bodies_gone ids' w') /\ r <> Panic /\
  (forall err, r <> Err err).
Proof.
  destruct world_sweeper_parts as (_ & Eb & _ & Es & _ & Ew & _).
  revert ids retry w. induction expired as [|meta rest IH]; intros ids retry w; cbn [sweep].
  { intros [= <- <-]. split_and!; [intros ids0; apply sweeps_refl| |done|done].
    intros _ Hg ids' retry' [= <- <-]. exact Hg. }
  go_unfold. unfold run. rewrite Eb, Es, Ew. intros Hr.
  destruct (Bodies_Delete NewBodyStore c (pm_ID meta) w) as [r0 w0] eqn:Ed.
  pose proof (Body_Delete_spec _ _ _ _ _ Ed) as (Ht & Hp & Ho & Hd & Hres).
  assert (K0 : WKeeps w w0).
  { split_and!; [|unfold w_meta; rewrite Hp; intros id m Hm; by exists m|done].
    intros id rec Hb. destruct (decide (id = pm_ID meta)) as [-> |Hne].
    - destruct Hd as [Hd|Hd]; [|by destruct Hb as (? & ? & Hb & _); congruence].
      eapply w_body_later; [done| |exact Hb]. by rewrite Hd.
    - eapply w_body_later; [done| |exact Hb]. apply Ho. intros E. by apply bodyKey_inj in E. }
  assert (S0 : forall ids0, sweeps ids0 w w0) by (intros ids0; apply sweeps_frame; [done|by rewrite Hp]).
  destruct r0 as [u|err|]; [| |done].
  - destruct (IH _ _ _ Hr) as (S1 & G1 & N1 & N2). split_and!; [|  |done|done].
    + intros ids0. eapply sweeps_trans; [apply S0|]. eapply sweeps_trans; [apply sink_sweeps|apply S1].
    + intros Hn Hg. apply G1.
      * destruct (S0 [] Hn) as (_ & Hn0 & _). by destruct (sink_sweeps [] c (expired_event now meta) w0 Hn0) as (_ & ? & _).
      * destruct (sink_sweeps [] c (expired_event now meta) w0) as (K & _); [by apply (S0 [])|].
        eapply bodies_gone_keeps; [|exact K]. intros id rec [Hin| ->%list_elem_of_singleton]%elem_of_app.
        -- intros Hb. by eapply Hg; [|apply K0].
        -- intros (? & ? & Hb & _). congruence.
  - destruct (IH _ _ _ Hr) as (S1 & G1 & N1 & N2). split_and!; [| |done|done].
    + intros ids0. eapply sweeps_trans; [apply S0|]. eapply sweeps_trans; [apply warn_sweeps|apply S1].
    + intros Hn Hg. apply G1.
      * by destruct (S0 [] Hn) as (_ & Hn0 & _).
      * intros id rec Hin Hb. by eapply Hg; [|apply K0].
Qed.

Lemma query_sweeps ids {A} c (stmt : Z -> Tables -> res A * Tables) w r w' :
  (forall now t, t_pastes (snd (stmt now t)) = t_pastes t) -> pg_do c stmt w = (r, w') -> sweeps ids w w'.
Proof.
  intros Hs. apply pg_sweeps. intros now Hn. unfold rows_kept, pending, row_at.
  rewrite Hs. split_and!; [apply rows_kept_refl|done|done].
Qed.

Lemma mark_sweeps ids c now w r w' :
  Paste_MarkExpiredAudited c ids now w = (r, w') -> sweeps ids w w'.
Proof.
  unfold Paste_MarkExpiredAudited. destruct ids as [|i ids]; [intros [= <- <-]; apply sweeps_refl|].
  set (ids0 := i :: ids). apply pg_sweeps. intros t Hn. cbn [mark_audited snd].
  split_and!; [by apply rows_kept_update| |].
  - unfold update_pastes. cbn [t_pastes set_pastes]. rewrite map_map.
    rewrite (map_ext _ p_id); [done|]. intros r0. by case_match.
  - intros id Hid (row & Hrow & Hc). exists row. split; [|done]. rewrite row_at_update by done.
    rewrite Hrow. simpl. apply row_at_id in Hrow as [-> _]. by rewrite bool_decide_false.
Qed.

Lemma purge_sweeps ids c cutoff w r w' :
  Paste_PurgeCompletedOlderThan c cutoff w = (r, w') -> sweeps ids w w'.
Proof.
  apply pg_sweeps. intros t Hn. unfold purge, delete_pastes. cbn [snd].
  set (q := fun r : PasteRow => (p_created_at r <? timestamptz cutoff) && completed r).
  pose proof (row_at_delete q (w_pg w)) as Hrow. unfold delete_pastes in Hrow. cbn [snd] in Hrow.
  split_and!.
  - by apply (rows_kept_delete None q).
  - by apply filter_NoDup.
  - intros id _ (row & Hr & Hc). exists row. split; [|done]. rewrite Hrow by done. rewrite Hr.
    unfold q. by rewrite Hc, andb_false_r.
Qed.

Lemma callbacks_sweeps ids active w :
  sweeps ids w (foldl (fun st callback => callback active st) w callbacks).
Proof.
  revert w. induction Hcallbacks as [|f l Hf Hl IH]; intros w; simpl; [apply sweeps_refl|].
  eapply sweeps_trans; [|by apply IH]. destruct (Hf active w) as [Ht Hs].
  apply sweeps_frame; [by apply keeps_stores|]. unfold stores in Hs. congruence.
Qed.

(** The rest of the pass, after the loop: whatever it deals with is in [ids]. *)
Lemma purge_metadata_sweeps ids c now retry w r w' :
  purge_metadata world_sweeper c now retry w = (r, w') -> sweeps ids w w'.
Proof.
  destruct world_sweeper_parts as (_ & _ & Ec & Es & _). unfold purge_metadata. rewrite Ec, Es.
  destruct (0 <? _); [|intros [= <- <-]; apply sweeps_refl]. unfold run. go_unfold.
  destruct (Paste_PurgeCompletedOlderThan c _ w) as [[n|err|] w0] eqn:E;
    apply (purge_sweeps ids) in E; [|intros [= <- <-]; done..].
  destruct (0 <? n); intros [= <- <-]; [|done]. eapply sweeps_trans; [exact E|apply sink_sweeps].
Qed.

Lemma purge_audit_sweeps ids c now w r w' :
  purge_audit world_sweeper c now w = (r, w') -> sweeps ids w w'.
Proof.
  destruct world_sweeper_parts as (_ & _ & _ & Es & Ep & _). unfold purge_audit. rewrite Ep, Es.
  destruct (0 <? _); [|intros [= <- <-]; apply sweeps_refl]. unfold run. go_unfold.
  destruct (Audit_PurgeOlderThan c _ w) as [[n|err|] w0] eqn:E;
    apply (query_sweeps ids) in E; try done; [|intros [= <- <-]; done..].
  destruct (0 <? n); intros [= <- <-]; [|done]. eapply sweeps_trans; [exact E|apply sink_sweeps].
Qed.

Lemma RunOnce_sweeps c w r w' :
  NoDup (map p_id (t_pastes (w_pg w))) -> RunOnce world_sweeper c w = (r, w') ->
  exists ids, sweeps ids w w' /\ bodies_gone ids w'.
Proof.
  intros Hn Hr. destruct world_sweeper_parts as (Em & _ & _ & _ & _ & _ & En & Ecb & Ecfg).
  unfold RunOnce, read_clock in Hr. rewrite Em, En, Ecb in Hr. go_unfold. unfold run in Hr.
  destruct (clock w) as [now w1] eqn:E1. apply clock_inv in E1 as (T1 & T1' & S1).
  assert (K1 : forall ids, sweeps ids w w1).
  { intros ids. apply sweeps_frame; [apply keeps_stores; [lia|done]|]. unfold stores in S1. congruence. }
  destruct (Metas_ListExpiredUnaudited NewPasteStore c now _ w1) as [[l|err|] w2] eqn:E2;
    (assert (K2 : forall ids, sweeps ids w w2) by
      (intros ids; eapply sweeps_trans; [apply K1|]; eapply query_sweeps; [|exact E2];
       intros; cbv beta; by destruct (_ <? 0))); [|injection Hr as <- <-; by exists []; split; [|intros ? ? ?%not_elem_of_nil]..].
  destruct (K2 [] Hn) as (_ & Hn2 & _).
  destruct (sweep world_sweeper c now l [] _ w2) as [[[ids retry]|err|] w3] eqn:E3;
    destruct (sweep_loop _ _ _ _ _ _ _ _ E3) as (S3 & G3 & P3 & Q3); [|by destruct (Q3 err)|done].
  assert (G : bodies_gone ids w3) by (apply (G3 Hn2) with retry; [by intros ? ? ?%not_elem_of_nil|done]).
  assert (K3 : sweeps ids w w3) by (eapply sweeps_trans; [apply K2|apply S3]).
  assert (Hdone : forall w4, sweeps ids w3 w4 -> exists ids, sweeps ids w w4 /\ bodies_gone ids w4).
  { intros w4 K4. exists ids. split; [by eapply sweeps_trans|].
    destruct (K3 Hn) as (_ & Hn3 & _). destruct (K4 Hn3) as (K & _). by eapply bodies_gone_keeps. }
  destruct ((if negb (bool_decide (ids = [])) then Metas_MarkExpiredAudited NewPasteStore c ids now else (fun s : World => (Ok tt, s))) w3) as [[u|err|] w4] eqn:E4;
    (assert (K4 : sweeps ids w3 w4) by
      (destruct (negb (bool_decide (ids = []))); [by apply mark_sweeps in E4|injection E4 as _ <-; apply sweeps_refl]));
    [|injection Hr as <- <-; by apply Hdone..].
  destruct (purge_metadata world_sweeper c now retry w4) as [[n|err|] w5] eqn:E5;
    apply (purge_metadata_sweeps ids) in E5; pose proof (sweeps_trans _ _ _ _ K4 E5) as K5;
    [|injection Hr as <- <-; by apply Hdone..].
  destruct (purge_audit world_sweeper c now w5) as [[k|err|] w6] eqn:E6;
    apply (purge_audit_sweeps ids) in E6; pose proof (sweeps_trans _ _ _ _ K5 E6) as K6;
    [|injection Hr as <- <-; by apply Hdone..].
  destruct (Metas_CountActive NewPasteStore c now w6) as [[j|err|] w7] eqn:E7;
    apply (query_sweeps ids) in E7; try done; pose proof (sweeps_trans _ _ _ _ K6 E7) as K7;
    injection Hr as <- <-; apply Hdone; [|done|done].
  eapply sweeps_trans; [exact K7|apply callbacks_sweeps].
Qed.

(** C21. A pass of the sweeper, whatever fails in it, makes nothing readable again,
    and a paste whose expiry had not been dealt with only loses its row in a
    pass that has also removed its body: metadata never goes before the data.  The
    functions registered with [OnActiveCount] are observers: they leave both
    stores alone. *)
Theorem Sweep_metadata_last c w r w' :
  NoDup (map p_id (t_pastes (w_pg w))) -> RunOnce world_sweeper c w = (r, w') ->
  WKeeps w w' /\
  forall id, pending (w_pg w) id -> row_at (w_pg w') id = None -> forall rec, ~ w_body w' id rec.
Proof.
  intros Hn Hr. destruct (RunOnce_sweeps _ _ _ _ Hn Hr) as (ids & Hs & Hg).
  destruct (Hs Hn) as (K & _ & P). split; [done|]. intros id Hp Hnone rec.
  destruct (decide (id ∈ ids)) as [Hin|Hni]; [by apply Hg|].
  destruct (P id Hni Hp) as (row & Hrow & _). congruence.
Qed.
End World.

(** ** A run

    The paste of [PasteRuns], forty days after its creation. *)
#[local] Existing Instance map_server.
#[local] Existing Instance ms_client.
#[local] Existing Instance byte_collation.
#[local] Existing Instance canonical_uuid_text.

Definition late_world : World :=
  MkWorld (w_time sys_w1 + 40 * 24 * Hour) (w_redis sys_w1) (w_pg sys_w1) (w_env sys_w1) (w_rand sys_w1)
    (w_log sys_w1) (w_warned sys_w1).
Definition demo_pass : res Stats * World :=
  RunOnce (world_sweeper (MkSweeperConfig 0 30 30 0) []) Background late_world.

Lemma Sweep_metadata_last_witness :
  fst demo_pass = Ok (MkStats 1 1 1 0) /\ forall rec, ~ w_body (snd demo_pass) demo_id rec.
Proof.
  split; [vm_compute; reflexivity|].
  apply (Sweep_metadata_last (MkSweeperConfig 0 30 30 0) [] (Forall_nil_2 _) Background late_world
           (fst demo_pass) (snd demo_pass)).
  - vm_compute. repeat constructor; set_solver.
  - apply surjective_pairing.
  - exists (row_of_meta (cr_Meta sys_result)). split; vm_compute; reflexivity.
  - vm_compute. reflexivity.
Defined.
