(* ===== verification/AuthTypes.v ===== *)
(** * Authentication: types and ports

    [internal/auth/ports.go]: users, sessions, and the interfaces of the stores
    as records of operations on a state [S]. *)
From S2P Require Import Prelude GoNum GoStr Codec Errors PasteTypes.

Definition ProviderLocal : string := "local".
Definition ProviderOIDC : string := "oidc".

Record User : Type := MkUser {
  us_ID : uuid;
  us_Username : string;
  us_DisplayName : string;
  us_Provider : string;
  us_OIDCIssuer : string;
  us_OIDCSubject : string;
  us_PasswordHash : string;
  us_IsAdmin : bool;
  us_Disabled : bool;
  us_CreatedAt : Z;
  us_LastLoginAt : option Z
}.

(** [User.Principal] *)
Definition User_Principal (u : User) : Principal :=
  MkPrincipal (us_ID u) (us_Username u) (us_IsAdmin u).

Record Session : Type := MkSession {
  se_ID : string;
  se_UserID : uuid;
  se_CreatedAt : Z;
  se_AbsoluteExpiry : Z;
  se_CSRFToken : string
}.

(** What the login flow keeps between its two requests ([internal/auth/oidc.go]). *)
Record OIDCState : Type := MkOIDCState {
  os_Verifier : string;
  os_Nonce : string;
  os_CreatedAt : Z
}.

#[export] Instance User_eq_dec : EqDecision User.
Proof. solve_decision. Defined.
#[export] Instance Session_eq_dec : EqDecision Session.
Proof. solve_decision. Defined.
#[export] Instance OIDCState_eq_dec : EqDecision OIDCState.
Proof. solve_decision. Defined.

Section Ports.
Context (S : Type).

Record UserStore : Type := MkUserStore {
  Users_Create : ctx -> User -> M S unit;
  Users_GetByID : ctx -> uuid -> M S User;
  Users_GetByUsername : ctx -> string -> M S User;
  Users_GetByOIDC : ctx -> string -> string -> M S User;
  Users_UpsertOIDC : ctx -> User -> M S User;
  Users_SetPasswordHash : ctx -> uuid -> string -> M S unit;
  Users_SetDisabled : ctx -> uuid -> bool -> M S unit;
  Users_TouchLogin : ctx -> uuid -> Z -> M S unit;
  Users_List : ctx -> M S (list User)
}.

Record SessionStore : Type := MkSessionStore {
  Sessions_Create : ctx -> uuid -> Z -> Z -> M S Session;
  Sessions_Get : ctx -> string -> M S Session;
  Sessions_Touch : ctx -> string -> Z -> M S unit;
  Sessions_Delete : ctx -> string -> M S unit
}.

Record OIDCStateStore : Type := MkOIDCStateStore {
  States_Save : ctx -> string -> OIDCState -> Z -> M S unit;
  States_Take : ctx -> string -> M S OIDCState
}.

Record PasswordHasher : Type := MkPasswordHasher {
  Hash : ctx -> string -> M S string;
  Verify : ctx -> string -> string -> M S bool
}.

Record LocalAuthenticator : Type := MkLocalAuthenticator {
  Authenticate : ctx -> string -> string -> M S User
}.

Record OIDCFlow : Type := MkOIDCFlow {
  Flow_Start : ctx -> M S string;
  Flow_Complete : ctx -> string -> string -> M S User
}.
End Ports.

Arguments Users_Create {S} _. Arguments Users_GetByID {S} _. Arguments Users_GetByUsername {S} _.
Arguments Users_GetByOIDC {S} _. Arguments Users_UpsertOIDC {S} _. Arguments Users_SetPasswordHash {S} _.
Arguments Users_SetDisabled {S} _. Arguments Users_TouchLogin {S} _. Arguments Users_List {S} _.
Arguments Sessions_Create {S} _. Arguments Sessions_Get {S} _. Arguments Sessions_Touch {S} _.
Arguments Sessions_Delete {S} _. Arguments States_Save {S} _. Arguments States_Take {S} _.
Arguments Hash {S} _. Arguments Verify {S} _. Arguments Authenticate {S} _.
Arguments Flow_Start {S} _. Arguments Flow_Complete {S} _.
