(* ===== verification/RedisScript.v ===== *)
(** * Lua scripts at the Redis server

    A script is a tree of [redis.call]s ending in a reply; an error reply of a
    call ends the script.  The server runs it at one instant.  When all calls
    name one key, the script is a function of that key's entry. *)
From S2P Require Import Prelude GoNum GoStr Codec Errors Redis World.

Inductive script : Type :=
| Return (r : reply)
| Call (c : cmd) (k : reply -> script).

Definition is_int (r : reply) (n : Z) : bool := if r is RInt m then m =? n else false.

Fixpoint on_key (key : string) (s : script) : Prop :=
  match s with
  | Return _ => True
  | Call c k => key_of c = key /\ forall r, on_key key (k r)
  end.

Ltac solve_on_key :=
  repeat (simpl; first [done | split; [done|] | intro | case_match]).

Fixpoint entry_script (s : script) (t : Z) (e : option entry) : reply * option entry :=
  match s with
  | Return r => (r, e)
  | Call c k =>
      match documented c t e with
      | (RError msg, e) => (RError msg, alive t e)
      | (r, e) => entry_script (k r) t (alive t e)
      end
  end.

Section Run.
Context `{RedisServer}.

Fixpoint run_script (s : script) (t : Z) (d : rdb) : reply * rdb :=
  match s with
  | Return r => (r, d)
  | Call c k =>
      match exec c t d with
      | (RError msg, d) => (RError msg, d)
      | (r, d) => run_script (k r) t d
      end
  end.

Lemma run_script_other key s t d k :
  on_key key s -> k <> key -> live t (snd (run_script s t d)) k = live t d k.
Proof.
  revert d. induction s as [r|c s IH]; intros d; [done|]. intros [Hc Hs] Hk. simpl.
  pose proof (exec_other c t d k ltac:(congruence)) as He. destruct (exec c t d) as [r d'].
  simpl in He. destruct r; simpl; rewrite <-?He; try done; by apply IH.
Qed.

Lemma run_script_entry key s t d :
  on_key key s ->
  fst (run_script s t d) = fst (entry_script s t (live t d key)) /\
  live t (snd (run_script s t d)) key = snd (entry_script s t (live t d key)).
Proof.
  revert d. induction s as [r|c s IH]; intros d; [done|]. intros [<- Hs]. simpl.
  pose proof (exec_reply c t d) as Hr. pose proof (exec_key c t d) as Hk.
  destruct (exec c t d) as [r d'], (documented c t (live t d (key_of c))) as [r' e].
  simpl in Hr, Hk. subst r'. destruct r; rewrite <-?Hk; try (by apply IH); done.
Qed.
End Run.

(** [script.Run(...).Int64()] *)
Section Client.
Context `{RedisServer}.

Definition run_Int64 (c : ctx) (s : script) : M World Z :=
  r ← redis_do c (run_script s);
  match r with
  | RError msg => throw (NewError msg)
  | RNil => throw RedisNil
  | RInt n => mret n
  | _ => throw (NewError "redis: unexpected type")
  end.

Lemma run_Int64_inv c s w r w' :
  run_Int64 c s w = (r, w') ->
  w_time w <= w_time w' /\ w_pg w' = w_pg w /\
  (w_redis w' = w_redis w \/ w_redis w' = snd (run_script s (server_ms w') (w_redis w))) /\
  match r with
  | Ok n => w_redis w' = snd (run_script s (server_ms w') (w_redis w)) /\
      fst (run_script s (server_ms w') (w_redis w)) = RInt n
  | Err _ => True
  | Panic => False
  end.
Proof.
  unfold run_Int64. intros Hr. go_unfold. destruct (redis_do c (run_script s) w) as [r0 w0] eqn:E.
  apply redis_do_inv in E as (Ht & Hp & Hd). destruct Hd as [(Hd & k & ->)|(Hd & [-> |(k & ->)])].
  - injection Hr as <- <-. auto.
  - destruct (run_script s (server_ms w0) (w_redis w)) as [rep d] eqn:Es. cbn [fst snd] in *.
    destruct rep; injection Hr as <- <-; rewrite Es; auto 6.
  - injection Hr as <- <-. auto.
Qed.
End Client.
