(* ===== verification/RedisSessions.v ===== *)
(** * Sessions in Redis ([internal/store/redis/sessions.go])

    The session store with its two Lua scripts over the Redis server.  A
    session never outlives its absolute expiry, whatever fails; it is served as
    created until its deadline and never after. *)
From S2P Require Import Prelude GoNum GoStr Codec Json Errors PasteTypes Crypto Ports Redis Pg.
From S2P Require Import World RedisBody AuthTypes RedisScript.

Definition sessionTokenBytes : nat := 32.

Definition createSessionScript (key user_id created_at abs_exp csrf : string) (at_ : Z) : script :=
  Call (EXISTS key) (fun r =>
  if negb (is_int r 0) then Return (RInt 0) else
  Call (HSET key [("user_id", user_id); ("created_at", created_at); ("abs_exp", abs_exp); ("csrf", csrf)])
    (fun _ =>
  Call (PEXPIREAT key at_) (fun r =>
  if negb (is_int r 1) then Call (DEL key) (fun _ => Return (RError "failed to expire session")) else
  Call (EXISTS key) (fun r => if is_int r 0 then Return (RInt (-1)) else Return (RInt 1))))).

Definition touchSessionScript (key abs_exp : string) (at_ : Z) : script :=
  Call (EXISTS key) (fun r =>
  if is_int r 0 then Return (RInt 0) else
  Call (HGET key "abs_exp") (fun r =>
  if negb (if r is RBulk b then bool_decide (b = of_str abs_exp) else false) then Return (RInt (-1)) else
  Call (PEXPIREAT key at_) Return)).

Definition sessKey (id : string) : string := "sess:" +:+ id.

Definition sessionDeadline (idleTTL absoluteExpiry now : Z) : res Z :=
  if idleTTL <=? 0 then Err (NewError "redis: session idle ttl must be positive")
  else if negb (After absoluteExpiry now) then Err (NewError "redis: session absolute ttl must be positive")
  else
    let deadline := time_Add now idleTTL in
    let deadline := if Before absoluteExpiry deadline then absoluteExpiry else deadline in
    let deadline := Truncate deadline Millisecond in
    if negb (After deadline now) then Err (NewError "redis: session ttl is below redis precision")
    else Ok deadline.

Definition encodeSessionTime (value : Z) : string := Decimal.FormatInt (UnixNano value).

Definition decodeSessionTime (value : string) : option Z :=
  n ← Decimal.ParseInt value;
  if (-1000000000000 <? n) && (n <? 1000000000000) then Some (time_Unix n 0) else Some (time_Unix 0 n).

Definition validSessionToken (value : string) : bool :=
  match Base64.rawurl_DecodeString value with
  | Some raw => bool_decide (length raw = sessionTokenBytes)
  | None => false
  end.

(** ** Deadlines and their text *)

(** A deadline lies after the instant it was computed at, on a millisecond, and
    within a millisecond below the earlier of the two limits. *)
Lemma sessionDeadline_ok idle abs now d :
  sessionDeadline idle abs now = Ok d ->
  0 < idle /\ now < abs /\ now < d /\ d = Z.min abs (now + idle) / Millisecond * Millisecond.
Proof.
  unfold sessionDeadline, After, Before, time_Add. intros Hd. rewrite Truncate_ms in Hd.
  repeat case_match; simplify_eq; gobool; split_and!; try lia; (do 2 f_equal; lia).
Qed.

Lemma sessionDeadline_ms idle abs now d :
  sessionDeadline idle abs now = Ok d -> 0 <= now -> abs < 2 ^ 63 * Millisecond ->
  UnixMilli d = Z.min abs (now + idle) / Millisecond /\ UnixMilli d * Millisecond = d.
Proof.
  intros (Hi & Ha & Hn & ->)%sessionDeadline_ok H0 Hx.
  assert (E : UnixMilli (Z.min abs (now + idle) / Millisecond * Millisecond) =
              Z.min abs (now + idle) / Millisecond).
  { unfold UnixMilli. rewrite Z.div_mul by done. apply int64_id. unfold in_int64, Millisecond in *. lia. }
  by rewrite E.
Qed.

Lemma decodeSessionTime_range s a : decodeSessionTime s = Some a -> a < 2 ^ 63 * Millisecond.
Proof.
  unfold decodeSessionTime. destruct (Decimal.ParseInt s) as [n|] eqn:E; [|done].
  apply Decimal.ParseInt_range in E. unfold in_int64 in E. simpl.
  destruct (_ && _) eqn:Eb; intros [= <-]; gobool; unfold time_Unix, Second, Millisecond; lia.
Qed.

Lemma decode_encode_time t : 1000000000000 <= t < 2 ^ 63 -> decodeSessionTime (encodeSessionTime t) = Some t.
Proof.
  intros Ht. unfold decodeSessionTime, encodeSessionTime, UnixNano.
  rewrite int64_id by (unfold in_int64; lia). rewrite Decimal.ParseInt_FormatInt by (unfold in_int64; lia).
  simpl. destruct (_ && _) eqn:E; gobool; [lia|]. done.
Qed.

Section Sessions.
Context `{RedisServer} `{RedisClient} `{UUIDText}.

(** [for range n] over the attempts to find an unused id. *)
Fixpoint create_attempts (n : nat) (c : ctx) (userID : uuid) (now absoluteExpiry deadline : Z)
    : M World Session :=
  match n with
  | O => throw (NewError "redis: create session: could not allocate unique id")
  | S n =>
      id ← RandomToken world_rand sessionTokenBytes;
      csrf ← RandomToken world_rand sessionTokenBytes;
      created ← wrap (Errorf "redis: create session")
        (run_Int64 c (createSessionScript (sessKey id) (uuid_String userID) (encodeSessionTime now)
                        (encodeSessionTime absoluteExpiry) csrf (UnixMilli deadline)));
      if created =? 0 then create_attempts n c userID now absoluteExpiry deadline
      else
        expired ← (if created =? -1 then mret true
                   else (t ← read_clock clock; mret (negb (Before t deadline))));
        if expired : bool then
          ignore (client_Del c (sessKey id)) ;;
          throw (NewError "redis: create session: expired during write")
        else if created =? 1 then mret (MkSession id userID now absoluteExpiry csrf)
        else create_attempts n c userID now absoluteExpiry deadline
  end.

Definition Session_Create (c : ctx) (userID : uuid) (idleTTL absoluteTTL : Z) : M World Session :=
  now ← read_clock clock;
  if absoluteTTL <=? 0 then throw (NewError "redis: session absolute ttl must be positive")
  else
    let absoluteExpiry := time_Add now absoluteTTL in
    deadline ← lift (sessionDeadline idleTTL absoluteExpiry now);
    create_attempts 4 c userID now absoluteExpiry deadline.

(** [record["field"]]: a missing field reads as the empty string. *)
Definition field (record : gmap string string) (f : string) : string := default "" (record !! f).

Definition malformed {A} (what : string) : M World A := throw (NewError ("redis: malformed session: " +:+ what)).

(** [get]: the session and the raw text of its absolute expiry. *)
Definition Session_get (c : ctx) (id : string) : M World (Session * string) :=
  if bool_decide (id = "") then throw ErrSessionNotFound
  else
    record ← wrap (Errorf "redis: get session") (client_HGetAll c (sessKey id));
    if bool_decide (record = ∅) then throw ErrSessionNotFound
    else
      match uuid_Parse (field record "user_id") with
      | None => malformed "invalid user id"
      | Some userID =>
      match decodeSessionTime (field record "created_at") with
      | None => malformed "invalid creation time"
      | Some createdAt =>
      let absoluteRaw := field record "abs_exp" in
      match decodeSessionTime absoluteRaw with
      | None => malformed "invalid absolute expiry"
      | Some absoluteExpiry =>
      if negb (After absoluteExpiry createdAt) then malformed "invalid expiry ordering"
      else
        let csrfToken := field record "csrf" in
        if negb (validSessionToken csrfToken) then malformed "invalid csrf token"
        else
          now ← read_clock clock;
          if negb (Before now absoluteExpiry) then
            ignore (client_Del c (sessKey id)) ;;
            throw ErrSessionNotFound
          else mret (MkSession id userID createdAt absoluteExpiry csrfToken, absoluteRaw)
      end end end.

Definition Session_Get (c : ctx) (id : string) : M World Session :=
  '(sess, _) ← Session_get c id; mret sess.

Definition Session_Touch (c : ctx) (id : string) (idleTTL : Z) : M World unit :=
  if idleTTL <=? 0 then throw (NewError "redis: session idle ttl must be positive")
  else
    '(sess, absoluteRaw) ← Session_get c id;
    now ← read_clock clock;
    match sessionDeadline idleTTL (se_AbsoluteExpiry sess) now with
    | Ok deadline =>
        touched ← wrap (Errorf "redis: touch session")
          (run_Int64 c (touchSessionScript (sessKey id) absoluteRaw (UnixMilli deadline)));
        if negb (touched =? 1) then throw ErrSessionNotFound
        else
          now ← read_clock clock;
          if negb (Before now deadline) then
            ignore (client_Del c (sessKey id)) ;;
            throw ErrSessionNotFound
          else mret tt
    | Err err =>
        if negb (Before now (se_AbsoluteExpiry sess)) then
          ignore (client_Del c (sessKey id)) ;;
          throw ErrSessionNotFound
        else throw err
    | Panic => panic
    end.

Definition Session_Delete (c : ctx) (id : string) : M World unit :=
  wrap (Errorf "redis: delete session") (client_Del c (sessKey id)).

Definition NewSessionStore : SessionStore World :=
  MkSessionStore World Session_Create Session_Get Session_Touch Session_Delete.

(** ** What the session keys hold *)

Definition sess_at (w : World) (id : string) : option entry := live (server_ms w) (w_redis w) (sessKey id).

(** A session's key expires, and no later than the session's absolute expiry. *)
Definition sess_entry_ok (e : option entry) : Prop := forall h x,
  e = Some (RHash h, x) -> exists at_ a,
    x = Some at_ /\ decodeSessionTime (field h "abs_exp") = Some a /\ at_ * Millisecond <= a.

Definition sessions_ok (w : World) : Prop := forall id, sess_entry_ok (sess_at w id).

Lemma sessKey_inj id id' : sessKey id = sessKey id' -> id = id'.
Proof. apply str_app_inj_l. Qed.

Lemma sess_entry_ok_alive t e : sess_entry_ok e -> sess_entry_ok (alive t e).
Proof. intros He h x Hx. apply He. destruct e as [[v [a|]]|]; simpl in Hx; [|done..]. by case_match. Qed.

(** What every step of the store guarantees. *)
Definition keeps_sessions (w w' : World) : Prop :=
  w_time w <= w_time w' /\ w_pg w' = w_pg w /\ (sessions_ok w -> sessions_ok w').

#[export] Instance keeps_sessions_preorder : PreOrder keeps_sessions.
Proof.
  split; [done|]. intros w1 w2 w3 (? & ? & ?) (? & ? & ?). split_and!; [lia|congruence|auto].
Qed.

Lemma keeps_sessions_stores w w' :
  w_time w <= w_time w' -> stores w' = stores w -> keeps_sessions w w'.
Proof.
  unfold stores. intros Ht [= Hr Hp]. split_and!; [done|done|]. intros Hok id. unfold sess_at.
  rewrite Hr, (live_later (server_ms w)).
  - apply sess_entry_ok_alive, Hok.
  - unfold server_ms, Millisecond. lia.
Qed.

Lemma clock_sessions w t w' : clock w = (t, w') -> keeps_sessions w w' /\ t = w_time w'.
Proof. intros (? & <- & ?)%clock_inv. split; [by apply keeps_sessions_stores|done]. Qed.

(** A script on one session's key that keeps its entry good keeps them all. *)
Lemma keeps_sessions_script id s w w' :
  w_time w <= w_time w' -> w_pg w' = w_pg w ->
  w_redis w' = w_redis w \/ w_redis w' = snd (run_script s (server_ms w') (w_redis w)) ->
  on_key (sessKey id) s ->
  (forall e, sess_entry_ok (alive (server_ms w') e) ->
     sess_entry_ok (snd (entry_script s (server_ms w') (alive (server_ms w') e)))) ->
  keeps_sessions w w'.
Proof.
  intros Ht Hp [Hr|Hr] Hk Hs; [apply keeps_sessions_stores; [done|]; unfold stores; congruence|].
  split_and!; [done|done|]. intros Hok id'. unfold sess_at. rewrite Hr.
  assert (Hl : forall i, sess_entry_ok (live (server_ms w') (w_redis w) (sessKey i))).
  { intros i. rewrite (live_later (server_ms w)) by (unfold server_ms, Millisecond; lia).
    apply sess_entry_ok_alive, Hok. }
  destruct (decide (id' = id)) as [-> |Hne].
  - destruct (run_script_entry _ _ (server_ms w') (w_redis w) Hk) as [_ ->].
    rewrite <-live_alive. apply Hs. rewrite live_alive. apply Hl.
  - rewrite (run_script_other (sessKey id)) by (done || by intros E%sessKey_inj). apply Hl.
Qed.

Lemma client_Del_inv c id w r w' :
  client_Del c (sessKey id) w = (r, w') ->
  keeps_sessions w w' /\
  (forall k, k <> sessKey id -> same_key (server_ms w') (w_redis w) (w_redis w') k) /\
  match r with
  | Ok _ => sess_at w' id = None
  | Err e => exists k, e = terr k
  | Panic => False
  end.
Proof.
  unfold client_Del. intros Hr. go_unfold. destruct (run_cmd c _ w) as [r0 w0] eqn:Ec.
  apply run_cmd_inv in Ec as (Ht & Hp & Hd & Hr0).
  assert (w' = w0) as -> by (by destruct r0; simplify_eq/=).
  split_and!.
  - apply (keeps_sessions_script id (Call (DEL (sessKey id)) Return) w); [done|done| |done|].
    + destruct Hd as [Hd|Hd]; [by left|right]. rewrite Hd. simpl. by destruct (exec _ _ _) as [[] ?].
    + intros e _ h x. by destruct e as [[v [y|]]|]; simpl; try case_match.
  - intros k Hk. destruct Hd as [-> | ->]; [done|by apply same_key_exec].
  - destruct r0 as [a|err|]; simplify_eq/=; [|by destruct Hr0 as [?|(? & ? & ?)]|done].
    unfold sess_at. destruct Hr0 as [-> _]. by rewrite live_exec, bool_decide_true.
Qed.

Lemma ignore_Del c id w :
  exists w', ignore (client_Del c (sessKey id)) w = (Ok tt, w') /\ keeps_sessions w w' /\
    forall k, k <> sessKey id -> same_key (server_ms w') (w_redis w) (w_redis w') k.
Proof.
  unfold ignore. go_unfold. destruct (client_Del c (sessKey id) w) as [r w'] eqn:E.
  apply client_Del_inv in E as (K & Hk & R). exists w'. by destruct r.
Qed.

(** ** Creating a session *)

Definition sess_record (u : uuid) (now abs : Z) (csrf : string) : gmap string string :=
  hset ∅ [("user_id", uuid_String u); ("created_at", encodeSessionTime now);
          ("abs_exp", encodeSessionTime abs); ("csrf", csrf)].

Lemma create_entry key u now abs csrf m t e :
  entry_script (createSessionScript key (uuid_String u) (encodeSessionTime now) (encodeSessionTime abs) csrf m) t
    (alive t e) =
  match alive t e with
  | Some e' => (RInt 0, Some e')
  | None => if m <=? t then (RInt (-1), None)
            else (RInt 1, Some (RHash (sess_record u now abs csrf), Some m))
  end.
Proof.
  destruct e as [[v [x|]]|]; cbn [alive]; try destruct (t <? x) eqn:Ex; cbn; rewrite ?Ex; try done.
  all: unfold set_expiry; destruct (m <=? t) eqn:Em; cbn; [done|].
  all: destruct (t <? m) eqn:Et; [|lia]; cbn; by rewrite Et.
Qed.

Lemma RandomToken_world n w :
  exists b w1, RandomToken world_rand n w = (Ok (Base64.rawurl_EncodeToString b), w1) /\
    length b = n /\ stores w1 = stores w /\ w_time w1 = w_time w.
Proof.
  unfold RandomToken, world_rand, draw. go_unfold. simpl. eexists _, _. split; [done|].
  by rewrite length_map, length_seq.
Qed.

Lemma validSessionToken_encode b :
  length b = sessionTokenBytes -> validSessionToken (Base64.rawurl_EncodeToString b) = true.
Proof. intros Hb. unfold validSessionToken. rewrite Base64.rawurl_roundtrip. by rewrite bool_decide_true. Qed.

Section Create.
Context (c : ctx) (u : uuid) (now abs d : Z) (Hms : UnixMilli d * Millisecond = d) (Hd : d <= abs)
  (Habs : decodeSessionTime (encodeSessionTime abs) = Some abs).

Lemma create_attempts_inv n w r w' :
  create_attempts n c u now abs d w = (r, w') ->
  keeps_sessions w w' /\
  match r with
  | Ok s => exists b b', let csrf := Base64.rawurl_EncodeToString b' in
      s = MkSession (Base64.rawurl_EncodeToString b) u now abs csrf /\
      length b = sessionTokenBytes /\ length b' = sessionTokenBytes /\ w_time w' < d /\
      sess_at w' (se_ID s) = Some (RHash (sess_record u now abs csrf), Some (UnixMilli d))
  | Err _ => True
  | Panic => False
  end.
Proof.
  revert w. induction n as [|n IH]; intros w; [by intros [= <- <-]|]. cbn [create_attempts].
  destruct (RandomToken_world sessionTokenBytes w) as (b & w1 & E1 & Hb & S1 & T1).
  destruct (RandomToken_world sessionTokenBytes w1) as (b' & w2 & E2 & Hb' & S2 & T2).
  go_unfold. rewrite E1, E2. set (csrf := Base64.rawurl_EncodeToString b').
  set (id := Base64.rawurl_EncodeToString b). intros Hr.
  assert (K2 : keeps_sessions w w2) by (apply keeps_sessions_stores; [lia|congruence]).
  destruct (run_Int64 c _ w2) as [r3 w3] eqn:E3. pose proof (run_Int64_inv _ _ _ _ _ E3) as (T3 & P3 & D3 & R3).
  assert (K3 : keeps_sessions w w3).
  { etransitivity; [exact K2|].
    eapply (keeps_sessions_script id); [exact T3|exact P3|exact D3|solve_on_key|].
    intros e Hok3. rewrite create_entry. destruct (alive _ e) as [e'|]; [done|].
    destruct (_ <=? _); [done|]. intros h x [= <- <-]. exists (UnixMilli d), abs. split_and!; [done| |lia].
    unfold sess_record, field. cbn. by simplify_map_eq. }
  destruct r3 as [k|err|]; [|by injection Hr as <- <-|done]. destruct R3 as [D3' R3].
  destruct (k =? 0); [apply IH in Hr as [K4 ?]; split; [by transitivity w3|done]|].
  destruct (k =? -1) eqn:Ek.
  { destruct (ignore_Del c id w3) as (w4 & E4 & K4 & _). rewrite E4 in Hr. injection Hr as <- <-.
    split; [by transitivity w3|done]. }
  unfold read_clock in Hr. destruct (clock w3) as [t w4] eqn:E4. pose proof (clock_inv _ _ _ E4) as (_ & _ & S4).
  apply clock_sessions in E4 as [K4 ->]. assert (K : keeps_sessions w w4) by by transitivity w3.
  destruct (Before (w_time w4) d) eqn:Eb; cbn [negb] in Hr.
  - destruct (k =? 1) eqn:E1'; [|apply IH in Hr as [K5 ?]; split; [by transitivity w4|done]].
    injection Hr as <- <-. split; [done|]. exists b, b'. cbn [se_ID]. unfold Before in Eb. gobool. subst k.
    split_and!; [done|done|done|done|]. fold csrf id. unfold sess_at.
    unfold stores in S4. injection S4 as -> _.
    match type of R3 with fst (run_script ?scr ?t ?db) = _ =>
      destruct (run_script_entry (sessKey id) scr t db) as [F L]; [solve_on_key|] end.
    rewrite R3 in F. rewrite <-D3' in L. rewrite <-(live_alive (server_ms w3) (w_redis w2)), create_entry in F, L.
    destruct K4 as [T4 _]. rewrite (live_later (server_ms w3)) by (unfold server_ms, Millisecond; lia).
    rewrite L. clear L. destruct (alive _ _); [done|]. destruct (UnixMilli d <=? server_ms w3); [done|].
    apply alive_lt. unfold server_ms, Millisecond in *. lia.
  - destruct (ignore_Del c id w4) as (w5 & E5 & K5 & _). rewrite E5 in Hr. injection Hr as <- <-.
    split; [by transitivity w4|done].
Qed.
End Create.

Lemma Session_Create_inv c u idle abs w r w' :
  Session_Create c u idle abs w = (r, w') ->
  1000000000000 <= w_time w -> fst (clock w) + abs < 2 ^ 63 ->
  keeps_sessions w w' /\
  match r with
  | Ok s => 0 < idle /\ 0 < abs /\ w_time w <= se_CreatedAt s <= w_time w' /\
      se_CreatedAt s = fst (clock w) /\ se_UserID s = u /\
      se_AbsoluteExpiry s = se_CreatedAt s + abs /\ se_ID s <> "" /\
      validSessionToken (se_CSRFToken s) = true /\
      let deadline := (se_CreatedAt s + Z.min idle abs) / Millisecond in
      w_time w' < deadline * Millisecond /\
      sess_at w' (se_ID s) =
        Some (RHash (sess_record u (se_CreatedAt s) (se_AbsoluteExpiry s) (se_CSRFToken s)), Some deadline)
  | Err _ => True
  | Panic => False
  end.
Proof.
  unfold Session_Create, read_clock. go_unfold. intros Hr Hw Hw'.
  destruct (clock w) as [t w1] eqn:E1. apply clock_sessions in E1 as [K1 ->]. cbn [fst] in Hw'.
  destruct (abs <=? 0) eqn:Ea; [by injection Hr as <- <-|]. unfold time_Add in Hr. gobool.
  destruct (sessionDeadline idle (w_time w1 + abs) (w_time w1)) as [d|err|] eqn:Ed.
  2: by injection Hr as <- <-.
  2: { unfold sessionDeadline in Ed. by repeat case_match. }
  destruct K1 as [T1 K1].
  destruct (sessionDeadline_ms _ _ _ _ Ed) as [Em Em']; [lia|unfold Millisecond; lia|].
  pose proof (sessionDeadline_ok _ _ _ _ Ed) as (Hi & _ & _ & Hd).
  apply create_attempts_inv in Hr as [K2 Hr]; [|done|unfold Millisecond in *; lia|apply decode_encode_time; lia].
  split; [by transitivity w1|]. destruct r as [s|err|]; [|done|done].
  destruct Hr as (b & b' & -> & Hb & Hb' & Hlt & Hs). cbn [se_CreatedAt se_UserID se_AbsoluteExpiry se_ID se_CSRFToken] in *.
  assert (Hm : Z.min (w_time w1 + abs) (w_time w1 + idle) = w_time w1 + Z.min idle abs) by lia.
  rewrite Hm in *. split_and!; try done; try lia.
  - by destruct K2.
  - intros E. apply (f_equal of_str) in E. unfold Base64.rawurl_EncodeToString in E. rewrite of_to_str in E.
    by destruct b as [|? [|? [|]]].
  - by apply validSessionToken_encode.
  - by rewrite <-Em.
Qed.

(** ** Reading a session *)

(** The session a record denotes: what [get] makes of it. *)
Definition record_session (id : string) (record : gmap string string) : option Session :=
  userID ← uuid_Parse (field record "user_id");
  createdAt ← decodeSessionTime (field record "created_at");
  absoluteExpiry ← decodeSessionTime (field record "abs_exp");
  if After absoluteExpiry createdAt && validSessionToken (field record "csrf")
  then Some (MkSession id userID createdAt absoluteExpiry (field record "csrf")) else None.

Lemma record_session_abs id record s :
  record_session id record = Some s -> decodeSessionTime (field record "abs_exp") = Some (se_AbsoluteExpiry s).
Proof.
  unfold record_session. destruct (uuid_Parse _); [|done].
  destruct (decodeSessionTime (field record "created_at")); [|done].
  destruct (decodeSessionTime (field record "abs_exp")); [|done].
  cbn [mbind option_bind]. destruct (_ && _); [|done]. by intros [= <-].
Qed.

Lemma Session_get_inv c id w r w' :
  Session_get c id w = (r, w') ->
  keeps_sessions w w' /\ (forall k, k <> sessKey id -> same_key (server_ms w') (w_redis w) (w_redis w') k) /\
  ((exists k, r = Err (Errorf "redis: get session" (terr k))) \/
   exists t, w_time w <= t <= w_time w' /\
     let e := live (t / Millisecond) (w_redis w) (sessKey id) in
     match r with
     | Ok (s, raw) => same_key (server_ms w') (w_redis w) (w_redis w') (sessKey id) /\
         w_time w' < se_AbsoluteExpiry s /\
         exists record x, e = Some (RHash record, x) /\ raw = field record "abs_exp" /\
           record_session id record = Some s
     | Err ErrSessionNotFound => id = "" \/ e = None \/ (exists x, e = Some (RHash ∅, x)) \/
         exists record x s, e = Some (RHash record, x) /\ record_session id record = Some s /\
           se_AbsoluteExpiry s <= w_time w'
     | Err _ => exists v x, e = Some (v, x) /\
         forall record, v = RHash record -> record <> ∅ /\ record_session id record = None
     | Panic => False
     end).
Proof.
  unfold Session_get. case_bool_decide as Eid.
  { intros [= <- <-]. split_and!; [reflexivity|done|]. right. exists (w_time w). split; [lia|]. by left. }
  unfold client_HGetAll. intros Hr. go_unfold.
  destruct (run_cmd c _ w) as [r0 w0] eqn:E0. apply run_cmd_inv in E0 as (T0 & P0 & D0 & R0).
  assert (Hsame : forall k, same_key (server_ms w0) (w_redis w) (w_redis w0) k).
  { intros k. destruct D0 as [-> | ->]; [done|]. apply same_key_read. intros e. simpl.
    by destruct e as [[[] ?]|]. }
  assert (K0 : keeps_sessions w w0).
  { split_and!; [done|done|]. intros Hok i. unfold sess_at. rewrite Hsame by done.
    rewrite (live_later (server_ms w)) by (unfold server_ms, Millisecond; lia). apply sess_entry_ok_alive, Hok. }
  destruct r0 as [rep|err|]; [| |done].
  2: { cbn in Hr. injection Hr as <- <-. split_and!; [done|done|].
       destruct R0 as [[k ->]|(msg & -> & Hm)]; [left; by exists k|right].
       exists (w_time w0). split; [lia|]. cbn [documented fst key_of] in Hm. fold (server_ms w0).
       destruct (live _ _ _) as [[[b|h] x]|]; simplify_eq/=. eexists _, _. by split. }
  destruct R0 as [_ ->]. cbn [documented fst key_of] in Hr.
  assert (Hnow : w_time w <= w_time w0 <= w_time w0) by lia. fold (server_ms w0) in *.
  destruct (live (server_ms w0) (w_redis w) (sessKey id)) as [[[b|h] x]|] eqn:El.
  1: { injection Hr as <- <-. split_and!; [done..|]. right. exists (w_time w0). split; [done|].
       fold (server_ms w0). rewrite El. eexists _, _. by split. }
  2: { injection Hr as <- <-. split_and!; [done..|]. right. exists (w_time w0). split; [done|]. by right; left. }
  cbn [fst] in Hr. case_bool_decide as Eh.
  { injection Hr as <- <-. subst h. split_and!; [done..|]. right. exists (w_time w0). split; [done|].
    fold (server_ms w0). rewrite El. right; right; left. by exists x. }
  match goal with |- ?G =>
    assert (Hbad : record_session id h = None -> forall text, (Err (NewError text), w0) = (r, w') -> G) end.
  { intros Hn text [= <- <-]. split_and!; [done..|]. right. exists (w_time w0). split; [done|].
    fold (server_ms w0). rewrite El. exists (RHash h), x. split; [done|by intros ? [= <-]]. }
  unfold record_session in Hbad. unfold malformed, throw in Hr.
  destruct (uuid_Parse (field h "user_id")) as [u|] eqn:Eu; [|by eapply Hbad].
  destruct (decodeSessionTime (field h "created_at")) as [cr|] eqn:Ec; [|by eapply Hbad].
  destruct (decodeSessionTime (field h "abs_exp")) as [ab|] eqn:Ea; [|by eapply Hbad].
  cbn [mbind option_bind] in Hbad.
  destruct (After ab cr) eqn:Eo; cbn [negb andb] in *; [|by eapply Hbad].
  destruct (validSessionToken (field h "csrf")) eqn:Ev; cbn [negb andb] in *; [|by eapply Hbad].
  clear Hbad. set (s := MkSession id u cr ab (field h "csrf")) in *.
  assert (Hs : record_session id h = Some s).
  { unfold record_session. rewrite Eu, Ec, Ea. cbn [mbind option_bind]. by rewrite Eo, Ev. }
  unfold read_clock in Hr. destruct (clock w0) as [t w1] eqn:E1. pose proof (clock_inv _ _ _ E1) as (T1 & _ & S1).
  apply clock_sessions in E1 as [K1 ->]. unfold stores in S1. injection S1 as S1 _.
  destruct (Before (w_time w1) ab) eqn:Eb; cbn [negb] in Hr; unfold Before in Eb; gobool.
  - injection Hr as <- <-. assert (Hk : forall k, same_key (server_ms w1) (w_redis w) (w_redis w1) k).
    { intros k t Ht. rewrite S1. apply Hsame. unfold server_ms, Millisecond in *. lia. }
    split_and!; [by transitivity w0|done|]. right. exists (w_time w0). split; [lia|].
    fold (server_ms w0). rewrite El. split_and!; [done|done|]. by exists h, x.
  - destruct (ignore_Del c id w1) as (w2 & E2 & K2 & D2). rewrite E2 in Hr. injection Hr as <- <-.
    assert (T2 : w_time w1 <= w_time w2) by apply K2.
    split_and!; [by transitivity w0; [|transitivity w1]| |].
    + intros k Hk t Ht. rewrite D2, S1 by done. apply Hsame. unfold server_ms, Millisecond in *. lia.
    + right. exists (w_time w0). split; [lia|]. fold (server_ms w0). rewrite El. right; right; right.
      exists h, x, s. split_and!; [done|done|]. cbn. lia.
Qed.

(** ** Extending and ending a session *)

Lemma field_bulk h abs_exp v :
  h !! "abs_exp" = Some v -> of_str v = of_str abs_exp -> field h "abs_exp" = abs_exp.
Proof. unfold field. intros -> E%(inj of_str). done. Qed.

Lemma touch_entry_ok key raw a at_ t e :
  decodeSessionTime raw = Some a -> at_ * Millisecond <= a ->
  sess_entry_ok (alive t e) -> sess_entry_ok (snd (entry_script (touchSessionScript key raw at_) t (alive t e))).
Proof.
  intros Ha Hat He. assert (Haa : alive t (alive t e) = alive t e).
  { destruct e as [[v [x|]]|]; simpl; [|done..]. destruct (t <? x) eqn:E; simpl; by rewrite ?E. }
  destruct (alive t e) as [[[b|h] x]|]; cbn -[alive]; rewrite ?Haa; cbn -[alive]; [by rewrite ?Haa| |done].
  destruct (h !! "abs_exp") as [v|] eqn:Ev; cbn -[alive]; [|by rewrite ?Haa].
  case_bool_decide as E; cbn -[alive]; rewrite ?Haa; [|done]. unfold set_expiry.
  destruct (at_ <=? t) eqn:El; cbn; [done|].
  destruct (t <? at_) eqn:El'; [|lia]. intros h' x' [= <- <-]. exists at_, a. split_and!; [done| |done].
  by erewrite field_bulk.
Qed.

Lemma Session_Touch_inv c id idle w r w' :
  0 <= w_time w -> Session_Touch c id idle w = (r, w') -> keeps_sessions w w' /\ r <> Panic.
Proof.
  unfold Session_Touch, read_clock. intros Hw0 Hr. destruct (idle <=? 0); [by injection Hr as <- <-|]. go_unfold.
  destruct (Session_get c id w) as [r0 w0] eqn:E0. apply Session_get_inv in E0 as (K0 & _ & R0).
  destruct r0 as [[s raw]|err|]; [|by injection Hr as <- <-|].
  2: { by destruct R0 as [[? ?]|(? & _ & [])]. }
  destruct R0 as [[? ?]|(t & _ & _ & Hlt & h & x & _ & -> & Hs)]; [done|].
  assert (Ha : decodeSessionTime (field h "abs_exp") = Some (se_AbsoluteExpiry s)).
  { by eapply record_session_abs. }
  destruct (clock w0) as [now w1] eqn:E1. apply clock_sessions in E1 as [K1 ->].
  assert (K : keeps_sessions w w1) by by transitivity w0.
  destruct (sessionDeadline idle (se_AbsoluteExpiry s) (w_time w1)) as [d|err|] eqn:Ed.
  - assert (Hd : UnixMilli d * Millisecond = d /\ d <= se_AbsoluteExpiry s).
    { split.
      - destruct (sessionDeadline_ms _ _ _ _ Ed) as [_ Em]; [|by eapply decodeSessionTime_range|done].
        destruct K. lia.
      - apply sessionDeadline_ok in Ed as (_ & _ & _ & ->). unfold Millisecond. lia. }
    destruct Hd as [Hm Hle]. destruct (run_Int64 c _ w1) as [r2 w2] eqn:E2.
    apply run_Int64_inv in E2 as (T2 & P2 & D2 & R2).
    assert (K2 : keeps_sessions w w2).
    { transitivity w1; [done|]. eapply (keeps_sessions_script id); [done|done|exact D2|solve_on_key|].
      intros e. eapply touch_entry_ok; [exact Ha|lia]. }
    destruct r2 as [n|err|]; [|by injection Hr as <- <-|done].
    destruct (negb (n =? 1)); [by injection Hr as <- <-|].
    destruct (clock w2) as [now' w3] eqn:E3. apply clock_sessions in E3 as [K3 ->].
    assert (K4 : keeps_sessions w w3) by by transitivity w2.
    destruct (negb _); [|by injection Hr as <- <-].
    destruct (ignore_Del c id w3) as (w4 & E4 & K5 & _). rewrite E4 in Hr. injection Hr as <- <-.
    split; [by transitivity w3|done].
  - destruct (negb _); [|by injection Hr as <- <-].
    destruct (ignore_Del c id w1) as (w4 & E4 & K5 & _). rewrite E4 in Hr. injection Hr as <- <-.
    split; [by transitivity w1|done].
  - unfold sessionDeadline in Ed. by repeat case_match.
Qed.

Lemma Session_Delete_inv c id w r w' :
  Session_Delete c id w = (r, w') ->
  keeps_sessions w w' /\ r <> Panic /\ (forall u, r = Ok u -> sess_at w' id = None).
Proof.
  unfold Session_Delete. go_unfold. intros Hr. destruct (client_Del c (sessKey id) w) as [r0 w0] eqn:E.
  apply client_Del_inv in E as (K & _ & R). destruct r0; by simplify_eq/=.
Qed.

(** ** The theorems *)

Inductive SessionOp : Type :=
| OpCreate (u : uuid) (idle abs : Z)
| OpGet (id : string)
| OpTouch (id : string) (idle : Z)
| OpDelete (id : string).

Definition run_session (c : ctx) (op : SessionOp) : M World unit :=
  match op with
  | OpCreate u idle abs => Session_Create c u idle abs ;; mret tt
  | OpGet id => Session_Get c id ;; mret tt
  | OpTouch id idle => Session_Touch c id idle
  | OpDelete id => Session_Delete c id
  end.

(** A history: operations of the store, and whatever else happens to the world
    without writing a session's key. *)
Inductive session_history : World -> World -> Prop :=
| history_start w : session_history w w
| history_op c op w w1 w2 :
    session_history w w1 ->
    (if op is OpCreate _ _ abs then fst (clock w1) + abs < 2 ^ 63 else True) ->
    snd (run_session c op w1) = w2 ->
    session_history w w2
| history_other w w1 w2 :
    session_history w w1 -> w_time w1 <= w_time w2 ->
    (forall id, same_key (server_ms w2) (w_redis w1) (w_redis w2) (sessKey id)) ->
    session_history w w2.

Lemma history_ok w w' :
  1000000000000 <= w_time w -> session_history w w' -> sessions_ok w ->
  w_time w <= w_time w' /\ sessions_ok w'.
Proof.
  intros Hw0 Hh Hok. induction Hh as [w|c op w w1 w2 _ IH Hop Hr|w w1 w2 _ IH Ht Hs]; [done|..].
  - destruct IH as [T1 K1]; [done..|]. assert (K : keeps_sessions w1 w2); [|destruct K as (? & _ & K); auto with lia].
    subst w2. destruct op as [u idle abs|id|id idle|id]; cbn [run_session].
    + go_unfold. destruct (Session_Create c u idle abs w1) as [r w2] eqn:E.
      apply Session_Create_inv in E as [K _]; [|lia|done]. by destruct r.
    + unfold Session_Get. go_unfold. destruct (Session_get c id w1) as [r w2] eqn:E.
      apply Session_get_inv in E as [K _]. by destruct r as [[]| |].
    + destruct (Session_Touch c id idle w1) as [r w2] eqn:E. apply Session_Touch_inv in E as [K _]; [done|lia].
    + destruct (Session_Delete c id w1) as [r w2] eqn:E. by apply Session_Delete_inv in E as [K _].
  - destruct IH as [T1 K1]; [done..|]. split; [lia|]. intros id. unfold sess_at. rewrite Hs by done.
    rewrite (live_later (server_ms w1)) by (unfold server_ms, Millisecond; lia). apply sess_entry_ok_alive, K1.
Qed.

(** C7. Whatever the history of the store, and whatever fails in it, a session that
    is served has not reached its absolute expiry, and its key is gone from the
    server at that instant. *)
Theorem Sessions_bounded w w1 c id s w2 :
  1000000000000 <= w_time w -> sessions_ok w -> session_history w w1 ->
  Session_Get c id w1 = (Ok s, w2) ->
  w_time w2 < se_AbsoluteExpiry s /\
  forall t, se_AbsoluteExpiry s <= t -> live (t / Millisecond) (w_redis w2) (sessKey id) = None.
Proof.
  intros Hw0 Hok Hh. destruct (history_ok w w1) as [T1 K1]; [done..|].
  unfold Session_Get. go_unfold. destruct (Session_get c id w1) as [[[s' raw]|err|] w2'] eqn:E; intros [= -> ->].
  apply Session_get_inv in E as (K & _ & [[? ?]|(t & Ht & Hs & Hlt & h & x & He & -> & Hrec)]); [done|].
  split; [done|]. intros t' Ht'. assert (Hm : server_ms w2 <= t' / Millisecond) by (unfold server_ms, Millisecond; lia).
  rewrite Hs by done. rewrite (live_later (t / Millisecond)) by (unfold Millisecond in *; lia). rewrite He.
  assert (Hx : sess_entry_ok (live (t / Millisecond) (w_redis w1) (sessKey id))).
  { rewrite (live_later (server_ms w1)) by (unfold server_ms, Millisecond; lia). apply sess_entry_ok_alive, K1. }
  destruct (Hx h x He) as (at_ & a & -> & Ha & Hle). apply alive_ge.
  apply record_session_abs in Hrec. simplify_eq. unfold Millisecond in *. lia.
Qed.
Lemma record_session_own id u cr ab csrf :
  1000000000000 <= cr < ab -> ab < 2 ^ 63 -> validSessionToken csrf = true ->
  record_session id (sess_record u cr ab csrf) = Some (MkSession id u cr ab csrf).
Proof.
  intros Hcr Hab Hv. unfold record_session.
  assert (E : field (sess_record u cr ab csrf) "user_id" = uuid_String u /\
              field (sess_record u cr ab csrf) "created_at" = encodeSessionTime cr /\
              field (sess_record u cr ab csrf) "abs_exp" = encodeSessionTime ab /\
              field (sess_record u cr ab csrf) "csrf" = csrf).
  { unfold field, sess_record, hset. simpl. by simplify_map_eq. }
  destruct E as (-> & -> & -> & ->). rewrite uuid_Parse_String, !decode_encode_time by lia.
  cbn [mbind option_bind]. rewrite Hv. unfold After. by destruct (cr <? ab) eqn:E; [|lia].
Qed.

(** C30. A created session is served, exactly as it was created, until the earlier
    of its idle and absolute limits; from then on it is not found.  A read in
    between may only fail to reach the server. *)
Theorem Session_Create_Get c u idle abs w s w1 c' w2 r w3 :
  1000000000000 <= w_time w -> fst (clock w) + abs < 2 ^ 63 ->
  Session_Create c u idle abs w = (Ok s, w1) ->
  w_time w1 <= w_time w2 -> same_key (server_ms w1) (w_redis w1) (w_redis w2) (sessKey (se_ID s)) ->
  Session_Get c' (se_ID s) w2 = (r, w3) ->
  let deadline := (se_CreatedAt s + Z.min idle abs) / Millisecond in
  se_UserID s = u /\ se_AbsoluteExpiry s = se_CreatedAt s + abs /\
  ((exists k, r = Err (Errorf "redis: get session" (terr k))) \/
   (r = Ok s /\ w_time w3 < se_AbsoluteExpiry s /\ server_ms w2 < deadline) \/
   (r = Err ErrSessionNotFound /\ deadline <= server_ms w3)).
Proof.
  intros Hw Hw' Hc Ht Hs Hg deadline.
  apply Session_Create_inv in Hc as (_ & Hi & Ha & Hcr & Hnow & Hu & Habs & Hne & Hv & Hlt & He); [|done..].
  split_and!; [done|done|]. fold deadline in Hlt, He.
  assert (Hrec : record_session (se_ID s) (sess_record u (se_CreatedAt s) (se_AbsoluteExpiry s) (se_CSRFToken s)) = Some s).
  { rewrite record_session_own by (done || lia). destruct s. simpl in *. congruence. }
  unfold Session_Get in Hg. go_unfold. destruct (Session_get c' (se_ID s) w2) as [r' w3'] eqn:E.
  assert (w3' = w3) as -> by (by destruct r' as [[]| |]; simplify_eq).
  apply Session_get_inv in E as (K & _ & [[k ->]|(t & Ht' & R)]); [left; exists k; congruence|right].
  set (e := live (t / Millisecond) (w_redis w2) (sessKey (se_ID s))) in R. cbv zeta in R.
  assert (Heq : e = if t / Millisecond <? deadline then Some (RHash (sess_record u (se_CreatedAt s)
      (se_AbsoluteExpiry s) (se_CSRFToken s)), Some deadline) else None).
  { unfold e. rewrite Hs, (live_later (server_ms w1)) by (unfold server_ms, Millisecond in *; lia).
    unfold sess_at in He. by rewrite He. }
  rewrite Heq in R. clear e Heq. unfold server_ms, Millisecond in *.
  destruct (t / 1000000 <? deadline) eqn:El; gobool.
  - destruct r' as [[s' raw]|err|]; [| |done].
    + destruct R as (_ & Hx & h & x & [= <- <-] & _ & Hs'). rewrite Hrec in Hs'. simplify_eq.
      left. split_and!; [done|done|lia].
    + injection Hg as <-. right.
      destruct err; try (destruct R as (v & x & [= <- <-] & Hbad); destruct (Hbad _ eq_refl); congruence).
      split; [done|]. destruct R as [Hid|[?|[(x & ?)|(h & x & s' & [= <- <-] & Hs' & Hle)]]]; [done..|].
      rewrite Hrec in Hs'. simplify_eq. unfold deadline. lia.
  - destruct r' as [[s' raw]|err|]; [by destruct R as (_ & _ & h & x & ? & _)| |done].
    injection Hg as <-. right. destruct err; try (by destruct R as (v & x & ? & _)). split; [done|]. lia.
Qed.
(** Ending a session is final: once a deletion has been acknowledged nothing is
    served under its id unless the key is written again. *)
Theorem Session_Delete_final c id w w1 c' w2 r w3 :
  Session_Delete c id w = (Ok tt, w1) ->
  w_time w1 <= w_time w2 -> same_key (server_ms w1) (w_redis w1) (w_redis w2) (sessKey id) ->
  Session_Get c' id w2 = (r, w3) ->
  (exists k, r = Err (Errorf "redis: get session" (terr k))) \/ r = Err ErrSessionNotFound.
Proof.
  intros Hd Ht Hs Hg. apply Session_Delete_inv in Hd as (_ & _ & Hnone). specialize (Hnone tt eq_refl).
  unfold Session_Get in Hg. go_unfold. destruct (Session_get c' id w2) as [r' w3'] eqn:E.
  apply Session_get_inv in E as (_ & _ & [[k ->]|(t & Ht' & R)]); [left; exists k; congruence|right].
  assert (Hl : live (t / Millisecond) (w_redis w2) (sessKey id) = None).
  { rewrite Hs by (unfold server_ms, Millisecond in *; lia). eapply live_none_later; [|exact Hnone].
    unfold server_ms, Millisecond in *. lia. }
  cbv zeta in R. rewrite Hl in R. destruct r' as [[s raw]|err|]; [by destruct R as (_ & _ & ? & ? & ? & _)| |done].
  injection Hg as <- <-. destruct err; try done; by destruct R as (? & ? & ? & _).
Qed.
End Sessions.

(** ** Runs *)
#[local] Existing Instance map_server.
#[local] Existing Instance ms_client.
#[local] Existing Instance canonical_uuid_text.

Definition demo_login : res Session * World := Session_Create Background uuid_Nil (30 * Minute) (12 * Hour) demo_world.
Definition demo_session : Session :=
  match fst demo_login with
  | Ok s => s
  | _ => MkSession "" uuid_Nil 0 0 ""
  end.
Definition demo_touched : res unit * World :=
  Session_Touch Background (se_ID demo_session) (30 * Minute) (later (20 * Minute) (snd demo_login)).
Definition demo_visit (w : World) : res Session * World := Session_Get Background (se_ID demo_session) w.

Lemma Session_Create_Get_witness :
  let w2 := later (29 * Minute) (snd demo_login) in
  fst (demo_visit w2) = Ok demo_session /\
  fst (demo_visit (later (30 * Minute) (snd demo_login))) = Err ErrSessionNotFound /\
  se_AbsoluteExpiry demo_session = se_CreatedAt demo_session + 12 * Hour.
Proof.
  intros w2. split; [vm_compute; reflexivity|]. split; [vm_compute; reflexivity|].
  destruct (Session_Create_Get Background uuid_Nil (30 * Minute) (12 * Hour) demo_world demo_session
    (snd demo_login) Background w2 (fst (demo_visit w2)) (snd (demo_visit w2))) as (_ & Ha & _).
  - vm_compute. discriminate.
  - vm_compute. reflexivity.
  - apply run_fst. vm_compute. reflexivity.
  - unfold w2, later, Minute. cbn [w_time]. lia.
  - intros t _. reflexivity.
  - apply surjective_pairing.
  - exact Ha.
Defined.

Lemma sessions_ok_empty : sessions_ok demo_world.
Proof. intros id h x Hx. unfold sess_at in Hx. done. Qed.

Lemma Sessions_bounded_witness :
  let w1 := later (29 * Minute) (snd demo_touched) in
  fst demo_touched = Ok tt /\
  w_time (snd (demo_visit w1)) < se_AbsoluteExpiry demo_session.
Proof.
  intros w1. split; [vm_compute; reflexivity|].
  apply (Sessions_bounded demo_world w1 Background (se_ID demo_session) demo_session (snd (demo_visit w1))).
  - vm_compute. discriminate.
  - apply sessions_ok_empty.
  - apply (history_other _ (snd demo_touched)).
    + eapply (history_op Background (OpTouch (se_ID demo_session) (30 * Minute)) _
                (later (20 * Minute) (snd demo_login))); [|done|reflexivity].
      apply (history_other _ (snd demo_login)).
      * eapply (history_op Background (OpCreate uuid_Nil (30 * Minute) (12 * Hour)) _ demo_world).
        -- constructor.
        -- vm_compute. reflexivity.
        -- cbn [run_session]. go_unfold. fold demo_login.
           rewrite (run_fst demo_login (Ok demo_session)) by (vm_compute; reflexivity). reflexivity.
      * unfold later, Minute. cbn [w_time]. lia.
      * intros id t _. reflexivity.
    + unfold w1, later, Minute. cbn [w_time]. lia.
    + intros id t _. reflexivity.
  - apply run_fst. vm_compute. reflexivity.
Defined.

Lemma Session_Delete_final_witness :
  let out := Session_Delete Background (se_ID demo_session) (snd demo_login) in
  fst out = Ok tt /\
  ((exists k, fst (demo_visit (snd out)) = Err (Errorf "redis: get session" (terr k))) \/
   fst (demo_visit (snd out)) = Err ErrSessionNotFound).
Proof.
  intros out. split; [vm_compute; reflexivity|].
  apply (Session_Delete_final Background (se_ID demo_session) (snd demo_login) (snd out) Background (snd out)
    _ (snd (demo_visit (snd out)))).
  - apply run_fst. vm_compute. reflexivity.
  - apply Z.le_refl.
  - intros t _. reflexivity.
  - apply surjective_pairing.
Defined.
