(* ===== verification/RedisOidc.v ===== *)
(** * Login state in Redis ([internal/store/redis/oidcstate.go])

    The server-side half of a login that is under way: saved as JSON under its
    state token for a few minutes, and taken at most once. *)
From S2P Require Import Prelude GoNum GoStr Codec Json Errors Rfc3339 PasteTypes Ports Redis Pg.
From S2P Require Import World RedisBody AuthTypes.

(** ** The JSON form of [auth.OIDCState] *)

Definition OIDCState_json (v : OIDCState) : json :=
  JObj [(of_str "verifier", jstr (os_Verifier v)); (of_str "nonce", jstr (os_Nonce v));
        (of_str "created_at", JStr (Format_RFC3339Nano (os_CreatedAt v)))].

(** [time.Time.MarshalJSON] refuses a year RFC 3339 cannot write. *)
Definition marshal_state (v : OIDCState) : option bytes :=
  let y := year (civil_of_days (os_CreatedAt v / Second / 86400)) in
  if (0 <=? y) && (y <? 10000) then Some (Marshal (OIDCState_json v)) else None.

(** [time.Time.UnmarshalJSON]; a writer never escapes the characters of an
    instant. *)
Definition into_time (old : Z) (j : json) : option Z :=
  match j with
  | JNull => Some old
  | JStr s => parse_RFC3339 s
  | _ => None
  end.

Definition OIDCState_member (v : OIDCState) (m : bytes * json) : option OIDCState :=
  let '(n, j) := m in
  if matches n "verifier" then
    x ← into_string (os_Verifier v) j; Some (MkOIDCState x (os_Nonce v) (os_CreatedAt v))
  else if matches n "nonce" then
    x ← into_string (os_Nonce v) j; Some (MkOIDCState (os_Verifier v) x (os_CreatedAt v))
  else if matches n "created_at" then
    x ← into_time (os_CreatedAt v) j; Some (MkOIDCState (os_Verifier v) (os_Nonce v) x)
  else Some v.

Definition OIDCState_of_json (j : json) : option OIDCState :=
  match j with
  | JNull => Some (MkOIDCState "" "" zero_time)
  | JObj l => members OIDCState_member (MkOIDCState "" "" zero_time) l
  | _ => None
  end.
Definition unmarshal_state (b : bytes) : option OIDCState := parse_json b ≫= OIDCState_of_json.

Definition state_typed (v : OIDCState) : Prop :=
  utf8_ValidString (os_Verifier v) = true /\ utf8_ValidString (os_Nonce v) = true.

Lemma digit_ascii d : 0 <= d < 10 -> ascii (Decimal.digit d) = true.
Proof. intros Hd. unfold ascii. rewrite Decimal.bval_digit by done. lia. Qed.

Lemma Format_RFC3339Nano_ascii t :
  rfc3339_year t -> Forall (fun b => ascii b = true) (Format_RFC3339Nano t).
Proof.
  unfold rfc3339_year. intros Hy. rewrite Format_RFC3339Nano_eq. unfold date_text, append_year.
  destruct ((0 <=? year _) && _) eqn:E; [|lia]. unfold append4, append2, clock_text, dig.
  repeat first [apply Forall_app_2 | apply Forall_cons_2 | apply Forall_nil_2 | apply digit_ascii, dig_range | done].
  all: try (apply digit_ascii; lia).
  destruct (decide (t mod Second = 0)) as [-> |Hne]; [apply Forall_nil_2|].
  destruct (frac_digits (t mod Second)) as (l & -> & _ & Hl & _).
  { pose proof (Z.mod_pos_bound t Second ltac:(done)). lia. }
  constructor; [done|]. eapply Forall_impl; [exact Hl|]. intros b. unfold Decimal.is_digit, ascii. lia.
Qed.

Lemma OIDCState_members v j :
  OIDCState_member v (of_str "verifier", j) =
    (x ← into_string (os_Verifier v) j; Some (MkOIDCState x (os_Nonce v) (os_CreatedAt v))) /\
  OIDCState_member v (of_str "nonce", j) =
    (x ← into_string (os_Nonce v) j; Some (MkOIDCState (os_Verifier v) x (os_CreatedAt v))) /\
  OIDCState_member v (of_str "created_at", j) =
    (x ← into_time (os_CreatedAt v) j; Some (MkOIDCState (os_Verifier v) (os_Nonce v) x)).
Proof. by split_and!. Qed.

Lemma OIDCState_json_of v :
  rfc3339_year (os_CreatedAt v) -> OIDCState_of_json (OIDCState_json v) = Some v.
Proof.
  intros Hy. destruct v as [ver non cr]. unfold OIDCState_json, OIDCState_of_json.
  cbn [os_Verifier os_Nonce os_CreatedAt] in *. apply parse_Format in Hy.
  generalize dependent (Format_RFC3339Nano cr). intros text Hy. cbn [members].
  destruct (OIDCState_members (MkOIDCState "" "" zero_time) (jstr ver)) as (-> & _ & _).
  rewrite into_jstr. cbn [mbind option_bind os_Nonce os_CreatedAt].
  destruct (OIDCState_members (MkOIDCState ver "" zero_time) (jstr non)) as (_ & -> & _).
  rewrite into_jstr. cbn [mbind option_bind os_Verifier os_CreatedAt].
  destruct (OIDCState_members (MkOIDCState ver non zero_time) (JStr text)) as (_ & _ & ->).
  cbn [into_time os_Verifier os_Nonce os_CreatedAt]. by rewrite Hy.
Qed.

Lemma OIDCState_json_ok v : state_typed v -> rfc3339_year (os_CreatedAt v) -> json_ok (OIDCState_json v).
Proof.
  intros [Hv Hn] Hy. pose proof (ascii_utf8 _ (Format_RFC3339Nano_ascii _ Hy)) as Hf.
  unfold OIDCState_json. generalize dependent (Format_RFC3339Nano (os_CreatedAt v)). intros text Hf.
  apply ok_obj. solve_json.
Qed.

Lemma unmarshal_marshal_state v b :
  state_typed v -> marshal_state v = Some b -> unmarshal_state b = Some v.
Proof.
  intros Ht Hb. unfold marshal_state in Hb. destruct (_ && _) eqn:Ey in Hb; [|done].
  assert (Hy : rfc3339_year (os_CreatedAt v)) by (unfold rfc3339_year; lia). clear Ey.
  pose proof (OIDCState_json_of v Hy) as Hof. pose proof (OIDCState_json_ok v Ht Hy) as Hok.
  generalize dependent (OIDCState_json v). intros j Hb Hof Hok. injection Hb as <-.
  unfold unmarshal_state. by rewrite parse_Marshal.
Qed.

(** ** The store *)
Section States.
Context `{RedisServer} `{RedisClient}.

Definition oidcKey (state : string) : string := "oidc:" +:+ state.

Definition validOIDCState (state : string) (value : OIDCState) : bool :=
  negb (bool_decide (state = "")) && negb (bool_decide (os_Verifier value = "")) &&
  negb (bool_decide (os_Nonce value = "")) && negb (IsZero (os_CreatedAt value)).

Definition State_Save (c : ctx) (state : string) (value : OIDCState) (ttl : Z) : M World unit :=
  if ttl <=? 0 then throw (NewError "redis: oidc state ttl must be positive")
  else if negb (validOIDCState state value) then throw ErrOIDCStateInvalid
  else
    match marshal_state value with
    | None => throw (NewError "redis: encode oidc state")
    | Some record => wrap (Errorf "redis: save oidc state") (client_Set c (oidcKey state) record ttl)
    end.

Definition State_Take (c : ctx) (state : string) : M World OIDCState :=
  if bool_decide (state = "") then throw ErrOIDCStateInvalid
  else
    r ← try (client_GetDel c (oidcKey state));
    match r with
    | inl err =>
        if errors_Is err RedisNil then throw ErrOIDCStateInvalid
        else throw (Errorf "redis: take oidc state" err)
    | inr record =>
        match (if bool_decide (record = []) then None else unmarshal_state record) with
        | Some value => if negb (validOIDCState state value) then throw ErrOIDCStateInvalid else mret value
        | None => throw ErrOIDCStateInvalid
        end
    end.

Definition NewOIDCStateStore : OIDCStateStore World := MkOIDCStateStore World State_Save State_Take.

Definition state_at (w : World) (state : string) : option entry :=
  live (server_ms w) (w_redis w) (oidcKey state).

Lemma State_Save_spec c state v ttl w r w' :
  State_Save c state v ttl w = (r, w') ->
  w_time w <= w_time w' /\ w_pg w' = w_pg w /\
  (forall k, k <> oidcKey state -> same_key (server_ms w') (w_redis w) (w_redis w') k) /\
  match r with
  | Ok _ => 0 < ttl /\ validOIDCState state v = true /\
      exists b, marshal_state v = Some b /\
        state_at w' state = Some (RString b, Some (server_ms w' + Z.max ttl Millisecond / Millisecond))
  | Err _ => True
  | Panic => False
  end.
Proof.
  unfold State_Save. intros Hr. destruct (ttl <=? 0) eqn:Et; [by injection Hr as <- <-|].
  destruct (validOIDCState state v) eqn:Ev; cbn [negb] in Hr; [|by injection Hr as <- <-].
  destruct (marshal_state v) as [b|] eqn:Eb; [|by injection Hr as <- <-].
  unfold client_Set in Hr. go_unfold. destruct (run_cmd c _ w) as [r0 w0] eqn:Ec.
  apply run_cmd_inv in Ec as (Ht & Hp & Hd & Hr0).
  assert (w' = w0) as -> by (by destruct r0; simplify_eq/=).
  assert (Hpx : px_of ttl = Some (Z.max ttl Millisecond / Millisecond)).
  { gobool. destruct (decide (ttl < Millisecond)) as [Hl|Hl].
    - rewrite px_of_tiny by lia. by rewrite Z.max_r by lia.
    - rewrite px_of_pos by lia. by rewrite Z.max_l by lia. }
  split_and!; [done|done| |].
  - intros k Hk. destruct Hd as [-> | ->]; [done|by apply same_key_exec].
  - destruct r0 as [a|err|]; simplify_eq/=; [|done|done]. split_and!; [gobool; lia|done|]. exists b.
    split; [done|]. destruct Hr0 as [E _]. unfold state_at. rewrite E, live_exec, bool_decide_true by done.
    rewrite Hpx. simpl. destruct (_ <? _) eqn:El; [done|]. unfold Millisecond in *. lia.
Qed.

Lemma State_Take_spec c state w r w' :
  State_Take c state w = (r, w') ->
  w_time w <= w_time w' /\ w_pg w' = w_pg w /\
  (forall k, k <> oidcKey state -> same_key (server_ms w') (w_redis w) (w_redis w') k) /\
  let e := live (server_ms w') (w_redis w) (oidcKey state) in
  match r with
  | Ok v => state_at w' state = None /\ validOIDCState state v = true /\
      exists b x, e = Some (RString b, x) /\ unmarshal_state b = Some v
  | Err err =>
      (exists k, err = Errorf "redis: take oidc state" (terr k)) \/
      (exists h x, e = Some (RHash h, x)) \/
      (err = ErrOIDCStateInvalid /\
       forall b x v, e = Some (RString b, x) -> state <> "" -> b <> [] -> unmarshal_state b = Some v ->
         validOIDCState state v = false)
  | Panic => False
  end.
Proof.
  unfold State_Take. case_bool_decide as Es.
  { intros [= <- <-]. split_and!; [done|done|done|]. right; right. by split. }
  unfold client_GetDel. intros Hr. go_unfold. destruct (run_cmd c _ w) as [r0 w0] eqn:Ec.
  apply run_cmd_inv in Ec as (Ht & Hp & Hd & Hr0).
  assert (w' = w0) as -> by (unfold as_bytes, unexpected in Hr; go_unfold; repeat case_match; by simplify_eq/=).
  split_and!; [done|done| |].
  { intros k Hk. destruct Hd as [-> | ->]; [done|by apply same_key_exec]. }
  cbv zeta. destruct r0 as [rep|err|]; [| |done].
  - destruct Hr0 as [E ->]. cbn [documented fst key_of] in Hr.
    assert (Hs : state_at w0 state = alive (server_ms w0)
      (snd (documented (GETDEL (oidcKey state)) (server_ms w0) (live (server_ms w0) (w_redis w) (oidcKey state))))).
    { unfold state_at. by rewrite E, live_exec, bool_decide_true. }
    destruct (live (server_ms w0) (w_redis w) (oidcKey state)) as [[[b|h] x]|] eqn:El; cbn -[unmarshal_state validOIDCState] in Hr, Hs.
    + case_bool_decide as Eb.
      { injection Hr as <-. right; right. split; [done|]. intros ? ? ? [= <- <-]. done. }
      destruct (unmarshal_state b) as [v|] eqn:Eu; cbn -[unmarshal_state validOIDCState] in Hr.
      2: { injection Hr as <-. right; right. split; [done|]. intros ? ? ? [= <- <-]. congruence. }
      destruct (validOIDCState state v) eqn:Ev; cbn -[unmarshal_state validOIDCState] in Hr; injection Hr as <-.
      * split_and!; [done|done|]. by exists b, x.
      * right; right. split; [done|]. intros ? ? ? [= <- <-] _ _. rewrite Eu. congruence.
    + injection Hr as <-. right; left. by exists h, x.
    + injection Hr as <-. right; right. by split.
  - cbn -[unmarshal_state validOIDCState] in Hr. destruct Hr0 as [[k ->]|(msg & -> & Hm)].
    + assert (errors_Is (terr k) RedisNil = false) as Hne by by destruct k. rewrite Hne in Hr.
      injection Hr as <-. left. by exists k.
    + cbn [documented fst key_of] in Hm. assert (errors_Is (NewError msg) RedisNil = false) as Hne by done.
      rewrite Hne in Hr. injection Hr as <-. right; left.
      destruct (live _ _ _) as [[[b|h] x]|]; simplify_eq/=. by exists h, x.
Qed.

(** A saved state is handed out as it was saved, within its time to live; a
    take later than that finds nothing. *)
Theorem State_Save_Take c state v ttl w w1 c' w2 r w3 :
  state_typed v -> State_Save c state v ttl w = (Ok tt, w1) ->
  w_time w1 <= w_time w2 -> same_key (server_ms w1) (w_redis w1) (w_redis w2) (oidcKey state) ->
  State_Take c' state w2 = (r, w3) ->
  (exists k, r = Err (Errorf "redis: take oidc state" (terr k))) \/
  r = (if server_ms w3 <? server_ms w1 + Z.max ttl Millisecond / Millisecond then Ok v
       else Err ErrOIDCStateInvalid).
Proof.
  intros Hty Hs Ht Hsame Htk. apply State_Save_spec in Hs as (_ & _ & _ & Hpos & Hval & b & Hb & Hst).
  apply State_Take_spec in Htk as (Ht3 & _ & _ & Hr). cbv zeta in Hr.
  pose proof (unmarshal_marshal_state _ _ Hty Hb) as Hu.
  assert (He : live (server_ms w3) (w_redis w2) (oidcKey state) =
    alive (server_ms w3) (Some (RString b, Some (server_ms w1 + Z.max ttl Millisecond / Millisecond)))).
  { rewrite Hsame, (live_later (server_ms w1)) by (unfold server_ms, Millisecond in *; lia).
    unfold state_at in Hst. by rewrite Hst. }
  rewrite He in Hr. cbn [alive] in Hr. clear He.
  destruct (server_ms w3 <? _) eqn:El.
  - destruct r as [v'|err|]; [| |done].
    + destruct Hr as (_ & _ & b' & x & [= <- <-] & Hu'). right. congruence.
    + destruct Hr as [[k ->]|[(h & x & ?)|(-> & Hbad)]]; [left; by exists k|done|].
      assert (Hsn : state <> "") by (intros ->; by unfold validOIDCState in Hval).
      rewrite (Hbad b _ v eq_refl) in Hval; [done|done| |done]. intros ->. by vm_compute in Hu.
  - destruct r as [v'|err|]; [by destruct Hr as (_ & _ & ? & ? & ? & _)| |done].
    destruct Hr as [[k ->]|[(h & x & ?)|(-> & _)]]; [left; by exists k|done|by right].
Qed.

(** A state is taken at most once: after a take that succeeded, every later
    take fails unless somebody saves the state anew. *)
Theorem State_Take_once c state w v w1 c' w2 r w3 :
  State_Take c state w = (Ok v, w1) ->
  w_time w1 <= w_time w2 -> same_key (server_ms w1) (w_redis w1) (w_redis w2) (oidcKey state) ->
  State_Take c' state w2 = (r, w3) ->
  r = Err ErrOIDCStateInvalid \/ exists k, r = Err (Errorf "redis: take oidc state" (terr k)).
Proof.
  intros (_ & _ & _ & Hst & _)%State_Take_spec Ht Hsame (Ht3 & _ & _ & Hr)%State_Take_spec. cbv zeta in Hr.
  assert (He : live (server_ms w3) (w_redis w2) (oidcKey state) = None).
  { rewrite Hsame by (unfold server_ms, Millisecond in *; lia). eapply live_none_later; [|exact Hst].
    unfold server_ms, Millisecond in *. lia. }
  rewrite He in Hr. destruct r as [v'|err|]; [by destruct Hr as (_ & _ & ? & ? & ? & _)| |done].
  destruct Hr as [[k ->]|[(h & x & ?)|(-> & _)]]; [right; by exists k|done|by left].
Qed.
End States.

(** ** Runs *)
#[local] Existing Instance map_server.
#[local] Existing Instance ms_client.

Definition demo_state : OIDCState := MkOIDCState "verifier" "nonce" (1700000000 * Second + 120000000).
Definition demo_save : res unit * World := State_Save Background "st" demo_state (5 * Minute) demo_world.
Definition demo_take : res OIDCState * World := State_Take Background "st" (snd demo_save).
Definition demo_retake : res OIDCState * World := State_Take Background "st" (snd demo_take).

Lemma State_Save_Take_witness :
  fst demo_take = Ok demo_state /\
  ((exists k, fst demo_take = Err (Errorf "redis: take oidc state" (terr k))) \/
   fst demo_take = (if server_ms (snd demo_take) <? server_ms (snd demo_save) + Z.max (5 * Minute) Millisecond / Millisecond
                    then Ok demo_state else Err ErrOIDCStateInvalid)).
Proof.
  split; [vm_compute; reflexivity|].
  apply (State_Save_Take Background "st" demo_state (5 * Minute) demo_world (snd demo_save) Background (snd demo_save)
    (fst demo_take) (snd demo_take)).
  - split; vm_compute; reflexivity.
  - apply run_fst. vm_compute. reflexivity.
  - apply Z.le_refl.
  - intros t _. reflexivity.
  - apply surjective_pairing.
Defined.

Lemma State_Take_once_witness :
  fst demo_take = Ok demo_state /\
  (fst demo_retake = Err ErrOIDCStateInvalid \/
   exists k, fst demo_retake = Err (Errorf "redis: take oidc state" (terr k))).
Proof.
  split; [vm_compute; reflexivity|].
  apply (State_Take_once Background "st" (snd demo_save) demo_state (snd demo_take) Background (snd demo_take)
    (fst demo_retake) (snd demo_retake)).
  - apply run_fst. vm_compute. reflexivity.
  - apply Z.le_refl.
  - intros t _. reflexivity.
  - apply surjective_pairing.
Defined.
