(* ===== verification/PgUsers.v ===== *)
(** * Users in Postgres ([internal/store/postgres/users.go])

    The statements of the user store as functions on the tables, the store over
    them, what the schema keeps of a user and what an upsert may change. *)
From S2P Require Import Prelude GoNum GoStr Codec Json Errors PasteTypes.
From S2P Require Import Ports Redis Pg World PgPastes AuthTypes.

Section Users.
Context `{RedisServer} `{PgTypes}.

(** ** Rows *)

(** [scanUser] over [userColumns]: [COALESCE(column, '')]. *)
Definition scanUser (r : UserRow) : User :=
  MkUser (u_id r) (u_username r) (default "" (u_display_name r)) (u_auth_provider r)
    (default "" (u_oidc_issuer r)) (default "" (u_oidc_subject r)) (default "" (u_password_hash r))
    (u_is_admin r) (u_disabled r) (u_created_at r) (u_last_login_at r).

Definition isUniqueViolation (err : error) : bool :=
  if as_PgError err is Some code then bool_decide (code = "23505") else false.

Definition nullableString (value : string) : option string :=
  if bool_decide (value = "") then None else Some value.

(** The row [Create] inserts at the server's [now()]. *)
Definition row_of_user (u : User) (now : Z) : UserRow :=
  MkUserRow (us_ID u) (us_Username u) (nullableString (us_DisplayName u)) (us_Provider u)
    (nullableString (us_OIDCIssuer u)) (nullableString (us_OIDCSubject u))
    (nullableString (us_PasswordHash u)) (us_IsAdmin u) (us_Disabled u) (timestamptz now) None.

(** The row [UpsertOIDC] proposes for insertion. *)
Definition oidc_row (u : User) (now : Z) : UserRow :=
  MkUserRow (us_ID u) (us_Username u) (nullableString (us_DisplayName u)) "oidc"
    (Some (us_OIDCIssuer u)) (Some (us_OIDCSubject u)) None (us_IsAdmin u) false
    (timestamptz now) (Some (timestamptz now)).

Definition set_password (phc : string) (r : UserRow) : UserRow :=
  MkUserRow (u_id r) (u_username r) (u_display_name r) (u_auth_provider r) (u_oidc_issuer r)
    (u_oidc_subject r) (Some phc) (u_is_admin r) (u_disabled r) (u_created_at r) (u_last_login_at r).
Definition set_disabled (b : bool) (r : UserRow) : UserRow :=
  MkUserRow (u_id r) (u_username r) (u_display_name r) (u_auth_provider r) (u_oidc_issuer r)
    (u_oidc_subject r) (u_password_hash r) (u_is_admin r) b (u_created_at r) (u_last_login_at r).
Definition set_login (at_ : Z) (r : UserRow) : UserRow :=
  MkUserRow (u_id r) (u_username r) (u_display_name r) (u_auth_provider r) (u_oidc_issuer r)
    (u_oidc_subject r) (u_password_hash r) (u_is_admin r) (u_disabled r) (u_created_at r) (Some at_).
Definition set_profile (name : option string) (admin : bool) (at_ : Z) (r : UserRow) : UserRow :=
  MkUserRow (u_id r) (u_username r) name (u_auth_provider r) (u_oidc_issuer r)
    (u_oidc_subject r) (u_password_hash r) admin (u_disabled r) (u_created_at r) (Some at_).

(** ** Statements *)

(** UNIQUE (oidc_issuer, oidc_subject): NULLs are distinct. *)
Definition same_oidc (a b : UserRow) : bool :=
  match u_oidc_issuer a, u_oidc_subject a, u_oidc_issuer b, u_oidc_subject b with
  | Some i, Some s, Some i', Some s' => bool_decide (i = i') && bool_decide (s = s')
  | _, _, _, _ => false
  end.

Definition user_text_ok (r : UserRow) : bool :=
  text_ok (u_username r) && opt_text_ok (u_display_name r) && text_ok (u_auth_provider r) &&
  opt_text_ok (u_oidc_issuer r) && opt_text_ok (u_oidc_subject r) && opt_text_ok (u_password_hash r).

Definition provider_ok (p : string) : bool := bool_decide (p = "local") || bool_decide (p = "oidc").

(** INSERT INTO users: parameters, then the check constraint, then the indexes. *)
Definition insert_user (r : UserRow) (t : Tables) : res unit * Tables :=
  if negb (user_text_ok r) then (Err invalid_text, t)
  else if negb (provider_ok (u_auth_provider r)) then (Err check_violation, t)
  else if existsb (fun r' => bool_decide (u_id r' = u_id r) || bool_decide (u_username r' = u_username r) ||
                             same_oidc r' r) (t_users t)
  then (Err unique_violation, t)
  else (Ok tt, set_users (t_users t ++ [r]) t).

(** UPDATE users SET f WHERE q *)
Definition update_users (q : UserRow -> bool) (f : UserRow -> UserRow) (t : Tables) : Tables :=
  set_users (map (fun r => if q r then f r else r) (t_users t)) t.

Definition user_is (id : uuid) (r : UserRow) : bool := bool_decide (u_id r = id).

(** INSERT ... ON CONFLICT (oidc_issuer, oidc_subject) DO UPDATE ... RETURNING *)
Definition upsert_oidc (u : User) (now : Z) (t : Tables) : res User * Tables :=
  let new := oidc_row u now in
  if negb (user_text_ok new) then (Err invalid_text, t)
  else
    match List.find (fun r => same_oidc r new) (t_users t) with
    | Some old =>
        let f := set_profile (u_display_name new) (u_is_admin new) (timestamptz now) in
        (Ok (scanUser (f old)), update_users (fun r => same_oidc r new) f t)
    | None =>
        match insert_user new t with
        | (Ok _, t') => (Ok (scanUser new), t')
        | (Err e, t') => (Err e, t')
        | (Panic, t') => (Panic, t')
        end
    end.

Definition select_user (q : UserRow -> bool) (params : list string) (_ : Z) (t : Tables) : res User * Tables :=
  if negb (forallb text_ok params) then (Err invalid_text, t)
  else (match List.find q (t_users t) with Some r => Ok (scanUser r) | None => Err ErrNoRows end, t).

Definition update_stmt (q : UserRow -> bool) (f : UserRow -> UserRow) (params : list string) (_ : Z) (t : Tables)
    : res unit * Tables :=
  if negb (forallb text_ok params) then (Err invalid_text, t) else (Ok tt, update_users q f t).

(** ** The store *)

Definition User_Create (c : ctx) (u : User) : M World unit :=
  r ← try (pg_do c (fun now => insert_user (row_of_user u now)));
  match r with
  | inl err =>
      if isUniqueViolation err then throw ErrUserExists else throw (Errorf "postgres: create user" err)
  | inr _ => mret tt
  end.

(** [scanUser] on a query: no row is [ErrUserNotFound]. *)
Definition query_user (c : ctx) (q : UserRow -> bool) (params : list string) : M World User :=
  r ← try (pg_do c (select_user q params));
  match r with
  | inl err => if errors_Is err ErrNoRows then throw ErrUserNotFound else throw err
  | inr u => mret u
  end.

Definition User_GetByID (c : ctx) (id : uuid) : M World User := query_user c (user_is id) [].
Definition User_GetByUsername (c : ctx) (username : string) : M World User :=
  query_user c (fun r => bool_decide (u_username r = username)) [username].
Definition User_GetByOIDC (c : ctx) (issuer subject : string) : M World User :=
  query_user c (fun r => bool_decide (u_oidc_issuer r = Some issuer) && bool_decide (u_oidc_subject r = Some subject))
    [issuer; subject].

Definition User_UpsertOIDC (c : ctx) (u : User) : M World User :=
  r ← try (pg_do c (upsert_oidc u));
  match r with
  | inl err =>
      if isUniqueViolation err then throw ErrUserExists else throw (Errorf "postgres: upsert OIDC user" err)
  | inr stored => mret stored
  end.

Definition User_SetPasswordHash (c : ctx) (id : uuid) (phc : string) : M World unit :=
  wrap (Errorf "postgres: set password hash") (pg_do c (update_stmt (user_is id) (set_password phc) [phc])).
Definition User_SetDisabled (c : ctx) (id : uuid) (disabled : bool) : M World unit :=
  wrap (Errorf "postgres: set user disabled") (pg_do c (update_stmt (user_is id) (set_disabled disabled) [])).
Definition User_TouchLogin (c : ctx) (id : uuid) (at_ : Z) : M World unit :=
  wrap (Errorf "postgres: touch user login") (pg_do c (update_stmt (user_is id) (set_login (timestamptz at_)) [])).

(** ORDER BY username *)
Definition User_List (c : ctx) : M World (list User) :=
  wrap (Errorf "postgres: list users")
    (pg_do c (fun _ t =>
       (Ok (map scanUser (order_by (fun a b => text_le (u_username a) (u_username b)) (t_users t))), t))).

Definition NewUserStore : UserStore World :=
  MkUserStore World User_Create User_GetByID User_GetByUsername User_GetByOIDC User_UpsertOIDC
    User_SetPasswordHash User_SetDisabled User_TouchLogin User_List.

(** ** What the schema keeps *)

Definition users_ok (t : Tables) : Prop :=
  NoDup (map u_id (t_users t)) /\ NoDup (map u_username (t_users t)) /\
  (forall i j a b, t_users t !! i = Some a -> t_users t !! j = Some b -> same_oidc a b = true -> i = j) /\
  Forall (fun r => provider_ok (u_auth_provider r) = true) (t_users t).

(** Who a user is: what no operation changes. *)
Definition identity (r : UserRow) : uuid * string * string * option string * option string * Z :=
  (u_id r, u_username r, u_auth_provider r, u_oidc_issuer r, u_oidc_subject r, u_created_at r).

Lemma same_oidc_identity a b a' b' :
  identity a = identity a' -> identity b = identity b' -> same_oidc a b = same_oidc a' b'.
Proof. unfold identity, same_oidc. intros [= _ _ _ -> -> _] [= _ _ _ -> -> _]. done. Qed.

Lemma same_oidc_sym a b : same_oidc a b = same_oidc b a.
Proof.
  unfold same_oidc. destruct (u_oidc_issuer a), (u_oidc_subject a), (u_oidc_issuer b), (u_oidc_subject b); try done.
  f_equal; by apply bool_decide_ext.
Qed.

(** A rewriting of the rows that leaves every identity alone. *)
Lemma users_ok_map (f : UserRow -> UserRow) t :
  (forall r, identity (f r) = identity r) -> users_ok t -> users_ok (set_users (map f (t_users t)) t).
Proof.
  intros Hf (Hid & Hname & Ho & Hp). unfold users_ok. cbn [t_users set_users]. rewrite !map_map.
  assert (forall r, u_id (f r) = u_id r /\ u_username (f r) = u_username r /\ u_auth_provider (f r) = u_auth_provider r)
    as Hff by (intros r; specialize (Hf r); unfold identity in Hf; by simplify_eq).
  rewrite (map_ext (fun x => u_id (f x)) u_id), (map_ext (fun x => u_username (f x)) u_username) by apply Hff.
  split_and!; [done|done| |].
  - intros i j a b Ha Hb Hs. rewrite list_lookup_fmap in Ha, Hb.
    destruct (t_users t !! i) as [a'|] eqn:Ea; [|done]. destruct (t_users t !! j) as [b'|] eqn:Eb; [|done].
    simplify_eq/=. eapply Ho; [done|done|]. by rewrite <-(same_oidc_identity (f a') (f b')).
  - apply Forall_map. eapply Forall_impl; [exact Hp|]. intros r. simpl. destruct (Hff r) as (_ & _ & E). by rewrite E.
Qed.

Lemma users_ok_insert r t :
  users_ok t -> fst (insert_user r t) = Ok tt -> users_ok (snd (insert_user r t)).
Proof.
  intros (Hid & Hname & Ho & Hp). unfold insert_user. destruct (user_text_ok r); simpl; [|done].
  destruct (provider_ok (u_auth_provider r)) eqn:Ep; simpl; [|done].
  destruct (existsb _ _) eqn:Ex; simpl; [done|]. intros _. unfold users_ok. cbn [t_users set_users].
  assert (Hnone : forall r', r' ∈ t_users t -> u_id r' <> u_id r /\ u_username r' <> u_username r /\ same_oidc r' r = false).
  { intros r' Hin. apply not_true_iff_false in Ex. rewrite existsb_exists in Ex.
    destruct (bool_decide (u_id r' = u_id r) || bool_decide (u_username r' = u_username r) || same_oidc r' r) eqn:E.
    - destruct Ex. exists r'. split; [by apply list_elem_of_In|done].
    - rewrite !orb_false_iff in E. destruct E as [[E1 E2] E3]. by gobool. }
  rewrite !map_app. split_and!.
  - apply NoDup_app. split_and!; [done| |apply NoDup_singleton].
    intros x (r' & E & Hin)%list_elem_of_fmap ->%list_elem_of_singleton. by destruct (Hnone r' Hin) as (? & _).
  - apply NoDup_app. split_and!; [done| |apply NoDup_singleton].
    intros x (r' & E & Hin)%list_elem_of_fmap ->%list_elem_of_singleton. by destruct (Hnone r' Hin) as (_ & ? & _).
  - intros i j a b Ha Hb Hs. apply lookup_snoc_Some in Ha, Hb.
    destruct Ha as [[Hi Ha]|[-> ->]], Hb as [[Hj Hb]|[-> ->]]; [by eapply Ho| | |done].
    + apply list_elem_of_lookup_2, Hnone in Ha as (_ & _ & ?). congruence.
    + apply list_elem_of_lookup_2, Hnone in Hb as (_ & _ & ?). rewrite same_oidc_sym in Hs. congruence.
  - apply Forall_app. split; [done|]. by apply Forall_singleton.
Qed.

(** ** Operations *)

Inductive UserOp : Type :=
| UCreate (u : User)
| UGetByID (id : uuid)
| UGetByUsername (name : string)
| UGetByOIDC (issuer subject : string)
| UUpsert (u : User)
| USetPassword (id : uuid) (phc : string)
| USetDisabled (id : uuid) (b : bool)
| UTouchLogin (id : uuid) (at_ : Z)
| UList.

Definition run_user (c : ctx) (op : UserOp) : M World unit :=
  match op with
  | UCreate u => User_Create c u
  | UGetByID id => User_GetByID c id ;; mret tt
  | UGetByUsername name => User_GetByUsername c name ;; mret tt
  | UGetByOIDC i s => User_GetByOIDC c i s ;; mret tt
  | UUpsert u => User_UpsertOIDC c u ;; mret tt
  | USetPassword id phc => User_SetPasswordHash c id phc
  | USetDisabled id b => User_SetDisabled c id b
  | UTouchLogin id at_ => User_TouchLogin c id at_
  | UList => User_List c ;; mret tt
  end.

Definition sets_disabled (op : UserOp) (r : UserRow) : Prop := exists b, op = USetDisabled (u_id r) b.
Definition sets_password (op : UserOp) (r : UserRow) : Prop := exists phc, op = USetPassword (u_id r) phc.
Definition sets_admin (op : UserOp) (r : UserRow) : Prop := exists u,
  op = UUpsert u /\ u_oidc_issuer r = Some (us_OIDCIssuer u) /\ u_oidc_subject r = Some (us_OIDCSubject u).
Definition adds (op : UserOp) (r : UserRow) : Prop := exists u now,
  (op = UCreate u /\ r = row_of_user u now) \/ (op = UUpsert u /\ r = oidc_row u now).

(** How the tables may change: each row keeps its identity, its hash, its
    disabled flag and its privileges unless the operation is about them; rows
    are only added, and only by the operations that create users. *)
Definition users_evolve (op : UserOp) (t t' : Tables) : Prop :=
  t_pastes t' = t_pastes t /\ t_audit_events t' = t_audit_events t /\
  exists f extra, t_users t' = map f (t_users t) ++ extra /\ Forall (adds op) extra /\
    forall r, identity (f r) = identity r /\
      (u_disabled (f r) = u_disabled r \/ sets_disabled op r) /\
      (u_password_hash (f r) = u_password_hash r \/ sets_password op r) /\
      (u_is_admin (f r) = u_is_admin r \/ sets_admin op r).

Definition keeps_users (op : UserOp) (t t' : Tables) : Prop := users_ok t -> users_ok t' /\ users_evolve op t t'.

Lemma keeps_users_same op t : keeps_users op t t.
Proof.
  intros Hok. split; [done|]. split_and!; [done|done|]. exists (fun r => r), [].
  rewrite map_id, app_nil_r. split_and!; [done|constructor|]. by auto 6.
Qed.

Lemma keeps_users_update op q f t :
  (forall r, q r = true -> identity (f r) = identity r /\
      (u_disabled (f r) = u_disabled r \/ sets_disabled op r) /\
      (u_password_hash (f r) = u_password_hash r \/ sets_password op r) /\
      (u_is_admin (f r) = u_is_admin r \/ sets_admin op r)) ->
  keeps_users op t (update_users q f t).
Proof.
  intros Hf Hok. set (g := fun r => if q r then f r else r).
  assert (Hg : forall r, identity (g r) = identity r /\ (u_disabled (g r) = u_disabled r \/ sets_disabled op r) /\
    (u_password_hash (g r) = u_password_hash r \/ sets_password op r) /\
    (u_is_admin (g r) = u_is_admin r \/ sets_admin op r)).
  { intros r. unfold g. destruct (q r) eqn:E; [by apply Hf|by auto]. }
  split; [apply users_ok_map; [apply Hg|done]|]. split_and!; [done|done|]. exists g, [].
  rewrite app_nil_r. by split_and!.
Qed.

Lemma keeps_users_insert op r t : adds op r -> keeps_users op t (snd (insert_user r t)).
Proof.
  intros Ha Hok. pose proof (users_ok_insert r t Hok) as Hi. unfold insert_user in *.
  repeat (case_match; [by apply keeps_users_same|]). split; [by apply Hi|]. split_and!; [done|done|].
  exists (fun r => r), [r]. rewrite map_id. split_and!; [done|by constructor|]. by auto 6.
Qed.

Lemma keeps_users_do op {A} c (stmt : Z -> Tables -> res A * Tables) w :
  (forall now t, keeps_users op t (snd (stmt now t))) ->
  keeps_users op (w_pg w) (w_pg (snd (pg_do c stmt w))).
Proof.
  intros Hs. destruct (pg_do c stmt w) as [r w'] eqn:E. cbn [snd]. apply pg_do_inv in E as (_ & _ & [[-> _]|[-> _]]).
  - apply keeps_users_same.
  - apply Hs.
Qed.

Lemma snd_try {S A} (m : M S A) s : snd (try m s) = snd (m s).
Proof. unfold try. by destruct (m s) as [[] ?]. Qed.
Lemma snd_wrap {S A} f (m : M S A) s : snd (wrap f m s) = snd (m s).
Proof. unfold wrap. by destruct (m s) as [[] ?]. Qed.

(** A call followed by a decision on its result ends in the world of the call. *)
Lemma snd_bind_quiet {S A B} (m : M S A) (k : A -> M S B) s :
  (forall a s, snd (k a s) = s) -> snd ((m ≫= k) s) = snd (m s).
Proof. intros Hk. unfold mbind, M_bind. destruct (m s) as [[a|e|] s']; simpl; [apply Hk|done|done]. Qed.

Lemma snd_query c q params w : snd (query_user c q params w) = snd (pg_do c (select_user q params) w).
Proof.
  unfold query_user. rewrite snd_bind_quiet; [apply snd_try|].
  intros [err|u] s; [by destruct (errors_Is err ErrNoRows)|done].
Qed.

Lemma snd_upsert c u w : snd (User_UpsertOIDC c u w) = snd (pg_do c (upsert_oidc u) w).
Proof.
  unfold User_UpsertOIDC. rewrite snd_bind_quiet; [apply snd_try|].
  intros [err|st] s; [by destruct (isUniqueViolation err)|done].
Qed.

Lemma select_user_same q params now t : snd (select_user q params now t) = t.
Proof. unfold select_user. by case_match. Qed.

Lemma same_oidc_row r u now :
  same_oidc r (oidc_row u now) = true ->
  u_oidc_issuer r = Some (us_OIDCIssuer u) /\ u_oidc_subject r = Some (us_OIDCSubject u).
Proof.
  unfold same_oidc, oidc_row. simpl. destruct (u_oidc_issuer r), (u_oidc_subject r); try done.
  intros [E1 E2]%andb_true_iff. by gobool; subst.
Qed.

(** C28. Whatever operation runs on the users, and however it fails, ids, usernames
    and identities at a provider stay unique; nobody is renamed or removed; only
    [SetDisabled] touches the disabled flag, only [SetPasswordHash] a password,
    and only a login through the provider a user's privileges; nothing happens
    to pastes and audit events. *)
Theorem Users_keep_identity c op w :
  users_ok (w_pg w) ->
  users_ok (w_pg (snd (run_user c op w))) /\ users_evolve op (w_pg w) (w_pg (snd (run_user c op w))).
Proof.
  enough (Hk : keeps_users op (w_pg w) (w_pg (snd (run_user c op w)))) by exact Hk.
  assert (Hq : forall q params, keeps_users op (w_pg w) (w_pg (snd (query_user c q params w)))).
  { intros q params. rewrite snd_query. apply keeps_users_do. intros. rewrite select_user_same. apply keeps_users_same. }
  destruct op as [u|id|name|i s|u|id phc|id b|id at_|]; cbn [run_user].
  - unfold User_Create. rewrite snd_bind_quiet, snd_try; [|intros [err|?] ?; [by case_match|done]].
    apply keeps_users_do. intros now t. apply keeps_users_insert. exists u, now. by left.
  - rewrite snd_bind_quiet by done. apply Hq.
  - rewrite snd_bind_quiet by done. apply Hq.
  - rewrite snd_bind_quiet by done. apply Hq.
  - rewrite snd_bind_quiet, snd_upsert by done. apply keeps_users_do. intros now t. unfold upsert_oidc.
    destruct (negb _); [apply keeps_users_same|]. destruct (List.find _ _) as [old|].
    + apply keeps_users_update. intros r Hr. apply same_oidc_row in Hr as [Hi Hs]. split_and!; [done|by left|by left|].
      right. by exists u.
    + pose proof (keeps_users_insert (UUpsert u) (oidc_row u now) t) as Hi.
      destruct (insert_user (oidc_row u now) t) as [[] t']; apply Hi; exists u, now; by right.
  - unfold User_SetPasswordHash. rewrite snd_wrap. apply keeps_users_do. intros now t. unfold update_stmt.
    destruct (negb _); [apply keeps_users_same|]. apply keeps_users_update. intros r Hr. unfold user_is in Hr. gobool.
    subst id. split_and!; [done|by left|right; by exists phc|by left].
  - unfold User_SetDisabled. rewrite snd_wrap. apply keeps_users_do. intros now t. apply keeps_users_update.
    intros r Hr. unfold user_is in Hr. gobool. subst id. split_and!; [done|right; by exists b|by left|by left].
  - unfold User_TouchLogin. rewrite snd_wrap. apply keeps_users_do. intros now t. apply keeps_users_update.
    intros r _. split_and!; [done|by left|by left|by left].
  - rewrite snd_bind_quiet by done. unfold User_List. rewrite snd_wrap. apply keeps_users_do. intros. apply keeps_users_same.
Qed.

(** A login through the provider: a known identity keeps its id, its username
    and whether it is disabled and takes over the name and the privileges the
    provider gives; an unknown one gets a row of its own, or the login fails
    because somebody else has the username. *)
Lemma Upsert_result c u w r w' :
  User_UpsertOIDC c u w = (r, w') ->
  match r with
  | Ok stored =>
      us_IsAdmin stored = us_IsAdmin u /\ us_DisplayName stored = us_DisplayName u /\
      us_OIDCIssuer stored = us_OIDCIssuer u /\ us_OIDCSubject stored = us_OIDCSubject u /\
      match List.find (fun r => same_oidc r (oidc_row u 0)) (t_users (w_pg w)) with
      | Some old => us_ID stored = u_id old /\ us_Username stored = u_username old /\
          us_Disabled stored = u_disabled old /\ us_Provider stored = u_auth_provider old
      | None => us_ID stored = us_ID u /\ us_Username stored = us_Username u /\
          us_Disabled stored = false /\ us_Provider stored = ProviderOIDC
      end
  | Err ErrUserExists => exists old, old ∈ t_users (w_pg w) /\
      (u_id old = us_ID u \/ u_username old = us_Username u)
  | Err _ => True
  | Panic => False
  end.
Proof.
  unfold User_UpsertOIDC. intros Hr. go_unfold. destruct (pg_do c (upsert_oidc u) w) as [r0 w0] eqn:E.
  apply pg_do_inv in E as (_ & _ & Hd).
  assert (Hres : (exists k, r0 = Err (terr k)) \/ r0 = fst (upsert_oidc u (w_time w0) (w_pg w)))
    by (destruct Hd as [[_ ?]|[_ [?|?]]]; auto). clear Hd.
  assert (Hsame : forall now r, same_oidc r (oidc_row u now) = same_oidc r (oidc_row u 0)) by done.
  assert (Hn : forall s, default "" (nullableString s) = s) by (intros s; unfold nullableString; by case_bool_decide).
  destruct Hres as [[k ->]| ->].
  { simpl in Hr. destruct (isUniqueViolation (terr k)) eqn:E; [by destruct k|]. by simplify_eq. }
  unfold upsert_oidc in Hr. destruct (negb _); [by simplify_eq/=|].
  change (fun r => same_oidc r (oidc_row u (w_time w0))) with (fun r => same_oidc r (oidc_row u 0)) in Hr.
  destruct (List.find _ _) as [old|] eqn:Ef.
  - apply List.find_some in Ef as [_ Hs]. apply same_oidc_row in Hs as [Hi Hsu].
    simpl in Hr. simplify_eq/=. rewrite Hi, Hsu. simpl. by split_and!.
  - unfold insert_user in Hr. destruct (negb _); [by simplify_eq/=|]. destruct (negb _); [by simplify_eq/=|].
    destruct (existsb _ _) eqn:Ex; simplify_eq/=; [|by split_and!].
    apply existsb_exists in Ex as (old & Hin & Hor). exists old. split; [by apply list_elem_of_In|].
    rewrite !orb_true_iff in Hor. destruct Hor as [[Hor|Hor]|Hor]; [by gobool; auto..|].
    eapply List.find_none in Ef; [|exact Hin]. cbv beta in Ef. rewrite Hsame in Hor. congruence.
Qed.

Lemma find_ext {A} (f g : A -> bool) l : (forall x, f x = g x) -> List.find f l = List.find g l.
Proof. intros Hfg. induction l as [|x l IH]; simpl; [done|]. by rewrite Hfg, IH. Qed.

Lemma Upsert_frame c u w r w' :
  User_UpsertOIDC c u w = (r, w') -> w_time w <= w_time w' /\ w_redis w' = w_redis w.
Proof.
  intros E. pose proof (snd_upsert c u w) as Hs. rewrite E in Hs. cbn [snd] in Hs. subst w'.
  destruct (pg_do c (upsert_oidc u) w) as [r0 w0] eqn:E0. by apply pg_do_inv in E0 as (? & ? & _).
Qed.

Lemma query_user_spec c q params w r w' :
  query_user c q params w = (r, w') ->
  w_time w <= w_time w' /\ stores w' = stores w /\
  ((exists k, r = Err (terr k)) \/ r = Err invalid_text \/
   r = match List.find q (t_users (w_pg w)) with Some row => Ok (scanUser row) | None => Err ErrUserNotFound end).
Proof.
  unfold query_user. intros Hr. go_unfold. destruct (pg_do c (select_user q params) w) as [r0 w0] eqn:E.
  apply pg_do_inv in E as (Ht & Hrd & Hd). 
  assert (Hpg : w_pg w0 = w_pg w) by (destruct Hd as [[-> _]|[-> _]]; [done|apply select_user_same]).
  unfold select_user in Hd.
  assert (Hres : (exists k, r0 = Err (terr k)) \/ r0 = Err invalid_text \/
    r0 = match List.find q (t_users (w_pg w)) with Some row => Ok (scanUser row) | None => Err ErrNoRows end).
  { destruct Hd as [[_ ?]|[_ [Hd|?]]]; [by left| |by left]. right. rewrite Hd. destruct (negb _); [by left|by right]. }
  clear Hd. assert (Hst : stores w0 = stores w) by (unfold stores; congruence).
  destruct Hres as [[k ->]|[-> | ->]].
  - assert (E : errors_Is (terr k) ErrNoRows = false) by by destruct k. simpl in Hr. rewrite E in Hr.
    injection Hr as <- <-. split_and!; [done|done|left; by exists k].
  - injection Hr as <- <-. split_and!; [done|done|by auto].
  - destruct (List.find q (t_users (w_pg w))); injection Hr as <- <-; (split_and!; [done|done|by auto]).
Qed.
End Users.

(** ** Runs *)
#[local] Existing Instance map_server.
#[local] Existing Instance byte_collation.

Definition carol : User :=
  MkUser (vreplicate 16 Byte.x03) "carol" "Carol" "" "https://idp" "sub-1" "" true false 0 None.
Definition demo_upsert (u : User) (w : World) : res User * World := User_UpsertOIDC Background u w.
Definition carol_in : World := snd (demo_upsert carol demo_users).
(** The same person after a change of name, no longer an administrator, and
    disabled here. *)
Definition carol_off : World := snd (User_SetDisabled Background (us_ID carol) true carol_in).
Definition carol_again : User :=
  MkUser (vreplicate 16 Byte.x04) "caroline" "Caroline" "" "https://idp" "sub-1" "" false false 0 None.

Lemma demo_users_rows_ok : users_ok (w_pg demo_users).
Proof.
  split_and!; [apply NoDup_singleton|apply NoDup_singleton| |by repeat constructor].
  intros i j a b Ha Hb. simpl in Ha, Hb. apply list_lookup_singleton_Some in Ha as [-> <-], Hb as [-> <-]. done.
Qed.

Lemma Users_keep_identity_witness :
  length (t_users (w_pg carol_in)) = 2%nat /\
  users_ok (w_pg (snd (run_user Background (UUpsert carol) demo_users))) /\
  users_evolve (UUpsert carol) (w_pg demo_users) (w_pg (snd (run_user Background (UUpsert carol) demo_users))).
Proof.
  split; [vm_compute; reflexivity|].
  apply (Users_keep_identity Background (UUpsert carol) demo_users). apply demo_users_rows_ok.
Defined.

Definition carol_stored : User :=
  match fst (demo_upsert carol_again carol_off) with
  | Ok u => u
  | _ => carol
  end.

Lemma Upsert_result_witness :
  us_Username carol_stored = "carol" /\ us_ID carol_stored = us_ID carol /\ us_Disabled carol_stored = true /\
  us_IsAdmin carol_stored = us_IsAdmin carol_again /\ us_DisplayName carol_stored = us_DisplayName carol_again.
Proof.
  split; [vm_compute; reflexivity|]. split; [vm_compute; reflexivity|]. split; [vm_compute; reflexivity|].
  destruct (Upsert_result Background carol_again carol_off (Ok carol_stored) (snd (demo_upsert carol_again carol_off)))
    as (Ha & Hd & _).
  - apply run_fst. vm_compute. reflexivity.
  - by split.
Defined.
