(* ===== verification/GoConf.v ===== *)
(** * Texts of a configuration

    [strings.Fields], [netip.ParsePrefix] and [time.ParseDuration] as the
    configuration loader uses them. *)
From S2P Require Import Prelude GoNum GoStr Codec NetIP.

(** ** [strings.Fields]: the maximal runs of runes that are not spaces *)

Fixpoint fields_runes (l : list rune) (cur : bytes) : list bytes :=
  match l with
  | [] => if bool_decide (cur = []) then [] else [cur]
  | r :: l' =>
      if rune_space r then (if bool_decide (cur = []) then fields_runes l' [] else cur :: fields_runes l' [])
      else fields_runes l' (cur ++ rune_raw r)
  end.
Definition Fields (s : string) : list string := map to_str (fields_runes (runes (of_str s)) []).

Example Fields_run : Fields "  openid profile	email " = ["openid"; "profile"; "email"].
Proof. reflexivity. Qed.

(** ** [netip.ParsePrefix] *)

(** The text around the last slash. *)
Definition cut_last (l : bytes) (sep : byte) : option (bytes * bytes) :=
  match bytes_Cut (rev l) sep with
  | None => None
  | Some (x, y) => Some (rev y, rev x)
  end.

(** No sign and no leading zero in the number of bits. *)
Definition prefix_bits (l : bytes) : option Z :=
  match l with
  | b :: _ :: _ => if (0x31 <=? bval b) && (bval b <=? 0x39) then Decimal.ParseInt (to_str l) else None
  | _ => Decimal.ParseInt (to_str l)
  end.

Definition ParsePrefix (s : string) : option Prefix :=
  '(addr, bits) ← cut_last (of_str s) Byte.x2f;
  ip ← ParseAddr (to_str addr);
  n ← prefix_bits bits;
  match ip with
  | Addr4 _ => if (0 <=? n) && (n <=? 32) then Some (MkPrefix ip n) else None
  | Addr6 _ zone => if bool_decide (zone = "") && (0 <=? n) && (n <=? 128) then Some (MkPrefix ip n) else None
  end.

Example ParsePrefix_v4 :
  ParsePrefix "10.0.0.0/8" = Some (MkPrefix (Addr4 (map byte_of [10; 0; 0; 0])) 8) /\
  ParsePrefix "10.0.0.0/08" = None /\ ParsePrefix "10.0.0.0" = None /\ ParsePrefix "10.0.0.0/33" = None.
Proof. repeat split; reflexivity. Qed.

(** ** [time.ParseDuration] *)

(** [leadingInt]: a value above 2^63 is an overflow. *)
Definition leadingInt (l : bytes) : option (Z * bytes) :=
  let ds := take_while Decimal.is_digit l in
  v ← Decimal.parse_digits ds 0;
  if v <=? 2 ^ 63 then Some (v, drop_while Decimal.is_digit l) else None.

(** [leadingFraction]: digits that would overflow are dropped. *)
Fixpoint fraction (ds : bytes) (x scale : Z) (overflow : bool) : Z * Z :=
  match ds with
  | [] => (x, scale)
  | b :: ds' =>
      if overflow then fraction ds' x scale true
      else if max_int64 / 10 <? x then fraction ds' x scale true
      else
        let y := x * 10 + (bval b - 48) in
        if 2 ^ 63 <? y then fraction ds' x scale true else fraction ds' y (scale * 10) false
  end.

Definition unit_ns (u : bytes) : option Z :=
  let is_ s := bool_decide (u = of_str s) in
  if is_ "ns" then Some 1
  else if is_ "us" || bool_decide (u = [Byte.xc2; Byte.xb5; Byte.x73]) ||
          bool_decide (u = [Byte.xce; Byte.xbc; Byte.x73]) then Some Microsecond
  else if is_ "ms" then Some Millisecond
  else if is_ "s" then Some Second
  else if is_ "m" then Some Minute
  else if is_ "h" then Some Hour
  else None.

Definition dur_digit (b : byte) : bool := Decimal.is_digit b || bool_decide (b = Byte.x2e).

(** One number with its unit.  The fraction contributes the whole nanoseconds
    of [f * unit / scale]; the source computes this product in floating point,
    which is exact as long as it is an integer below 2^53. *)
Definition duration_part (l : bytes) : option (Z * bytes) :=
  match l with
  | [] => None
  | b :: _ =>
      if negb (dur_digit b) then None
      else
        '(v, l1) ← leadingInt l;
        let pre := negb (bool_decide (length l1 = length l)) in
        let '(f, scale, post, l2) :=
          match l1 with
          | c :: l1' =>
              if bool_decide (c = Byte.x2e) then
                let ds := take_while Decimal.is_digit l1' in
                let '(f, scale) := fraction ds 0 1 false in
                (f, scale, negb (bool_decide (ds = [])), drop_while Decimal.is_digit l1')
              else (0, 1, false, l1)
          | [] => (0, 1, false, l1)
          end in
        if negb pre && negb post then None
        else
          let u := take_while (fun b => negb (dur_digit b)) l2 in
          if bool_decide (u = []) then None
          else
            unit ← unit_ns u;
            if 2 ^ 63 / unit <? v then None
            else
              let v := v * unit + (if 0 <? f then f * unit / scale else 0) in
              if 2 ^ 63 <? v then None else Some (v, drop_while (fun b => negb (dur_digit b)) l2)
  end.

(** Every part consumes at least one byte: the length is fuel enough. *)
Fixpoint duration_parts (fuel : nat) (l : bytes) (d : Z) : option Z :=
  match l, fuel with
  | [], _ => Some d
  | _, O => None
  | _, S fuel =>
      '(v, l') ← duration_part l;
      if 2 ^ 63 <? d + v then None else duration_parts fuel l' (d + v)
  end.

Definition ParseDuration (s : string) : option Z :=
  let '(neg, l) :=
    match of_str s with
    | b :: l => if bool_decide (b = Byte.x2d) then (true, l)
                else if bool_decide (b = Byte.x2b) then (false, l) else (false, b :: l)
    | [] => (false, [])
    end in
  if bool_decide (l = of_str "0") then Some 0
  else if bool_decide (l = []) then None
  else
    d ← duration_parts (length l) l 0;
    if neg then Some (- d) else if max_int64 <? d then None else Some d.

Example ParseDuration_run :
  ParseDuration "8h" = Some (8 * Hour) /\ ParseDuration "1h30m" = Some (90 * Minute) /\
  ParseDuration "-1.5s" = Some (- 1500 * Millisecond) /\ ParseDuration "2" = None /\ ParseDuration "" = None /\
  ParseDuration "1d" = None /\ ParseDuration "0" = Some 0 /\ ParseDuration ".5ms" = Some 500000 /\
  ParseDuration "9223372036854775808ns" = None.
Proof. repeat split; vm_compute; reflexivity. Qed.

Lemma drop_while_length {A} (f : A -> bool) l : (length (drop_while f l) + length (take_while f l) = length l)%nat.
Proof. induction l as [|x l IH]; simpl; [done|]. destruct (f x); simpl; lia. Qed.

Lemma parse_digits_nonneg l acc v : 0 <= acc -> Decimal.parse_digits l acc = Some v -> 0 <= v.
Proof.
  revert acc. induction l as [|b l IH]; intros acc Ha; simpl; [intros [= <-]; done|].
  destruct (Decimal.is_digit b) eqn:E; [|done]. apply IH. unfold Decimal.is_digit in E. lia.
Qed.

Lemma fraction_nonneg ds x scale o : 0 <= x -> 1 <= scale -> Forall (fun b => Decimal.is_digit b = true) ds ->
  0 <= fst (fraction ds x scale o) /\ 1 <= snd (fraction ds x scale o).
Proof.
  intros Hx Hs Hd. revert x scale o Hx Hs. induction Hd as [|b ds Hb _ IH]; intros x scale o Hx Hs; simpl; [done|].
  unfold Decimal.is_digit in Hb. destruct o; [by apply IH|]. destruct (_ <? x); [by apply IH|].
  destruct (_ <? _); apply IH; lia.
Qed.

Lemma take_while_all {A} (f : A -> bool) l : Forall (fun x => f x = true) (take_while f l).
Proof. induction l as [|x l IH]; simpl; [constructor|]. destruct (f x) eqn:E; by constructor. Qed.

Lemma unit_ns_pos u n : unit_ns u = Some n -> 1 <= n.
Proof.
  unfold unit_ns, Microsecond, Millisecond, Second, Minute, Hour. intros E. repeat case_match; simplify_eq; lia.
Qed.

(** A part is a duration of at most 2^63 nanoseconds and consumes input. *)
Lemma duration_part_spec l v l' :
  duration_part l = Some (v, l') -> 0 <= v <= 2 ^ 63 /\ (length l' < length l)%nat.
Proof.
  unfold duration_part. destruct l as [|b l0]; [done|]. set (l := b :: l0). destruct (negb _); [done|].
  unfold leadingInt. destruct (Decimal.parse_digits _ 0) as [n|] eqn:En; [|done].
  apply parse_digits_nonneg in En; [|lia]. cbn [mbind option_bind].
  destruct (n <=? 2 ^ 63); [|done]. cbn [mbind option_bind].
  set (l1 := drop_while Decimal.is_digit l). assert (H1 : (length l1 <= length l)%nat).
  { unfold l1. pose proof (drop_while_length Decimal.is_digit l). lia. }
  clearbody l1. set (quad := match l1 with [] => _ | _ => _ end).
  assert (Hq : 0 <= fst (fst (fst quad)) /\ 1 <= snd (fst (fst quad)) /\ (length (snd quad) <= length l1)%nat).
  { unfold quad. destruct l1 as [|c l1']; [simpl; lia|]. case_bool_decide; [|simpl; lia].
    pose proof (fraction_nonneg (take_while Decimal.is_digit l1') 0 1 false ltac:(lia) ltac:(lia) (take_while_all _ _)) as Hf.
    destruct (fraction _ 0 1 false) as [f sc]. simpl in *. pose proof (drop_while_length Decimal.is_digit l1'). lia. }
  destruct quad as [[[f scale] post] l2]. cbn [fst snd] in Hq. destruct (negb _ && _); [done|].
  pose proof (drop_while_length (fun b => negb (dur_digit b)) l2) as Hl. case_bool_decide as Hu; [done|].
  destruct (unit_ns _) as [unit|] eqn:Eu; [|done]. apply unit_ns_pos in Eu. cbn [mbind option_bind].
  destruct (_ <? n); [done|]. destruct (2 ^ 63 <? _) eqn:Ev; [done|]. intros [= <- <-]. gobool.
  assert (Hu' : (1 <= length (take_while (fun b => negb (dur_digit b)) l2))%nat)
    by (destruct (take_while _ l2); simpl; [done|lia]).
  split; [|lia]. split; [|done]. assert (0 <= n * unit) by nia.
  destruct (0 <? f) eqn:Ef; [|lia]. assert (0 <= f * unit / scale) by (apply Z.div_pos; nia). lia.
Qed.

(** So the fuel of [ParseDuration] is enough: more of it changes nothing. *)
Lemma duration_parts_fuel n m l d :
  (length l <= n)%nat -> (length l <= m)%nat -> duration_parts n l d = duration_parts m l d.
Proof.
  revert m l d. induction n as [|n IH]; intros m l d Hn Hm.
  - destruct l; [by destruct m|simpl in Hn; lia].
  - destruct l as [|b l]; [by destruct m|]. destruct m as [|m]; [simpl in Hm; lia|]. cbn [duration_parts].
    destruct (duration_part (b :: l)) as [[v l']|] eqn:E; [|done]. apply duration_part_spec in E as [_ Hlt].
    cbn [mbind option_bind]. destruct (2 ^ 63 <? d + v); [done|]. simpl in *. apply IH; lia.
Qed.

Lemma duration_parts_range n l d v : 0 <= d <= 2 ^ 63 -> duration_parts n l d = Some v -> 0 <= v <= 2 ^ 63.
Proof.
  revert l d. induction n as [|n IH]; intros [|b l] d Hd; cbn [duration_parts]; [intros [= <-]; lia|done|intros [= <-]; lia|].
  destruct (duration_part (b :: l)) as [[x l']|] eqn:E; [|done]. apply duration_part_spec in E as [Hx _].
  cbn [mbind option_bind]. destruct (2 ^ 63 <? d + x) eqn:El; [done|]. apply IH. gobool. lia.
Qed.

Lemma ParseDuration_range s d : ParseDuration s = Some d -> in_int64 d.
Proof.
  unfold ParseDuration, in_int64, max_int64. destruct (match of_str s with [] => _ | _ => _ end) as [neg l].
  case_bool_decide; [intros [= <-]; lia|]. case_bool_decide; [done|].
  destruct (duration_parts (length l) l 0) as [v|] eqn:E; [|done]. apply duration_parts_range in E; [|lia].
  cbn [mbind option_bind]. destruct neg; [intros [= <-]; lia|]. destruct (_ <? v) eqn:El; [done|].
  intros [= <-]. gobool. lia.
Qed.
