(* ===== verification/Size.v ===== *)
(** * Sizes ([internal/config/size.go])

    Parsing "256KB"-like texts at the width of an int64, and printing a number
    of bytes. *)
From S2P Require Import Prelude GoNum GoStr Codec Errors.

Definition MaxPasteSizeHardCap : Z := 16 * 2 ^ 20.

Definition re_space (b : byte) : bool :=
  (bval b =? 9) || (bval b =? 10) || (bval b =? 12) || (bval b =? 13) || (bval b =? 32).

(** [sizeRe.FindStringSubmatch]: digits, blanks, and B, KB or MB up to the end. *)
Definition sizeRe (l : bytes) : option (bytes * bytes) :=
  let ds := take_while Decimal.is_digit l in
  let unit := drop_while re_space (drop_while Decimal.is_digit l) in
  if bool_decide (ds = []) then None
  else if bool_decide (unit = of_str "B") || bool_decide (unit = of_str "KB") || bool_decide (unit = of_str "MB")
  then Some (ds, unit) else None.

Definition ParseSize (s : string) : res Z :=
  match sizeRe (of_str (ToUpper (TrimSpace s))) with
  | None => Err ErrBadSize
  | Some (ds, unit) =>
      match Decimal.ParseInt (to_str ds) with
      | None => Err ErrBadSize
      | Some n =>
          let n := if bool_decide (unit = of_str "KB") then int64_shl n 10
                   else if bool_decide (unit = of_str "MB") then int64_shl n 20 else n in
          if (n <=? 0) || (MaxPasteSizeHardCap <? n) then Err ErrBadSize else Ok n
      end
  end.

(** [strconv.FormatFloat(n/unit, 'f', 1, 64)] without a trailing ".0": the
    division by a power of two is exact, and the decimal is rounded to the
    nearest tenth, ties to even. *)
Definition round_half_even (a b : Z) : Z :=
  let q := a / b in
  if (2 * (a mod b) <? b) || ((2 * (a mod b) =? b) && Z.even q) then q else q + 1.
Definition trimFloat (n unit : Z) : string :=
  let t := round_half_even (10 * n) unit in
  if t mod 10 =? 0 then Decimal.FormatInt (t / 10)
  else Decimal.FormatInt (t / 10) +:+ "." +:+ Decimal.FormatInt (t mod 10).

Definition FormatSize (n : Z) : string :=
  if 2 ^ 20 <=? n then trimFloat n (2 ^ 20) +:+ " MB"
  else if 2 ^ 10 <=? n then trimFloat n (2 ^ 10) +:+ " KB"
  else Decimal.FormatInt n +:+ " B".

Example ParseSize_run :
  ParseSize " 256kb " = Ok 262144 /\ ParseSize "1 MB" = Ok 1048576 /\ ParseSize "16MB" = Ok 16777216 /\
  ParseSize "17MB" = Err ErrBadSize /\ ParseSize "0B" = Err ErrBadSize /\ ParseSize "1.5MB" = Err ErrBadSize /\
  ParseSize "-1B" = Err ErrBadSize /\ ParseSize "1GB" = Err ErrBadSize /\ ParseSize "KB" = Err ErrBadSize.
Proof. repeat split; vm_compute; reflexivity. Qed.
Example FormatSize_run :
  FormatSize 262144 = "256 KB" /\ FormatSize 1572864 = "1.5 MB" /\ FormatSize 1000 = "1000 B".
Proof. repeat split; vm_compute; reflexivity. Qed.

(** ** What the parser accepts *)

Definition unit_shift (unit : string) : option Z :=
  if bool_decide (unit = "B") then Some 0
  else if bool_decide (unit = "KB") then Some 10
  else if bool_decide (unit = "MB") then Some 20 else None.

Lemma unit_cases unit k :
  unit_shift unit = Some k -> (unit = "B" /\ k = 0) \/ (unit = "KB" /\ k = 10) \/ (unit = "MB" /\ k = 20).
Proof. unfold unit_shift. intros E. repeat case_bool_decide; simplify_eq; auto. Qed.

Definition upper_stable (b : byte) : bool := visible b && negb ((0x61 <=? bval b) && (bval b <=? 0x7A)).

Lemma ToUpper_stable s : Forall (fun b => upper_stable b = true) (of_str s) -> ToUpper s = s.
Proof.
  intros Hs. unfold ToUpper. rewrite runes_ascii.
  2: { eapply Forall_impl; [exact Hs|]. unfold upper_stable, visible, ascii. intros b. lia. }
  rewrite map_map. rewrite <-(to_of_str s) at 2. f_equal. induction Hs as [|b l Hb _ IH]; [done|].
  cbn [map concat]. rewrite IH. unfold upper_rune. unfold upper_stable, visible in Hb.
  destruct (bval b =? 0x131) eqn:E1; [lia|]. destruct (bval b =? 0x17F) eqn:E2; [lia|].
  cbn [map app]. unfold upper_byte. rewrite andb_true_iff, negb_true_iff in Hb. destruct Hb as [_ Hn]. by rewrite Hn.
Qed.

Lemma FormatInt_digits v :
  0 <= v -> of_str (Decimal.FormatInt v) = Decimal.format_nonneg v /\
    Forall (fun b => Decimal.is_digit b = true) (Decimal.format_nonneg v) /\ Decimal.format_nonneg v <> [].
Proof.
  intros Hv. unfold Decimal.FormatInt. destruct (v <? 0) eqn:E; [lia|]. rewrite of_to_str. split_and!; [done| |].
  - apply Decimal.digits_digit; [done|constructor].
  - by apply Decimal.digits_ne.
Qed.

Lemma sizeRe_text v unit k :
  0 <= v -> unit_shift unit = Some k ->
  sizeRe (of_str (ToUpper (TrimSpace (Decimal.FormatInt v +:+ unit)))) = Some (Decimal.format_nonneg v, of_str unit).
Proof.
  intros Hv Hu. destruct (FormatInt_digits v Hv) as (Ef & Hd & Hne).
  assert (Hst : Forall (fun b => upper_stable b = true) (of_str (Decimal.FormatInt v +:+ unit))).
  { rewrite of_str_app, Ef. apply Forall_app_2.
    - eapply Forall_impl; [exact Hd|]. unfold Decimal.is_digit, upper_stable, visible. intros b. lia.
    - apply unit_cases in Hu as [[-> _]|[[-> _]|[-> _]]]; repeat constructor. }
  rewrite TrimSpace_visible, ToUpper_stable.
  - rewrite of_str_app, Ef. unfold sizeRe.
    destruct (take_drop_while_app Decimal.is_digit (Decimal.format_nonneg v) (of_str unit)) as [-> ->]; [done| |].
    { by apply unit_cases in Hu as [[-> _]|[[-> _]|[-> _]]]. }
    rewrite bool_decide_false by done. by apply unit_cases in Hu as [[-> _]|[[-> _]|[-> _]]].
  - done.
  - eapply Forall_impl; [exact Hst|]. unfold upper_stable. intros b. by intros [? _]%andb_true_iff.
Qed.

(** C35. A number with a unit means that many bytes: as long as the product fits an
    int64, it is accepted, with that value, exactly when it is positive and at
    most the hard cap. *)
Theorem ParseSize_units v unit k :
  0 <= v -> unit_shift unit = Some k -> v * 2 ^ k < 2 ^ 63 ->
  ParseSize (Decimal.FormatInt v +:+ unit) =
    if (0 <? v * 2 ^ k) && (v * 2 ^ k <=? MaxPasteSizeHardCap) then Ok (v * 2 ^ k) else Err ErrBadSize.
Proof.
  intros Hv Hu Hlt. unfold ParseSize. erewrite sizeRe_text by done.
  assert (Hv63 : v < 2 ^ 63) by (apply unit_cases in Hu as [[_ ->]|[[_ ->]|[_ ->]]]; lia).
  destruct (FormatInt_digits v Hv) as (Ef & _ & _). rewrite <-Ef, to_of_str.
  rewrite Decimal.ParseInt_FormatInt by (unfold in_int64; lia).
  assert (Hn : (if bool_decide (of_str unit = of_str "KB") then int64_shl v 10
                else if bool_decide (of_str unit = of_str "MB") then int64_shl v 20 else v) = v * 2 ^ k).
  { unfold int64_shl. apply unit_cases in Hu as [[-> ->]|[[-> ->]|[-> ->]]];
      rewrite ?(bool_decide_false (_ = of_str "KB")), ?(bool_decide_true (_ = of_str "KB")) by done;
      rewrite ?(bool_decide_false (_ = of_str "MB")), ?(bool_decide_true (_ = of_str "MB")) by done.
    - lia.
    - rewrite Z.shiftl_mul_pow2 by lia. apply int64_id. unfold in_int64. lia.
    - rewrite Z.shiftl_mul_pow2 by lia. apply int64_id. unfold in_int64. lia. }
  rewrite Hn. destruct ((v * 2 ^ k <=? 0) || _) eqn:E1, ((0 <? v * 2 ^ k) && _) eqn:E2; gobool; try done; lia.
Qed.

Lemma ParseSize_units_witness : ParseSize "256KB" = Ok 262144.
Proof.
  change "256KB" with (Decimal.FormatInt 256 +:+ "KB"). rewrite (ParseSize_units 256 "KB" 10).
  - reflexivity.
  - lia.
  - reflexivity.
  - reflexivity.
Defined.

(** Whatever is accepted is a size the service may use. *)
Lemma ParseSize_range s :
  match ParseSize s with Ok n => 0 < n <= MaxPasteSizeHardCap | Err e => e = ErrBadSize | Panic => False end.
Proof.
  unfold ParseSize. destruct (sizeRe _) as [[ds unit]|]; [|done]. destruct (Decimal.ParseInt _); [|done].
  destruct (_ || _) eqn:E; gobool; [done|lia].
Qed.

(** The cap does not hold for products that do not fit: the shift wraps, and a
    size of more than seventeen million terabytes is accepted as one megabyte.
    Whatever is accepted is still between one byte and the cap. *)
Theorem ParseSize_wraps :
  MaxPasteSizeHardCap < 17592186044417 * 2 ^ 20 /\ ParseSize "17592186044417MB" = Ok (2 ^ 20) /\
  (forall s, match ParseSize s with Ok n => 0 < n <= MaxPasteSizeHardCap | Err e => e = ErrBadSize | Panic => False end).
Proof.
  split; [unfold MaxPasteSizeHardCap; lia|]. split; [vm_compute; reflexivity|exact ParseSize_range].
Qed.
