(* ===== verification/Config.v ===== *)
(** * Configuration ([internal/config/config.go])

    The loader reads every variable, collects all complaints and accepts a
    configuration only when there are none.  What it accepts has a usable key
    ring, ordered lifetimes, and sizes and costs in range. *)
From Stdlib Require SpecFloat.
From S2P Require Import Prelude GoNum GoStr Codec NetIP Errors PasteTypes Crypto Envelope RateLimit GoConf Size.

Definition AuthLocal : string := "local".
Definition AuthOIDC : string := "oidc".
Definition AuthBoth : string := "both".

Record OIDCConfig : Type := MkOIDCConfig {
  oc_Issuer : string;
  oc_ClientID : string;
  oc_ClientSecret : string;
  oc_RedirectURL : string;
  oc_Scopes : list string;
  oc_RequiredGroup : string;
  oc_GroupClaim : string;
  oc_AdminGroup : string
}.

Record ChallengeConfig : Type := MkChallengeConfig {
  cc_Enabled : bool;
  cc_TolerancePx : Z;
  cc_TTL : Z;
  cc_MinSolve : Z
}.

Record Argon2Config : Type := MkArgon2Config {
  ac_MaxConcurrent : Z;
  ac_QueueTimeout : Z;
  ac_MemoryKiB : Z;
  ac_Time : Z;
  ac_Threads : Z
}.

Record Config : Type := MkConfig {
  AppBaseURL : string;
  ListenAddr : string;
  TrustedProxyCIDRs : list Prefix;
  TLSCertFile : string;
  TLSKeyFile : string;
  DatabaseURL : string;
  RedisURL : string;
  RedisStateURL : string;
  MasterKeys : gmap string (list Init.Byte.byte);
  MasterKeyActive : string;
  cfg_AuthMode : string;
  OIDC : OIDCConfig;
  SessionIdleTTL : Z;
  SessionAbsoluteTTL : Z;
  ViewRequiresAuth : bool;
  Challenge : ChallengeConfig;
  Argon2 : Argon2Config;
  PasteMaxSize : Z;
  PasteTTLDefault : Z;
  PasteTTLMin : Z;
  PasteTTLMax : Z;
  PasteTTLHardMax : Z;
  MetadataRetentionDays : Z;
  AuditRetentionDays : Z;
  Rate : RateConfig;
  RedisExpectedUsers : Z;
  AuditDBEnabled : bool;
  LogLevel : string;
  MetricsListenAddr : string;
  NoticeText : string
}.

(** ** The loader *)

Section Loader.
(** The environment, and [os.ReadFile]: a content or the text of an error. *)
Context (getenv : string -> string) (readFile : string -> string + string).

Abbreviation L := (M (list string)).

Definition complain (msg : string) : L unit := fun errs => (Ok tt, errs ++ [msg]).
Definition env (key : string) : string := TrimSpace (getenv key).

Definition str (key def : string) : L string :=
  mret (if bool_decide (env key = "") then def else env key).

Definition required (key : string) : L string :=
  (if bool_decide (env key = "") then complain (key +:+ " is required") else mret tt) ;;
  mret (env key).

Definition intv (key : string) (def : Z) : L Z :=
  if bool_decide (env key = "") then mret def
  else
    match Decimal.ParseInt (env key) with
    | None => complain (key +:+ ": not an integer") ;; mret def
    | Some n => mret n
    end.

Definition boolv (key : string) (def : bool) : L bool :=
  let v := ToLower (env key) in
  if bool_decide (v = "") then mret def
  else if bool_decide (v ∈ ["1"; "true"; "yes"; "on"]) then mret true
  else if bool_decide (v ∈ ["0"; "false"; "no"; "off"]) then mret false
  else complain (key +:+ ": not a boolean") ;; mret def.

Definition dur (key : string) (def : Z) : L Z :=
  if bool_decide (env key = "") then mret def
  else
    match ParseDuration (env key) with
    | None => complain (key +:+ ": not a duration (e.g. 8h, 2s)") ;; mret def
    | Some d => mret d
    end.

Definition secret (key : string) : L string :=
  let inline := env key in
  let file := env (key +:+ "_FILE") in
  if negb (bool_decide (inline = "")) && negb (bool_decide (file = "")) then
    complain ("set only one of " +:+ key +:+ " / " +:+ key +:+ "_FILE") ;; mret ""
  else if negb (bool_decide (file = "")) then
    match readFile file with
    | inl err => complain (key +:+ "_FILE: " +:+ err) ;; mret ""
    | inr b => mret (TrimSpace b)
    end
  else mret inline.

(** ** The key ring *)

Fixpoint parse_keys (parts : list string) (keys : gmap string (list Init.Byte.byte)) (first : string)
    : res (gmap string (list Init.Byte.byte) * string) :=
  match parts with
  | [] => Ok (keys, first)
  | part :: parts =>
      let part := TrimSpace part in
      if bool_decide (part = "") then parse_keys parts keys first
      else
        match Cut part Byte.x3a with
        | None => Err (NewError "master key entry must be id:base64")
        | Some (id, b64) =>
            if bool_decide (id = "") then Err (NewError "master key entry must be id:base64")
            else
              match Base64.std_DecodeString b64 with
              | None => Err (NewError ("master key " +:+ quoted id +:+ ": invalid base64"))
              | Some raw =>
                  if negb (bool_decide (length raw = 32%nat)) then
                    Err (NewError ("master key " +:+ quoted id +:+ ": must be 32 bytes, got " +:+
                                   Decimal.FormatInt (Z.of_nat (length raw))))
                  else
                    match keys !! id with
                    | Some _ => Err (NewError ("master key " +:+ quoted id +:+ ": duplicate id"))
                    | None => parse_keys parts (<[id := raw]> keys)
                                (if bool_decide (first = "") then id else first)
                    end
              end
        end
  end.

Definition ParseMasterKeys (s : string) : res (gmap string (list Init.Byte.byte) * string) :=
  match parse_keys (Split s Byte.x2c) ∅ "" with
  | Ok (keys, first) => if bool_decide (keys = ∅) then Err (NewError "no master keys") else Ok (keys, first)
  | r => r
  end.

(** ** Loading *)

Fixpoint load_cidrs (parts : list string) : L (list Prefix) :=
  match parts with
  | [] => mret []
  | cidr :: parts =>
      let cidr := TrimSpace cidr in
      if bool_decide (cidr = "") then load_cidrs parts
      else
        match ParsePrefix cidr with
        | None => complain ("TRUSTED_PROXY_CIDRS: bad cidr " +:+ cidr) ;; load_cidrs parts
        | Some pfx => rest ← load_cidrs parts; mret (pfx :: rest)
        end
  end.

(** How many complaints there are, [len(l.errs)]. *)
Definition complaints : L nat := fun errs => (Ok (length errs), errs).

Definition load_keys : L (gmap string (list Init.Byte.byte) * string) :=
  errsBefore ← complaints;
  mk ← secret "MASTER_KEYS";
  errsAfter ← complaints;
  if bool_decide (errsBefore < errsAfter)%nat then mret (∅, "")
  else if bool_decide (mk = "") then complain "MASTER_KEYS or MASTER_KEYS_FILE is required" ;; mret (∅, "")
  else
    match ParseMasterKeys mk with
    | Ok (keys, first) =>
        active ← str "MASTER_KEY_ACTIVE" first;
        (if keys !! active is Some _ then mret tt
         else complain ("MASTER_KEY_ACTIVE: unknown key id " +:+ active)) ;;
        mret (keys, active)
    | Err err => complain ("MASTER_KEYS: " +:+ Error err) ;; mret (∅, "")
    | Panic => panic
    end.

Definition unless (b : bool) (msg : string) : L unit := if b then mret tt else complain msg.

Definition mode_oidc (mode : string) : bool := bool_decide (mode = AuthOIDC) || bool_decide (mode = AuthBoth).
Definition mode_local (mode : string) : bool := bool_decide (mode = AuthLocal) || bool_decide (mode = AuthBoth).

(** The complaints about missing OIDC settings come in no particular order;
    here, in the order of the source text. *)
Definition load_oidc (mode baseURL : string) : L OIDCConfig :=
  issuer ← str "OIDC_ISSUER" "";
  clientID ← str "OIDC_CLIENT_ID" "";
  clientSecret ← secret "OIDC_CLIENT_SECRET";
  scopes ← str "OIDC_SCOPES" "openid profile email groups";
  requiredGroup ← str "OIDC_REQUIRED_GROUP" "";
  groupClaim ← str "OIDC_GROUP_CLAIM" "groups";
  adminGroup ← str "OIDC_ADMIN_GROUP" "";
  let need (k v : string) : L unit :=
    unless (negb (mode_oidc mode) || negb (bool_decide (v = ""))) (k +:+ " is required when AUTH_MODE includes oidc") in
  need "OIDC_ISSUER" issuer ;;
  need "OIDC_CLIENT_ID" clientID ;;
  need "OIDC_CLIENT_SECRET" clientSecret ;;
  need "OIDC_REQUIRED_GROUP" requiredGroup ;;
  mret (MkOIDCConfig issuer clientID clientSecret (baseURL +:+ "/api/v1/auth/oidc/callback") (Fields scopes)
          requiredGroup groupClaim adminGroup).

Definition load_challenge : L ChallengeConfig :=
  enabled ← boolv "CHALLENGE_ENABLED" true;
  tolerance ← intv "CHALLENGE_TOLERANCE_PX" 5;
  ttl ← intv "CHALLENGE_TTL_SECONDS" 120;
  minSolve ← intv "CHALLENGE_MIN_SOLVE_MS" 300;
  mret (MkChallengeConfig enabled tolerance (dur_mul ttl Second) (dur_mul minSolve Millisecond)).

(** The conversion to uint32 comes before the check. *)
Definition load_argon2 : L Argon2Config :=
  maxConcurrent ← intv "ARGON2_MAX_CONCURRENT" 4;
  queueTimeout ← dur "ARGON2_QUEUE_TIMEOUT" (2 * Second);
  memory ← intv "ARGON2_MEMORY_KIB" 32768;
  let memory := uint32 memory in
  unless (negb ((maxConcurrent <? 1) || (memory <? 8192)))
    "ARGON2_MAX_CONCURRENT must be >= 1 and ARGON2_MEMORY_KIB >= 8192" ;;
  mret (MkArgon2Config maxConcurrent queueTimeout memory 3 2).

Definition load_size : L Z :=
  v ← str "PASTE_MAX_SIZE" "256KB";
  match ParseSize v with
  | Ok n => mret n
  | Err err => complain ("PASTE_MAX_SIZE: " +:+ Error err) ;; mret 0
  | Panic => panic
  end.

Definition check_ttls (hardMax def min max : Z) : L unit :=
  if min <? 1 then complain "PASTE_TTL_MIN must be >= 1"
  else if hardMax <? max then
    complain ("PASTE_TTL_MAX " +:+ Decimal.FormatInt max +:+ " exceeds PASTE_TTL_HARD_MAX " +:+ Decimal.FormatInt hardMax)
  else if max <? min then complain "PASTE_TTL_MIN must be <= PASTE_TTL_MAX"
  else if (def <? min) || (max <? def) then
    complain "PASTE_TTL_DEFAULT must be within [PASTE_TTL_MIN, PASTE_TTL_MAX]"
  else mret tt.

Definition load_rate : L RateConfig :=
  paste ← intv "RATE_PASTE_PER_MIN" 10;
  login ← intv "RATE_LOGIN_PER_MIN" 5;
  loginIP ← intv "RATE_LOGIN_IP_PER_MIN" 20;
  unlock ← intv "RATE_UNLOCK_PER_15MIN" 5;
  unlockIP ← intv "RATE_UNLOCK_IP_PER_15MIN" 20;
  verify ← intv "RATE_VERIFY_PER_MIN" 30;
  verifyGlobal ← intv "RATE_VERIFY_GLOBAL_PER_MIN" 300;
  challenge ← intv "RATE_CHALLENGE_PER_MIN" 5;
  delete ← intv "RATE_DELETE_PER_MIN" 30;
  mret (MkRateConfig paste login loginIP unlock unlockIP verify verifyGlobal challenge delete).

Definition load_config : L Config :=
  base ← required "APP_BASE_URL";
  let baseURL := TrimRight base Byte.x2f in
  listen ← str "LISTEN_ADDR" ":8443";
  cidrText ← str "TRUSTED_PROXY_CIDRS" "";
  cidrs ← load_cidrs (Split cidrText Byte.x2c);
  cert ← str "TLS_CERT_FILE" "";
  key ← str "TLS_KEY_FILE" "";
  unless (eqb (bool_decide (cert = "")) (bool_decide (key = ""))) "TLS_CERT_FILE and TLS_KEY_FILE must be set together" ;;
  database ← required "DATABASE_URL";
  redis ← required "REDIS_URL";
  redisState ← str "REDIS_STATE_URL" redis;
  '(keys, active) ← load_keys;
  modeText ← str "AUTH_MODE" AuthLocal;
  let mode := ToLower modeText in
  unless (bool_decide (mode ∈ [AuthLocal; AuthOIDC; AuthBoth])) "AUTH_MODE must be local, oidc or both" ;;
  oidc ← load_oidc mode baseURL;
  idle ← dur "SESSION_IDLE_TTL" (8 * Hour);
  absolute ← dur "SESSION_ABSOLUTE_TTL" (12 * Hour);
  unless (negb (absolute <? idle)) "SESSION_ABSOLUTE_TTL must be >= SESSION_IDLE_TTL" ;;
  viewAuth ← boolv "VIEW_REQUIRES_AUTH" false;
  challenge ← load_challenge;
  argon2 ← load_argon2;
  maxSize ← load_size;
  hardMax ← intv "PASTE_TTL_HARD_MAX" 900;
  def ← intv "PASTE_TTL_DEFAULT" 300;
  min ← intv "PASTE_TTL_MIN" 30;
  max ← intv "PASTE_TTL_MAX" 900;
  check_ttls hardMax def min max ;;
  metadataDays ← intv "METADATA_RETENTION_DAYS" 180;
  auditDays ← intv "AUDIT_RETENTION_DAYS" 365;
  rate ← load_rate;
  users ← intv "REDIS_EXPECTED_USERS" 50;
  auditDB ← boolv "AUDIT_DB_ENABLED" true;
  level ← str "LOG_LEVEL" "info";
  metrics ← str "METRICS_LISTEN_ADDR" "127.0.0.1:9090";
  notice ← str "NOTICE_TEXT" "Do not paste production credentials or customer personal data. Pastes are ephemeral, not a secure vault.";
  mret (MkConfig baseURL listen cidrs cert key database redis redisState keys active mode oidc idle absolute viewAuth
          challenge argon2 maxSize def min max hardMax metadataDays auditDays rate users auditDB (ToLower level)
          metrics notice).

Fixpoint join (sep : string) (l : list string) : string :=
  match l with
  | [] => ""
  | [s] => s
  | s :: l => s +:+ sep +:+ join sep l
  end.

Definition Load : res Config :=
  match load_config [] with
  | (Ok c, []) => Ok c
  | (Ok _, errs) => Err (NewError ("config: " +:+ join "; " errs))
  | (Err e, _) => Err e
  | (Panic, _) => Panic
  end.
End Loader.

Definition OIDCEnabled (c : Config) : bool := mode_oidc (cfg_AuthMode c).
Definition LocalEnabled (c : Config) : bool := mode_local (cfg_AuthMode c).

(** [crypto.ParamsFromConfig] *)
Definition ParamsFromConfig (c : Argon2Config) : Argon2Params :=
  MkArgon2Params (ac_Time c) (ac_MemoryKiB c) (ac_Threads c).

(** [Redacted]; the order of the ids, the iteration order of a Go map, is
    unspecified. *)
Definition Redacted (c : Config) : list (string * value) :=
  let ids := elements (dom (MasterKeys c)) in
  [("AppBaseURL", VStr (AppBaseURL c)); ("ListenAddr", VStr (ListenAddr c));
   ("TLS", VBool (negb (bool_decide (TLSCertFile c = "")))); ("DatabaseURL", VStr "[redacted]");
   ("RedisURL", VStr "[redacted]"); ("RedisStateURL", VStr "[redacted]");
   ("MasterKeys", VStr (Decimal.FormatInt (Z.of_nat (length ids)) +:+ " key(s) [" +:+ join " " ids +:+ "] active=" +:+
                        MasterKeyActive c));
   ("AuthMode", VStr (cfg_AuthMode c)); ("OIDCIssuer", VStr (oc_Issuer (OIDC c)));
   ("OIDCClientSecret", VStr "[redacted]"); ("ViewRequiresAuth", VBool (ViewRequiresAuth c));
   ("ChallengeEnabled", VBool (cc_Enabled (Challenge c))); ("PasteMaxSize", VStr (FormatSize (PasteMaxSize c)));
   ("PasteTTL", VStr ("default=" +:+ Decimal.FormatInt (PasteTTLDefault c) +:+ " min=" +:+
                      Decimal.FormatInt (PasteTTLMin c) +:+ " max=" +:+ Decimal.FormatInt (PasteTTLMax c)));
   ("Argon2", VList (map VInt [ac_MaxConcurrent (Argon2 c); ac_QueueTimeout (Argon2 c); ac_MemoryKiB (Argon2 c);
                               ac_Time (Argon2 c); ac_Threads (Argon2 c)]));
   ("Rate", VList (map VInt [PastePerMin (Rate c); LoginPerMin (Rate c); LoginIPPerMin (Rate c); UnlockPer15Min (Rate c);
      UnlockIPPer15Min (Rate c); VerifyPerMin (Rate c); VerifyGlobalPerMin (Rate c); ChallengePerMin (Rate c);
      DeletePerMin (Rate c)]))].


(** ** What is accepted

    [loads m P]: [m] never fails, only adds complaints, and a result it has no
    complaint about satisfies [P]. *)
Definition loads {A} (m : M (list string) A) (P : A -> Prop) : Prop :=
  forall errs, exists a new, m errs = (Ok a, errs ++ new) /\ (new = [] -> P a).

Section Loads.
Lemma loads_ret {A} (a : A) (P : A -> Prop) : P a -> loads (mret a) P.
Proof. intros HP errs. exists a, []. by rewrite app_nil_r. Qed.

Lemma loads_bind {A B} (m : M (list string) A) (k : A -> M (list string) B) P Q :
  loads m P -> (forall a, loads (k a) (fun b => P a -> Q b)) -> loads (m ≫= k) Q.
Proof.
  intros Hm Hk errs. destruct (Hm errs) as (a & n1 & E1 & H1). destruct (Hk a (errs ++ n1)) as (b & n2 & E2 & H2).
  exists b, (n1 ++ n2). unfold mbind, M_bind. rewrite E1, E2, app_assoc. split; [done|].
  intros [-> ->]%app_eq_nil. auto.
Qed.

Lemma loads_mono {A} (m : M (list string) A) (P Q : A -> Prop) : (forall a, P a -> Q a) -> loads m P -> loads m Q.
Proof. intros HPQ Hm errs. destruct (Hm errs) as (a & n & ? & ?). exists a, n. eauto. Qed.

(** A complaint excuses whatever is returned after it. *)
Lemma loads_complain {A} msg (a : A) P : loads (complain msg ;; mret a) P.
Proof. intros errs. exists a, [msg]. done. Qed.

Lemma loads_complain_unit msg P : loads (complain msg) P.
Proof. intros errs. exists tt, [msg]. done. Qed.

Lemma loads_unless b msg : loads (unless b msg) (fun _ => b = true).
Proof. destruct b; [by apply loads_ret|apply loads_complain_unit]. Qed.

Context (getenv : string -> string) (readFile : string -> string + string).

Lemma loads_str key def : loads (str getenv key def) (fun v => v <> "" \/ v = def).
Proof. unfold str. apply loads_ret. case_bool_decide; auto. Qed.

Lemma loads_required key : loads (required getenv key) (fun v => v <> "").
Proof.
  unfold required. case_bool_decide as E; [apply loads_complain|]. intros errs. exists (env getenv key), [].
  by rewrite app_nil_r.
Qed.

Lemma loads_intv key def : in_int64 def -> loads (intv getenv key def) in_int64.
Proof.
  intros Hd. unfold intv. case_bool_decide; [by apply loads_ret|].
  destruct (Decimal.ParseInt _) eqn:E; [apply loads_ret; by eapply Decimal.ParseInt_range|apply loads_complain].
Qed.

Lemma loads_boolv key def : loads (boolv getenv key def) (fun _ => True).
Proof. unfold boolv. repeat case_bool_decide; try by apply loads_ret. apply loads_complain. Qed.

Lemma loads_dur key def : in_int64 def -> loads (dur getenv key def) in_int64.
Proof.
  intros Hd. unfold dur. case_bool_decide; [by apply loads_ret|].
  destruct (ParseDuration _) eqn:E; [apply loads_ret; by eapply ParseDuration_range|apply loads_complain].
Qed.

Lemma loads_secret key : loads (secret getenv readFile key) (fun _ => True).
Proof.
  unfold secret. destruct (negb _ && negb _); [apply loads_complain|]. destruct (negb _); [|by apply loads_ret].
  destruct (readFile _); [apply loads_complain|by apply loads_ret].
Qed.

Lemma loads_cidrs parts : loads (load_cidrs parts) (fun _ => True).
Proof.
  induction parts as [|p parts IH]; [by apply loads_ret|]. simpl. case_bool_decide; [done|].
  destruct (ParsePrefix _) as [pfx|].
  - eapply loads_bind; [exact IH|]. intros rest. by apply loads_ret.
  - eapply loads_bind; [apply (loads_complain_unit _ (fun _ => True))|]. intros u. by eapply loads_mono; [|exact IH].
Qed.
End Loads.

(** ** The key ring *)

Definition ring_ok (keys : gmap string (list Init.Byte.byte)) : Prop :=
  map_Forall (fun id key => id <> "" /\ length key = 32%nat) keys.

Lemma parse_keys_ok parts : forall keys first,
  ring_ok keys -> (keys = ∅ /\ first = "" \/ is_Some (keys !! first)) ->
  match parse_keys parts keys first with
  | Ok (keys', first') => ring_ok keys' /\ (keys' = ∅ /\ first' = "" \/ is_Some (keys' !! first')) /\ keys ⊆ keys'
  | Err _ => True
  | Panic => False
  end.
Proof.
  induction parts as [|p parts IH]; intros keys first Hk Hf; simpl; [by split_and!|].
  case_bool_decide; [by apply IH|]. destruct (Cut _ _) as [[id b64]|]; [|done].
  case_bool_decide as Eid; [done|]. destruct (Base64.std_DecodeString b64) as [raw|]; [|done].
  case_bool_decide as El; simpl; [|done]. destruct (keys !! id) eqn:Ek; [done|].
  assert (Hk' : ring_ok (<[id := raw]> keys)) by (apply map_Forall_insert_2; [done|exact Hk]).
  assert (Hf' : is_Some (<[id := raw]> keys !! (if bool_decide (first = "") then id else first))).
  { case_bool_decide as E1; [by rewrite lookup_insert_eq|]. destruct Hf as [[_ ?]|[k0 ?]]; [done|].
    exists k0. rewrite lookup_insert_ne by congruence. done. }
  specialize (IH _ _ Hk' (or_intror Hf')). destruct (parse_keys _ _ _) as [[keys' first']| |]; [|done..].
  destruct IH as (? & ? & Hsub). split_and!; [done..|]. etransitivity; [by apply insert_subseteq|done].
Qed.

(** What [ParseMasterKeys] returns is a non-empty ring of named 32-byte keys
    with its first key in it. *)
Lemma ParseMasterKeys_ok s :
  match ParseMasterKeys s with
  | Ok (keys, first) => ring_ok keys /\ is_Some (keys !! first)
  | Err _ => True
  | Panic => False
  end.
Proof.
  unfold ParseMasterKeys.
  pose proof (parse_keys_ok (Split s Byte.x2c) ∅ "" (map_Forall_empty _) (or_introl (conj eq_refl eq_refl))) as Hp.
  destruct (parse_keys _ _ _) as [[keys first]| |]; [|done..]. case_bool_decide; [done|].
  destruct Hp as (? & [[? _]|?] & _); [done|]. by split.
Qed.

Section Valid.
Context (getenv : string -> string) (readFile : string -> string + string).

Lemma loads_keys : loads (load_keys getenv readFile) (fun r => ring_ok r.1 /\ is_Some (r.1 !! r.2)).
Proof.
  intros errs. unfold load_keys, complaints, mbind, M_bind, mret, M_ret.
  destruct (loads_secret getenv readFile "MASTER_KEYS" errs) as (mk & new & -> & _).
  rewrite length_app. case_bool_decide as El.
  - exists (∅, ""), new. split; [done|]. intros ->. simpl in El. lia.
  - destruct new; [|simpl in El; lia]. rewrite app_nil_r. case_bool_decide; [by eexists _, [_]|].
    pose proof (ParseMasterKeys_ok mk) as Hp. destruct (ParseMasterKeys mk) as [[keys first]|e|]; [|by eexists _, [_]|done].
    unfold str, mret, M_ret, complain. set (active := if bool_decide _ then _ else _).
    destruct (keys !! active) eqn:Ea; [|by eexists _, [_]]. exists (keys, active), []. rewrite app_nil_r.
    split; [done|]. intros _. simpl. split; [by destruct Hp|by rewrite Ea].
Qed.

Lemma loads_size : loads (load_size getenv) (fun n => 0 < n <= MaxPasteSizeHardCap).
Proof.
  unfold load_size. eapply loads_bind; [apply loads_str|]. intros v. pose proof (ParseSize_range v) as Hp.
  destruct (ParseSize v); [by apply loads_ret|apply loads_complain|done].
Qed.

Lemma loads_ttls hardMax def min max :
  loads (check_ttls hardMax def min max) (fun _ => 1 <= min <= def /\ def <= max <= hardMax).
Proof.
  unfold check_ttls. destruct (min <? 1) eqn:?; [apply loads_complain_unit|].
  destruct (hardMax <? max) eqn:?; [apply loads_complain_unit|].
  destruct (max <? min) eqn:?; [apply loads_complain_unit|].
  destruct (_ || _) eqn:?; gobool; [apply loads_complain_unit|apply loads_ret; lia].
Qed.

Lemma loads_argon2 :
  loads (load_argon2 getenv) (fun a => 1 <= ac_MaxConcurrent a /\ 8192 <= ac_MemoryKiB a < 2 ^ 32 /\
    ac_Time a = 3 /\ ac_Threads a = 2).
Proof.
  unfold load_argon2. eapply loads_bind; [by apply loads_intv|]. intros n.
  eapply loads_bind; [by apply loads_dur|]. intros q. eapply loads_bind; [by apply loads_intv|]. intros mem. cbv zeta.
  eapply loads_bind; [apply loads_unless|]. intros []. apply loads_ret. cbn. intros Hu _ _ _.
  pose proof (uint32_range mem). gobool. lia.
Qed.

Lemma loads_oidc mode base :
  loads (load_oidc getenv readFile mode base) (fun o => mode_oidc mode = true ->
    oc_Issuer o <> "" /\ oc_ClientID o <> "" /\ oc_ClientSecret o <> "" /\ oc_RequiredGroup o <> "").
Proof.
  unfold load_oidc. do 2 (eapply loads_bind; [apply loads_str|]; intros ?).
  eapply loads_bind; [apply loads_secret|]; intros secret.
  do 4 (eapply loads_bind; [apply loads_str|]; intros ?). cbv zeta.
  do 4 (eapply loads_bind; [apply loads_unless|]; intros ?). apply loads_ret. cbn. intros H1 H2 H3 H4 _ _ _ _ _ _ _ Hm.
  rewrite Hm in *. gobool. naive_solver.
Qed.

(** What [Load] checks, or sets itself, before it accepts a configuration. *)
Record usable (c : Config) : Prop := {
  us_ttls : 1 <= PasteTTLMin c <= PasteTTLDefault c /\ PasteTTLDefault c <= PasteTTLMax c <= PasteTTLHardMax c;
  us_sessions : SessionIdleTTL c <= SessionAbsoluteTTL c;
  us_size : 0 < PasteMaxSize c <= 16 * 2 ^ 20;
  us_argon2 : 1 <= ac_MaxConcurrent (Argon2 c) /\ 8192 <= ac_MemoryKiB (Argon2 c) < 2 ^ 32 /\
    ac_Time (Argon2 c) = 3 /\ ac_Threads (Argon2 c) = 2;
  us_ring : ring_ok (MasterKeys c) /\ is_Some (MasterKeys c !! MasterKeyActive c);
  us_urls : DatabaseURL c <> "" /\ RedisURL c <> "" /\ RedisStateURL c <> "";
  us_tls : TLSCertFile c = "" <-> TLSKeyFile c = "";
  us_mode : LocalEnabled c || OIDCEnabled c = true;
  us_oidc : OIDCEnabled c = true -> oc_Issuer (OIDC c) <> "" /\ oc_ClientID (OIDC c) <> "" /\
    oc_ClientSecret (OIDC c) <> "" /\ oc_RequiredGroup (OIDC c) <> ""
}.

Ltac load_next :=
  eapply loads_bind;
  [first [apply loads_required | apply loads_str | apply loads_cidrs | apply loads_keys | apply loads_oidc
         | apply loads_unless | apply loads_boolv | apply loads_argon2 | apply loads_size | apply loads_ttls
         | by apply loads_intv | by apply loads_dur] | intros ?; cbv zeta].

Lemma loads_challenge : loads (load_challenge getenv) (fun _ => True).
Proof. unfold load_challenge. repeat load_next. by apply loads_ret. Qed.

Lemma loads_rate : loads (load_rate getenv) (fun _ => True).
Proof. unfold load_rate. repeat load_next. by apply loads_ret. Qed.

Lemma mode_known mode :
  mode ∈ [AuthLocal; AuthOIDC; AuthBoth] -> mode_local mode || mode_oidc mode = true.
Proof. intros Hm. set_unfold in Hm. naive_solver. Qed.

Lemma loads_config : loads (load_config getenv readFile) usable.
Proof.
  unfold load_config. do 10 load_next. eapply loads_bind; [apply loads_keys|]. intros [keys active].
  do 7 load_next. eapply loads_bind; [apply loads_challenge|]. intros challenge.
  do 3 load_next. do 6 load_next. eapply loads_bind; [apply loads_rate|]. intros rate. do 5 load_next.
  apply loads_ret. intros. constructor; cbn in *; try done; gobool; try lia.
  - split_and!; [done..|]. naive_solver.
  - repeat case_bool_decide; naive_solver.
  - by apply orb_true_iff, mode_known.
Qed.

Lemma Load_usable :
  match Load getenv readFile with Ok c => usable c | Err _ => True | Panic => False end.
Proof.
  unfold Load. destruct (loads_config []) as (c & new & -> & Hc). simpl. destruct new; [by apply Hc|done].
Qed.

(** C17. What [Load] accepts: lifetimes with 1 <= PASTE_TTL_MIN <= PASTE_TTL_DEFAULT
    <= PASTE_TTL_MAX <= PASTE_TTL_HARD_MAX, an idle timeout of sessions of at most
    the absolute one, a paste size of at least one byte and at most 16 MB, a gate
    of at least one slot, a memory cost of at least 8192 KiB that fits 32 bits
    with time 3 and two threads, three connection strings, both TLS files or
    neither, a mode with a way to log in, OIDC settings with issuer, client,
    secret and required group when the mode uses them, and a key ring of 32-byte
    keys with the active one in it; [NewEnvelope] succeeds on this key ring and
    these costs.  No environment makes the loader panic.  Nothing ties the
    lifetimes to the table the pastes are stored in, and the memory cost is
    what is left of the setting in 32 bits (see the findings). *)
Theorem Load_valid S (g : GateOps S) :
  match Load getenv readFile with
  | Ok c => usable c /\
      exists e, NewEnvelope (MasterKeys c) (MasterKeyActive c) (Some g) (ParamsFromConfig (Argon2 c)) = Ok e /\ env_wf e
  | Err _ => True
  | Panic => False
  end.
Proof.
  pose proof Load_usable as Hl. destruct (Load getenv readFile) as [c|e|]; [|done..]. split; [done|].
  destruct Hl as [_ _ _ (? & ? & Et & Eth) [Hring Hact] _ _ _ _].
  destruct (NewEnvelope_complete (MasterKeys c) (MasterKeyActive c) g (ParamsFromConfig (Argon2 c)))
    as (e & He & Hwf & _); [unfold params_typed, ParamsFromConfig; cbn; lia|exact Hring|done| |by exists e].
  unfold ParamsFromConfig. cbn. lia.
Qed.
End Valid.

(** ** The estimate for the log

    A float64 is a [spec_float] of 53 bits; the multiplications round to the
    nearest.  Converting one that does not fit an int64 is up to the
    implementation: [None]. *)
Abbreviation float64 := SpecFloat.spec_float.
Definition float64_of (n : Z) : float64 := SpecFloat.binary_normalize 53 1024 n 0 false.
Definition float64_mul (x y : float64) : float64 := SpecFloat.SFmul 53 1024 x y.
(** The constant 1.2, rounded. *)
Definition one_point_two : float64 := SpecFloat.SFdiv 53 1024 (float64_of 12) (float64_of 10).
Definition int64_of_float (x : float64) : option Z :=
  match x with
  | SpecFloat.S754_zero _ => Some 0
  | SpecFloat.S754_finite negative m e =>
      let v := if 0 <=? e then Zpos m * 2 ^ e else Zpos m / 2 ^ (- e) in
      let v := if negative then - v else v in
      if (min_int64 <=? v) && (v <=? max_int64) then Some v else None
  | _ => None
  end.

Definition RecommendedRedisMaxMemory (c : Config) : option Z :=
  let bodies := float64_mul (float64_mul (float64_mul (float64_mul (float64_of (PasteMaxSize c))
    (float64_of (PastePerMin (Rate c)))) (float64_of 15)) (float64_of (RedisExpectedUsers c))) one_point_two in
  (fun n => int64 (n + Z.shiftl 64 20)) <$> int64_of_float bodies.

(** ** What the log may show *)

(** The same configuration with other connection strings, key material and
    client secret. *)
Definition with_secrets (db redis state secret : string) (keys : gmap string (list Init.Byte.byte)) (c : Config) : Config :=
  let o := OIDC c in
  MkConfig (AppBaseURL c) (ListenAddr c) (TrustedProxyCIDRs c) (TLSCertFile c) (TLSKeyFile c) db redis state keys
    (MasterKeyActive c) (cfg_AuthMode c)
    (MkOIDCConfig (oc_Issuer o) (oc_ClientID o) secret (oc_RedirectURL o) (oc_Scopes o) (oc_RequiredGroup o)
       (oc_GroupClaim o) (oc_AdminGroup o))
    (SessionIdleTTL c) (SessionAbsoluteTTL c) (ViewRequiresAuth c) (Challenge c) (Argon2 c) (PasteMaxSize c)
    (PasteTTLDefault c) (PasteTTLMin c) (PasteTTLMax c) (PasteTTLHardMax c) (MetadataRetentionDays c)
    (AuditRetentionDays c) (Rate c) (RedisExpectedUsers c) (AuditDBEnabled c) (LogLevel c) (MetricsListenAddr c)
    (NoticeText c).

(** The log-safe view does not depend on them: only the ids of the keys show. *)
Lemma Redacted_hides db redis state secret keys c :
  dom keys = dom (MasterKeys c) -> Redacted (with_secrets db redis state secret keys c) = Redacted c.
Proof. intros Hd. unfold Redacted, with_secrets. cbn. by rewrite Hd. Qed.

(** ** Runs *)

(** An environment with the variables that have no default, and overrides. *)
Definition demo_env (overrides : list (string * string)) (key : string) : string :=
  let vars := overrides ++ [("APP_BASE_URL", "https://paste.example/"); ("DATABASE_URL", "postgres://db");
    ("REDIS_URL", "redis://r"); ("MASTER_KEYS", "k1:AAAAAAAAAAAAAAAAAAAAAAAAAAAAAAAAAAAAAAAAAAA=")] in
  match List.find (fun kv => bool_decide (fst kv = key)) vars with Some (_, v) => v | None => "" end.
Definition no_files (_ : string) : string + string := inl "no such file".

Definition load_with (overrides : list (string * string)) : res Config := Load (demo_env overrides) no_files.

(** The configuration the runs of other files use. *)
Definition demo_cfg : Config :=
  match load_with [("TRUSTED_PROXY_CIDRS", "10.0.0.0/8")] with
  | Ok c => c
  | _ => MkConfig "" "" [] "" "" "" "" "" ∅ "" "" (MkOIDCConfig "" "" "" "" [] "" "" "") 0 0 false
           (MkChallengeConfig false 0 0 0) (MkArgon2Config 0 0 0 0 0) 0 0 0 0 0 0 0 (MkRateConfig 0 0 0 0 0 0 0 0 0) 0 false "" "" ""
  end.

Example Load_runs :
  (exists c, load_with [] = Ok c /\ AppBaseURL c = "https://paste.example" /\ PasteMaxSize c = 262144) /\
  load_with [("PASTE_TTL_MIN", "0"); ("AUTH_MODE", "ldap")] =
    Err (NewError "config: AUTH_MODE must be local, oidc or both; PASTE_TTL_MIN must be >= 1") /\
  load_with [("MASTER_KEYS", "k1:AAAA")] = 
    Err (NewError ("config: MASTER_KEYS: master key " +:+ quoted "k1" +:+ ": must be 32 bytes, got 3")).
Proof.
  split; [|split; vm_compute; reflexivity].
  destruct (load_with []) as [c| |] eqn:E; [|by vm_compute in E..]. exists c. split; [done|].
  assert (Hc : Ok c = load_with []) by done.
  split; [apply (f_equal (fun r => match r with Ok c => AppBaseURL c | _ => "" end)) in Hc
         |apply (f_equal (fun r => match r with Ok c => PasteMaxSize c | _ => 0 end)) in Hc]; vm_compute in Hc; exact Hc.
Qed.

(** The memory cost is narrowed to 32 bits before it is checked: both settings
    below load. *)
Lemma Load_memory_wraps :
  match load_with [("ARGON2_MEMORY_KIB", "4294975488")], load_with [("ARGON2_MEMORY_KIB", "-1")] with
  | Ok c, Ok d => ac_MemoryKiB (Argon2 c) = 8192 /\ ac_MemoryKiB (Argon2 d) = 2 ^ 32 - 1
  | _, _ => False
  end.
Proof. vm_compute. split; reflexivity. Qed.

(** No upper bound ties [PASTE_TTL_MAX] to the CHECK of the table, which ends at
    86400 seconds; the file [Server] runs a server with this configuration. *)
Definition long_ttls : list (string * string) := [("PASTE_TTL_HARD_MAX", "172800"); ("PASTE_TTL_MAX", "172800")].
Lemma Load_long_ttls : match load_with long_ttls with Ok c => PasteTTLMax c = 172800 | _ => False end.
Proof. vm_compute. reflexivity. Qed.

(** About 2.3 GB for the default limits. *)
Example RecommendedRedisMaxMemory_run : RecommendedRedisMaxMemory demo_cfg = Some (2359296000 + 64 * 2 ^ 20).
Proof. vm_compute. reflexivity. Qed.
