(* ===== verification/AuthLocal.v ===== *)
(** * Local authentication ([internal/auth/local.go])

    Checking a username and a password.  Over any stores the work done does not
    depend on who asks; over the real ones a login succeeds exactly for an
    enabled local user who gives the password. *)
From S2P Require Import Prelude GoNum GoStr Codec NetIP Json Errors PasteTypes.
From S2P Require Import Crypto Ports Redis Pg World PgPastes PgAudit PasteSystem AuthTypes PgUsers.

Record LocalAuth (S : Type) : Type := MkLocalAuth {
  la_users : UserStore S;
  la_hasher : PasswordHasher S;
  la_sink : Sink S;
  la_now : S -> Z * S;
  la_dummyPHC : string
}.
Arguments la_users {S} _. Arguments la_hasher {S} _. Arguments la_sink {S} _. Arguments la_now {S} _.
Arguments la_dummyPHC {S} _.

Definition NewLocalAuth {S} (rand : RandOps S) (users : UserStore S) (hasher : PasswordHasher S)
    (sink : Sink S) (now : S -> Z * S) : M S (LocalAuth S) :=
  token ← RandomToken rand 24;
  dummyPHC ← Hash hasher Background token;
  mret (MkLocalAuth S users hasher sink now dummyPHC).

Section Authenticate.
Context {S : Type} (l : LocalAuth S).

Definition fail (c : ctx) (username reason : string) : M S User :=
  now ← read_clock (la_now l);
  emit (la_sink l) c (MkEvent now LoginFailure None None "" "" OutcomeFailure
    [("username", VStr username); ("reason", VStr reason); ("provider", VStr "local")]) ;;
  throw ErrBadCredentials.

Definition Local_Authenticate (c : ctx) (username password : string) : M S User :=
  r ← try (Users_GetByUsername (la_users l) c username);
  match r with
  | inl err =>
      if errors_Is err ErrUserNotFound then
        AuthTypes.Verify (la_hasher l) c (la_dummyPHC l) password ;;
        fail c username "unknown_user"
      else throw err
  | inr user =>
      if negb (bool_decide (us_Provider user = ProviderLocal)) || bool_decide (us_PasswordHash user = "") then
        AuthTypes.Verify (la_hasher l) c (la_dummyPHC l) password ;;
        fail c username "not_local"
      else
        ok ← AuthTypes.Verify (la_hasher l) c (us_PasswordHash user) password;
        if negb ok then fail c username "wrong_password"
        else if us_Disabled user then fail c username "disabled"
        else
          now ← read_clock (la_now l);
          ignore (Users_TouchLogin (la_users l) c (us_ID user) now) ;;
          emit (la_sink l) c (MkEvent now LoginSuccess (Some (us_ID user)) None "" "" OutcomeSuccess
            [("provider", VStr "local")]) ;;
          mret user
  end.

Definition NewLocalAuthenticator : LocalAuthenticator S := MkLocalAuthenticator S Local_Authenticate.
End Authenticate.

(** ** The hasher ([internal/auth/hasher.go]) *)

Definition NewArgon2Hasher `{Primitives} {S} (rand : RandOps S) (g : GateOps S) (params : Argon2Params) : PasswordHasher S :=
  MkPasswordHasher S (Hasher_Hash rand g params) (Hasher_Verify g).

(** A verification does not read its text, or derives one key and compares. *)
Lemma VerifyPassword_cases `{Primitives} {S} c (g : GateOps S) phc password :
  (exists msg, VerifyPassword c g phc password = throw (NewError msg)) \/
  (exists p msg, VerifyPassword c g phc password = throw (Errorf p (NewError msg))) \/
  exists p salt want, VerifyPassword c g phc password =
    (got ← DeriveKey c g password salt p; mret (bool_decide (got = want))).
Proof.
  unfold VerifyPassword.
  destruct (Split phc Byte.x24) as [|? [|algo [|version [|params [|salt64 [|hash64 [|? ?]]]]]]]; try (by left; eexists).
  destruct (_ || _); [by left; eexists|]. destruct (scan_params params) as [p|]; [|right; left; by eexists _, _].
  destruct (Base64.rawstd_DecodeString salt64) as [salt|]; [|by left; eexists].
  destruct (Base64.rawstd_DecodeString hash64) as [want|]; [|by left; eexists]. right; right. by exists p, salt, want.
Qed.

(** ** The same work for everybody *)
Section Work.
Context `{Primitives} {S : Type} (rand : RandOps S) (g : GateOps S) (params : Argon2Params)
  (users : UserStore S) (sink : Sink S) (now : S -> Z * S) (dummyPHC : string).

#[local] Abbreviation l := (MkLocalAuth S users (NewArgon2Hasher rand g params) sink now dummyPHC).

(** [derivations] counts the key derivations, by the slots of the gate that were
    taken for them; the stores, the sink and the clock do not use the gate. *)
Context (derivations : S -> Z)
  (Hacquire : forall c s,
     match gate_Acquire g c s with
     | (Ok _, s') => derivations s' = derivations s + 1
     | (Err e, _) => e <> ErrBadCredentials
     | (Panic, _) => True
     end)
  (Hrelease : forall s, derivations (snd (gate_Release g s)) = derivations s)
  (Hget : forall c n s, derivations (snd (Users_GetByUsername users c n s)) = derivations s)
  (Hget_err : forall c n s, fst (Users_GetByUsername users c n s) <> Err ErrBadCredentials)
  (Htouch : forall c id t s, derivations (snd (Users_TouchLogin users c id t s)) = derivations s)
  (Hsink : forall c ev s, derivations (sink c ev s) = derivations s)
  (Hnow : forall s, derivations (snd (now s)) = derivations s).

(** An answer of the hasher about a password has cost one derivation, whatever
    text it was asked to verify against; a text it cannot read is an error, and
    no error is the refusal of a login. *)
Lemma Hasher_Verify_work c phc password s r s' :
  Hasher_Verify g c phc password s = (r, s') ->
  match r with
  | Ok _ => derivations s' = derivations s + 1
  | Err e => e <> ErrBadCredentials
  | Panic => True
  end.
Proof.
  unfold Hasher_Verify, wrap. destruct (VerifyPassword_cases c g phc password) as [[msg ->]|[(p & msg & ->)|(p & salt & want & ->)]];
    [by intros [= <- <-]..|].
  unfold DeriveKey, argon2_IDKey, defer, panic. go_unfold. pose proof (Hacquire c s) as Ha.
  destruct (gate_Acquire g c s) as [[[]|e|] s1]; [| |intros; by simplify_eq/=].
  - pose proof (Hrelease s1) as Hr. destruct (_ || _); destruct (gate_Release g s1) as [[[]|e|] s2]; cbn [snd] in Hr;
      intros; simplify_eq/=; done || lia.
  - intros; simplify_eq/=. unfold mapBusy. by destruct (errors_Is e ErrBusy).
Qed.

Lemma fail_work c u reason s r s' :
  fail l c u reason s = (r, s') -> derivations s' = derivations s.
Proof.
  unfold fail, read_clock, emit. go_unfold. cbn [la_now la_sink]. specialize (Hnow s). destruct (now s) as [t s1].
  intros [= <- <-]. by rewrite Hsink.
Qed.

Lemma dummy_work c phc password u reason s r s' :
  (Hasher_Verify g c phc password ;; fail l c u reason) s = (r, s') ->
  (exists u, r = Ok u) \/ r = Err ErrBadCredentials -> derivations s' = derivations s + 1.
Proof.
  go_unfold. destruct (Hasher_Verify g c phc password s) as [v s1] eqn:Ev. apply Hasher_Verify_work in Ev.
  destruct v as [b|e|]; intros Hr Hans; [apply fail_work in Hr; lia|injection Hr as <- <-..];
    destruct Hans as [[? ?]|?]; congruence.
Qed.

(** C26. Every answer about the credentials, acceptance or refusal, costs exactly
    one key derivation, whether the user exists, is local, is disabled or gave
    a wrong password: the refusals do not differ in the number of derivations
    either.  This is about the repository's own hasher, over any gate that
    counts its slots, any generator, user store, sink and clock, and whatever
    texts stand in the rows and in the dummy: a text that cannot be read leads
    to another answer, an error. *)
Theorem Authenticate_same_work c username password s r s' :
  Local_Authenticate l c username password s = (r, s') ->
  (exists u, r = Ok u) \/ r = Err ErrBadCredentials ->
  derivations s' = derivations s + 1.
Proof.
  unfold Local_Authenticate. intros Hr Hans. go_unfold. cbn [la_users la_hasher la_dummyPHC AuthTypes.Verify NewArgon2Hasher] in Hr.
  pose proof (Hget c username s) as Hg. pose proof (Hget_err c username s) as Hge.
  destruct (Users_GetByUsername users c username s) as [[u|err|] s1]; cbn [fst snd] in *.
  - destruct (negb _ || _); [apply dummy_work in Hr; [lia|done]|].
    destruct (Hasher_Verify g c (us_PasswordHash u) password s1) as [v s2] eqn:Ev. apply Hasher_Verify_work in Ev.
    destruct v as [b|e|]; [|injection Hr as <- <-; destruct Hans as [[? ?]|?]; congruence..].
    destruct (negb b); [apply fail_work in Hr; lia|].
    destruct (us_Disabled u); [apply fail_work in Hr; lia|].
    unfold read_clock, emit in Hr. cbn [la_now la_sink] in Hr. pose proof (Hnow s2) as Hn. destruct (now s2) as [t s3]. cbn [snd] in Hn.
    pose proof (snd_ignore (Users_TouchLogin users c (us_ID u) t) s3) as Hi.
    destruct (ignore _ s3) as [[[]|e|] s4]; cbn [snd] in Hi; injection Hr as <- <-;
      rewrite ?Hsink; subst s4; rewrite Htouch; lia.
  - destruct (errors_Is err ErrUserNotFound); [apply dummy_work in Hr; [lia|done]|].
    injection Hr as <- <-. destruct Hans as [[? ?]|?]; congruence.
  - injection Hr as <- <-. by destruct Hans as [[? ?]|?].
Qed.
End Work.

(** ** Over the real store and hasher *)
Section Login.
Context `{RedisServer} `{PgTypes} `{UUIDText} `{Primitives} (g : GateOps World) (params : Argon2Params)
  (dummyPHC : string).

Definition local_auth : LocalAuth World :=
  MkLocalAuth World NewUserStore (NewArgon2Hasher world_rand g params) audit_sinks clock dummyPHC.

(** The row that answers to a username, and what its hash stands for. *)
Definition user_row (w : World) (username : string) : option UserRow :=
  List.find (fun r => bool_decide (u_username r = username)) (t_users (w_pg w)).

Definition key_of_password (password : string) (salt : bytes) (p : Argon2Params) : bytes :=
  IDKey (of_str password) salt (a2_Time p) (a2_MemoryKiB p) (a2_Threads p).

Lemma Hasher_Verify_text c p salt key password s r s' :
  params_ok p -> Hasher_Verify g c (phc_text p salt key) password s = (r, s') ->
  forall b, r = Ok b -> b = bool_decide (key_of_password password salt p = key).
Proof.
  intros Hp. unfold Hasher_Verify, wrap. rewrite VerifyPassword_phc_text by done. go_unfold.
  destruct (DeriveKey c g password salt p s) as [[k|e|] s1] eqn:Ed; intros [= <- <-] b [= <-].
  revert Ed. unfold DeriveKey, argon2_IDKey, defer. go_unfold.
  destruct (gate_Acquire g c s) as [[[]|e|] s2]; [|done..].
  destruct (_ || _); destruct (gate_Release g s2) as [[] s3]; try done; by intros [= <- <-].
Qed.


(** ** When nothing fails *)

Context (Hgate : forall c w, gate_Acquire g c w = (Ok tt, w) /\ gate_Release g w = (Ok tt, w)).

Lemma Verify_calm c p salt key password w :
  params_ok p ->
  Hasher_Verify g c (phc_text p salt key) password w = (Ok (bool_decide (key_of_password password salt p = key)), w).
Proof.
  intros Hp. unfold Hasher_Verify, wrap. rewrite VerifyPassword_phc_text by done.
  unfold DeriveKey, argon2_IDKey. go_unfold. destruct (Hgate c w) as [-> Hrel].
  destruct Hp as (Ht & _ & Hth). replace ((a2_Time p <? 1) || (a2_Threads p <? 1)) with false by lia. by rewrite Hrel.
Qed.

Lemma GetByUsername_calm c username w :
  w_env w = [] -> text_ok username = true ->
  User_GetByUsername c username w =
    (match user_row w username with Some row => Ok (scanUser row) | None => Err ErrUserNotFound end, w).
Proof.
  intros He Ht. unfold User_GetByUsername, query_user, select_user. go_unfold. rewrite pg_do_calm by done.
  cbn [forallb]. rewrite Ht. cbn [negb andb fst snd]. fold (user_row w username). rewrite set_pg_same.
  by destruct (user_row w username).
Qed.

Lemma phc_text_nonempty p salt key : phc_text p salt key <> "".
Proof. done. Qed.

Lemma Verify_calm_state c phc password w : snd (Hasher_Verify g c phc password w) = w.
Proof.
  unfold Hasher_Verify, wrap. destruct (VerifyPassword_cases c g phc password) as [[msg ->]|[(p & msg & ->)|(p & salt & want & ->)]];
    [done..|].
  unfold DeriveKey, argon2_IDKey, defer, panic. go_unfold. destruct (Hgate c w) as [-> Hrel].
  destruct (_ || _); by rewrite Hrel.
Qed.

Lemma touch_calm c id t w : exists w', ignore (User_TouchLogin c id t) w = (Ok tt, w').
Proof.
  destruct (ignore _ w) as [r2 w2] eqn:Ei. exists w2. f_equal. revert Ei. unfold ignore, User_TouchLogin. go_unfold.
  destruct (pg_do c _ w) as [r3 w3] eqn:E3. apply pg_do_inv in E3 as (_ & _ & Hd3).
  destruct r3; intros [= <- <-]; try done. destruct Hd3 as [[_ [k ?]]|[_ [?|[k ?]]]]; done.
Qed.

(** C11. With a user store that answers, a gate that has room and a dummy text of
    the hasher, the answer to a login is determined by the row of that name.
    No row, a row of another provider, or one without a password hash: the one
    refusal.  A local row whose hash is a text of the hasher: yes exactly when
    the account is enabled and the password derives the key of the text, and
    the one refusal otherwise.  A local row with any other text as its hash:
    what the hasher makes of the text, and when it cannot read it, its error and
    not the refusal. *)
Theorem Login_decides c username password w :
  w_env w = [] -> text_ok username = true ->
  (exists p salt key, params_ok p /\ dummyPHC = phc_text p salt key) ->
  let answer := fst (Local_Authenticate local_auth c username password w) in
  match user_row w username with
  | None => answer = Err ErrBadCredentials
  | Some row =>
      (u_auth_provider row <> "local" \/ u_password_hash row = None \/ u_password_hash row = Some "" ->
       answer = Err ErrBadCredentials) /\
      (forall p salt key,
       u_auth_provider row = "local" -> u_password_hash row = Some (phc_text p salt key) -> params_ok p ->
       answer = if negb (u_disabled row) && bool_decide (key_of_password password salt p = key)
                then Ok (scanUser row) else Err ErrBadCredentials) /\
      (forall hash,
       u_auth_provider row = "local" -> u_password_hash row = Some hash -> hash <> "" ->
       answer = match fst (Hasher_Verify g c hash password w) with
                | Ok match_ => if match_ && negb (u_disabled row) then Ok (scanUser row) else Err ErrBadCredentials
                | Err err => Err err
                | Panic => Panic
                end)
  end.
Proof.
  intros He Ht (dp & dsalt & dkey & Hdp & Hd) answer.
  assert (Hfail : forall w1 reason, fst (fail local_auth c username reason w1) = Err ErrBadCredentials).
  { intros w1 reason. unfold fail, read_clock, emit. go_unfold. by destruct (la_now local_auth w1). }
  assert (Hdummy : Hasher_Verify g c dummyPHC password w = (Ok (bool_decide (key_of_password password dsalt dp = dkey)), w))
    by (rewrite Hd; by apply Verify_calm).
  assert (Hrow : forall row, user_row w username = Some row -> forall hash,
    u_auth_provider row = "local" -> u_password_hash row = Some hash -> hash <> "" ->
    answer = match fst (Hasher_Verify g c hash password w) with
             | Ok match_ => if match_ && negb (u_disabled row) then Ok (scanUser row) else Err ErrBadCredentials
             | Err err => Err err | Panic => Panic end).
  { intros row Erow hash Hprov Hh Hne. unfold answer, Local_Authenticate. go_unfold.
    cbn [local_auth la_users la_hasher Users_GetByUsername NewUserStore AuthTypes.Verify NewArgon2Hasher].
    rewrite GetByUsername_calm, Erow by done. cbv beta.
    replace (us_PasswordHash (scanUser row)) with hash by (unfold scanUser; cbn; by rewrite Hh).
    change (us_Provider (scanUser row)) with (u_auth_provider row). rewrite Hprov, (bool_decide_false (hash = "")) by done.
    rewrite (bool_decide_true (_ = ProviderLocal)) by done. cbn [negb orb]. cbv iota.
    pose proof (Verify_calm_state c hash password w) as Hs.
    destruct (Hasher_Verify g c hash password w) as [[b|err|] w1]; cbn [fst snd] in *; subst w1; [|done..].
    destruct b; cbn [negb andb]; [|apply Hfail]. change (us_Disabled (scanUser row)) with (u_disabled row).
    destruct (u_disabled row); cbn [negb]; [apply Hfail|]. unfold read_clock, emit. destruct (la_now local_auth w) as [t w1].
    cbn [Users_TouchLogin NewUserStore la_users local_auth]. by destruct (touch_calm c (us_ID (scanUser row)) t w1) as [w2 ->]. }
  destruct (user_row w username) as [row|] eqn:Erow.
  - split_and!; [|intros p salt key Hprov Hh Hp|by apply Hrow].
    + intros Hno. unfold answer, Local_Authenticate. go_unfold.
      cbn [local_auth la_users la_hasher la_dummyPHC Users_GetByUsername NewUserStore AuthTypes.Verify NewArgon2Hasher].
      rewrite GetByUsername_calm, Erow by done. cbv beta.
      replace (negb _ || _) with true; [rewrite Hdummy; apply Hfail|]. symmetry. apply orb_true_iff.
      destruct Hno as [Hno|Hno]; [left|right; apply bool_decide_eq_true; unfold scanUser; cbn; by destruct Hno as [->| ->]].
      by apply negb_true_iff, bool_decide_eq_false.
    + rewrite (Hrow row eq_refl _ Hprov Hh) by done. rewrite Verify_calm by done. cbn [fst]. by rewrite andb_comm.
  - unfold answer, Local_Authenticate. go_unfold.
    cbn [local_auth la_users la_hasher la_dummyPHC Users_GetByUsername NewUserStore AuthTypes.Verify NewArgon2Hasher].
    rewrite GetByUsername_calm, Erow by done. change (errors_Is ErrUserNotFound ErrUserNotFound) with true. cbv beta iota.
    rewrite Hdummy. apply Hfail.
Qed.
End Login.

(** ** Runs *)

#[local] Existing Instance map_server.
#[local] Existing Instance byte_collation.
#[local] Existing Instance canonical_uuid_text.
#[local] Existing Instance toy_primitives.

Definition demo_argon : Argon2Params := MkArgon2Params 3 32768 2.
Definition demo_salt : bytes := replicate 16 Byte.x07.
Definition demo_phc (password : string) : string :=
  phc_text demo_argon demo_salt (key_of_password password demo_salt demo_argon).
Definition erin : UserRow :=
  MkUserRow (vreplicate 16 Byte.x05) "erin" None "local" None None (Some (demo_phc "sesame")) false false 0 None.
Definition login_world : World := set_pg (MkTables [demo_user; erin] [] [] 0) demo_world.
Definition demo_local : LocalAuth World := local_auth free_gate demo_argon (demo_phc "dummy").
Definition erin_login (password : string) : res User * World :=
  Local_Authenticate demo_local Background "erin" password login_world.

Lemma demo_argon_ok : params_ok demo_argon.
Proof. unfold params_ok. simpl. lia. Qed.


(** A user of the provider, without a password hash, and a local user whose hash
    is not a text of the hasher. *)
Definition olga : UserRow := MkUserRow (vreplicate 16 Byte.x06) "olga" None "oidc" (Some "iss") (Some "sub") None false false 0 None.
Definition hugo : UserRow := MkUserRow (vreplicate 16 Byte.x07) "hugo" None "local" None None (Some "md5") false false 0 None.
Definition three_users : World := set_pg (MkTables [erin; olga; hugo] [] [] 0) demo_world.
Definition three_login (username password : string) : res User :=
  fst (Local_Authenticate demo_local Background username password three_users).

Lemma Login_decides_witness :
  three_login "erin" "sesame" = Ok (scanUser erin) /\ three_login "erin" "guess" = Err ErrBadCredentials /\
  three_login "olga" "sesame" = Err ErrBadCredentials /\ three_login "nobody" "sesame" = Err ErrBadCredentials /\
  three_login "hugo" "sesame" = Err (NewError "crypto: unsupported phc string").
Proof.
  assert (Hd : exists p salt key, params_ok p /\ demo_phc "dummy" = phc_text p salt key)
    by (eexists demo_argon, demo_salt, _; split; [exact demo_argon_ok|reflexivity]).
  assert (Hpw : forall password, three_login "erin" password =
    if bool_decide (key_of_password password demo_salt demo_argon = key_of_password "sesame" demo_salt demo_argon)
    then Ok (scanUser erin) else Err ErrBadCredentials).
  { intros password.
    pose proof (Login_decides free_gate demo_argon (demo_phc "dummy") (fun _ _ => conj eq_refl eq_refl) Background "erin"
      password three_users eq_refl eq_refl Hd) as (_ & Hl & _).
    by apply (Hl demo_argon demo_salt); [| |exact demo_argon_ok]. }
  rewrite !Hpw. split; [vm_compute; reflexivity|]. split; [vm_compute; reflexivity|]. split_and!.
  - pose proof (Login_decides free_gate demo_argon (demo_phc "dummy") (fun _ _ => conj eq_refl eq_refl) Background "olga"
      "sesame" three_users eq_refl eq_refl Hd) as (Hl & _). apply Hl. by left.
  - exact (Login_decides free_gate demo_argon (demo_phc "dummy") (fun _ _ => conj eq_refl eq_refl) Background "nobody"
      "sesame" three_users eq_refl eq_refl Hd).
  - pose proof (Login_decides free_gate demo_argon (demo_phc "dummy") (fun _ _ => conj eq_refl eq_refl) Background "hugo"
      "sesame" three_users eq_refl eq_refl Hd) as (_ & _ & Hl). by apply (Hl "md5").
Defined.

(** A gate that counts, and a store with a disabled user and with rows like those
    above; every one of them costs one derivation, except for the hash that
    nobody can read. *)
Definition counting_gate : GateOps Z := MkGateOps Z (fun _ n => (Ok tt, n + 1)) (mret tt).
Definition counting_users : UserStore Z :=
  let none {A} : M Z A := throw ErrUserNotFound in
  MkUserStore Z (fun _ _ => mret tt) (fun _ _ => none)
    (fun _ n => if bool_decide (n = "dora")
                then mret (MkUser uuid_Nil "dora" "" ProviderLocal "" "" (demo_phc "sesame") false true 0 None)
                else if bool_decide (n = "erin") then mret (scanUser erin)
                else if bool_decide (n = "olga") then mret (scanUser olga)
                else if bool_decide (n = "hugo") then mret (scanUser hugo) else none)
    (fun _ _ _ => none) (fun _ _ => none) (fun _ _ _ => mret tt) (fun _ _ _ => mret tt)
    (fun _ _ _ => mret tt) (fun _ => mret []).
Definition counting_auth : LocalAuth Z :=
  MkLocalAuth Z counting_users (NewArgon2Hasher zero_rand counting_gate demo_argon) (fun _ _ n => n) (fun n => (0, n))
    (demo_phc "dummy").
Definition counted (username password : string) : res User * Z :=
  Local_Authenticate counting_auth Background username password 7.

Lemma Authenticate_same_work_witness :
  (fst (counted "erin" "sesame") = Ok (scanUser erin) /\ snd (counted "erin" "sesame") = 8) /\
  (fst (counted "erin" "guess") = Err ErrBadCredentials /\ snd (counted "erin" "guess") = 8) /\
  (fst (counted "dora" "sesame") = Err ErrBadCredentials /\ snd (counted "dora" "sesame") = 8) /\
  (fst (counted "olga" "sesame") = Err ErrBadCredentials /\ snd (counted "olga" "sesame") = 8) /\
  (fst (counted "nobody" "sesame") = Err ErrBadCredentials /\ snd (counted "nobody" "sesame") = 8) /\
  fst (counted "hugo" "sesame") = Err (NewError "crypto: unsupported phc string").
Proof.
  assert (Hget : forall c n s, snd (Users_GetByUsername counting_users c n s) = s) by (intros c n s; simpl; by repeat case_bool_decide).
  assert (Herr : forall c n s, fst (Users_GetByUsername counting_users c n s) <> Err ErrBadCredentials)
    by (intros c n s; simpl; by repeat case_bool_decide).
  assert (Hwork : forall u p r, fst (counted u p) = r -> (exists x, r = Ok x) \/ r = Err ErrBadCredentials -> snd (counted u p) = 7 + 1).
  { intros u p r Hr Hans. apply (Authenticate_same_work zero_rand counting_gate demo_argon counting_users (fun _ _ n => n)
      (fun n => (0, n)) (demo_phc "dummy") (fun n => n) (fun _ _ => eq_refl) (fun _ => eq_refl) Hget Herr (fun _ _ _ _ => eq_refl)
      (fun _ _ _ => eq_refl) (fun _ => eq_refl) Background u p 7 r (snd (counted u p))); [|done].
    rewrite <-Hr. apply surjective_pairing. }
  change 8 with (7 + 1).
  do 5 (split; [split; [vm_compute; reflexivity|eapply Hwork; [vm_compute; reflexivity|first [by right|by left; eexists]]]|]).
  vm_compute. reflexivity.
Defined.
