(* ===== verification/AuthOidc.v ===== *)
(** * Login through an identity provider ([internal/auth/oidc.go])

    The authorization-code flow with PKCE: [Start] remembers a state, a code
    verifier and a nonce and sends the browser to the provider, [Complete] takes
    the state back, exchanges the code, and lets in who the provider vouches for
    and who is in the required group.  Discovery, the token exchange and the
    verification of ID tokens belong to go-oidc and oauth2: they are operations
    of the parameter [Provider]. *)
From S2P Require Import Prelude GoNum GoStr Codec NetIP Json Errors Sha256 Rfc3339 PasteTypes Crypto Ports Redis Pg.
From S2P Require Import World RedisBody PgPastes PgAudit PasteLaws PasteSystem AuthTypes RedisOidc PgUsers Config.

Definition oidcStateTTL : Z := 5 * Minute.

(** A verified [oidc.IDToken]; its claims are the JSON of the token, which
    [Claims] unmarshals. *)
Record IDToken : Type := MkIDToken {
  it_Issuer : string;
  it_Subject : string;
  it_Nonce : string;
  it_claims : option bytes
}.

(** [Exchange] posts the code and the code verifier and gives
    [token.Extra("id_token")] when it is a string; [VerifyIDToken] is
    [IDTokenVerifier.Verify]; [AuthCodeURL] the URL of the authorization
    endpoint with its extra parameters. *)
Record Provider (S : Type) : Type := MkProvider {
  Exchange : ctx -> string -> string -> M S (option string);
  VerifyIDToken : ctx -> string -> M S IDToken;
  AuthCodeURL : string -> list (string * string) -> string
}.
Arguments Exchange {S} _. Arguments VerifyIDToken {S} _. Arguments AuthCodeURL {S} _.

Record OIDC (S : Type) : Type := MkOIDC {
  o_cfg : OIDCConfig;
  o_provider : Provider S;
  o_users : UserStore S;
  o_states : OIDCStateStore S;
  o_sink : Sink S;
  o_now : S -> Z * S
}.
Arguments o_cfg {S} _. Arguments o_provider {S} _. Arguments o_users {S} _. Arguments o_states {S} _.
Arguments o_sink {S} _. Arguments o_now {S} _.

Definition sanitizedOIDCError (stage : string) (err : error) : error :=
  if errors_Is err Canceled then Errorf ("oidc: " +:+ stage) Canceled
  else if errors_Is err DeadlineExceeded then Errorf ("oidc: " +:+ stage) DeadlineExceeded
  else NewError ("oidc: " +:+ stage +:+ " failed").

(** [discover] is [oidc.NewProvider] with the verifier and the endpoint it
    gives for these settings. *)
Definition NewOIDC {S} (discover : ctx -> OIDCConfig -> M S (Provider S)) (c : ctx) (cfg : OIDCConfig)
    (users : UserStore S) (states : OIDCStateStore S) (sink : Sink S) (now : S -> Z * S) : M S (OIDC S) :=
  if bool_decide (TrimSpace (oc_RequiredGroup cfg) = "") then throw (NewError "oidc: required group must be set")
  else
    provider ← wrap (sanitizedOIDCError "discovery") (discover c cfg);
    mret (MkOIDC S cfg provider users states sink now).

Definition pkceS256 (verifier : string) : string := Base64.rawurl_EncodeToString (Sum256 (of_str verifier)).

(** ** Claims *)

Record oidcIdentityClaims : Type := MkClaims {
  cl_PreferredUsername : string;
  cl_Email : string;
  cl_Name : string;
  cl_Groups : list string
}.

(** [map[string]json.RawMessage]: of two members of one name the later counts. *)
Definition raw_lookup (raw : list (bytes * json)) (name : string) : option json :=
  snd <$> List.find (fun m => bool_decide (fst m = of_str name)) (rev raw).

(** [Claims(&raw)]: a JSON null leaves the map nil. *)
Definition raw_claims (tok : IDToken) : option (list (bytes * json)) :=
  b ← it_claims tok; j ← parse_json b;
  match j with
  | JNull => Some []
  | JObj l => Some l
  | _ => None
  end.

Definition string_claim (raw : list (bytes * json)) (name : string) : option string :=
  match raw_lookup raw name with
  | None => Some ""
  | Some JNull => None
  | Some j => into_string "" j
  end.

(** [json.Unmarshal] into a []string: a null element is the empty string. *)
Definition into_strings (j : json) : option (list string) :=
  match j with
  | JArr l => mapM (into_string "") l
  | _ => None
  end.

Definition decodeClaims (cfg : OIDCConfig) (tok : IDToken) : option oidcIdentityClaims :=
  raw ← raw_claims tok;
  preferred ← string_claim raw "preferred_username";
  email ← string_claim raw "email";
  name ← string_claim raw "name";
  match raw_lookup raw (oc_GroupClaim cfg) with
  | None => Some (MkClaims preferred email name [])
  | Some JNull => None
  | Some j => groups ← into_strings j; Some (MkClaims preferred email name groups)
  end.

(** ** The flow *)
Section Flow.
Context {S : Type} (rand : RandOps S) (newUUID : M S uuid) (o : OIDC S).

Definition Start (c : ctx) : M S string :=
  state ← RandomToken rand 32;
  verifier ← RandomToken rand 32;
  nonce ← RandomToken rand 32;
  createdAt ← read_clock (o_now o);
  States_Save (o_states o) c state (MkOIDCState verifier nonce createdAt) oidcStateTTL ;;
  mret (AuthCodeURL (o_provider o) state
    [("code_challenge", pkceS256 verifier); ("code_challenge_method", "S256"); ("nonce", nonce)]).

Definition recordDenied (c : ctx) (subject reason : string) : M S unit :=
  now ← read_clock (o_now o);
  emit (o_sink o) c (MkEvent now OIDCDenied None None "" "" OutcomeDenied
    [("reason", VStr reason); ("issuer", VStr (oc_Issuer (o_cfg o))); ("subject", VStr subject)]).

Definition state_current (value : OIDCState) (now : Z) : bool :=
  negb (bool_decide (os_Verifier value = "") || bool_decide (os_Nonce value = "") || IsZero (os_CreatedAt value) ||
        After (os_CreatedAt value) now || negb (After (time_Add (os_CreatedAt value) oidcStateTTL) now)).

Definition username_of (claims : oidcIdentityClaims) (tok : IDToken) : string :=
  let preferred := TrimSpace (cl_PreferredUsername claims) in
  let email := TrimSpace (cl_Email claims) in
  if negb (bool_decide (preferred = "")) then preferred
  else if negb (bool_decide (email = "")) then email
  else it_Subject tok.

Definition in_admin_group (claims : oidcIdentityClaims) : bool :=
  negb (bool_decide (oc_AdminGroup (o_cfg o) = "")) && bool_decide (oc_AdminGroup (o_cfg o) ∈ cl_Groups claims).

Definition oidc_user (id : uuid) (claims : oidcIdentityClaims) (tok : IDToken) : User :=
  MkUser id (username_of claims tok) (cl_Name claims) ProviderOIDC (it_Issuer tok) (it_Subject tok) ""
    (in_admin_group claims) false zero_time None.

Definition Complete (c : ctx) (state code : string) : M S User :=
  value ← States_Take (o_states o) c state;
  now ← read_clock (o_now o);
  if negb (state_current value now) then throw ErrOIDCStateInvalid
  else if bool_decide (code = "") then throw (NewError "oidc: authorization code missing")
  else
    token ← wrap (sanitizedOIDCError "token exchange") (Exchange (o_provider o) c code (os_Verifier value));
    let rawIDToken := default "" token in
    if bool_decide (rawIDToken = "") then throw (NewError "oidc: token response omitted id token")
    else
      idToken ← wrap (sanitizedOIDCError "id token verification") (VerifyIDToken (o_provider o) c rawIDToken);
      if negb (bool_decide (it_Nonce idToken = os_Nonce value)) then
        recordDenied c (it_Subject idToken) "nonce_mismatch" ;;
        throw (NewError "oidc: nonce validation failed")
      else if bool_decide (it_Issuer idToken = "") || negb (bool_decide (it_Issuer idToken = oc_Issuer (o_cfg o))) ||
              bool_decide (TrimSpace (it_Subject idToken) = "") then
        throw (NewError "oidc: invalid identity claims")
      else
        match decodeClaims (o_cfg o) idToken with
        | None => throw (NewError "oidc: invalid identity claims")
        | Some claims =>
            if negb (bool_decide (oc_RequiredGroup (o_cfg o) ∈ cl_Groups claims)) then
              recordDenied c (it_Subject idToken) "missing_required_group" ;;
              throw ErrNotAuthorised
            else
              id ← newUUID;
              stored ← Users_UpsertOIDC (o_users o) c (oidc_user id claims idToken);
              if us_Disabled stored then
                recordDenied c (it_Subject idToken) "disabled" ;;
                throw ErrNotAuthorised
              else
                emit (o_sink o) c (MkEvent now OIDCLogin (Some (us_ID stored)) None "" "" OutcomeSuccess
                  [("provider", VStr "oidc"); ("is_admin", VBool (us_IsAdmin stored))]) ;;
                mret stored
        end.

Definition NewOIDCFlow : OIDCFlow S := MkOIDCFlow S Start Complete.

(** The provider vouches for the bearer of [code]: the token it gives for the
    code and the verifier of this login carries this login's nonce, comes from
    the configured issuer and names a subject with these claims. *)
Definition vouched (c : ctx) (code : string) (value : OIDCState) (s2 : S) (tok : IDToken) (s4 : S)
    (claims : oidcIdentityClaims) : Prop :=
  exists raw s3, Exchange (o_provider o) c code (os_Verifier value) s2 = (Ok (Some raw), s3) /\
    VerifyIDToken (o_provider o) c raw s3 = (Ok tok, s4) /\
    it_Nonce tok = os_Nonce value /\ it_Issuer tok = oc_Issuer (o_cfg o) /\ it_Issuer tok <> "" /\
    TrimSpace (it_Subject tok) <> "" /\ decodeClaims (o_cfg o) tok = Some claims.

Lemma recordDenied_not c subject reason err s (u : User) s' :
  (recordDenied c subject reason ;; throw err) s <> (Ok u, s').
Proof. unfold recordDenied, read_clock, emit. go_unfold. by destruct (o_now o s). Qed.

Lemma Complete_inv c state code s u s' :
  Complete c state code s = (Ok u, s') ->
  exists value s1 now s2 tok s4 claims id s5 s6,
    States_Take (o_states o) c state s = (Ok value, s1) /\ o_now o s1 = (now, s2) /\
    state_current value now = true /\ vouched c code value s2 tok s4 claims /\
    oc_RequiredGroup (o_cfg o) ∈ cl_Groups claims /\ newUUID s4 = (Ok id, s5) /\
    Users_UpsertOIDC (o_users o) c (oidc_user id claims tok) s5 = (Ok u, s6) /\ us_Disabled u = false /\
    exists ev, s' = o_sink o c ev s6.
Proof.
  unfold Complete. intros (value & s1 & Etake & Hr)%bind_ok. apply bind_ok in Hr as (now & s2 & En & Hr).
  unfold read_clock in En. destruct (o_now o s1) as [now' s2'] eqn:Enow. injection En as <- <-.
  destruct (state_current value now') eqn:Ec; cbn [negb] in Hr; [|done].
  case_bool_decide; [done|]. apply bind_ok in Hr as (token & s3 & Ee%wrap_ok & Hr).
  case_bool_decide as Eraw; [done|]. destruct token as [raw|]; cbn [default from_option] in *; [|done].
  apply bind_ok in Hr as (tok & s4 & Ev%wrap_ok & Hr).
  case_bool_decide as En1; cbn [negb] in Hr; [|by apply recordDenied_not in Hr].
  destruct (_ || _) eqn:Ei in Hr; [done|]. rewrite !orb_false_iff in Ei. destruct Ei as [[Ei1 Ei2] Ei3]. gobool.
  destruct (decodeClaims _ tok) as [claims|] eqn:Ed; [|done].
  case_bool_decide as Eg; cbn [negb] in Hr; [|by apply recordDenied_not in Hr].
  apply bind_ok in Hr as (id & s5 & Eu & Hr). apply bind_ok in Hr as (stored & s6 & Es & Hr).
  destruct (us_Disabled stored) eqn:Edis; [by apply recordDenied_not in Hr|].
  unfold emit in Hr. go_unfold. injection Hr as <- <-.
  exists value, s1, now', s2', tok, s4, claims, id, s5, s6. unfold vouched. split_and!; eauto 12.
Qed.
End Flow.

(** ** Over the real stores *)
Section Login.
Context `{RedisServer} `{RedisClient} `{PgTypes} `{UUIDText} (newUUID : M World uuid)
  (provider : Provider World) (cfg : OIDCConfig).

Definition world_oidc : OIDC World := MkOIDC World cfg provider NewUserStore NewOIDCStateStore audit_sinks clock.

(** Talking to the provider and drawing an id take time and touch neither
    database. *)
Definition leaves_stores {A} (m : M World A) : Prop :=
  forall w r w', m w = (r, w') -> w_time w <= w_time w' /\ stores w' = stores w.

Context (Hexchange : forall c code verifier, leaves_stores (Exchange provider c code verifier))
  (Hverify : forall c raw, leaves_stores (VerifyIDToken provider c raw))
  (Huuid : leaves_stores newUUID).

Lemma OIDC_login_inv c state code w u w' :
  Complete newUUID world_oidc c state code w = (Ok u, w') ->
  state_at w' state = None /\
  exists value b x t0 now w2 tok w4 claims,
    live t0 (w_redis w) (oidcKey state) = Some (RString b, x) /\ unmarshal_state b = Some value /\
    w_time w <= now <= w_time w' /\ os_CreatedAt value <= now < os_CreatedAt value + oidcStateTTL /\
    vouched world_oidc c code value w2 tok w4 claims /\
    oc_RequiredGroup cfg ∈ cl_Groups claims /\ us_Disabled u = false /\
    us_IsAdmin u = in_admin_group world_oidc claims /\
    us_OIDCIssuer u = oc_Issuer cfg /\ us_OIDCSubject u = it_Subject tok /\
    forall old, List.find (fun r => same_oidc r (oidc_row u 0)) (t_users (w_pg w)) = Some old -> us_ID u = u_id old.
Proof.
  intros (value & w1 & now & w2 & tok & w4 & claims & id & w5 & w6 & Etake & Enow & Ecur & Hv & Hg & Eid & Eup & Hdis &
    ev & ->)%Complete_inv.
  cbn [world_oidc o_cfg o_users o_states o_now o_sink States_Take Users_UpsertOIDC NewUserStore NewOIDCStateStore] in *.
  apply State_Take_spec in Etake as (Ht1 & Hp1 & _ & Hspent & _ & b & x & Hlive & Hu).
  apply clock_inv in Enow as (Ht2 & Ht2' & Hs2). pose proof Hv as (raw & w3 & Ee & Ev & _ & Hiss & _). cbn [world_oidc o_cfg o_provider] in Hiss, Ee, Ev.
  apply Hexchange in Ee as [Ht3 Hs3]. apply Hverify in Ev as [Ht4 Hs4]. apply Huuid in Eid as [Ht5 Hs5].
  pose proof (Upsert_frame _ _ _ _ _ Eup) as [Ht6 Hr6].
  destruct (Upsert_result _ _ _ _ _ Eup) as (Hadm & _ & Hi & Hsub & Hid).
  destruct (audit_sinks_keep c ev w6) as (Ht7 & Hr7 & _).
  assert (Hsame : stores w5 = stores w1) by congruence. unfold stores in Hsame. injection Hsame as Hr5 Hp5.
  cbn [oidc_user us_OIDCIssuer us_OIDCSubject us_IsAdmin] in Hi, Hsub, Hadm.
  split.
  - unfold state_at in *. rewrite Hr7, Hr6, Hr5. eapply live_none_later; [|exact Hspent].
    unfold server_ms, Millisecond in *. lia.
  - exists value, b, x, (server_ms w1), now, w2, tok, w4, claims. split_and!; try done; try lia; try congruence.
    + unfold state_current in Ecur. apply negb_true_iff in Ecur. rewrite !orb_false_iff in Ecur.
      destruct Ecur as [[_ Ha] _]. unfold After in Ha. gobool. lia.
    + unfold state_current, After, time_Add in Ecur. apply negb_true_iff in Ecur. rewrite !orb_false_iff in Ecur.
      destruct Ecur as [_ Ha]. gobool. lia.
    + intros old Hold. rewrite Hp5, Hp1 in Hid.
      assert (Hf : List.find (fun r => same_oidc r (oidc_row (oidc_user world_oidc id claims tok) 0)) (t_users (w_pg w)) =
                   Some old).
      { rewrite <-Hold. apply find_ext. intros r. unfold same_oidc, oidc_row. cbn. by rewrite Hi, Hsub. }
      rewrite Hf in Hid. by destruct Hid.
Qed.


(** C27. A login is completed at most once: after one that succeeded, every later
    attempt with its state fails, unless the state is saved anew. *)
Theorem OIDC_login_once c state code w u w1 c' code' w2 r w3 :
  Complete newUUID world_oidc c state code w = (Ok u, w1) ->
  w_time w1 <= w_time w2 -> same_key (server_ms w1) (w_redis w1) (w_redis w2) (oidcKey state) ->
  Complete newUUID world_oidc c' state code' w2 = (r, w3) -> exists err, r = Err err.
Proof.
  intros (Hnone & _)%OIDC_login_inv Ht Hsame Hr. unfold Complete in Hr. unfold mbind, M_bind in Hr.
  cbn [world_oidc o_states States_Take NewOIDCStateStore] in Hr.
  destruct (State_Take c' state w2) as [r0 w0] eqn:E. apply State_Take_spec in E as (Ht0 & _ & _ & Hr0). cbv zeta in Hr0.
  assert (He : live (server_ms w0) (w_redis w2) (oidcKey state) = None).
  { rewrite Hsame by (unfold server_ms, Millisecond in *; lia). eapply live_none_later; [|exact Hnone].
    unfold server_ms, Millisecond in *. lia. }
  rewrite He in Hr0. destruct r0 as [v|err|]; [by destruct Hr0 as (_ & _ & ? & ? & ? & _)| |done].
  injection Hr as <- <-. by exists err.
Qed.
End Login.

(** ** Runs

    A provider that remembers nothing: the code is the nonce, the token the
    code, and everybody is in the groups "staff" and "ops". *)
#[local] Existing Instance map_server.
#[local] Existing Instance ms_client.
#[local] Existing Instance byte_collation.
#[local] Existing Instance canonical_uuid_text.

Definition demo_claims : bytes :=
  Marshal (JObj [(of_str "preferred_username", jstr " frank "); (of_str "groups", JArr [jstr "staff"; jstr "ops"])]).
Definition echo_provider : Provider World :=
  MkProvider World (fun _ code _ => mret (Some code))
    (fun _ raw => mret (MkIDToken "https://idp" "sub-7" raw (Some demo_claims)))
    (fun state params => state).
Definition demo_oidc_cfg (required admin : string) : OIDCConfig :=
  MkOIDCConfig "https://idp" "id" "secret" "https://paste/cb" ["openid"] required "groups" admin.
Definition demo_oidc (required admin : string) : OIDC World := world_oidc echo_provider (demo_oidc_cfg required admin).
Definition fixed_uuid : M World uuid := mret (vreplicate 16 Byte.x09).

(** The state and the nonce of the first login of [demo_world]: its random
    source counts. *)
Definition first_token (k : nat) : string := Base64.rawurl_EncodeToString (map (fun n => byte_of (Z.of_nat n)) (seq k 32)).
Definition started : res string * World := Start world_rand (demo_oidc "staff" "ops") Background demo_world.
Definition frank : User :=
  MkUser (vreplicate 16 Byte.x09) "frank" "" "oidc" "https://idp" "sub-7" "" true false
    (1700000000 * Second) (Some (1700000000 * Second)).
Definition completed (required : string) : res User * World :=
  Complete fixed_uuid (demo_oidc required "ops") Background (first_token 0) (first_token 64) (snd started).

Example OIDC_runs :
  fst started = Ok (first_token 0) /\ fst (completed "staff") = Ok frank /\
  fst (completed "board") = Err ErrNotAuthorised.
Proof. split_and!; vm_compute; reflexivity. Qed.

Lemma echo_leaves {A} (a : A) : leaves_stores (mret a).
Proof. intros w r w' [= <- <-]. by split. Qed.


Lemma OIDC_login_once_witness :
  let again := Complete fixed_uuid (demo_oidc "staff" "ops") Background (first_token 0) (first_token 64)
                 (snd (completed "staff")) in
  fst (completed "staff") = Ok frank /\ exists err, fst again = Err err.
Proof.
  split; [vm_compute; reflexivity|].
  apply (OIDC_login_once fixed_uuid echo_provider (demo_oidc_cfg "staff" "ops")
    (fun _ _ _ => echo_leaves _) (fun _ _ => echo_leaves _) (echo_leaves _) Background (first_token 0) (first_token 64)
    (snd started) frank (snd (completed "staff")) Background (first_token 64) (snd (completed "staff"))
    _ (snd (Complete fixed_uuid (demo_oidc "staff" "ops") Background (first_token 0) (first_token 64)
                 (snd (completed "staff"))))).
  - apply run_fst. vm_compute. reflexivity.
  - apply Z.le_refl.
  - intros t _. reflexivity.
  - apply surjective_pairing.
Defined.
