(* ===== verification/JsonDec.v ===== *)
(** * Decoding request bodies

    [json.Decoder.Decode] on the body of a request behind [http.MaxBytesReader],
    as the handlers use it through [decodeJSON]: the decoder reads one JSON value
    and looks no further, so what matters is how far its scanner gets before the
    value ends, the text breaks the grammar, or the reader refuses more. *)
From S2P Require Import Prelude GoNum GoStr Codec Json Errors PasteTypes Ports Redis Pg World RedisBody.

(** ** The scanner of encoding/json: a state and a stack *)

Inductive frame : Type := ObjectKey | ObjectValue | ArrayValue.

Inductive scan_state : Type :=
| BeginValue | BeginValueOrEmpty | BeginStringOrEmpty | BeginString
| InString | InStringEsc | InStringEscU (k : nat)
| EndValue | Neg | Digits0 | Digits1 | Dot | Frac | Exp | ExpSign | ExpDigits
| Literal (rest : bytes).

Inductive scan_step : Type :=
| Continue (st : scan_state) (stack : list frame)
| EndsAfter      (* the value ends with this byte *)
| EndsBefore     (* it ended before this byte *)
| Fails.

Definition maxNestingDepth : Z := 10000.
Definition isb (b c : byte) : bool := bool_decide (b = c).

Definition push (f : frame) (st : scan_state) (stack : list frame) : scan_step :=
  if maxNestingDepth <=? Z.of_nat (length stack) then Fails else Continue st (f :: stack).
Definition pop (stack : list frame) : scan_step :=
  match stack with [] => EndsAfter | _ => Continue EndValue stack end.

Definition stateEndValue (b : byte) (stack : list frame) : scan_step :=
  match stack with
  | [] => EndsBefore
  | f :: below =>
      if is_ws b then Continue EndValue stack
      else
        match f with
        | ObjectKey => if isb b Byte.x3a then Continue BeginValue (ObjectValue :: below) else Fails
        | ObjectValue =>
            if isb b Byte.x2c then Continue BeginString (ObjectKey :: below)
            else if isb b Byte.x7d then pop below else Fails
        | ArrayValue =>
            if isb b Byte.x2c then Continue BeginValue stack
            else if isb b Byte.x5d then pop below else Fails
        end
  end.

Definition stateBeginValue (b : byte) (stack : list frame) : scan_step :=
  if is_ws b then Continue BeginValue stack
  else if isb b Byte.x7b then push ObjectKey BeginStringOrEmpty stack
  else if isb b Byte.x5b then push ArrayValue BeginValueOrEmpty stack
  else if isb b Byte.x22 then Continue InString stack
  else if isb b Byte.x2d then Continue Neg stack
  else if isb b Byte.x30 then Continue Digits0 stack
  else if isb b Byte.x74 then Continue (Literal (of_str "rue")) stack
  else if isb b Byte.x66 then Continue (Literal (of_str "alse")) stack
  else if isb b Byte.x6e then Continue (Literal (of_str "ull")) stack
  else if Decimal.is_digit b then Continue Digits1 stack
  else Fails.

Definition stateBeginString (b : byte) (stack : list frame) : scan_step :=
  if is_ws b then Continue BeginString stack
  else if isb b Byte.x22 then Continue InString stack else Fails.

Definition state0 (b : byte) (stack : list frame) : scan_step :=
  if isb b Byte.x2e then Continue Dot stack
  else if isb b Byte.x65 || isb b Byte.x45 then Continue Exp stack
  else stateEndValue b stack.

Definition scan_byte (st : scan_state) (stack : list frame) (b : byte) : scan_step :=
  match st with
  | BeginValue => stateBeginValue b stack
  | BeginValueOrEmpty =>
      if is_ws b then Continue BeginValueOrEmpty stack
      else if isb b Byte.x5d then stateEndValue b stack else stateBeginValue b stack
  | BeginStringOrEmpty =>
      if is_ws b then Continue BeginStringOrEmpty stack
      else if isb b Byte.x7d then stateEndValue b (ObjectValue :: tail stack) else stateBeginString b stack
  | BeginString => stateBeginString b stack
  | InString =>
      if isb b Byte.x22 then Continue EndValue stack
      else if isb b Byte.x5c then Continue InStringEsc stack
      else if bval b <? 0x20 then Fails else Continue InString stack
  | InStringEsc =>
      if simple_escape b then Continue InString stack
      else if isb b Byte.x75 then Continue (InStringEscU 3) stack else Fails
  | InStringEscU k =>
      if negb (is_hex b) then Fails
      else Continue (match k with O => InString | S n => InStringEscU n end) stack
  | EndValue => stateEndValue b stack
  | Neg => if isb b Byte.x30 then Continue Digits0 stack else if Decimal.is_digit b then Continue Digits1 stack else Fails
  | Digits0 => state0 b stack
  | Digits1 => if Decimal.is_digit b then Continue Digits1 stack else state0 b stack
  | Dot => if Decimal.is_digit b then Continue Frac stack else Fails
  | Frac =>
      if Decimal.is_digit b then Continue Frac stack
      else if isb b Byte.x65 || isb b Byte.x45 then Continue Exp stack else stateEndValue b stack
  | Exp =>
      if isb b Byte.x2b || isb b Byte.x2d then Continue ExpSign stack
      else if Decimal.is_digit b then Continue ExpDigits stack else Fails
  | ExpSign => if Decimal.is_digit b then Continue ExpDigits stack else Fails
  | ExpDigits => if Decimal.is_digit b then Continue ExpDigits stack else stateEndValue b stack
  | Literal [] => stateEndValue b stack
  | Literal (c :: rest) =>
      if isb b c then Continue (match rest with [] => EndValue | _ => Literal rest end) stack else Fails
  end.

Inductive scan_result : Type :=
| ScanValue (n : nat)                                 (* the value is the first n bytes *)
| ScanFail
| ScanMore (st : scan_state) (stack : list frame).

Fixpoint scan (st : scan_state) (stack : list frame) (n : nat) (l : bytes) : scan_result :=
  match l with
  | [] => ScanMore st stack
  | b :: l =>
      match scan_byte st stack b with
      | Continue st stack => scan st stack (S n) l
      | EndsAfter => ScanValue (S n)
      | EndsBefore => ScanValue n
      | Fails => ScanFail
      end
  end.

(** ** [Decode] behind [MaxBytesReader]: the reader hands out [limit] bytes and
    then refuses; without a limit the text ends with the body. *)
Definition syntax_error : error := NewError "invalid json".

Definition decoded (text : bytes) : res json :=
  match parse_json text with Some j => Ok j | None => Err syntax_error end.

Definition Decode (limit : option Z) (body : bytes) : res json :=
  let seen := match limit with Some n => take (Z.to_nat n) body | None => body end in
  match scan BeginValue [] 0 seen with
  | ScanValue n => decoded (take n seen)
  | ScanFail => Err syntax_error
  | ScanMore st stack =>
      if (length seen <? length body)%nat then Err (MaxBytesError (default 0 limit))
      else
        match scan_byte st stack Byte.x20 with
        | EndsBefore => decoded seen
        | _ => Err (NewError "unexpected EOF")
        end
  end.

(** Into a struct, with unknown fields refused by [member]. *)
Definition into_struct {A} (member : A -> bytes * json -> option A) (zero : A) (j : json) : option A :=
  match j with
  | JNull => Some zero
  | JObj l => members member zero l
  | _ => None
  end.

Definition decode_struct {A} (member : A -> bytes * json -> option A) (zero : A) (limit : option Z) (body : bytes) : res A :=
  match Decode limit body with
  | Ok j => match into_struct member zero j with Some a => Ok a | None => Err (NewError "json: cannot unmarshal") end
  | Err e => Err e
  | Panic => Panic
  end.

Example Decode_runs :
  let text s := map (fun b => if bool_decide (b = Byte.x27) then Byte.x22 else b) (of_str s) in
  Decode (Some 64) (text " {'x': [1.5e3, true], 'y': '\u00e9'} trailing") =
    Ok (JObj [(of_str "x", JArr [JNum (of_str "1.5e3"); JBool true]); (of_str "y", JStr [Byte.xc3; Byte.xa9])]) /\
  Decode (Some 8) (text "{'x': 12345678}") = Err (MaxBytesError 8) /\
  Decode (Some 4) (text "nope and more") = Err syntax_error /\
  Decode (Some 64) (text "17") = Ok (JNum (of_str "17")) /\
  Decode (Some 64) (text "{'x': ") = Err (NewError "unexpected EOF") /\
  Decode (Some 64) [] = Err (NewError "unexpected EOF").
Proof. split_and!; vm_compute; reflexivity. Qed.

(** A body within the limit is never refused for its size. *)
Lemma Decode_within limit body n :
  Z.of_nat (length body) <= limit -> Decode (Some limit) body <> Err (MaxBytesError n).
Proof.
  intros Hl. unfold Decode. rewrite take_ge by lia. destruct (scan _ _ _ _) as [k| |st stack].
  - unfold decoded. by destruct (parse_json _).
  - done.
  - rewrite Nat.ltb_irrefl. unfold decoded. destruct (scan_byte _ _ _); try done. by destruct (parse_json body).
Qed.
