(* ===== verification/Http.v ===== *)
(** * The HTTP layer: requests, responses, errors and middleware

    [internal/httpserver/errors.go], [middleware.go], [metrics.go], [health.go],
    [random.go] and the context values of [internal/logging].  A handler reads a
    request and acts on a [Web]: the state of the stores behind it, the response
    being written and the counters of the process. *)
From stdpp Require Import sorting.
From S2P Require Import Prelude GoNum GoStr Codec NetIP Errors PasteTypes Crypto Envelope Ports AuthTypes GoConf.

(** ** Requests

    What [net/http] hands to a handler: the path as its unescaped segments, the
    query and the cookies already parsed, header lines in the order in which
    they arrived, and the values that middleware puts on the context. *)
Record sessionInfo : Type := MkSessionInfo { si_Session : Session; si_User : User }.

Record Request : Type := MkRequest {
  r_Method : string;
  r_Segments : list string;
  r_RemoteAddr : string;
  r_Header : list (string * string);
  r_Cookies : list (string * string);
  r_Query : list (string * string);
  r_Body : bytes;
  r_Limit : option Z;                  (* of http.MaxBytesReader *)
  r_PathID : string;                   (* r.PathValue of id *)
  r_ctx : ctx;
  r_ip : string;
  r_requestID : string;
  r_session : option sessionInfo
}.

(** [r.URL.Path] *)
Definition r_Path (r : Request) : string := foldr (fun seg p => "/" +:+ seg +:+ p) "" (r_Segments r).

(** The first of several values, or the empty string: [Header.Get], [Values.Get]. *)
Definition get_first (l : list (string * string)) (name : string) : string :=
  match List.find (fun kv => bool_decide (fst kv = name)) l with Some (_, v) => v | None => "" end.
Definition Header_Get (r : Request) (name : string) : string := get_first (r_Header r) name.
Definition Query_Get (r : Request) (name : string) : string := get_first (r_Query r) name.

(** [r.Cookie(name)] *)
Definition Cookie_value (r : Request) (name : string) : option string :=
  snd <$> List.find (fun kv => bool_decide (fst kv = name)) (r_Cookies r).

(** [context.WithValue] with the keys of this package. *)
Definition with_ip (ip ua : string) (r : Request) : Request :=
  MkRequest (r_Method r) (r_Segments r) (r_RemoteAddr r) (r_Header r) (r_Cookies r) (r_Query r) (r_Body r) (r_Limit r)
    (r_PathID r) (WithRequestInfo (r_ctx r) ip ua) ip (r_requestID r) (r_session r).
Definition with_session (si : sessionInfo) (r : Request) : Request :=
  MkRequest (r_Method r) (r_Segments r) (r_RemoteAddr r) (r_Header r) (r_Cookies r) (r_Query r) (r_Body r) (r_Limit r)
    (r_PathID r) (r_ctx r) (r_ip r) (r_requestID r) (Some si).
Definition with_limit (n : Z) (r : Request) : Request :=
  MkRequest (r_Method r) (r_Segments r) (r_RemoteAddr r) (r_Header r) (r_Cookies r) (r_Query r) (r_Body r) (Some n)
    (r_PathID r) (r_ctx r) (r_ip r) (r_requestID r) (r_session r).
Definition with_path_id (id : string) (r : Request) : Request :=
  MkRequest (r_Method r) (r_Segments r) (r_RemoteAddr r) (r_Header r) (r_Cookies r) (r_Query r) (r_Body r) (r_Limit r)
    id (r_ctx r) (r_ip r) (r_requestID r) (r_session r).
(** [logging.WithRequestID]; [logging.RequestID] is [r_requestID]. *)
Definition WithRequestID (id : string) (r : Request) : Request :=
  MkRequest (r_Method r) (r_Segments r) (r_RemoteAddr r) (r_Header r) (r_Cookies r) (r_Query r) (r_Body r) (r_Limit r)
    (r_PathID r) (r_ctx r) (r_ip r) id (r_session r).

(** ** Responses *)

Record Cookie : Type := MkCookie {
  ck_Name : string;
  ck_Value : string;
  ck_Path : string;
  ck_HttpOnly : bool;
  ck_Secure : bool;
  ck_SameSiteStrict : bool;
  ck_Expires : option Z;
  ck_MaxAge : Z
}.

Inductive header_line : Type :=
| Line (name v : string)
| SetCookie (c : Cookie).

(** A body is what was written, in order: JSON values, bytes, and the link of a
    redirect. *)
Inductive chunk : Type :=
| CJson (v : value)
| CBytes (b : bytes)
| CLink (url : string).

(** The headers go out with the status: a change after that is lost, and so is a
    second status.  [rw_last] is what a [statusWriter] around the handler saw. *)
Record ResponseWriter : Type := MkRW {
  rw_header : list header_line;
  rw_sent : option (Z * list header_line);
  rw_body : list chunk;
  rw_last : Z
}.
Definition fresh_rw : ResponseWriter := MkRW [] None [] 200.

Definition names (name : string) (h : header_line) : bool :=
  match h with Line n _ => bool_decide (n = name) | SetCookie _ => bool_decide (name = "Set-Cookie") end.
Definition header_Set (name v : string) (w : ResponseWriter) : ResponseWriter :=
  MkRW (List.filter (fun h => negb (names name h)) (rw_header w) ++ [Line name v]) (rw_sent w) (rw_body w) (rw_last w).
Definition add_cookie (c : Cookie) (w : ResponseWriter) : ResponseWriter :=
  MkRW (rw_header w ++ [SetCookie c]) (rw_sent w) (rw_body w) (rw_last w).
Definition rw_WriteHeader (code : Z) (w : ResponseWriter) : ResponseWriter :=
  MkRW (rw_header w) (match rw_sent w with None => Some (code, rw_header w) | sent => sent end) (rw_body w) code.
(** A write without a status sends 200, past any [statusWriter]. *)
Definition rw_Write (c : chunk) (w : ResponseWriter) : ResponseWriter :=
  MkRW (rw_header w) (match rw_sent w with None => Some (200, rw_header w) | sent => sent end) (rw_body w ++ [c]) (rw_last w).

(** ** Counters ([metrics.go]) *)

Definition MetricPastesCreated := "pastebin_pastes_created_total".
Definition MetricUnlockFailures := "pastebin_unlock_failures_total".
Definition MetricChallengePassed := "pastebin_challenge_passed_total".
Definition MetricChallengeFailed := "pastebin_challenge_failed_total".
Definition MetricRateLimited := "pastebin_rate_limited_total".

Record Metrics : Type := MkMetrics {
  m_counters : gmap string Z;
  m_http : list Z;                     (* 2xx, 3xx, 4xx, 5xx *)
  m_active : Z
}.

Definition NewMetrics : Metrics :=
  MkMetrics (list_to_map (map (fun n => (n, 0))
    [MetricPastesCreated; MetricUnlockFailures; MetricChallengePassed; MetricChallengeFailed; MetricRateLimited]))
    [0; 0; 0; 0] 0.

Definition metrics_Inc (name : string) (m : Metrics) : Metrics :=
  match m_counters m !! name with
  | Some n => MkMetrics (<[name := int64 (n + 1)]> (m_counters m)) (m_http m) (m_active m)
  | None => m
  end.
Definition SetActive (n : Z) (m : Metrics) : Metrics := MkMetrics (m_counters m) (m_http m) n.
Definition IncHTTP (status : Z) (m : Metrics) : Metrics :=
  let i := Z.quot status 100 - 2 in
  if (0 <=? i) && (i <? 4) then
    MkMetrics (m_counters m) (alter (fun n => int64 (n + 1)) (Z.to_nat i) (m_http m)) (m_active m)
  else m.

(** ** Handlers *)

Record Web (S : Type) : Type := MkWeb { web_s : S; web_rw : ResponseWriter; web_metrics : Metrics }.
Arguments MkWeb {S} _ _ _. Arguments web_s {S} _. Arguments web_rw {S} _. Arguments web_metrics {S} _.

Section Handlers.
Context {S : Type}.

Definition Handler : Type := Request -> M (Web S) unit.
Definition middleware : Type := Handler -> Handler.

(** A call to a store. *)
Definition call {A} (m : M S A) : M (Web S) A := fun w =>
  let '(r, s) := m (web_s w) in (r, MkWeb s (web_rw w) (web_metrics w)).
Definition respond (f : ResponseWriter -> ResponseWriter) : M (Web S) unit := fun w =>
  (Ok tt, MkWeb (web_s w) (f (web_rw w)) (web_metrics w)).
Definition Inc (name : string) : M (Web S) unit := fun w =>
  (Ok tt, MkWeb (web_s w) (web_rw w) (metrics_Inc name (web_metrics w))).

Definition SetHeader (name v : string) : M (Web S) unit := respond (header_Set name v).
Definition WriteHeader (code : Z) : M (Web S) unit := respond (rw_WriteHeader code).

(** ** Errors ([errors.go]) *)

Definition writeJSON (status : Z) (v : value) : M (Web S) unit :=
  SetHeader "Content-Type" "application/json; charset=utf-8" ;;
  SetHeader "Cache-Control" "no-store" ;;
  WriteHeader status ;;
  respond (rw_Write (CJson v)).

(** [errorBody]; empty details are omitted. *)
Definition errorBody (code msg : string) (details : list (string * value)) : value :=
  VObj [("error", VObj ([("code", VStr code); ("message", VStr msg)] ++
    match details with [] => [] | _ => [("details", VObj details)] end))].

Definition writeError (status : Z) (code msg : string) (details : list (string * value)) : M (Web S) unit :=
  writeJSON status (errorBody code msg details).

Definition mapError (err : error) : Z * string * list (string * value) :=
  match as_TooLarge err with
  | Some (limit, actual) => (413, "paste_too_large", [("limit_bytes", VInt limit); ("actual_bytes", VInt actual)])
  | None =>
      let isErr := errors_Is err in
      if isErr ErrNotFound || isErr ErrUserNotFound || isErr ErrChallengeNotFound then (404, "not_found", [])
      else if isErr ErrExpired then (410, "expired", [])
      else if isErr ErrDeleted then (410, "deleted", [])
      else if isErr ErrUnavailable then (410, "unavailable", [])
      else if isErr ErrWrongPassword then (401, "wrong_password", [])
      else if isErr ErrPasswordRequired then (401, "password_required", [])
      else if isErr ErrBadCredentials then (401, "bad_credentials", [])
      else if isErr ErrSessionNotFound then (401, "unauthenticated", [])
      else if isErr ErrForbidden then (403, "forbidden", [])
      else if isErr ErrNotAuthorised || isErr ErrOIDCStateInvalid then (403, "not_authorised", [])
      else if isErr ErrChallengeRequired || isErr ErrTokenInvalid then (403, "challenge_required", [])
      else if isErr ErrChallengeFailed then (400, "challenge_failed", [])
      else if isErr ErrInvalidUTF8 then (400, "invalid_utf8", [])
      else if isErr ErrInvalidTTL then (400, "invalid_ttl", [])
      else if isErr ErrInvalidPassword then (400, "invalid_password", [])
      else if isErr ErrKDFBusy then (503, "kdf_busy", [])
      else if isErr ErrKeyUnavailable then (500, "key_unavailable", [])
      else (500, "internal", [])
  end.

Context (log : string -> list (string * value) -> S -> S) (now : S -> Z * S) (rand : RandOps S).

Definition log_line (msg : string) (attrs : list (string * value)) : M (Web S) unit :=
  call (fun s => (Ok tt, log msg attrs s)).

Definition http_fail (r : Request) (err : error) : M (Web S) unit :=
  let '(status, code, details) := mapError err in
  (if 500 <=? status then
     log_line "request failed" [("code", VStr code); ("err", VStr (Error err)); ("path", VStr (r_Path r))]
   else mret tt) ;;
  (if status =? 503 then SetHeader "Retry-After" "2" else mret tt) ;;
  let msg := if (500 <=? status) && bool_decide (code = "internal") then "internal error" else Error err in
  writeError status code msg details.

(** ** Middleware ([middleware.go]) *)

(** The first of the list is outermost. *)
Definition chain (h : Handler) (ms : list middleware) : Handler := foldr (fun m h => m h) h ms.

(** [recoverer] is given the request of the server: what inner middleware puts
    on the context does not reach it. *)
Definition recoverer : middleware := fun next r w =>
  match next r w with
  | (Panic, w) =>
      (log_line "panic" [("path", VStr (r_Path r)); ("request_id", VStr (r_requestID r))] ;;
       writeError 500 "internal" "internal error" []) w
  | result => result
  end.

(** [randomToken] of this package. *)
Definition randomToken (n : nat) : M S string := RandomToken rand n.

Definition requestID : middleware := fun next r =>
  id ← call (randomToken 12);
  SetHeader "X-Request-Id" id ;;
  next (WithRequestID id r).

(** [net.SplitHostPort]: the host, or [None] for an error. *)
Definition SplitHostPort (hostport : string) : option string :=
  let l := of_str hostport in
  let has b (l : bytes) := bool_decide (b ∈ l) in
  '(before, _) ← cut_last l Byte.x3a;
  match l with
  | b :: rest =>
      if bool_decide (b = Byte.x5b) then
        '(host, after) ← bytes_Cut rest Byte.x5d;
        if bool_decide (before = b :: host ++ [Byte.x5d]) && negb (has Byte.x5b rest) && negb (has Byte.x5d after)
        then Some (to_str host) else None
      else if has Byte.x3a before || has Byte.x5b l || has Byte.x5d l then None
      else Some (to_str before)
  | [] => None
  end.

Definition client_ip (trusted : list Prefix) (r : Request) : string :=
  let host := default (r_RemoteAddr r) (SplitHostPort (r_RemoteAddr r)) in
  match ParseAddr host with
  | None => host
  | Some peer =>
      if existsb (fun p => Contains p peer) trusted then
        let xff := Header_Get r "X-Forwarded-For" in
        if bool_decide (xff = "") then host
        else
          let hop := TrimSpace (default "" (last (Split xff Byte.x2c))) in
          if bool_decide (hop = "") then host else hop
      else host
  end.

Definition clientIP (trusted : list Prefix) : middleware := fun next r =>
  next (with_ip (client_ip trusted r) (Header_Get r "User-Agent") r).

Definition csp : string :=
  "default-src 'self'; script-src 'self'; style-src 'self'; img-src 'self' data:; connect-src 'self'; " +:+
  "object-src 'none'; frame-ancestors 'none'; base-uri 'none'; form-action 'self'".

Definition securityHeaders (hsts : bool) : middleware := fun next r =>
  SetHeader "X-Content-Type-Options" "nosniff" ;;
  SetHeader "Referrer-Policy" "no-referrer" ;;
  SetHeader "X-Frame-Options" "DENY" ;;
  SetHeader "Permissions-Policy" "camera=(), microphone=(), geolocation=()" ;;
  SetHeader "Content-Security-Policy" csp ;;
  (if hsts then SetHeader "Strict-Transport-Security" "max-age=31536000" else mret tt) ;;
  next r.

(** [statusWriter]: the status of the handler below, 200 until it sets one. *)
Definition last_status : M (Web S) Z := fun w => (Ok (rw_last (web_rw w)), w).
Definition count_status (status : Z) : M (Web S) unit := fun w =>
  (Ok tt, MkWeb (web_s w) (web_rw w) (IncHTTP status (web_metrics w))).
Definition with_status (next : Handler) (r : Request) : M (Web S) Z :=
  respond (fun w => MkRW (rw_header w) (rw_sent w) (rw_body w) 200) ;;
  next r ;;
  last_status.

Definition accessLog : middleware := fun next r =>
  start ← call (read_clock now);
  status ← with_status next r;
  stop ← call (read_clock now);
  log_line "http" [("method", VStr (r_Method r)); ("path", VStr (r_Path r)); ("status", VInt status);
    ("ms", VInt (Z.quot (time_Sub stop start) Millisecond)); ("ip", VStr (r_ip r)); ("request_id", VStr (r_requestID r))].

Definition httpMetrics : middleware := fun next r =>
  status ← with_status next r;
  count_status status.

Definition maxBody (n : Z) : middleware := fun next r => next (with_limit n r).

(** ** Health ([health.go]) *)

Definition HealthHandler : Handler := fun _ =>
  SetHeader "Content-Type" "application/json; charset=utf-8" ;;
  SetHeader "Cache-Control" "no-store" ;;
  respond (rw_Write (CJson (VObj [("status", VStr "ok")]))).

(** The checks run in the unspecified order of the map, here the order of the
    list. *)
Fixpoint run_checks (c : ctx) (checks : list (string * (ctx -> M S unit))) : M (Web S) (list (string * value) * bool) :=
  match checks with
  | [] => mret ([], true)
  | (name, fn) :: checks =>
      r ← (try (call (fn c)) : M (Web S) (error + unit));
      '(result, healthy) ← run_checks c checks;
      match r with
      | inl err => mret ((name, VStr (Error err)) :: result, false)
      | inr _ => mret ((name, VStr "ok") :: result, healthy)
      end
  end.

Definition ReadyHandler (checks : list (string * (ctx -> M S unit))) : Handler := fun r =>
  '(result, healthy) ← run_checks (WithTimeout (r_ctx r) (2 * Second)) checks;
  SetHeader "Content-Type" "application/json; charset=utf-8" ;;
  SetHeader "Cache-Control" "no-store" ;;
  (if (healthy : bool) then mret tt else WriteHeader 503) ;;
  respond (rw_Write (CJson (VObj result))).

(** [Metrics.Handler]: the counters in the order of their names, then the gauge
    and the classes. *)
Definition newline : string := to_str [Byte.x0a].
Definition counter_text (m : Metrics) (name : string) : string :=
  "# TYPE " +:+ name +:+ " counter" +:+ newline +:+ name +:+ " " +:+
  Decimal.FormatInt (default 0 (m_counters m !! name)) +:+ newline.
Definition class_text (cls : string) (n : Z) : string :=
  "pastebin_http_requests_total{class=" +:+ quoted cls +:+ "} " +:+ Decimal.FormatInt n +:+ newline.
Definition name_le (a b : string) : Prop := bytes_leb (of_str a) (of_str b) = true.
#[export] Instance name_le_dec : RelDecision name_le.
Proof. intros a b. unfold name_le. apply _. Defined.

Definition Metrics_Handler : Handler := fun _ w =>
  let m := web_metrics w in
  let names := merge_sort name_le (elements (dom (m_counters m))) in
  (SetHeader "Content-Type" "text/plain; version=0.0.4; charset=utf-8" ;;
   respond (rw_Write (CBytes (of_str (foldr (fun n t => counter_text m n +:+ t)
     ("# TYPE pastebin_pastes_active gauge" +:+ newline +:+ "pastebin_pastes_active " +:+
      Decimal.FormatInt (m_active m) +:+ newline +:+ "# TYPE pastebin_http_requests_total counter" +:+ newline +:+
      foldr (fun '(cls, n) t => class_text cls n +:+ t) "" (zip ["2xx"; "3xx"; "4xx"; "5xx"] (m_http m))) names))))) w.
End Handlers.
Arguments Handler : clear implicits.
Arguments middleware : clear implicits.
