(* ===== verification/Handlers.v ===== *)
(** * The HTTP handlers

    [internal/httpserver/session.go], [handlers_auth.go], [handlers_challenge.go],
    [handlers_config.go], [handlers_paste.go], the port of [internal/challenge]
    and the dependencies of [router.go].  The handlers are verified against the
    ports: any paste service, stores, limiter and sink. *)
From S2P Require Import Prelude GoNum GoStr Codec NetIP Json Errors Rfc3339 PasteTypes Crypto Ports Service Redis Pg World RedisBody.
From S2P Require Import RateLimit AuthTypes GoConf Config JsonDec Http.

(** ** The challenge port ([internal/challenge/ports.go]) *)

Record Issued : Type := MkIssued {
  is_ID : string;
  is_BackgroundPNG : bytes;
  is_PiecePNG : bytes;
  is_PieceY : Z;
  is_Width : Z;
  is_Height : Z;
  is_ExpiresIn : Z
}.

Record Challenger (S : Type) : Type := MkChallenger {
  Issue : ctx -> uuid -> M S Issued;
  Chal_Verify : ctx -> uuid -> string -> Z -> M S string;
  Consume : ctx -> uuid -> string -> M S unit
}.
Arguments Issue {S} _. Arguments Chal_Verify {S} _. Arguments Consume {S} _.

(** ** The dependencies ([router.go]); an absent optional port is a feature
    that is off. *)
Record handlers (S : Type) : Type := MkHandlers {
  h_cfg : Config;
  h_log : string -> list (string * value) -> S -> S;
  h_pastes : Ports.Service S;
  h_users : UserStore S;
  h_sessions : SessionStore S;
  h_local : option (LocalAuthenticator S);
  h_oidc : option (OIDCFlow S);
  h_chal : option (Challenger S);
  h_limiter : ctx -> string -> string -> M S Decision;
  h_audit : Sink S;
  h_now : S -> Z * S;
  h_rand : RandOps S
}.
Arguments h_cfg {S} _. Arguments h_log {S} _. Arguments h_pastes {S} _. Arguments h_users {S} _.
Arguments h_sessions {S} _. Arguments h_local {S} _. Arguments h_oidc {S} _. Arguments h_chal {S} _.
Arguments h_limiter {S} _. Arguments h_audit {S} _. Arguments h_now {S} _. Arguments h_rand {S} _.

(** ** Sessions ([session.go]) *)

Definition sessionCookie : string := "pb_sess".

(** The zero values a handler sees when there is no session. *)
Definition zero_user : User := MkUser uuid_Nil "" "" "" "" "" "" false false zero_time None.
Definition zero_session : sessionInfo := MkSessionInfo (MkSession "" uuid_Nil zero_time zero_time "") zero_user.
Definition sessionFrom (r : Request) : sessionInfo := default zero_session (r_session r).
Definition principalFrom (r : Request) : option Principal := User_Principal ∘ si_User <$> r_session r.

Section Handlers.
Context `{UUIDText} {S : Type} (h : handlers S).

#[local] Abbreviation log := (log_line (h_log h)).
#[local] Abbreviation fail := (http_fail (h_log h)).

Definition http_now : M (Web S) Z := call (read_clock (h_now h)).
Definition Record_event (r : Request) (ev : Event) : M (Web S) unit := call (emit (h_audit h) (r_ctx r) ev).

Definition loadSession : middleware S := fun next r =>
  match Cookie_value r sessionCookie with
  | None => next r
  | Some v =>
      if bool_decide (v = "") then next r
      else
        sess ← try (call (Sessions_Get (h_sessions h) (r_ctx r) v));
        match sess with
        | inl err =>
            (if negb (errors_Is err ErrSessionNotFound)
             then log "session lookup failed" [("err", VStr (Error err))] else mret tt) ;;
            next r
        | inr sess =>
            u ← try (call (Users_GetByID (h_users h) (r_ctx r) (se_UserID sess)));
            match u with
            | inl _ => ignore (call (Sessions_Delete (h_sessions h) (r_ctx r) (se_ID sess))) ;; next r
            | inr u =>
                if us_Disabled u then ignore (call (Sessions_Delete (h_sessions h) (r_ctx r) (se_ID sess))) ;; next r
                else
                  ignore (call (Sessions_Touch (h_sessions h) (r_ctx r) (se_ID sess) (SessionIdleTTL (h_cfg h)))) ;;
                  next (with_session (MkSessionInfo sess u) r)
            end
        end
  end.

Definition requireAuth (next : Handler S) : Handler S := fun r =>
  match r_session r with
  | None => writeError 401 "unauthenticated" "login required" []
  | Some _ => next r
  end.

Definition requireAdmin (next : Handler S) : Handler S := requireAuth (fun r =>
  if negb (us_IsAdmin (si_User (sessionFrom r))) then writeError 403 "forbidden" "admin required" [] else next r).

Definition csrfExempt (path : string) : bool :=
  bool_decide (path = "/api/v1/auth/login") || bool_decide (path = "/api/v1/auth/oidc/callback").

Definition csrf_safe (method : string) : bool := bool_decide (method ∈ ["GET"; "HEAD"; "OPTIONS"]).

Definition csrf : middleware S := fun next r =>
  if csrf_safe (r_Method r) then next r
  else if negb (HasPrefix (r_Path r) "/api/") || csrfExempt (r_Path r) then next r
  else
    match r_session r with
    | None => next r
    | Some si =>
        let tok := Header_Get r "X-Csrf-Token" in
        if bool_decide (tok = "") || negb (bool_decide (tok = se_CSRFToken (si_Session si))) then
          writeError 403 "csrf_invalid" "missing or invalid X-CSRF-Token" []
        else next r
    end.

Definition secureCookies : bool := HasPrefix (AppBaseURL (h_cfg h)) "https://".

Definition setSessionCookie (sess : Session) : M (Web S) unit :=
  respond (add_cookie (MkCookie sessionCookie (se_ID sess) "/" true secureCookies true (Some (se_AbsoluteExpiry sess)) 0)).
Definition clearSessionCookie : M (Web S) unit :=
  respond (add_cookie (MkCookie sessionCookie "" "/" true secureCookies true None (-1))).

(** ** Logging in and out ([handlers_auth.go]) *)

Definition userJSON (u : User) : value :=
  VObj [("id", VStr (uuid_String (us_ID u))); ("username", VStr (us_Username u));
        ("display_name", VStr (us_DisplayName u)); ("is_admin", VBool (us_IsAdmin u)); ("provider", VStr (us_Provider u))].

Definition decodeJSON {A} (r : Request) (member : A -> bytes * json -> option A) (zero : A) : res A :=
  decode_struct member zero (r_Limit r) (r_Body r).

(** [int(d.RetryAfter.Seconds())]: the float is exact for the durations of a
    rate limit. *)
Definition retry_seconds (d : Decision) : Z := Z.max 1 (Z.quot (dec_RetryAfter d) Second).

Definition limit (r : Request) (scope key : string) : M (Web S) bool :=
  d ← call (h_limiter h (r_ctx r) scope key);
  if dec_Allowed d then mret true
  else
    let secs := retry_seconds d in
    SetHeader "Retry-After" (Decimal.FormatInt secs) ;;
    Inc MetricRateLimited ;;
    now ← http_now;
    Record_event r (MkEvent now RateLimited (pr_UserID <$> principalFrom r) None "" "" OutcomeDenied
      [("scope", VStr scope)]) ;;
    writeError 429 "rate_limited" "too many requests" [("retry_after_seconds", VInt secs)] ;;
    mret false.

Definition startSession (r : Request) (u : User) : M (Web S) Session :=
  match Cookie_value r sessionCookie with
  | Some v => if bool_decide (v = "") then mret tt else ignore (call (Sessions_Delete (h_sessions h) (r_ctx r) v))
  | None => mret tt
  end ;;
  sess ← call (Sessions_Create (h_sessions h) (r_ctx r) (us_ID u) (SessionIdleTTL (h_cfg h)) (SessionAbsoluteTTL (h_cfg h)));
  setSessionCookie sess ;;
  mret sess.

Definition login_member (a : string * string) (m : bytes * json) : option (string * string) :=
  let '(n, j) := m in
  if matches n "username" then x ← into_string (fst a) j; Some (x, snd a)
  else if matches n "password" then x ← into_string (snd a) j; Some (fst a, x)
  else None.

Definition session_json (u : User) (sess : Session) : value :=
  VObj [("user", userJSON u); ("csrf_token", VStr (se_CSRFToken sess))].

Definition login : Handler S := fun r =>
  match h_local h with
  | None => writeError 404 "not_found" "local login disabled" []
  | Some local =>
      if negb (LocalEnabled (h_cfg h)) then writeError 404 "not_found" "local login disabled" []
      else
        match decodeJSON r login_member ("", "") with
        | Ok (username, password) =>
            if bool_decide (username = "") || bool_decide (password = "") then
              writeError 400 "bad_request" "username and password required" []
            else
              ok ← limit r ScopeLoginIP (r_ip r);
              if negb ok then mret tt
              else
                ok ← limit r ScopeLogin username;
                if negb ok then mret tt
                else
                  u ← try (call (Authenticate local (r_ctx r) username password));
                  match u with
                  | inl err => fail r err
                  | inr u =>
                      sess ← try (startSession r u);
                      match sess with
                      | inl err => fail r err
                      | inr sess => writeJSON 200 (session_json u sess)
                      end
                  end
        | _ => writeError 400 "bad_request" "username and password required" []
        end
  end.

Definition logout : Handler S := fun r =>
  let si := sessionFrom r in
  ignore (call (Sessions_Delete (h_sessions h) (r_ctx r) (se_ID (si_Session si)))) ;;
  clearSessionCookie ;;
  now ← http_now;
  Record_event r (MkEvent now Logout (Some (us_ID (si_User si))) None "" "" OutcomeSuccess []) ;;
  SetHeader "Cache-Control" "no-store" ;;
  WriteHeader 204.

Definition me : Handler S := fun r =>
  let si := sessionFrom r in writeJSON 200 (session_json (si_User si) (si_Session si)).

(** [http.Redirect] to a URL that needs no completion. *)
Definition Redirect (url : string) (code : Z) : M (Web S) unit :=
  SetHeader "Location" url ;;
  SetHeader "Content-Type" "text/html; charset=utf-8" ;;
  WriteHeader code ;;
  respond (rw_Write (CLink url)).

Definition oidcStart : Handler S := fun r =>
  match h_oidc h with
  | None => writeError 404 "not_found" "oidc disabled" []
  | Some oidc =>
      url ← try (call (Flow_Start oidc (r_ctx r)));
      match url with
      | inl err => fail r err
      | inr url => SetHeader "Cache-Control" "no-store" ;; Redirect url 302
      end
  end.

Definition oidcCallback : Handler S := fun r =>
  match h_oidc h with
  | None => writeError 404 "not_found" "oidc disabled" []
  | Some oidc =>
      let state := Query_Get r "state" in
      let code := Query_Get r "code" in
      if bool_decide (state = "") || bool_decide (code = "") then
        writeError 400 "bad_request" "state and code required" []
      else
        u ← try (call (Flow_Complete oidc (r_ctx r) state code));
        match u with
        | inl err =>
            if errors_Is err ErrNotAuthorised || errors_Is err ErrOIDCStateInvalid then fail r err
            else
              log "oidc callback failed" [("err", VStr (Error err))] ;;
              writeError 400 "oidc_failed" "login failed" []
        | inr u =>
            sess ← try (startSession r u);
            match sess with
            | inl err => fail r err
            | inr _ => SetHeader "Cache-Control" "no-store" ;; Redirect "/new" 302
            end
        end
  end.

(** ** Challenges ([handlers_challenge.go]) *)

Definition issueChallenge : Handler S := fun r =>
  match h_chal h with
  | None => writeError 404 "not_found" "challenge disabled" []
  | Some chal =>
      let user := us_ID (si_User (sessionFrom r)) in
      ok ← limit r ScopeChallengeIssue (uuid_String user);
      if negb ok then mret tt
      else
        iss ← try (call (Issue chal (r_ctx r) user));
        match iss with
        | inl err => fail r err
        | inr iss =>
            writeJSON 201 (VObj [("challenge_id", VStr (is_ID iss));
              ("background_png_b64", VStr (Base64.std_EncodeToString (is_BackgroundPNG iss)));
              ("piece_png_b64", VStr (Base64.std_EncodeToString (is_PiecePNG iss)));
              ("piece_y", VInt (is_PieceY iss)); ("width", VInt (is_Width iss)); ("height", VInt (is_Height iss));
              ("expires_in", VInt (Z.quot (is_ExpiresIn iss) Second))])
        end
  end.

Definition x_member (a : Z) (m : bytes * json) : option Z :=
  let '(n, j) := m in if matches n "x" then into_int a j else None.

Definition verifyChallenge : Handler S := fun r =>
  match h_chal h with
  | None => writeError 404 "not_found" "challenge disabled" []
  | Some chal =>
      match decodeJSON r x_member 0 with
      | Ok x =>
          tok ← try (call (Chal_Verify chal (r_ctx r) (us_ID (si_User (sessionFrom r))) (r_PathID r) x));
          match tok with
          | inl err =>
              (if errors_Is err ErrChallengeFailed then Inc MetricChallengeFailed else mret tt) ;;
              fail r err
          | inr tok =>
              Inc MetricChallengePassed ;;
              writeJSON 200 (VObj [("challenge_token", VStr tok);
                ("expires_in", VInt (Z.quot (cc_TTL (Challenge (h_cfg h))) Second))])
          end
      | _ => writeError 400 "bad_request" "x required" []
      end
  end.

(** ** The public configuration ([handlers_config.go]) *)

Definition getConfig : Handler S := fun _ =>
  let c := h_cfg h in
  let modes := (if LocalEnabled c && bool_decide (is_Some (h_local h)) then ["local"] else []) ++
               (if OIDCEnabled c && bool_decide (is_Some (h_oidc h)) then ["oidc"] else []) in
  writeJSON 200 (VObj [("auth_modes", VStrs modes); ("challenge_enabled", VBool (bool_decide (is_Some (h_chal h))));
    ("paste_max_size_bytes", VInt (PasteMaxSize c)); ("ttl_default", VInt (PasteTTLDefault c));
    ("ttl_min", VInt (PasteTTLMin c)); ("ttl_max", VInt (PasteTTLMax c));
    ("view_requires_auth", VBool (ViewRequiresAuth c)); ("notice_text", VStr (NoticeText c))]).
End Handlers.
