(* ===== verification/Router.v ===== *)
(** * Paste handlers and the router

    [internal/httpserver/handlers_paste.go], [router.go] and [static.go]: the
    API on top of the paste service, and the handler of the whole server. *)
From S2P Require Import Prelude GoNum GoStr Codec NetIP Json Errors Rfc3339 PasteTypes Crypto Ports Service Redis Pg World RedisBody.
From S2P Require Import RateLimit AuthTypes GoConf Config JsonDec Http Handlers.

(** ** Paste handlers ([handlers_paste.go]) *)

Definition hexSHA (s : string) : bool := (length (of_str s) =? 64)%nat && forallb is_hex (of_str s).

Definition pasteJSON `{UUIDText} (baseURL : string) (m : PasteMeta) (status : Status) (hashVisible : bool)
    (content : option bytes) (includeOwner : bool) : value :=
  VObj ([("id", VStr (uuid_String (pm_ID m))); ("url", VStr (PasteURL baseURL (pm_ID m)));
         ("status", VStr (Status_string status)); ("created_at", VStr (Format_RFC3339 (pm_CreatedAt m)));
         ("expires_at", VStr (Format_RFC3339 (pm_ExpiresAt m))); ("ttl_seconds", VInt (pm_TTLSeconds m));
         ("size_bytes", VInt (pm_SizeBytes m)); ("password_protected", VBool (pm_PasswordProtected m));
         ("hash_algo", VStr (pm_HashAlgo m)); ("view_count", VInt (pm_ViewCount m))] ++
        match pm_DeletedAt m with Some t => [("deleted_at", VStr (Format_RFC3339 t))] | None => [] end ++
        (if hashVisible then [("sha256", VStr (pm_ContentHash m))] else []) ++
        match content with Some b => [("content", VStr (to_str b))] | None => [] end ++
        (if includeOwner then [("owner_id", VStr (uuid_String (pm_OwnerID m)))] else [])).

Definition statusErr (s : Status) : option error :=
  match s with
  | StatusExpired => Some ErrExpired
  | StatusDeleted => Some ErrDeleted
  | StatusUnavailable => Some ErrUnavailable
  | StatusActive => None
  end.

Record createBody : Type := MkCreateBody {
  cb_Content : string;
  cb_Password : string;
  cb_TTLSeconds : Z;
  cb_ChallengeToken : string
}.
Definition create_member (a : createBody) (m : bytes * json) : option createBody :=
  let '(n, j) := m in
  let '(MkCreateBody content password ttl token) := a in
  if matches n "content" then x ← into_string content j; Some (MkCreateBody x password ttl token)
  else if matches n "password" then x ← into_string password j; Some (MkCreateBody content x ttl token)
  else if matches n "ttl_seconds" then x ← into_int ttl j; Some (MkCreateBody content password x token)
  else if matches n "challenge_token" then x ← into_string token j; Some (MkCreateBody content password ttl x)
  else None.

(** A struct with one string field. *)
Definition one_string (field : string) (a : string) (m : bytes * json) : option string :=
  let '(n, j) := m in if matches n field then into_string a j else None.

Definition pageFrom (r : Request) : Page :=
  let limit := Decimal.Atoi_value (Query_Get r "limit") in
  let offset := Decimal.Atoi_value (Query_Get r "offset") in
  MkPage (if (limit <=? 0) || (200 <? limit) then 50 else limit) (if offset <? 0 then 0 else offset).

(** ** The embedded UI ([static.go]) *)

(** [fs.FS]: whether a name is a directory, and the content of a file. *)
Record FS : Type := MkFS {
  fs_Stat : string -> option bool;
  fs_ReadFile : string -> option bytes
}.

(** [path.Clean] of a rooted path, as its elements. *)
Fixpoint clean_onto (acc : list string) (segs : list string) : list string :=
  match segs with
  | [] => rev acc
  | seg :: segs =>
      if bool_decide (seg = "") || bool_decide (seg = ".") then clean_onto acc segs
      else if bool_decide (seg = "..") then clean_onto (tail acc) segs
      else clean_onto (seg :: acc) segs
  end.
Definition clean_path (path : string) : list string := clean_onto [] (Split path Byte.x2f).

(** [http.Error] *)
Definition http_Error {S} (msg : string) (code : Z) : M (Web S) unit :=
  SetHeader "Content-Type" "text/plain; charset=utf-8" ;;
  SetHeader "X-Content-Type-Options" "nosniff" ;;
  WriteHeader code ;;
  respond (rw_Write (CBytes (of_str msg ++ [Byte.x0a]))).

(** [fileServer] is [http.FileServerFS(static)], given the cleaned path. *)
Definition spaHandler {S} (static : FS) (fileServer : list string -> Handler S) : Handler S := fun r =>
  if negb (bool_decide (r_Method r = "GET") || bool_decide (r_Method r = "HEAD")) then
    http_Error "method not allowed" 405
  else
    let clean := clean_path (r_Path r) in
    let name := join "/" clean in
    if negb (bool_decide (name = "")) && negb (bool_decide (name = "index.html")) &&
       bool_decide (fs_Stat static name = Some false) then
      SetHeader "Cache-Control" (if HasPrefix name "assets/" then "public, max-age=31536000, immutable" else "no-store") ;;
      fileServer clean r
    else
      match fs_ReadFile static "index.html" with
      | None => http_Error "ui not built" 404
      | Some b =>
          SetHeader "Content-Type" "text/html; charset=utf-8" ;;
          SetHeader "Cache-Control" "no-store" ;;
          respond (rw_Write (CBytes b))
      end.

Section PasteHandlers.
Context `{UUIDText} {S : Type} (h : handlers S).

#[local] Abbreviation fail := (http_fail (h_log h)).

Definition with_id (r : Request) (k : uuid -> M (Web S) unit) : M (Web S) unit :=
  match uuid_Parse (r_PathID r) with
  | None => writeError 400 "bad_request" "id must be a uuid" []
  | Some id => k id
  end.

Definition createPaste : Handler S := fun r =>
  let u := si_User (sessionFrom r) in
  match decodeJSON r create_member (MkCreateBody "" "" 0 "") with
  | Err err =>
      match as_MaxBytes err with
      | Some n => writeError 413 "request_too_large" "request body too large" [("limit_bytes", VInt n)]
      | None => writeError 400 "bad_request" "invalid json body" []
      end
  | Panic => panic
  | Ok inp =>
      ok ← limit h r ScopePasteCreate (uuid_String (us_ID u));
      if negb ok then mret tt
      else
        consumed ← match h_chal h with
                   | None => mret true
                   | Some chal =>
                       c ← try (call (Consume chal (r_ctx r) (us_ID u) (cb_ChallengeToken inp)));
                       mret (if c is inr _ then true else false)
                   end;
        if negb consumed then fail r ErrChallengeRequired
        else
          created ← try (call (Svc_Create (h_pastes h) (r_ctx r) (User_Principal u)
            (MkCreateInput (cb_Content inp) (cb_Password inp) (cb_TTLSeconds inp))));
          match created with
          | inl err => fail r err
          | inr created =>
              Inc MetricPastesCreated ;;
              writeJSON 201 (pasteJSON (AppBaseURL (h_cfg h)) (cr_Meta created) StatusActive true None false)
          end
  end.

Definition read_json (res : ReadResult) (hashVisible : bool) : value :=
  pasteJSON (AppBaseURL (h_cfg h)) (rr_Meta res) (rr_Status res) hashVisible (rr_Content res) false.

Definition getPaste : Handler S := fun r =>
  with_id r (fun id =>
    res ← try (call (Svc_Read (h_pastes h) (r_ctx r) (principalFrom r) id ""));
    match res with
    | inl err => fail r err
    | inr res => writeJSON 200 (read_json res (rr_HashVisible res))
    end).

Definition writeRaw (id : uuid) (content : option bytes) : M (Web S) unit :=
  SetHeader "Content-Type" "text/plain; charset=utf-8" ;;
  SetHeader "Content-Disposition" ("attachment; filename=" +:+ to_str [Byte.x22] +:+ uuid_String id +:+ ".txt" +:+ to_str [Byte.x22]) ;;
  SetHeader "Cache-Control" "no-store" ;;
  WriteHeader 200 ;;
  respond (rw_Write (CBytes (default [] content))).

Definition unlockPaste : Handler S := fun r =>
  with_id r (fun id =>
    ok ← limit h r ScopeUnlockIP (r_ip r);
    if negb ok then mret tt
    else
      ok ← limit h r ScopeUnlock (uuid_String id +:+ ":" +:+ r_ip r);
      if negb ok then mret tt
      else
        match decodeJSON r (one_string "password") "" with
        | Ok password =>
            if bool_decide (password = "") then writeError 400 "bad_request" "password required" []
            else
              res ← try (call (Svc_Read (h_pastes h) (r_ctx r) (principalFrom r) id password));
              match res with
              | inl err =>
                  (if errors_Is err ErrWrongPassword then Inc MetricUnlockFailures else mret tt) ;;
                  fail r err
              | inr res =>
                  match statusErr (rr_Status res) with
                  | Some e => fail r e
                  | None =>
                      if HasPrefix (Header_Get r "Accept") "text/plain" then writeRaw id (rr_Content res)
                      else writeJSON 200 (read_json res true)
                  end
              end
        | _ => writeError 400 "bad_request" "password required" []
        end).

Definition rawPaste : Handler S := fun r =>
  with_id r (fun id =>
    res ← try (call (Svc_Read (h_pastes h) (r_ctx r) (principalFrom r) id ""));
    match res with
    | inl err => fail r err
    | inr res =>
        match statusErr (rr_Status res) with
        | Some e => fail r e
        | None =>
            if pm_PasswordProtected (rr_Meta res) then fail r ErrPasswordRequired
            else writeRaw id (rr_Content res)
        end
    end).

Definition verifyPaste : Handler S := fun r =>
  with_id r (fun id =>
    ok ← limit h r ScopeVerifyGlobal "global";
    if negb ok then mret tt
    else
      ok ← limit h r ScopeVerify (r_ip r);
      if negb ok then mret tt
      else
        match decodeJSON r (one_string "sha256") "" with
        | Ok sha =>
            if negb (hexSHA sha) then writeError 400 "bad_request" "sha256 must be 64 hex characters" []
            else
              v ← try (call (Svc_Verify (h_pastes h) (r_ctx r) id sha));
              match v with
              | inl err => fail r err
              | inr v =>
                  writeJSON 200 (VObj [("match", VBool (vr_Match v)); ("status", VStr (Status_string (vr_Status v)));
                    ("created_at", VStr (Format_RFC3339 (pm_CreatedAt (vr_Meta v))));
                    ("expires_at", VStr (Format_RFC3339 (pm_ExpiresAt (vr_Meta v))));
                    ("size_bytes", VInt (pm_SizeBytes (vr_Meta v)))])
              end
        | _ => writeError 400 "bad_request" "sha256 must be 64 hex characters" []
        end).

Definition deletePaste : Handler S := fun r =>
  with_id r (fun id =>
    let u := si_User (sessionFrom r) in
    ok ← limit h r ScopeDelete (uuid_String (us_ID u));
    if negb ok then mret tt
    else
      d ← try (call (Svc_Delete (h_pastes h) (r_ctx r) (User_Principal u) id));
      match d with
      | inl err => fail r err
      | inr _ => SetHeader "Cache-Control" "no-store" ;; WriteHeader 204
      end).

Definition writeList (items : list PasteMeta) : M (Web S) unit :=
  now ← http_now h;
  writeJSON 200 (VObj [("items", VList (map (fun m =>
    pasteJSON (AppBaseURL (h_cfg h)) m (PasteMeta_Status m now) (negb (pm_PasswordProtected m)) None true) items))]).

Definition listMine : Handler S := fun r =>
  items ← try (call (Svc_ListMine (h_pastes h) (r_ctx r) (User_Principal (si_User (sessionFrom r))) (pageFrom r)));
  match items with
  | inl err => fail r err
  | inr items => writeList items
  end.

Definition adminList : Handler S := fun r =>
  let o := Query_Get r "owner" in
  match (if bool_decide (o = "") then Some None else Some <$> uuid_Parse o) with
  | None => writeError 400 "bad_request" "owner must be a uuid" []
  | Some owner =>
      items ← try (call (Svc_ListAll (h_pastes h) (r_ctx r) (User_Principal (si_User (sessionFrom r))) owner (pageFrom r)));
      match items with
      | inl err => fail r err
      | inr items => writeList items
      end
  end.

(** ** Routes ([router.go]) *)

Definition smallBody : Z := 65536.

Definition viewGate (next : Handler S) : Handler S :=
  if ViewRequiresAuth (h_cfg h) then requireAuth next else next.

Definition small (fn : Handler S) : Handler S := chain fn [maxBody smallBody].

(** [http.ServeMux]: GET patterns match HEAD too, and a wildcard matches one
    segment that is not empty; no two of these patterns match one request.  A
    path of the API that no pattern with the request's method matches falls to
    the prefix pattern. *)
Definition create_limit : Z := int64 (6 * PasteMaxSize (h_cfg h) + smallBody).

Definition routes : list (string * string * Handler S) :=
  [("GET", "/api/v1/config", small (getConfig h));
   ("POST", "/api/v1/auth/login", small (login h));
   ("POST", "/api/v1/auth/logout", small (requireAuth (logout h)));
   ("GET", "/api/v1/auth/me", small (requireAuth me));
   ("GET", "/api/v1/auth/oidc/start", small (oidcStart h));
   ("GET", "/api/v1/auth/oidc/callback", small (oidcCallback h));
   ("POST", "/api/v1/challenges", small (requireAuth (issueChallenge h)));
   ("POST", "/api/v1/challenges/{id}/verify", small (requireAuth (verifyChallenge h)));
   ("POST", "/api/v1/pastes", chain (requireAuth createPaste) [maxBody create_limit]);
   ("GET", "/api/v1/pastes/{id}", small (viewGate getPaste));
   ("DELETE", "/api/v1/pastes/{id}", small (requireAuth deletePaste));
   ("POST", "/api/v1/pastes/{id}/unlock", small (viewGate unlockPaste));
   ("GET", "/api/v1/pastes/{id}/raw", small (viewGate rawPaste));
   ("POST", "/api/v1/pastes/{id}/verify", small (viewGate verifyPaste));
   ("GET", "/api/v1/me/pastes", small (requireAuth listMine));
   ("GET", "/api/v1/admin/pastes", small (requireAdmin adminList))].

Definition method_matches (pattern method : string) : bool :=
  bool_decide (method = pattern) || (bool_decide (pattern = "GET") && bool_decide (method = "HEAD")).

(** The segment of the wildcard, empty when there is none. *)
Fixpoint match_segments (pattern segs : list string) : option string :=
  match pattern, segs with
  | [], [] => Some ""
  | p :: pattern, x :: segs =>
      if bool_decide (p = "{id}") then
        if bool_decide (x = "") then None
        else match match_segments pattern segs with Some _ => Some x | None => None end
      else if bool_decide (p = x) then match_segments pattern segs else None
  | _, _ => None
  end.

Definition match_route (r : Request) (route : string * string * Handler S) : option (Handler S) :=
  let '(method, pattern, fn) := route in
  if method_matches method (r_Method r) then
    match match_segments (tail (Split pattern Byte.x2f)) (r_Segments r) with
    | Some id => Some (fun r => fn (with_path_id id r))
    | None => None
    end
  else None.

Fixpoint first_match (table : list (string * string * Handler S)) (r : Request) : option (Handler S) :=
  match table with
  | [] => None
  | route :: table => match match_route r route with Some fn => Some fn | None => first_match table r end
  end.

Definition api : Handler S := fun r =>
  match first_match routes r with
  | Some fn => fn r
  | None => writeError 404 "not_found" "no such endpoint" []
  end.

Context (checks : list (string * (ctx -> M S unit))) (spa : option (Handler S)).

(** What the mux itself answers: 405 for a known path with another method, 404
    for an unknown one, and a redirect to a subtree named without its slash.  A
    path that is not clean it redirects before all this; requests here have a
    clean path. *)
Definition fallback (answer : M (Web S) unit) : Handler S := fun r =>
  match spa with Some spa => spa r | None => answer end.

Definition not_allowed : M (Web S) unit :=
  SetHeader "Allow" "GET, HEAD" ;; http_Error "Method Not Allowed" 405.

Definition root : Handler S := fun r =>
  let get := bool_decide (r_Method r ∈ ["GET"; "HEAD"]) in
  let path := r_Segments r in
  if bool_decide (head path = Some "api") then
    if negb (bool_decide (tail path = [])) then api r
    else if get then Redirect "/api/" 301 else SetHeader "Location" "/api/" ;; WriteHeader 301
  else if bool_decide (path = ["healthz"]) then if get then HealthHandler r else fallback not_allowed r
  else if bool_decide (path = ["readyz"]) then if get then ReadyHandler checks r else fallback not_allowed r
  else fallback (http_Error "404 page not found" 404) r.

Definition hsts : bool :=
  negb (bool_decide (TLSCertFile (h_cfg h) = "")) || HasPrefix (AppBaseURL (h_cfg h)) "https://".

Definition NewHandler : Handler S :=
  chain root
    [recoverer (h_log h); requestID (h_rand h); clientIP (TrustedProxyCIDRs (h_cfg h)); securityHeaders hsts;
     httpMetrics; accessLog (h_log h) (h_now h); loadSession h; csrf].
End PasteHandlers.
