(* ===== verification/HttpLaws.v ===== *)
(** * What the HTTP layer guarantees

    Properties of the handlers and of the whole server against the ports: whom
    the server believes about addresses and sessions, what it says about errors,
    and which headers every response carries. *)
From S2P Require Import Prelude GoNum GoStr Codec NetIP Json Errors Rfc3339 PasteTypes Crypto Ports Service Redis Pg World RedisBody.
From S2P Require Import RateLimit AuthTypes GoConf Config JsonDec Http Handlers Router.

(** ** Addresses *)

Definition with_header (hs : list (string * string)) (r : Request) : Request :=
  MkRequest (r_Method r) (r_Segments r) (r_RemoteAddr r) hs (r_Cookies r) (r_Query r) (r_Body r) (r_Limit r)
    (r_PathID r) (r_ctx r) (r_ip r) (r_requestID r) (r_session r).

(** A trusted proxy names the client by the last hop of the first
    X-Forwarded-For line; anybody else is the host of the connection. *)
Definition peer_host (r : Request) : string := default (r_RemoteAddr r) (SplitHostPort (r_RemoteAddr r)).
Definition untrusted (trusted : list Prefix) (r : Request) : Prop :=
  forall peer p, ParseAddr (peer_host r) = Some peer -> p ∈ trusted -> Contains p peer = false.

Lemma client_ip_untrusted trusted r : untrusted trusted r -> client_ip trusted r = peer_host r.
Proof.
  intros Hu. unfold client_ip. fold (peer_host r). destruct (ParseAddr (peer_host r)) as [peer|] eqn:E; [|done].
  destruct (existsb _ _) eqn:Ee; [|done]. apply existsb_exists in Ee as (p & Hp & Hc).
  apply list_elem_of_In in Hp. by rewrite (Hu peer p E Hp) in Hc.
Qed.

(** Two header lines, as a proxy writes them that adds its own: the first one,
    which the client sent, wins. *)
Lemma clientIP_first_line :
  let r := MkRequest "GET" ["api"] "10.0.0.1:443" [("X-Forwarded-For", "6.6.6.6"); ("X-Forwarded-For", "198.51.100.7")]
    [] [] [] None "" Background "" "" None in
  client_ip [MkPrefix (Addr4 (map byte_of [10; 0; 0; 0])) 8] r = "6.6.6.6".
Proof. vm_compute. reflexivity. Qed.

(** ** Paths of the embedded UI *)

Definition inside (seg : string) : Prop := seg <> "" /\ seg <> "." /\ seg <> ".." /\ Byte.x2f ∉ of_str seg.

Lemma Split_no_sep l sep : Forall (fun part => sep ∉ part) (bytes_Split l sep).
Proof.
  induction l as [|b l IH]; cbn [bytes_Split]; [repeat constructor; apply not_elem_of_nil|].
  case_bool_decide as Eb; [by constructor; [apply not_elem_of_nil|]|].
  destruct (bytes_Split l sep) as [|p ps]; [repeat constructor; apply not_elem_of_cons; split; [done|apply not_elem_of_nil]|].
  inversion IH; subst. constructor; [apply not_elem_of_cons; by split|done].
Qed.

Lemma clean_onto_inside segs : forall acc,
  Forall (fun seg => Byte.x2f ∉ of_str seg) segs -> Forall inside acc -> Forall inside (clean_onto acc segs).
Proof.
  induction segs as [|seg segs IH]; intros acc Hs Ha; cbn [clean_onto]; [by apply Forall_rev|].
  inversion Hs; subst. destruct (_ || _) eqn:E; [by apply IH|].
  rewrite orb_false_iff in E. destruct E as [E1 E2]. gobool.
  case_bool_decide; [apply IH; [done|]; destruct Ha; [constructor|done]|]. apply IH; [done|]. by constructor.
Qed.

Lemma clean_path_inside path : Forall inside (clean_path path).
Proof.
  unfold clean_path. apply clean_onto_inside; [|constructor]. unfold Split. apply Forall_map.
  eapply Forall_impl; [apply Split_no_sep|]. intros part Hp. cbn. by rewrite of_to_str.
Qed.

(** C39. Whatever path a request asks the embedded UI for, however it is escaped or
    dotted, the handler looks at nothing but files named by ordinary elements,
    none of which is empty, ".", ".." or holds a slash: two file systems, with
    their file servers, that agree on these names are served alike, whatever
    else the one or the other gives for names like "../secret". *)
Theorem Static_stays_inside {S : Type} (fs fs' : FS) (server server' : list string -> Handler S) r w :
  (forall segs, Forall inside segs ->
     fs_Stat fs (join "/" segs) = fs_Stat fs' (join "/" segs) /\
     (fs_Stat fs (join "/" segs) = Some false -> server segs r = server' segs r)) ->
  fs_ReadFile fs "index.html" = fs_ReadFile fs' "index.html" ->
  spaHandler fs server r w = spaHandler fs' server' r w.
Proof.
  intros Hfs Hindex. unfold spaHandler. rewrite Hindex. destruct (negb _); [done|].
  destruct (Hfs _ (clean_path_inside (r_Path r))) as [<- Hserve].
  destruct (bool_decide (fs_Stat fs _ = Some false)) eqn:E; [|by rewrite !andb_false_r].
  destruct (_ && _ && true); [|done]. rewrite Hserve; [done|]. by gobool.
Qed.

(** ** Errors *)

Lemma as_TooLarge_wrap p err : as_TooLarge (Errorf p err) = as_TooLarge err.
Proof. done. Qed.

(** The answer to an error does not depend on the layers it was wrapped in, and
    an error that is not part of the contract shows nothing of itself. *)
Theorem mapError_wrap p err : mapError (Errorf p err) = mapError err.
Proof. unfold mapError. rewrite as_TooLarge_wrap, !errors_Is_Errorf; done. Qed.

Section Fail.
Context {S : Type} (log : string -> list (string * value) -> S -> S) (r : Request).

Lemma fail_hides err err' w w' w0 w0' :
  mapError err = (500, "internal", []) -> mapError err' = (500, "internal", []) ->
  http_fail log r err w = (Ok tt, w0) -> http_fail log r err' w' = (Ok tt, w0') -> web_rw w = web_rw w' ->
  web_rw w0 = web_rw w0'.
Proof.
  intros E E'. unfold http_fail. rewrite E, E'. unfold log_line, call, writeError, writeJSON, SetHeader, WriteHeader, respond.
  go_unfold. cbn. intros [= <-] [= <-] ->. done.
Qed.
End Fail.

(** ** Headers of every response *)

Definition security_lines (hsts : bool) : list header_line :=
  [Line "X-Content-Type-Options" "nosniff"; Line "Referrer-Policy" "no-referrer"; Line "X-Frame-Options" "DENY";
   Line "Permissions-Policy" "camera=(), microphone=(), geolocation=()"; Line "Content-Security-Policy" csp] ++
  (if hsts then [Line "Strict-Transport-Security" "max-age=31536000"] else []).

(** The lines are set, and were set when the status went out. *)
Definition secured (lines : list header_line) (w : ResponseWriter) : Prop :=
  lines ⊆ rw_header w /\ forall code hs, rw_sent w = Some (code, hs) -> lines ⊆ hs.

(** A line that replaces none of them, except by itself. *)
Definition harmless (lines : list header_line) (name v : string) : Prop :=
  Forall (fun l => names name l = true -> l = Line name v) lines.

Section Secured.
Context {S : Type} (hsts : bool).
#[local] Abbreviation lines := (security_lines hsts).

Lemma header_Set_secured name v w :
  harmless lines name v -> secured lines w -> secured lines (header_Set name v w).
Proof.
  intros Hh [Hl Hs]. split; [|exact Hs]. intros l Hin. cbn [header_Set rw_header]. apply elem_of_app.
  destruct (names name l) eqn:E.
  - right. apply list_elem_of_singleton. by apply (proj1 (Forall_forall _ _) Hh l Hin).
  - left. apply list_elem_of_In, filter_In. split; [by apply list_elem_of_In, Hl|by rewrite E].
Qed.

Lemma sent_secured w code : 
  secured lines w -> forall code' hs,
  match rw_sent w with None => Some (code, rw_header w) | sent => sent end = Some (code', hs) -> lines ⊆ hs.
Proof. intros [Hl Hs] code' hs. destruct (rw_sent w) as [[c h]|] eqn:E; intros [= <- <-]; [by eapply Hs|exact Hl]. Qed.

Definition sec (w w' : Web S) : Prop := secured lines (web_rw w) -> secured lines (web_rw w').

#[export] Instance sec_preorder : PreOrder sec.
Proof. split; unfold sec; [by intros ? ?|]. intros ? ? ? ? ?. auto. Qed.

Definition secures (next : Handler S) : Prop := forall r, respects sec (next r).

Lemma respects_panic {A} : respects sec (panic : M (Web S) A).
Proof. by intros w Hw. Qed.

Lemma call_sec {A} (m : M S A) : respects sec (call m).
Proof. intros w Hw. unfold call. by destruct (m (web_s w)). Qed.

Lemma Inc_sec name : respects sec (Inc (S := S) name).
Proof. by intros w Hw. Qed.

Lemma SetHeader_sec name v : harmless lines name v -> respects sec (SetHeader (S := S) name v).
Proof. intros Hh w Hw. by apply header_Set_secured. Qed.

Lemma cookie_sec c : respects sec (respond (S := S) (add_cookie c)).
Proof. intros w [Hl Hs]. split; [|exact Hs]. intros l Hin. cbn. apply elem_of_app. left. by apply Hl. Qed.

Lemma WriteHeader_sec code : respects sec (WriteHeader (S := S) code).
Proof. intros w Hw. split; [apply Hw|]. cbn. by apply sent_secured. Qed.

Lemma Write_sec c : respects sec (respond (S := S) (rw_Write c)).
Proof. intros w Hw. split; [apply Hw|]. cbn. by apply sent_secured. Qed.
End Secured.

(** Runs through a handler with these rules. *)
Ltac harmless := unfold harmless, security_lines;
  match goal with |- context [if ?b then _ else _] => destruct b | _ => idtac end; repeat constructor; by intros.

Ltac secure_step :=
  match goal with
  | H : secures _ ?next |- respects _ (?next _) => apply H
  | |- respects _ (match ?x with _ => _ end) => destruct x eqn:?
  | |- respects _ (_ ≫= _) => apply respects_bind; [apply _| |intros ?]
  | |- respects _ (mret _) => apply respects_ret, _
  | |- respects _ (throw _) => apply respects_throw, _
  | |- respects _ panic => apply respects_panic
  | |- respects _ (try _) => apply respects_try
  | |- respects _ (ignore _) => apply respects_ignore; [apply _|]
  | |- respects _ (call _) => apply call_sec
  | |- respects _ (Inc _) => apply Inc_sec
  | |- respects _ (SetHeader _ _) => apply SetHeader_sec; harmless
  | |- respects _ (WriteHeader _) => apply WriteHeader_sec
  | |- respects _ (respond (rw_Write _)) => apply Write_sec
  | |- respects _ (respond (add_cookie _)) => apply cookie_sec
  end.

Ltac secure := intros; repeat secure_step.

Section Everywhere.
Context `{UUIDText} {S : Type} (h : handlers S).

Lemma writeJSON_sec b status v : respects (sec b) (writeJSON (S := S) status v).
Proof. unfold writeJSON. secure. Qed.

Lemma writeError_sec b status code msg details : respects (sec b) (writeError (S := S) status code msg details).
Proof. apply writeJSON_sec. Qed.

Lemma fail_sec b log r err : respects (sec b) (http_fail (S := S) log r err).
Proof.
  unfold http_fail. destruct (mapError err) as [[status code] details]. unfold log_line. secure. apply writeError_sec.
Qed.

Ltac secure_more :=
  first [ secure_step
        | match goal with
          | |- respects _ (writeJSON _ _) => apply writeJSON_sec
          | |- respects _ (writeError _ _ _ _) => apply writeError_sec
          | |- respects _ (http_fail _ _ _) => apply fail_sec
          end ].

Lemma limit_sec b r scope key : respects (sec b) (limit h r scope key).
Proof. unfold limit, http_now, Record_event. repeat secure_more. Qed.

Lemma startSession_sec b r u : respects (sec b) (startSession h r u).
Proof. unfold startSession, setSessionCookie. repeat secure_more. Qed.

Ltac secure_all :=
  first [ secure_more
        | match goal with
          | |- respects _ (limit _ _ _ _) => apply limit_sec
          | |- respects _ (startSession _ _ _) => apply startSession_sec
          end ].

Lemma login_sec b : secures b (login h).
Proof. intros r. unfold login. repeat secure_all. Qed.

Lemma logout_sec b : secures b (logout h).
Proof. intros r. unfold logout, clearSessionCookie, http_now, Record_event. repeat secure_all. Qed.

Lemma oidcStart_sec b : secures b (oidcStart h).
Proof. intros r. unfold oidcStart, Redirect. repeat secure_all. Qed.

Lemma oidcCallback_sec b : secures b (oidcCallback h).
Proof. intros r. unfold oidcCallback, Redirect, log_line. repeat secure_all. Qed.

Lemma issueChallenge_sec b : secures b (issueChallenge h).
Proof. intros r. unfold issueChallenge. repeat secure_all. Qed.

Lemma verifyChallenge_sec b : secures b (verifyChallenge h).
Proof. intros r. unfold verifyChallenge. repeat secure_all. Qed.

Lemma createPaste_sec b : secures b (createPaste h).
Proof. intros r. unfold createPaste. repeat secure_all. Qed.

Lemma writeRaw_sec b id content : respects (sec b) (writeRaw (S := S) id content).
Proof. unfold writeRaw. repeat secure_all. Qed.

Lemma reads_sec b : secures b (getPaste h) /\ secures b (unlockPaste h) /\ secures b (rawPaste h) /\ secures b (verifyPaste h).
Proof.
  split_and!; intros r; unfold getPaste, unlockPaste, rawPaste, verifyPaste, with_id;
    repeat first [secure_all | match goal with |- respects _ (writeRaw _ _) => apply writeRaw_sec end].
Qed.

Lemma writeList_sec b items : respects (sec b) (writeList h items).
Proof. unfold writeList, http_now. repeat secure_all. Qed.

Lemma lists_sec b : secures b (deletePaste h) /\ secures b (listMine h) /\ secures b (adminList h).
Proof.
  split_and!; intros r; unfold deletePaste, listMine, adminList, with_id;
    repeat first [secure_all | match goal with |- respects _ (writeList _ _) => apply writeList_sec end].
Qed.

Lemma guards_sec b (next : Handler S) :
  secures b next -> secures b (requireAuth next) /\ secures b (requireAdmin next) /\
    secures b (viewGate h next) /\ secures b (small next).
Proof.
  intros Hn. assert (Ha : forall next : Handler S, secures b next -> secures b (requireAuth next))
    by (intros n Hn' r; unfold requireAuth; repeat secure_all).
  split_and!.
  - by apply Ha.
  - apply Ha. intros r. repeat secure_all.
  - unfold viewGate. destruct (ViewRequiresAuth _); [by apply Ha|done].
  - intros r. apply Hn.
Qed.

Lemma path_id_sec b (fn : Handler S) id r : secures b fn -> respects (sec b) (fn (with_path_id id r)).
Proof. intros Hf. apply Hf. Qed.

Lemma getConfig_me_sec b : secures b (getConfig h) /\ secures b (me (S := S)).
Proof. split; intros r; apply writeJSON_sec. Qed.

Lemma maxBody_sec b n (fn : Handler S) : secures b fn -> secures b (chain fn [maxBody n]).
Proof. intros Hf r. apply Hf. Qed.

(** Every route leads to a handler that keeps the lines. *)
Lemma routes_sec b : Forall (fun route => secures b (snd route)) (routes h).
Proof.
  destruct (reads_sec b) as (H1 & H2 & H3 & H4), (lists_sec b) as (H5 & H6 & H7), (getConfig_me_sec b) as [H8 H9].
  unfold routes. repeat apply Forall_cons_2; try apply Forall_nil_2; cbn [snd]; unfold small; apply maxBody_sec;
    try (apply guards_sec);
    first [exact H1|exact H2|exact H3|exact H4|exact H5|exact H6|exact H7|exact H8|exact H9|apply login_sec|apply logout_sec
          |apply oidcStart_sec|apply oidcCallback_sec|apply issueChallenge_sec|apply verifyChallenge_sec|apply createPaste_sec].
Qed.

(** What a table gives for a request is one of its entries. *)
Lemma first_match_inv (table : list (string * string * Handler S)) r fn :
  first_match table r = Some fn ->
  exists method pattern hd id, (method, pattern, hd) ∈ table /\ method_matches method (r_Method r) = true /\
    match_segments (tail (Split pattern Byte.x2f)) (r_Segments r) = Some id /\ fn = (fun r => hd (with_path_id id r)).
Proof.
  induction table as [|[[method pattern] hd] table IH]; cbn [first_match match_route]; [done|].
  destruct (method_matches method (r_Method r)) eqn:Em.
  - destruct (match_segments _ _) as [id|] eqn:Es.
    + intros [= <-]. exists method, pattern, hd, id. split_and!; try done. left.
    + intros (m & p & hd' & id & Hin & ?)%IH. exists m, p, hd', id. split; [by right|done].
  - intros (m & p & hd' & id & Hin & ?)%IH. exists m, p, hd', id. split; [by right|done].
Qed.

Lemma api_sec b : secures b (api h).
Proof.
  intros r. unfold api. destruct (first_match _ r) as [fn|] eqn:E; [|apply writeError_sec].
  apply first_match_inv in E as (m & p & hd & id & Hin & _ & _ & ->).
  apply (proj1 (Forall_forall _ _) (routes_sec b) _ Hin).
Qed.

Lemma http_Error_sec b msg code : respects (sec b) (http_Error (S := S) msg code).
Proof. unfold http_Error. secure. Qed.

Lemma run_checks_sec b c checks : respects (sec b) (run_checks (S := S) c checks).
Proof. induction checks as [|[name fn] checks IH]; simpl; secure. exact IH. Qed.

Lemma root_sec b checks spa :
  match spa with Some spa => secures b spa | None => True end -> secures b (root h checks spa).
Proof.
  intros Hspa r. unfold root, fallback, not_allowed, HealthHandler, ReadyHandler, Redirect.
  repeat first [secure_step | apply api_sec | apply http_Error_sec | apply run_checks_sec | apply Hspa].
Qed.

Lemma with_status_sec b (next : Handler S) r : secures b next -> respects (sec b) (with_status next r).
Proof. intros Hn. unfold with_status. secure; try by intros w Hw. Qed.

Lemma middleware_sec b log now (next : Handler S) :
  secures b next -> secures b (httpMetrics next) /\ secures b (accessLog log now next) /\
    secures b (loadSession h next) /\ secures b (csrf next).
Proof.
  intros Hn. split_and!; intros r.
  - unfold httpMetrics. apply respects_bind; [apply _|by apply with_status_sec|]. by intros ? w Hw.
  - unfold accessLog, log_line. secure. by apply with_status_sec.
  - unfold loadSession, log_line. secure.
  - unfold csrf. repeat first [secure_step | apply writeError_sec].
Qed.

(** Setting the lines one after the other on a response that has not gone out. *)
Lemma header_Set_in name v w : Line name v ∈ rw_header (header_Set name v w).
Proof. cbn. set_solver. Qed.

Lemma header_Set_keep name v l w : l ∈ rw_header w -> names name l = false -> l ∈ rw_header (header_Set name v w).
Proof.
  intros Hin Hn. cbn. apply elem_of_app. left. apply list_elem_of_In, filter_In.
  split; [by apply list_elem_of_In|by rewrite Hn].
Qed.

Lemma securityHeaders_secured b (next : Handler S) r w :
  secures b next -> rw_sent (web_rw w) = None -> secured (security_lines b) (web_rw (snd (securityHeaders b next r w))).
Proof.
  intros Hn Hs. unfold securityHeaders, SetHeader, respond. go_unfold. cbn [web_s web_rw web_metrics fst snd].
  destruct b; cbn [web_s web_rw web_metrics fst snd]; apply Hn; (split; [|cbn; by rewrite Hs]);
    cbn [web_rw]; intros l Hin; unfold security_lines in Hin; cbn [app] in Hin; set_unfold in Hin;
    repeat match goal with H : _ \/ _ |- _ => destruct H as [->|H] end; try done;
    repeat first [apply header_Set_in | apply header_Set_keep; [|reflexivity]].
Qed.

(** The embedded UI keeps the lines when the file server of the standard library
    does. *)
Lemma spaHandler_sec b (static : FS) fileServer :
  (forall path, secures b (fileServer path)) -> secures b (spaHandler (S := S) static fileServer).
Proof.
  intros Hf r. unfold spaHandler, http_Error.
  repeat first [secure_all | match goal with |- respects _ (fileServer _ _) => apply Hf
               | |- context [if ?c then "public, max-age=31536000, immutable" else _] => destruct c end].
Qed.

Context (checks : list (string * (ctx -> M S unit))) (static : option FS) (fileServer : FS -> list string -> Handler S).
#[local] Abbreviation spa := ((fun fs => spaHandler fs (fileServer fs)) <$> static).

Definition inner : Handler S :=
  chain (root h checks spa)
    [clientIP (TrustedProxyCIDRs (h_cfg h)); securityHeaders (hsts h); httpMetrics; accessLog (h_log h) (h_now h);
     loadSession h; csrf].

Lemma inner_secured r w :
  match spa with Some spa => secures (hsts h) spa | None => True end -> rw_sent (web_rw w) = None ->
  secured (security_lines (hsts h)) (web_rw (snd (inner r w))).
Proof.
  intros Hspa Hs. unfold inner, clientIP. cbn [chain foldr]. apply securityHeaders_secured; [|done].
  pose proof (middleware_sec (hsts h) (h_log h) (h_now h)) as Hm.
  apply (Hm _), (Hm _), (Hm _), (Hm _). by apply root_sec.
Qed.

(** C15. Whatever a handler does, and also when it panics, the panic does not leave
    the server and the response carries the security headers, which no handler
    of the API, the health endpoints or the embedded UI can have replaced or
    dropped.  Three things are taken from elsewhere: the generator of random
    numbers does not fail, no response has been sent when the request arrives,
    and the file server of the standard library, which the UI hands its files
    to, drops none of these headers itself. *)
Theorem Responses_secured r w :
  (forall n s, exists b s', rand_Read (h_rand h) n s = (Ok b, s')) ->
  (forall fs path, secures (hsts h) (fileServer fs path)) ->
  rw_sent (web_rw w) = None ->
  fst (NewHandler h checks spa r w) <> Panic /\
  secured (security_lines (hsts h)) (web_rw (snd (NewHandler h checks spa r w))).
Proof.
  intros Hrand Hfs Hs.
  assert (Hspa : match spa with Some spa => secures (hsts h) spa | None => True end)
    by (destruct static as [fs|]; [apply spaHandler_sec, Hfs|done]).
  change (NewHandler h checks spa r w) with (recoverer (h_log h) (requestID (h_rand h) inner) r w).
  unfold recoverer. assert (Hin : secured (security_lines (hsts h)) (web_rw (snd (requestID (h_rand h) inner r w)))).
  { unfold requestID, randomToken, RandomToken, SetHeader, respond, call. go_unfold.
    destruct (Hrand 12%nat (web_s w)) as (b & s' & ->). cbn [web_s web_rw web_metrics]. by apply inner_secured. }
  destruct (requestID (h_rand h) inner r w) as [[[]|e|] w'] eqn:E; cbn [fst snd] in *; [done..|].
  split.
  - unfold log_line, call, writeError, writeJSON, SetHeader, WriteHeader, respond. by go_unfold.
  - assert (Hp : respects (sec (hsts h)) (log_line (h_log h) "panic" [("path", VStr (r_Path r)); ("request_id", VStr (r_requestID r))] ;;
       writeError 500 "internal" "internal error" [])).
    { apply respects_bind; [apply _|apply call_sec|intros ?; apply writeError_sec]. }
    by apply Hp.
Qed.
End Everywhere.

(** ** Which requests reach a handler *)
Section Reaching.
Context `{UUIDText} {S : Type} (h : handlers S).

(** A state-changing API call within a session carries the token of the session. *)
Definition csrf_ok (r : Request) : Prop :=
  r_Method r ∈ ["GET"; "HEAD"; "OPTIONS"] \/ HasPrefix (r_Path r) "/api/" = false \/
  r_Path r = "/api/v1/auth/login" \/ r_Path r = "/api/v1/auth/oidc/callback" \/
  forall si, r_session r = Some si ->
    se_CSRFToken (si_Session si) <> "" /\ Header_Get r "X-Csrf-Token" = se_CSRFToken (si_Session si).

(** A session on a request is one the store gave for the cookie, of a user that
    the user store knows and that is not disabled. *)
Definition session_ok (cookies : list (string * string)) (r : Request) : Prop :=
  forall si, r_session r = Some si ->
    exists v c s0 s1 s2 s3, snd <$> List.find (fun kv => bool_decide (fst kv = "pb_sess")) cookies = Some v /\ v <> "" /\
      Sessions_Get (h_sessions h) c v s0 = (Ok (si_Session si), s1) /\
      Users_GetByID (h_users h) c (se_UserID (si_Session si)) s2 = (Ok (si_User si), s3) /\
      us_Disabled (si_User si) = false.

(** The same request otherwise. *)
Definition same_request (r r' : Request) : Prop :=
  r_Method r' = r_Method r /\ r_Segments r' = r_Segments r /\ r_Header r' = r_Header r /\ r_Cookies r' = r_Cookies r /\
  r_Query r' = r_Query r /\ r_Body r' = r_Body r.

(** Two handlers that agree on the requests in [P] cannot be told apart. *)
Definition agree (P : Request -> Prop) (n1 n2 : Handler S) : Prop := forall r w, P r -> n1 r w = n2 r w.

Lemma csrf_agree (P : Request -> Prop) n1 n2 :
  agree (fun r => P r /\ csrf_ok r) n1 n2 -> agree P (csrf n1) (csrf n2).
Proof.
  intros Ha r w HP. unfold csrf, csrf_safe. case_bool_decide as E1; [by apply Ha; split; [|left]|].
  destruct (negb _ || csrfExempt _) eqn:E2.
  { apply Ha. split; [done|]. right. apply orb_true_iff in E2 as [E2|E2]; [left; by apply negb_true_iff|right].
    unfold csrfExempt in E2. apply orb_true_iff in E2 as [E2|E2]; gobool; auto. }
  destruct (r_session r) as [si|] eqn:E3; [|by apply Ha; split; [|do 4 right; rewrite E3]].
  destruct (bool_decide _ || negb _) eqn:E4; [done|]. apply Ha. split; [done|]. do 4 right. intros si' Hsi.
  rewrite E3 in Hsi. injection Hsi as <-. rewrite orb_false_iff, negb_false_iff in E4. destruct E4 as [E4 E5].
  gobool. split; congruence.
Qed.

Lemma bind_agree {A B} (m : M (Web S) A) (k k' : A -> M (Web S) B) w :
  (forall a w', m w = (Ok a, w') -> k a w' = k' a w') -> (m ≫= k) w = (m ≫= k') w.
Proof. intros Hk. unfold mbind, M_bind. destruct (m w) as [[a|e|] w'] eqn:E; auto. Qed.

Lemma try_inr {A} (m : M (Web S) A) w a w' : try m w = (Ok (inr a), w') -> m w = (Ok a, w').
Proof. unfold try. destruct (m w) as [[b|e|] w1]; congruence. Qed.

Lemma call_ok {A} (m : M S A) w a w' : call m w = (Ok a, w') -> exists s', m (web_s w) = (Ok a, s').
Proof. unfold call. destruct (m (web_s w)) as [r s']. intros [= -> <-]. eauto. Qed.

Lemma loadSession_agree (P : Request -> Prop) n1 n2 :
  (forall r si, P r -> P (with_session si r)) ->
  agree (fun r => P r /\ session_ok (r_Cookies r) r) n1 n2 ->
  agree (fun r => P r /\ r_session r = None) (loadSession h n1) (loadSession h n2).
Proof.
  intros HP Ha r w [Hr Hs].
  assert (Hnone : forall w, n1 r w = n2 r w) by (intros w0; apply Ha; split; [done|]; intros si; by rewrite Hs).
  unfold loadSession. destruct (Cookie_value r sessionCookie) as [v|] eqn:Ec; [|done]. case_bool_decide as Ev; [done|].
  apply bind_agree. intros [err|sess] w1 E1.
  { apply bind_agree. auto. }
  apply bind_agree. intros [err|u] w2 E2; [apply bind_agree; auto|].
  destruct (us_Disabled u) eqn:Ed; [apply bind_agree; auto|].
  apply bind_agree. intros [] w3 _. apply Ha. split; [by apply HP|]. intros si [= <-].
  apply try_inr, call_ok in E1 as [s1 E1]. apply try_inr, call_ok in E2 as [s2 E2].
  exists v, (r_ctx r), (web_s w), s1, (web_s w1), s2. by split_and!.
Qed.

Definition server_middleware : list (middleware S) :=
  [recoverer (h_log h); requestID (h_rand h); clientIP (TrustedProxyCIDRs (h_cfg h)); securityHeaders (hsts h);
   httpMetrics; accessLog (h_log h) (h_now h); loadSession h; csrf].

Lemma with_status_agree P n1 n2 r w : agree P n1 n2 -> P r -> with_status n1 r w = with_status n2 r w.
Proof.
  intros Ha Hr. unfold with_status. apply bind_agree. intros [] w1 _. unfold mbind, M_bind. by rewrite (Ha r w1 Hr).
Qed.

Lemma outer_agree (P : Request -> Prop) n1 n2 :
  (forall r id, P r -> P (WithRequestID id r)) -> (forall r ip ua, P r -> P (with_ip ip ua r)) ->
  agree P n1 n2 ->
  agree P (recoverer (h_log h) n1) (recoverer (h_log h) n2) /\ agree P (requestID (h_rand h) n1) (requestID (h_rand h) n2) /\
  agree P (clientIP (TrustedProxyCIDRs (h_cfg h)) n1) (clientIP (TrustedProxyCIDRs (h_cfg h)) n2) /\
  agree P (securityHeaders (hsts h) n1) (securityHeaders (hsts h) n2) /\ agree P (httpMetrics n1) (httpMetrics n2) /\
  agree P (accessLog (h_log h) (h_now h) n1) (accessLog (h_log h) (h_now h) n2).
Proof.
  intros Hid Hip Ha. split_and!; intros r w Hr.
  - unfold recoverer. by rewrite (Ha r w Hr).
  - unfold requestID. apply bind_agree. intros id w1 _. apply bind_agree. intros [] w2 _. by apply Ha, Hid.
  - unfold clientIP. by apply Ha, Hip.
  - unfold securityHeaders. repeat (apply bind_agree; intros [] ? _). by apply Ha.
  - unfold httpMetrics, mbind, M_bind. by rewrite (with_status_agree P n1 n2).
  - unfold accessLog. apply bind_agree. intros start w1 _. unfold mbind at 1 3, M_bind at 1 2.
    by rewrite (with_status_agree P n1 n2).
Qed.

(** C9. Only two kinds of requests reach the routes of the server: requests without
    a session, and requests whose session the store gave for the value of their
    cookie "pb_sess" and whose user exists and is not disabled.  Of the latter,
    a request to the API with a method other than GET, HEAD and OPTIONS carries
    the token of its session in the header X-Csrf-Token, and that token is not
    empty, unless its path is "/api/v1/auth/login" or
    "/api/v1/auth/oidc/callback".  So the server does not change when its routes are
    replaced by others that treat these requests alike, whatever they do with
    the rest, on every request that comes in without a session. *)
Theorem Requests_admitted checks spa (others : Handler S) r w :
  r_session r = None ->
  (forall r' w', same_request r r' -> csrf_ok r' -> session_ok (r_Cookies r) r' -> root h checks spa r' w' = others r' w') ->
  NewHandler h checks spa r w = chain others server_middleware r w.
Proof.
  intros Hs Hroot. set (root1 := root h checks spa) in *. set (root2 := others) in *.
  change (NewHandler h checks spa) with (chain root1 server_middleware).
  assert (Hcsrf : agree (fun r' => same_request r r' /\ session_ok (r_Cookies r') r') (csrf root1) (csrf root2)).
  { apply csrf_agree. intros r' w' [[Hsame Hses] Hc]. apply Hroot; [done|done|]. by destruct Hsame as (_ & _ & _ & <- & _). }
  assert (Hload : agree (fun r' => same_request r r' /\ r_session r' = None) (loadSession h (csrf root1)) (loadSession h (csrf root2)))
    by (apply loadSession_agree; [by intros|done]).
  set (P := fun r' => same_request r r' /\ r_session r' = None) in *.
  assert (Hout : forall n1 n2, agree P n1 n2 -> _) by (intros n1 n2; exact (outer_agree P n1 n2 ltac:(by intros) ltac:(by intros))).
  unfold server_middleware. cbn [chain foldr].
  apply Hout in Hload as (_ & _ & _ & _ & _ & Hload). apply Hout in Hload as (_ & _ & _ & _ & Hload & _).
  apply Hout in Hload as (_ & _ & _ & Hload & _). apply Hout in Hload as (_ & _ & Hload & _).
  apply Hout in Hload as (_ & Hload & _). apply Hout in Hload as (Hload & _). by apply Hload.
Qed.
End Reaching.

(** ** Routes *)
Section Routes.
Context `{UUIDText} {S : Type} (h : handlers S).

(** The patterns that need a session; the views of pastes only when the
    configuration says so. *)
Definition session_routes (view_requires_auth : bool) : list (string * string) :=
  [("POST", "/api/v1/auth/logout"); ("GET", "/api/v1/auth/me"); ("POST", "/api/v1/challenges");
   ("POST", "/api/v1/challenges/{id}/verify"); ("POST", "/api/v1/pastes"); ("DELETE", "/api/v1/pastes/{id}");
   ("GET", "/api/v1/me/pastes"); ("GET", "/api/v1/admin/pastes")] ++
  (if view_requires_auth then
     [("GET", "/api/v1/pastes/{id}"); ("POST", "/api/v1/pastes/{id}/unlock"); ("GET", "/api/v1/pastes/{id}/raw");
      ("POST", "/api/v1/pastes/{id}/verify")]
   else []).

Definition requests (method pattern : string) (r : Request) : Prop :=
  method_matches method (r_Method r) = true /\ is_Some (match_segments (tail (Split pattern Byte.x2f)) (r_Segments r)).

Definition seg_matches (p x : string) : Prop := if bool_decide (p = "{id}") then x <> "" else p = x.

Lemma match_segments_inv ps segs id : match_segments ps segs = Some id -> Forall2 seg_matches ps segs.
Proof.
  revert segs id. induction ps as [|p ps IH]; intros [|x segs] id; simpl; try done.
  unfold seg_matches. case_bool_decide as Ep.
  - case_bool_decide; [done|]. destruct (match_segments ps segs) eqn:E; [|done]. intros _. constructor; [|by eapply IH].
    by rewrite bool_decide_true.
  - case_bool_decide; [|done]. intros E. constructor; [by rewrite bool_decide_false|by eapply IH].
Qed.

Lemma method_matches_inv m m' : method_matches m m' = true -> m' = m \/ m = "GET" /\ m' = "HEAD".
Proof. unfold method_matches. intros E. apply orb_true_iff in E as [E|E]; gobool; auto. Qed.
End Routes.

Section Table.
Context {S : Type} (r : Request) (method pattern : string) (fn : Handler S) (table : list (string * string * Handler S)).

Lemma skip_method : method_matches method (r_Method r) = false ->
  first_match ((method, pattern, fn) :: table) r = first_match table r.
Proof. intros E. cbn [first_match match_route]. by rewrite E. Qed.

Lemma skip_path ps : tail (Split pattern Byte.x2f) = ps -> match_segments ps (r_Segments r) = None ->
  first_match ((method, pattern, fn) :: table) r = first_match table r.
Proof. intros <- E. cbn [first_match match_route]. rewrite E. by destruct (method_matches _ _). Qed.

Lemma take_route ps id : method_matches method (r_Method r) = true -> tail (Split pattern Byte.x2f) = ps ->
  match_segments ps (r_Segments r) = Some id ->
  first_match ((method, pattern, fn) :: table) r = Some (fun r => fn (with_path_id id r)).
Proof. intros E1 <- E2. cbn [first_match match_route]. by rewrite E1, E2. Qed.
End Table.

(** Runs the table of routes on a request whose method and path are given, up to
    the segments of wildcards: [Hm] and [Hseg] say what they are. *)
Ltac run_segments :=
  repeat (cbn [match_segments];
    match goal with
    | Hx : ?x <> "" |- context [bool_decide (?x = "")] => rewrite (bool_decide_false (x = "")) by exact Hx; cbv iota
    | |- context [bool_decide (?a = ?b)] =>
        let v := eval vm_compute in (bool_decide (a = b)) in
        lazymatch v with true => idtac | false => idtac end; change (bool_decide (a = b)) with v; cbv iota
    end); reflexivity.

Ltac run_routes Hm Hseg :=
  repeat first
    [ rewrite skip_method by (rewrite Hm; reflexivity)
    | erewrite skip_path; [|vm_compute; reflexivity|rewrite Hseg; run_segments]
    | erewrite take_route; [|rewrite Hm; reflexivity|vm_compute; reflexivity|rewrite Hseg; run_segments] ].

Section Protected.
Context `{UUIDText} {S : Type} (h : handlers S).

Ltac path_of Hseg :=
  apply match_segments_inv in Hseg;
  repeat match goal with
  | H : Forall2 _ (_ :: _) _ |- _ => apply Forall2_cons_inv_l in H as (? & ? & ? & ? & ->)
  | H : Forall2 _ [] _ |- _ => apply Forall2_nil_inv_l in H as ->
  | H : seg_matches ?p ?x |- _ =>
      let v := eval vm_compute in (bool_decide (p = "{id}")) in
      lazymatch v with true => change (x <> "") in H | false => change (p = x) in H; subst x end
  end.

Lemma gated_none (fn : Handler S) n id r w :
  r_session r = None ->
  chain (requireAuth fn) [maxBody n] (with_path_id id r) w = writeError 401 "unauthenticated" "login required" [] w.
Proof. intros Hs. cbn [chain foldr]. unfold maxBody, requireAuth. cbn [with_limit with_path_id r_session]. by rewrite Hs. Qed.

Lemma gated_user (fn : Handler S) n x r w si :
  r_session r = Some si -> us_IsAdmin (si_User si) = false ->
  chain (requireAdmin fn) [maxBody n] (with_path_id x r) w = writeError 403 "forbidden" "admin required" [] w.
Proof.
  intros Hs Ha. cbn [chain foldr]. unfold maxBody, requireAdmin, requireAuth, sessionFrom.
  cbn [with_limit with_path_id r_session]. rewrite Hs. simpl. by rewrite Ha.
Qed.

(** C29. Nothing that needs a session happens without one: the answer is 401, and no
    store is touched.  The list of all pastes is for administrators only. *)
Theorem Routes_protected method pattern r w :
  requests method pattern r ->
  (r_session r = None -> (method, pattern) ∈ session_routes (ViewRequiresAuth (h_cfg h)) ->
   api h r w = writeError 401 "unauthenticated" "login required" [] w) /\
  (forall si, r_session r = Some si -> us_IsAdmin (si_User si) = false ->
   method = "GET" -> pattern = "/api/v1/admin/pastes" ->
   api h r w = writeError 403 "forbidden" "admin required" [] w).
Proof.
  intros [Hm [id Hseg]]. split.
  - intros Hs Hin. unfold session_routes in Hin. destruct (ViewRequiresAuth (h_cfg h)) eqn:Ev; cbn [app] in Hin.
    all: repeat (apply elem_of_cons in Hin as [[= -> ->]|Hin]); try by apply elem_of_nil in Hin.
    all: match type of Hseg with match_segments ?t _ = _ => let v := eval vm_compute in t in change t with v in Hseg end.
    all: remember (r_Segments r) as segs eqn:Esegs; path_of Hseg; symmetry in Esegs.
    all: apply method_matches_inv in Hm as [Hm|[Hg Hm]]; [|try discriminate Hg].
    all: unfold api; unfold routes; run_routes Hm Esegs.
    all: unfold small, requireAdmin, viewGate; rewrite ?Ev; by apply gated_none.
  - intros si Hsi Hadm -> ->.
    match type of Hseg with match_segments ?t _ = _ => let v := eval vm_compute in t in change t with v in Hseg end.
    remember (r_Segments r) as segs eqn:Esegs. path_of Hseg. symmetry in Esegs.
    apply method_matches_inv in Hm as [Hm|[_ Hm]]; unfold api; unfold routes; run_routes Hm Esegs;
      unfold small; by eapply gated_user.
Qed.
End Protected.

(** ** What a locked paste shows *)
Section Locked.
Context `{UUIDText} {S : Type} (h : handlers S) (d : Deps S).

(** Without its password, [Read] gives nothing of a protected paste. *)
Lemma Read_locked c p id s r s' :
  Read d c p id "" s = (Ok r, s') -> pm_PasswordProtected (rr_Meta r) = true ->
  rr_Content r = None /\ rr_HashVisible r = false.
Proof.
  intros Hr Hp. apply Read_discloses in Hr as [Hv Hc].
  assert (Hn : rr_Content r = None).
  { destruct (rr_Content r) as [b|]; [|done]. destruct (Hc b eq_refl) as [Hpw _]. by destruct (Hpw Hp). }
  split; [done|]. destruct (rr_HashVisible r); [|done].
  destruct (proj1 Hv eq_refl) as [E|[b E]]; congruence.
Qed.

(** What a reader without the password is told of a protected paste: these
    fields, and neither a content nor a hash. *)
Definition locked_json (m : PasteMeta) (st : Status) : value :=
  VObj ([("id", VStr (uuid_String (pm_ID m))); ("url", VStr (PasteURL (AppBaseURL (h_cfg h)) (pm_ID m)));
         ("status", VStr (Status_string st)); ("created_at", VStr (Format_RFC3339 (pm_CreatedAt m)));
         ("expires_at", VStr (Format_RFC3339 (pm_ExpiresAt m))); ("ttl_seconds", VInt (pm_TTLSeconds m));
         ("size_bytes", VInt (pm_SizeBytes m)); ("password_protected", VBool true);
         ("hash_algo", VStr (pm_HashAlgo m)); ("view_count", VInt (pm_ViewCount m))] ++
        match pm_DeletedAt m with Some t => [("deleted_at", VStr (Format_RFC3339 t))] | None => [] end).

(** C14. A protected paste gives away neither its content nor its hash to a reader
    who has not entered the password, whatever the stores answer.  When the
    service reads a protected paste for [GET /api/v1/pastes/{id}], the response
    is 200 with exactly the fields of [locked_json]; when it does so for the raw
    form, the response is an error: password required, or that the paste is
    expired, deleted or unavailable.  When the service fails, both answer with
    its error, and both refuse an id that is not a uuid. *)
Theorem Views_hide_locked r w :
  h_pastes h = NewService d ->
  match uuid_Parse (r_PathID r) with
  | None =>
      getPaste h r w = writeError 400 "bad_request" "id must be a uuid" [] w /\
      rawPaste h r w = writeError 400 "bad_request" "id must be a uuid" [] w
  | Some id =>
      let '(answer, s') := Read d (r_ctx r) (principalFrom r) id "" (web_s w) in
      let w' := MkWeb s' (web_rw w) (web_metrics w) in
      match answer with
      | Ok res =>
          pm_PasswordProtected (rr_Meta res) = true ->
          getPaste h r w = writeJSON 200 (locked_json (rr_Meta res) (rr_Status res)) w' /\
          exists err, err ∈ [ErrPasswordRequired; ErrExpired; ErrDeleted; ErrUnavailable] /\
            rawPaste h r w = http_fail (h_log h) r err w'
      | Err err => getPaste h r w = http_fail (h_log h) r err w' /\ rawPaste h r w = http_fail (h_log h) r err w'
      | Panic => getPaste h r w = (Panic, w') /\ rawPaste h r w = (Panic, w')
      end
  end.
Proof.
  intros Hp. unfold getPaste, rawPaste, with_id. destruct (uuid_Parse (r_PathID r)) as [id|]; [|done].
  rewrite Hp. cbn [Svc_Read NewService]. unfold mbind, M_bind, try, call.
  destruct (Read d (r_ctx r) (principalFrom r) id "" (web_s w)) as [[res|err|] s'] eqn:Hr; [|done..].
  intros Hprot. destruct (Read_locked _ _ _ _ _ _ Hr Hprot) as [Hc Hv]. split.
  - f_equal. unfold read_json, pasteJSON, locked_json. by rewrite Hc, Hv, Hprot, app_nil_r.
  - rewrite Hprot. unfold statusErr. destruct (rr_Status res); eexists; (split; [|reflexivity]); set_solver.
Qed.
End Locked.

(** ** Who may name the address of a client *)
Section Forwarded.
Context `{UUIDText} {S : Type} (h : handlers S).

(** Header lines that agree on every name but one. *)
Definition same_lines (hs hs' : list (string * string)) : Prop :=
  forall name, name <> "X-Forwarded-For" -> get_first hs name = get_first hs' name.

(** A handler that cannot see that header on the requests of an untrusted
    peer. *)
Definition blind (next : Handler S) : Prop := forall r hs w,
  untrusted (TrustedProxyCIDRs (h_cfg h)) r -> same_lines hs (r_Header r) -> next (with_header hs r) w = next r w.

Lemma Header_Get_blind hs r name :
  same_lines hs (r_Header r) -> name <> "X-Forwarded-For" -> Header_Get (with_header hs r) name = Header_Get r name.
Proof. intros Hs Hn. by apply Hs. Qed.

Lemma unlockPaste_blind : blind (unlockPaste h).
Proof.
  intros r hs w _ Hs. unfold unlockPaste. by rewrite (Header_Get_blind hs r "Accept").
Qed.

Lemma guard_blind (next : Handler S) n :
  blind next -> blind (requireAuth next) /\ blind (requireAdmin next) /\ blind (viewGate h next) /\
    blind (chain next [maxBody n]).
Proof.
  intros Hn.
  assert (Ha : forall next : Handler S, blind next -> blind (requireAuth next)).
  { intros n1 Hn1 r hs w Hu Hs. unfold requireAuth. cbn [with_header r_session]. destruct (r_session r); [by apply Hn1|done]. }
  split_and!; [by apply Ha| | |].
  - apply Ha. intros r hs w Hu Hs. change (sessionFrom (with_header hs r)) with (sessionFrom r).
    destruct (negb _); [done|by apply Hn].
  - unfold viewGate. destruct (ViewRequiresAuth _); [by apply Ha|done].
  - intros r hs w Hu Hs. exact (Hn (with_limit n r) hs w Hu Hs).
Qed.

Ltac blind_route :=
  first [ exact unlockPaste_blind
        | match goal with
          | |- blind (small _) => apply (guard_blind _ smallBody); blind_route
          | |- blind (chain _ [maxBody ?n]) => apply (guard_blind _ n); blind_route
          | |- blind (requireAuth _) => apply (guard_blind _ 0); blind_route
          | |- blind (requireAdmin _) => apply (guard_blind _ 0); blind_route
          | |- blind (viewGate _ _) => apply (guard_blind _ 0); blind_route
          end
        | by intros r hs w _ _ ].

Lemma routes_blind : Forall (fun route => blind (snd route)) (routes h).
Proof. unfold routes. repeat apply Forall_cons_2; try apply Forall_nil_2; cbn [snd]; blind_route. Qed.

Lemma first_match_blind (table : list (string * string * Handler S)) hs r :
  first_match table (with_header hs r) = first_match table r.
Proof. induction table as [|[[method pattern] hd] table IH]; cbn [first_match]; [done|]. by rewrite IH. Qed.

Lemma api_blind : blind (api h).
Proof.
  intros r hs w Hu Hs. unfold api. rewrite first_match_blind. destruct (first_match _ r) as [fn|] eqn:E; [|done].
  apply first_match_inv in E as (m & p & hd & id & Hin & _ & _ & ->).
  exact (proj1 (Forall_forall _ _) routes_blind _ Hin (with_path_id id r) hs w Hu Hs).
Qed.

Lemma root_blind checks spa :
  match spa with Some spa => blind spa | None => True end -> blind (root h checks spa).
Proof.
  intros Hspa r hs w Hu Hs.
  assert (Hf : forall answer, fallback spa answer (with_header hs r) w = fallback spa answer r w)
    by (intros answer; unfold fallback; destruct spa; [by apply Hspa|done]).
  unfold root. cbn [with_header r_Method r_Segments].
  destruct (bool_decide (head _ = _)); [destruct (negb _); [by apply api_blind|by destruct (bool_decide _)]|].
  destruct (bool_decide (r_Segments r = ["healthz"])); [destruct (bool_decide _); [done|apply Hf]|].
  destruct (bool_decide (r_Segments r = ["readyz"])); [destruct (bool_decide _); [done|apply Hf]|apply Hf].
Qed.

Lemma csrf_blind next : blind next -> blind (csrf next).
Proof.
  intros Hn r hs w Hu Hs. unfold csrf. rewrite (Header_Get_blind hs r "X-Csrf-Token") by done.
  change (r_Method (with_header hs r)) with (r_Method r). change (r_Path (with_header hs r)) with (r_Path r).
  change (r_session (with_header hs r)) with (r_session r).
  destruct (csrf_safe _); [by apply Hn|]. destruct (_ || _); [by apply Hn|]. destruct (r_session r); [|by apply Hn].
  destruct (_ || _); [done|by apply Hn].
Qed.

Lemma loadSession_blind next : blind next -> blind (loadSession h next).
Proof.
  intros Hn r hs w Hu Hs. unfold loadSession.
  change (Cookie_value (with_header hs r) sessionCookie) with (Cookie_value r sessionCookie).
  change (r_ctx (with_header hs r)) with (r_ctx r).
  destruct (Cookie_value r sessionCookie) as [v|]; [|by apply Hn]. case_bool_decide; [by apply Hn|].
  apply bind_agree. intros [err|sess] w1 _; [apply bind_agree; intros; by apply Hn|].
  apply bind_agree. intros [err|u] w2 _; [apply bind_agree; intros; by apply Hn|].
  destruct (us_Disabled u); [apply bind_agree; intros; by apply Hn|].
  apply bind_agree. intros [] w3 _. exact (Hn (with_session (MkSessionInfo sess u) r) hs w3 Hu Hs).
Qed.

Lemma with_status_blind next r hs w :
  blind next -> untrusted (TrustedProxyCIDRs (h_cfg h)) r -> same_lines hs (r_Header r) ->
  with_status next (with_header hs r) w = with_status next r w.
Proof.
  intros Hn Hu Hs. unfold with_status. apply bind_agree. intros [] w1 _. unfold mbind, M_bind. by rewrite (Hn r hs w1 Hu Hs).
Qed.

Lemma middleware_blind next :
  blind next -> blind (accessLog (h_log h) (h_now h) next) /\ blind (httpMetrics next) /\
    blind (securityHeaders (hsts h) next) /\ blind (clientIP (TrustedProxyCIDRs (h_cfg h)) next) /\
    blind (requestID (h_rand h) next) /\ blind (recoverer (h_log h) next).
Proof.
  intros Hn. split_and!; intros r hs w Hu Hs.
  - unfold accessLog. apply bind_agree. intros start w1 _. unfold mbind at 1 3, M_bind at 1 2.
    by rewrite (with_status_blind next r hs w1 Hn Hu Hs).
  - unfold httpMetrics, mbind, M_bind. by rewrite (with_status_blind next r hs w Hn Hu Hs).
  - unfold securityHeaders. repeat (apply bind_agree; intros [] ? _). by apply Hn.
  - unfold clientIP. rewrite (Header_Get_blind hs r "User-Agent") by done.
    rewrite !client_ip_untrusted by exact Hu.
    exact (Hn (with_ip (peer_host r) (Header_Get r "User-Agent") r) hs w Hu Hs).
  - unfold requestID. apply bind_agree. intros id w1 _. apply bind_agree. intros [] w2 _.
    exact (Hn (WithRequestID id r) hs w2 Hu Hs).
  - unfold recoverer. by rewrite (Hn r hs w Hu Hs).
Qed.

(** C34. Only a trusted proxy can say who the client is.  When the host of the
    connection is in none of the trusted prefixes, the X-Forwarded-For lines of
    the request change nothing at all: two requests that differ in no other
    header are answered alike, and leave the same response, stores, rate limits,
    audit events, log and counters behind - through the whole server, with its
    middleware, routes, health checks and embedded UI.  The file server of the
    standard library is assumed not to look at that header either. *)
Theorem Forwarded_for_ignored checks static (fileServer : FS -> list string -> Handler S) r hs hs' w :
  let host := default (r_RemoteAddr r) (SplitHostPort (r_RemoteAddr r)) in
  let spa := (fun fs => spaHandler fs (fileServer fs)) <$> static in
  (forall peer p, ParseAddr host = Some peer -> p ∈ TrustedProxyCIDRs (h_cfg h) -> Contains p peer = false) ->
  (forall name, name <> "X-Forwarded-For" -> get_first hs name = get_first hs' name) ->
  (forall fs path r hs w, same_lines hs (r_Header r) -> fileServer fs path (with_header hs r) w = fileServer fs path r w) ->
  NewHandler h checks spa (with_header hs r) w = NewHandler h checks spa (with_header hs' r) w.
Proof.
  intros host spa Hu Hs Hfs.
  assert (Hspa : match spa with Some spa => blind spa | None => True end).
  { unfold spa. destruct static as [fs|]; [|done]. intros r0 hs0 w0 _ Hs0. unfold spaHandler.
    change (r_Method (with_header hs0 r0)) with (r_Method r0). change (r_Path (with_header hs0 r0)) with (r_Path r0).
    destruct (negb _); [done|]. destruct (_ && _ && _); [|done]. apply bind_agree. intros [] w1 _. by apply Hfs. }
  enough (Hall : blind (NewHandler h checks spa)) by exact (Hall (with_header hs' r) hs w Hu Hs).
  unfold NewHandler. cbn [chain foldr].
  pose proof (csrf_blind _ (root_blind checks spa Hspa)) as H1. apply loadSession_blind in H1.
  apply middleware_blind in H1 as (H1 & _). apply middleware_blind in H1 as (_ & H1 & _).
  apply middleware_blind in H1 as (_ & _ & H1 & _). apply middleware_blind in H1 as (_ & _ & _ & H1 & _).
  apply middleware_blind in H1 as (_ & _ & _ & _ & H1 & _). by apply middleware_blind in H1 as (_ & _ & _ & _ & _ & H1).
Qed.
End Forwarded.
