(* ===== verification/Submit.v ===== *)
(** * From the client's JSON to the service

    The body limit of [POST /api/v1/pastes] against what clients may send: the
    JSON of a paste that is within the configured size is within the limit, and
    the handler decodes exactly what was encoded. *)
From S2P Require Import Prelude GoNum GoStr Codec NetIP Json Errors PasteTypes Crypto Ports Redis Pg World RedisBody.
From S2P Require Import RateLimit AuthTypes GoConf Size Config JsonDec Http Handlers Router.

(** ** The scanner on what the encoder writes *)

(** Reading [l] takes the scanner from one configuration to another. *)
Definition eats (st : scan_state) (stack : list frame) (l : bytes) (st' : scan_state) (stack' : list frame) : Prop :=
  forall n T, scan st stack n (l ++ T) = scan st' stack' (length l + n) T.

Lemma eats_app st1 k1 l1 st2 k2 l2 st3 k3 :
  eats st1 k1 l1 st2 k2 -> eats st2 k2 l2 st3 k3 -> eats st1 k1 (l1 ++ l2) st3 k3.
Proof. intros H1 H2 n T. rewrite <-app_assoc, H1, H2, length_app. f_equal. lia. Qed.

Lemma eats_nil st k : eats st k [] st k.
Proof. done. Qed.

Lemma eats_high stack raw : Forall (fun b => 0x80 <= bval b) raw -> eats InString stack raw InString stack.
Proof.
  induction 1 as [|b raw Hb _ IH]; [apply eats_nil|]. intros n T. cbn [app scan scan_byte].
  unfold isb. rewrite !bool_decide_false by (intros ->; by vm_compute in Hb).
  destruct (bval b <? 32) eqn:E; [lia|]. rewrite IH. f_equal. simpl. lia.
Qed.

Lemma eats_rune stack r : good_rune r -> rune_ok r = true -> eats InString stack (esc_rune r) InString stack.
Proof.
  intros Hg Hok. destruct (Z_lt_le_dec (rune_code r) 0x80) as [Hc|Hc].
  - destruct (good_ascii _ Hg Hc) as [b ->]. cbn in Hc. intros n T. destruct b; try (by vm_compute in Hc); reflexivity.
  - pose proof (good_high _ Hg Hc) as Hh. destruct r as [c raw|]; [|done]. cbn [rune_code rune_raw esc_rune] in *.
    destruct (c <? 128) eqn:E1; [lia|].
    destruct ((c =? 8232) || (c =? 8233)) eqn:E2; [|by apply eats_high].
    gobool. by destruct E2 as [-> | ->].
Qed.

Lemma eats_esc stack s : utf8_Valid s = true -> eats InString stack (esc s) InString stack.
Proof.
  intros Hv. pose proof (good_runes _ Hv) as Hg. unfold utf8_Valid in Hv. unfold esc.
  revert Hv. induction Hg as [|r rs Hr _ IH]; [intros; apply eats_nil|]. cbn [forallb map concat].
  intros [Hok Hv]%andb_true_iff. eapply eats_app; [by apply eats_rune|by apply IH].
Qed.

(** A string that is a value of an object, and the comma after it. *)
Lemma eats_quote s stack :
  utf8_Valid s = true -> eats BeginValue (ObjectValue :: stack) (quote s) EndValue (ObjectValue :: stack).
Proof.
  intros Hv. unfold quote. eapply eats_app; [by intros n T|]. eapply eats_app; [by apply eats_esc|]. by intros n T.
Qed.

Lemma eats_digits stack l : Forall (fun b => Decimal.is_digit b = true) l -> eats Digits1 stack l Digits1 stack.
Proof.
  induction 1 as [|b l Hb _ IH]; [apply eats_nil|]. intros n T. cbn [app scan scan_byte]. rewrite Hb, IH. f_equal.
  simpl. lia.
Qed.

Lemma eats_num z stack :
  0 <= z -> eats BeginValue (ObjectValue :: stack) (Decimal.format_nonneg z ++ comma) BeginString (ObjectKey :: stack).
Proof.
  intros Hz. destruct (Decimal.format_nonneg_lead z Hz) as [-> |(b & l & -> & Hb0 & Hb & Hl)]; [by intros n T|].
  change ((b :: l) ++ comma) with ([b] ++ (l ++ comma)). eapply eats_app with (st2 := Digits1).
  - intros n T. destruct b; try (by vm_compute in Hb); try done.
  - eapply eats_app; [by apply eats_digits|]. by intros n T.
Qed.

(** ** Sizes: a byte of the content takes at most six of the body *)

Lemma esc_rune_length r :
  good_rune r -> rune_ok r = true -> (length (esc_rune r) <= 6 * length (rune_raw r))%nat.
Proof.
  intros Hg Hok. destruct (Z_lt_le_dec (rune_code r) 0x80) as [Hc|Hc].
  - destruct (good_ascii _ Hg Hc) as [b ->]. cbn in Hc. apply Nat.leb_le. destruct b; try (by vm_compute in Hc); reflexivity.
  - pose proof (good_sep _ Hg) as Hs. destruct r as [c raw|]; [|done]. cbn [rune_code rune_raw esc_rune] in *.
    destruct (c <? 128) eqn:E1; [lia|].
    destruct ((c =? 8232) || (c =? 8233)) eqn:E2; [|lia]. gobool.
    rewrite Hs by lia. apply Nat.leb_le. by destruct E2 as [-> | ->].
Qed.

Lemma esc_length s : utf8_Valid s = true -> (length (esc s) <= 6 * length s)%nat.
Proof.
  intros Hv. pose proof (good_runes _ Hv) as Hg. unfold utf8_Valid in Hv.
  rewrite <-(runes_raw s) at 2. unfold esc. revert Hv.
  induction Hg as [|r rs Hr _ IH]; [done|]. cbn [forallb map concat].
  intros [Hok Hv]%andb_true_iff. rewrite !length_app. pose proof (esc_rune_length r Hr Hok). specialize (IH Hv). lia.
Qed.

Lemma digits_length fuel z l : (length (Decimal.digits fuel z l) <= fuel + length l)%nat.
Proof.
  revert z l. induction fuel as [|f IH]; intros z l; cbn [Decimal.digits]; [lia|].
  destruct (z <? 10); [simpl; lia|]. specialize (IH (z / 10) (Decimal.digit (z mod 10) :: l)). simpl in *. lia.
Qed.

(** A generous bound, one place per bit. *)
Lemma format_nonneg_length z : 0 <= z < 2 ^ 63 -> (length (Decimal.format_nonneg z) <= 63)%nat.
Proof.
  intros Hz. unfold Decimal.format_nonneg. pose proof (digits_length (S (Z.to_nat (Z.log2 z))) z []) as Hl. cbn [length] in Hl.
  rewrite Nat.add_0_r in Hl. pose proof (Z.log2_nonneg z). enough (Z.log2 z <= 62) by lia.
  destruct (decide (z = 0)) as [->|]; [done|]. assert (Z.log2 z < 63) by (apply Z.log2_lt_pow2; lia). lia.
Qed.

(** ** The body of a submission *)

Definition submission_json (b : createBody) : json :=
  JObj [(of_str "content", jstr (cb_Content b)); (of_str "password", jstr (cb_Password b));
        (of_str "ttl_seconds", jint (cb_TTLSeconds b)); (of_str "challenge_token", jstr (cb_ChallengeToken b))].

Definition submission_ok (b : createBody) : Prop :=
  utf8_ValidString (cb_Content b) = true /\ utf8_ValidString (cb_Password b) = true /\
  utf8_ValidString (cb_ChallengeToken b) = true /\ 0 <= cb_TTLSeconds b < 2 ^ 63.

Lemma submission_text b :
  0 <= cb_TTLSeconds b ->
  Marshal (submission_json b) =
    of_str "{" ++ quote (of_str "content") ++ colon ++ quote (of_str (cb_Content b)) ++ comma ++
    quote (of_str "password") ++ colon ++ quote (of_str (cb_Password b)) ++ comma ++
    quote (of_str "ttl_seconds") ++ colon ++ (Decimal.format_nonneg (cb_TTLSeconds b) ++ comma) ++
    quote (of_str "challenge_token") ++ colon ++ quote (of_str (cb_ChallengeToken b)) ++ of_str "}".
Proof.
  intros Hz. unfold submission_json, jstr, jint, Decimal.FormatInt. destruct (cb_TTLSeconds b <? 0) eqn:E; [lia|].
  rewrite of_to_str. cbn [Marshal map sep_by]. by rewrite <-?app_assoc.
Qed.

Lemma submission_length b :
  submission_ok b ->
  Z.of_nat (length (Marshal (submission_json b))) <=
    200 + 6 * Z.of_nat (length (of_str (cb_Content b)) + length (of_str (cb_Password b)) + length (of_str (cb_ChallengeToken b))).
Proof.
  intros (Hc & Hp & Ht & Hz). rewrite submission_text by lia.
  pose proof (format_nonneg_length _ Hz). unfold utf8_ValidString in *.
  pose proof (esc_length _ Hc). pose proof (esc_length _ Hp). pose proof (esc_length _ Ht).
  unfold quote. rewrite !length_app. cbn [length].
  assert (Hk : (length (esc (of_str "content")) + length (esc (of_str "password")) + length (esc (of_str "ttl_seconds")) +
                length (esc (of_str "challenge_token")) = 41)%nat) by reflexivity.
  change (length (of_str "{")) with 1%nat. change (length (of_str "}")) with 1%nat.
  change (length colon) with 1%nat. change (length comma) with 1%nat. lia.
Qed.

(** Up to its last byte the scanner is inside the object. *)
Lemma submission_scan b :
  submission_ok b ->
  scan BeginValue [] 0 (Marshal (submission_json b)) = ScanValue (length (Marshal (submission_json b))).
Proof.
  intros (Hc & Hp & Ht & Hz). rewrite submission_text by lia.
  set (front := of_str "{" ++ quote (of_str "content") ++ colon ++ quote (of_str (cb_Content b)) ++ comma ++
    quote (of_str "password") ++ colon ++ quote (of_str (cb_Password b)) ++ comma ++
    quote (of_str "ttl_seconds") ++ colon ++ (Decimal.format_nonneg (cb_TTLSeconds b) ++ comma) ++
    quote (of_str "challenge_token") ++ colon ++ quote (of_str (cb_ChallengeToken b))).
  assert (Hf : eats BeginValue [] front EndValue [ObjectValue]).
  { unfold front.
    repeat match goal with |- eats _ _ (_ ++ _) _ _ =>
      eapply eats_app; [first [by apply eats_quote | apply eats_num; lia | by intros n T]|] end. by apply eats_quote. }
  rewrite <-!app_assoc in *. replace (_ ++ _) with (front ++ of_str "}") by (unfold front; by rewrite <-!app_assoc).
  rewrite Hf, length_app. cbn. f_equal. lia.
Qed.

Lemma submission_json_ok b : submission_ok b -> json_ok (submission_json b).
Proof.
  intros (Hc & Hp & Ht & Hz). unfold submission_json. apply ok_obj. solve_json.
Qed.

Lemma submission_members b :
  in_int64 (cb_TTLSeconds b) -> into_struct create_member (MkCreateBody "" "" 0 "") (submission_json b) = Some b.
Proof.
  intros Hz. destruct b as [content password ttl token]. unfold submission_json, into_struct.
  cbn [cb_Content cb_Password cb_TTLSeconds cb_ChallengeToken members] in *.
  change (create_member (MkCreateBody "" "" 0 "") (of_str "content", jstr content)) with
    (x ← into_string "" (jstr content); Some (MkCreateBody x "" 0 "")).
  rewrite into_jstr. cbn [mbind option_bind].
  change (create_member (MkCreateBody content "" 0 "") (of_str "password", jstr password)) with
    (x ← into_string "" (jstr password); Some (MkCreateBody content x 0 "")).
  rewrite into_jstr. cbn [mbind option_bind].
  change (create_member (MkCreateBody content password 0 "") (of_str "ttl_seconds", jint ttl)) with
    (x ← into_int 0 (jint ttl); Some (MkCreateBody content password x "")).
  rewrite into_jint by done. cbn [mbind option_bind].
  change (create_member (MkCreateBody content password ttl "") (of_str "challenge_token", jstr token)) with
    (x ← into_string "" (jstr token); Some (MkCreateBody content password ttl x)).
  by rewrite into_jstr.
Qed.

Section Admit.
Context `{UUIDText} {S : Type} (h : handlers S).

(** C16. A client that encodes its submission as JSON is understood: if the content
    is within the configured maximum (and the other fields are not absurdly
    long), the body is within the limit of the route, however much its
    characters had to be escaped, and what the handler decodes is exactly what
    was submitted. *)
Theorem Submission_decodes r b :
  0 < PasteMaxSize (h_cfg h) <= MaxPasteSizeHardCap -> submission_ok b ->
  Z.of_nat (length (of_str (cb_Content b))) <= PasteMaxSize (h_cfg h) ->
  Z.of_nat (length (of_str (cb_Password b)) + length (of_str (cb_ChallengeToken b))) <= 10000 ->
  r_Body r = Marshal (submission_json b) ->
  decodeJSON (with_limit (create_limit h) r) create_member (MkCreateBody "" "" 0 "") = Ok b.
Proof.
  intros Hmax Hok Hc Hp Hb. pose proof (submission_length _ Hok) as Hlen.
  assert (Hlim : create_limit h = 6 * PasteMaxSize (h_cfg h) + smallBody)
    by (apply int64_id; unfold in_int64, smallBody, MaxPasteSizeHardCap in *; lia).
  unfold decodeJSON, decode_struct. cbn [with_limit r_Limit r_Body]. rewrite Hb, Hlim. unfold smallBody in *.
  assert (HD : Decode (Some (6 * PasteMaxSize (h_cfg h) + 65536)) (Marshal (submission_json b)) = Ok (submission_json b)).
  { unfold Decode. rewrite take_ge by lia. rewrite submission_scan by done. rewrite take_ge by done.
    unfold decoded. by rewrite parse_Marshal by by apply submission_json_ok. }
  rewrite HD, submission_members; [done|]. destruct Hok as (_ & _ & _ & ?). unfold in_int64. lia.
Qed.
End Admit.
