(* ===== verification/Server.v ===== *)
(** * The server put together

    The handler of [router.go] over the real stores, the paste service, the
    local login, the rate limiter and both audit sinks, and runs of it: a login,
    a paste, a read, and the requests that are turned away.  No command of the
    program builds this server yet ([internal/cli/serve.go] mounts the health
    endpoints only); the wiring follows the ports of [router.go]. *)
From S2P Require Import Prelude GoNum GoStr Codec NetIP Json Errors Sha256 Rfc3339 PasteTypes Canonical Crypto Envelope Ports Service.
From S2P Require Import Redis Pg World RedisBody RateLimit PgPastes PgAudit PasteLaws PasteSystem PasteRuns AuthTypes.
From S2P Require Import RedisScript RedisSessions PgUsers GoConf Size Config AuthLocal JsonDec Http Handlers Router HttpLaws Submit.

Section Server.
Context `{RedisServer} `{RedisClient} `{PgTypes} `{UUIDText} `{Primitives}.
Context (cfg : Config) (newUUID : M World uuid) (e : Envelope World) (g : GateOps World) (dummyPHC : string)
  (chal : option (Challenger World)) (oidc : option (OIDCFlow World)).

Definition limits_of : Limits :=
  MkLimits (PasteMaxSize cfg) (PasteTTLDefault cfg) (PasteTTLMin cfg) (PasteTTLMax cfg).

Definition server : handlers World :=
  MkHandlers World cfg write_log (NewService (paste_deps newUUID e (AppBaseURL cfg) limits_of)) NewUserStore NewSessionStore
    (Some (NewLocalAuthenticator (local_auth g (ParamsFromConfig (Argon2 cfg)) dummyPHC))) oidc chal
    (Allow (RulesFromConfig (Rate cfg))) audit_sinks clock world_rand.

Definition checks : list (string * (ctx -> M World unit)) :=
  [("postgres", Paste_Ping); ("redis", Body_Ping)].

Definition serve (r : Request) (w : Web World) : res unit * Web World := NewHandler server checks None r w.
End Server.

(** ** Runs *)
#[local] Existing Instance map_server.
#[local] Existing Instance ms_client.
#[local] Existing Instance byte_collation.
#[local] Existing Instance canonical_uuid_text.
#[local] Existing Instance toy_primitives.

Definition demo_server : handlers World := server demo_cfg demo_uuid demo_envelope free_gate (demo_phc "dummy") None None.

Definition on (w : World) : Web World := MkWeb w fresh_rw NewMetrics.
Definition next_request (w : Web World) : Web World := MkWeb (web_s w) fresh_rw (web_metrics w).
Definition demo_serve (r : Request) (w : Web World) : Web World := snd (NewHandler demo_server checks None r w).

Definition request (method : string) (path : list string) (headers cookies : list (string * string)) (body : bytes) : Request :=
  MkRequest method path "203.0.113.9:4711" headers cookies [] body None "" Background "" "" None.

Definition login_request : Request :=
  request "POST" ["api"; "v1"; "auth"; "login"] [] []
    (Marshal (JObj [(of_str "username", jstr "erin"); (of_str "password", jstr "sesame")])).
Definition logged_in : Web World := demo_serve login_request (on login_world).

(** The session the login started, from its cookie and its body. *)
Definition cookie_of (w : Web World) : string :=
  match List.find (names "Set-Cookie") (rw_header (web_rw w)) with Some (SetCookie c) => ck_Value c | _ => "" end.
Definition csrf_of (w : Web World) : string :=
  match rw_body (web_rw w) with
  | [CJson (VObj [_; (_, VStr token)])] => token
  | _ => ""
  end.
Definition status_of (w : Web World) : Z := match rw_sent (web_rw w) with Some (code, _) => code | None => 0 end.

Definition submit (headers : list (string * string)) (cookies : list (string * string)) : Request :=
  request "POST" ["api"; "v1"; "pastes"] headers cookies
    (Marshal (submission_json (MkCreateBody "hello & goodbye" "" 600 ""))).
Definition session_cookies : list (string * string) := [(sessionCookie, cookie_of logged_in)].
Definition submitted : Web World :=
  demo_serve (submit [("X-Csrf-Token", csrf_of logged_in)] session_cookies) (next_request logged_in).
Definition demo_path : list string := ["api"; "v1"; "pastes"; uuid_String demo_id].
Definition raw_view : Web World := demo_serve (request "GET" (demo_path ++ ["raw"]) [] [] []) (next_request submitted).

Example server_runs :
  status_of logged_in = 200 /\ cookie_of logged_in <> "" /\ status_of submitted = 201 /\ status_of raw_view = 200 /\
  rw_body (web_rw raw_view) = [CBytes (BOM ++ of_str "hello & goodbye")] /\
  (* without a session; with the session but no token; a stranger's delete *)
  status_of (demo_serve (submit [] []) (next_request logged_in)) = 401 /\
  status_of (demo_serve (submit [] session_cookies) (next_request logged_in)) = 403 /\
  status_of (demo_serve (request "DELETE" demo_path [] [] []) (next_request submitted)) = 401 /\
  status_of (demo_serve (request "GET" ["api"; "v1"; "nope"] [] [] []) (next_request submitted)) = 404 /\
  status_of (demo_serve (request "GET" ["readyz"] [] [] []) (next_request submitted)) = 200.
Proof. split_and!; try (vm_compute; reflexivity). vm_compute. discriminate. Qed.

(** A configuration that [Load] accepts, and a submission within its lifetimes that
    the CHECK of the table refuses: the answer is an internal error, and no
    row is left. *)
Definition long_cfg : Config := match load_with long_ttls with Ok c => c | _ => demo_cfg end.
Definition long_server : handlers World := server long_cfg demo_uuid demo_envelope free_gate (demo_phc "dummy") None None.
Definition submit_long : Request :=
  request "POST" ["api"; "v1"; "pastes"] [("X-Csrf-Token", csrf_of logged_in)] session_cookies
    (Marshal (submission_json (MkCreateBody "hello" "" 172800 ""))).
Definition long_submitted : Web World := snd (NewHandler long_server checks None submit_long (next_request logged_in)).

Lemma Load_ttl_exceeds_schema :
  PasteTTLMax long_cfg = 172800 /\ status_of long_submitted = 500 /\ t_pastes (w_pg (web_s long_submitted)) = [].
Proof. vm_compute. split_and!; reflexivity. Qed.

(** ** The hypotheses of the theorems of HttpLaws and Submit can hold *)

Lemma demo_rand n (s : World) : exists b s', rand_Read (h_rand demo_server) n s = (Ok b, s').
Proof. eexists _, _. reflexivity. Qed.

(** An embedded UI of two files, and a file server that answers with the name. *)
Definition demo_ui : FS :=
  MkFS (fun name => if bool_decide (name ∈ ["index.html"; "assets/app.js"]) then Some false else None)
    (fun name => if bool_decide (name = "index.html") then Some (of_str "<!doctype html>") else None).
Definition demo_files (_ : FS) (path : list string) : Handler World := fun _ =>
  SetHeader "Content-Type" "text/javascript" ;; respond (rw_Write (CBytes (of_str (join "/" path)))).
Definition with_ui : option (Handler World) := (fun fs => spaHandler fs (demo_files fs)) <$> Some demo_ui.

Lemma demo_files_secured fs path : secures (hsts demo_server) (demo_files fs path).
Proof. intros r. unfold demo_files. secure. Qed.

Definition asset : Request := request "GET" ["assets"; "app.js"] [] [] [].
Lemma Responses_secured_witness :
  let w' := NewHandler demo_server checks with_ui asset (on login_world) in
  fst w' <> Panic /\ secured (security_lines (hsts demo_server)) (web_rw (snd w')) /\ status_of (snd w') = 200.
Proof.
  cbv zeta. pose proof (Responses_secured demo_server checks (Some demo_ui) demo_files asset (on login_world) demo_rand
    demo_files_secured eq_refl) as [H1 H2].
  split; [exact H1|]. split; [exact H2|]. vm_compute. reflexivity.
Defined.

(** The same tree with something outside it: no request sees the difference. *)
Definition leaky_ui : FS :=
  MkFS (fun name => if bool_decide (name = "../secret") then Some false else fs_Stat demo_ui name)
    (fun name => if bool_decide (name = "../secret") then Some (of_str "secret") else fs_ReadFile demo_ui name).

Lemma outside_not_inside segs : Forall inside segs -> join "/" segs <> "../secret".
Proof.
  intros Hin E. apply (f_equal of_str) in E. destruct segs as [|a [|b segs]]; [done| |].
  - inversion Hin as [|? ? (_ & _ & _ & Hs) _]; subst. apply Hs. cbn [join] in E. rewrite E. by apply (bool_decide_unpack _).
  - inversion Hin as [|? ? (Ha & _ & Hd & Hs) _]; subst. cbn [join] in E. rewrite !of_str_app in E.
    apply Hd. apply (inj of_str). 
    destruct (of_str a) as [|x [|y [|z t]]] eqn:Ea; [by destruct Ha; apply (inj of_str)|..];
      cbn in E; simplify_eq; try done.
    all: destruct Hs; set_solver.
Qed.

Lemma Static_stays_inside_witness :
  let r := request "GET" [".."; "secret"] [] [] [] in
  spaHandler leaky_ui (demo_files leaky_ui) r (on login_world) = spaHandler demo_ui (demo_files demo_ui) r (on login_world).
Proof.
  apply (Static_stays_inside leaky_ui demo_ui); [|reflexivity].
  intros segs Hin. split; [|reflexivity]. cbn [leaky_ui fs_Stat]. by rewrite bool_decide_false by by apply outside_not_inside.
Defined.

(** A client that is not the proxy of [demo_cfg] and claims to be somebody else. *)
Lemma Forwarded_for_ignored_witness :
  NewHandler demo_server checks with_ui (with_header [("X-Forwarded-For", "198.51.100.7")] login_request) (on login_world) =
  NewHandler demo_server checks with_ui (with_header [] login_request) (on login_world).
Proof.
  apply (Forwarded_for_ignored demo_server checks (Some demo_ui) demo_files login_request).
  - intros peer p Hp Hin. vm_compute in Hp. injection Hp as <-.
    assert (Hall : forallb (fun p => negb (Contains p (Addr4 (map byte_of [203; 0; 113; 9])))) (TrustedProxyCIDRs demo_cfg) = true)
      by (vm_compute; reflexivity).
    apply list_elem_of_In in Hin. apply (proj1 (forallb_forall _ _) Hall), negb_true_iff in Hin. exact Hin.
  - intros name Hn. unfold get_first. cbn [List.find fst]. by rewrite (bool_decide_false ("X-Forwarded-For" = name)).
  - reflexivity.
Defined.

(** A handler that answers nothing where it should never be asked: a
    state-changing call within a session, without its token. *)
Definition forged : Request := submit [] session_cookies.
Definition trap : Handler World := fun r =>
  if negb (csrf_safe (r_Method r)) && HasPrefix (r_Path r) "/api/" && negb (csrfExempt (r_Path r)) &&
     (if r_session r is Some _ then true else false) && bool_decide (Header_Get r "X-Csrf-Token" = "")
  then panic else root demo_server checks None r.

Lemma Requests_admitted_witness :
  NewHandler demo_server checks None forged (next_request logged_in) =
  chain trap (server_middleware demo_server) forged (next_request logged_in).
Proof.
  apply (Requests_admitted demo_server checks None trap); [reflexivity|].
  intros r' w' _ Hc _. symmetry. unfold trap. destruct (csrf_safe (r_Method r')) eqn:E1; [reflexivity|].
  destruct (HasPrefix (r_Path r') "/api/") eqn:E2; [|reflexivity].
  destruct (csrfExempt (r_Path r')) eqn:E3; [reflexivity|]. destruct (r_session r') as [si|] eqn:E4; [|reflexivity].
  case_bool_decide as E5; [|reflexivity]. exfalso.
  unfold csrf_safe, csrfExempt in E1, E3. rewrite orb_false_iff in E3. destruct E3 as [E3 E3']. gobool.
  destruct Hc as [Hc|[Hc|[Hc|[Hc|Hc]]]]; [congruence..|]. destruct (Hc si E4) as [Hn He]. rewrite E5 in He. by apply Hn.
Defined.

Lemma Routes_protected_witness :
  api demo_server (request "DELETE" demo_path [] [] []) (next_request submitted) =
  writeError 401 "unauthenticated" "login required" [] (next_request submitted).
Proof.
  assert (Hreq : requests "DELETE" "/api/v1/pastes/{id}" (request "DELETE" demo_path [] [] [])).
  { split; [reflexivity|]. exists (uuid_String demo_id). vm_compute. reflexivity. }
  pose proof (Routes_protected demo_server "DELETE" "/api/v1/pastes/{id}" _ (next_request submitted) Hreq) as [Hr _].
  refine (Hr eq_refl _). unfold session_routes. do 5 right. left.
Defined.

(** A paste with a password, and a reader who has none. *)
Definition submit_locked : Request :=
  request "POST" ["api"; "v1"; "pastes"] [("X-Csrf-Token", csrf_of logged_in)] session_cookies
    (Marshal (submission_json (MkCreateBody "hello & goodbye" "hunter2hunter2" 600 ""))).
Definition locked : Web World := next_request (demo_serve submit_locked (next_request logged_in)).
Definition demo_view : Request := with_path_id (uuid_String demo_id) (request "GET" demo_path [] [] []).
Definition server_deps : Deps World := paste_deps demo_uuid demo_envelope (AppBaseURL demo_cfg) (limits_of demo_cfg).

Lemma Views_hide_locked_witness :
  exists res s', Read server_deps Background None demo_id "" (web_s locked) = (Ok res, s') /\
    pm_PasswordProtected (rr_Meta res) = true /\
    getPaste demo_server demo_view locked =
      writeJSON 200 (locked_json demo_server (rr_Meta res) (rr_Status res)) (MkWeb s' (web_rw locked) (web_metrics locked)) /\
    status_of (snd (rawPaste demo_server demo_view locked)) = 401.
Proof.
  pose proof (Views_hide_locked demo_server server_deps demo_view locked eq_refl) as Hv.
  assert (Hid : uuid_Parse (r_PathID demo_view) = Some demo_id) by (vm_compute; reflexivity). rewrite Hid in Hv.
  change (r_ctx demo_view) with Background in Hv. change (principalFrom demo_view) with (@None Principal) in Hv.
  assert (Hp : match fst (Read server_deps Background None demo_id "" (web_s locked)) with
               | Ok res => pm_PasswordProtected (rr_Meta res) | _ => false end = true) by (vm_compute; reflexivity).
  destruct (Read server_deps Background None demo_id "" (web_s locked)) as [[res|err|] s']; cbn [fst] in Hp; [|done..].
  destruct (Hv Hp) as [Hget _]. exists res, s'. split; [done|]. split; [exact Hp|]. split; [exact Hget|]. vm_compute. reflexivity.
Defined.

Lemma Submission_decodes_witness :
  let b := MkCreateBody "hello & goodbye" "" 600 "" in
  decodeJSON (with_limit (create_limit demo_server) (submit [] [])) create_member (MkCreateBody "" "" 0 "") = Ok b.
Proof.
  apply (Submission_decodes demo_server).
  - vm_compute. split; [reflexivity|discriminate].
  - split_and!; vm_compute; congruence.
  - vm_compute. discriminate.
  - vm_compute. discriminate.
  - reflexivity.
Defined.
