(* ===== verification/Migrate.v ===== *)
(** * Migrations ([internal/store/postgres/migrate.go])

    The embedded migrations are applied in the order of their names, each in a
    transaction of its own together with the record of its name, under an
    advisory lock.  The texts are SQL that Postgres runs: what a text does to a
    schema is the parameter [run_sql].  As in World, every call may be lost, or
    carried out with its answer lost. *)
From stdpp Require Import sorting.
From S2P Require Import Prelude GoNum GoStr Codec Errors PasteTypes Redis Pg World Envelope Http.

Section Migrate.
Context {D : Type} (run_sql : string -> D -> option D) (migrationFS : gmap string string).

(** The schema, the rows of [schema_migrations] in the order of insertion if the
    table exists, the transaction of the connection, and the environment. *)
Record MigState : Type := MkMig {
  mg_db : D;
  mg_names : option (list string);
  mg_tx : option (D * list string);
  mg_env : list Fate
}.

(** A round trip on the connection. *)
Definition conn_do {A} (c : ctx) (f : MigState -> res A * MigState) : M MigState A := fun s =>
  let '(fate, s) := match mg_env s with
                    | [] => (Done, s)
                    | fate :: env => (fate_for c fate, MkMig (mg_db s) (mg_names s) (mg_tx s) env)
                    end in
  match fate with
  | Done => f s
  | NotRun k => (Err (terr k), s)
  | AckLost k => (Err (terr k), snd (f s))
  end.

Definition undefined_table : error := PgError "42P01".
Definition unique_violation_name : error := PgError "23505".

Definition set_tx (tx : option (D * list string)) (s : MigState) : MigState := MkMig (mg_db s) (mg_names s) tx (mg_env s).

(** CREATE TABLE IF NOT EXISTS schema_migrations *)
Definition bootstrap (s : MigState) : res unit * MigState :=
  (Ok tt, MkMig (mg_db s) (Some (default [] (mg_names s))) (mg_tx s) (mg_env s)).
(** SELECT EXISTS(SELECT 1 FROM schema_migrations WHERE name=$1) *)
Definition recorded (name : string) (s : MigState) : res bool * MigState :=
  (match mg_names s with None => Err undefined_table | Some names => Ok (bool_decide (name ∈ names)) end, s).
Definition begin (s : MigState) : res unit * MigState := (Ok tt, set_tx (Some (mg_db s, default [] (mg_names s))) s).
(** [tx.Exec] of the text of a migration, and of the INSERT of its name. *)
Definition tx_sql (sql : string) (s : MigState) : res unit * MigState :=
  match mg_tx s with
  | Some (db, names) =>
      match run_sql sql db with
      | Some db => (Ok tt, set_tx (Some (db, names)) s)
      | None => (Err (PgError "42601"), s)
      end
  | None => (Err (NewError "tx is closed"), s)
  end.
Definition tx_insert (name : string) (s : MigState) : res unit * MigState :=
  match mg_tx s with
  | Some (db, names) =>
      if bool_decide (name ∈ names) then (Err unique_violation_name, s) else (Ok tt, set_tx (Some (db, names ++ [name])) s)
  | None => (Err (NewError "tx is closed"), s)
  end.
Definition tx_commit (s : MigState) : res unit * MigState :=
  match mg_tx s with
  | Some (db, names) => (Ok tt, MkMig db (Some names) None (mg_env s))
  | None => (Err (NewError "tx is closed"), s)
  end.
(** A rollback that does not reach the server ends with the connection. *)
Definition Rollback : M MigState unit := fun s =>
  (Ok tt, MkMig (mg_db s) (mg_names s) None (tail (mg_env s))).

(** The names without the directory, sorted. *)
Definition migration_names : list string := merge_sort name_le (elements (dom migrationFS)).

(** One migration that is not recorded yet; [Some err] ends the run. *)
Definition apply_migration (c : ctx) (name : string) : M MigState (option error) :=
  match migrationFS !! name with
  | None => mret (Some (NewError "file does not exist"))
  | Some sqlBytes =>
      r ← try (conn_do c begin);
      match r with
      | inl err => mret (Some err)
      | inr _ =>
          r ← try (conn_do c (tx_sql sqlBytes));
          match r with
          | inl err => Rollback ;; mret (Some (Errorf ("migrate: " +:+ name) err))
          | inr _ =>
              r ← try (conn_do c (tx_insert name));
              match r with
              | inl err => Rollback ;; mret (Some err)
              | inr _ =>
                  r ← try (conn_do c tx_commit);
                  match r with
                  | inl err => mret (Some err)
                  | inr _ => mret None
                  end
              end
          end
      end
  end.

(** The loop: the names applied in this run, and the error that ended it. *)
Fixpoint apply_all (c : ctx) (names applied : list string) : M MigState (list string * option error) :=
  match names with
  | [] => mret (applied, None)
  | name :: names =>
      r ← try (conn_do c (recorded name));
      match r with
      | inl err => mret (applied, Some err)
      | inr true => apply_all c names applied
      | inr false =>
          e ← apply_migration c name;
          match e with
          | Some err => mret (applied, Some err)
          | None => apply_all c names (applied ++ [name])
          end
      end
  end.

(** Taking and releasing the lock changes nothing here: it keeps two runs from
    interleaving. *)
Definition Migrate (c : ctx) : M MigState (list string * option error) :=
  r ← try (conn_do c (fun s => (Ok tt, s)));
  match r with
  | inl err => mret ([], Some err)                                    (* pool.Acquire *)
  | inr _ =>
      r ← try (conn_do c (fun s => (Ok tt, s)));
      match r with
      | inl err => mret ([], Some (Errorf "migrate: lock" err))
      | inr _ =>
          defer (ignore (conn_do (WithoutCancel c) (fun s => (Ok tt, s))))
            (r ← try (conn_do c bootstrap);
             match r with
             | inl err => mret ([], Some (Errorf "migrate: bootstrap" err))
             | inr _ => apply_all c migration_names []
             end)
      end
  end.

(** ** What a run leaves behind *)

Fixpoint replay (names : list string) (d : D) : option D :=
  match names with
  | [] => Some d
  | name :: names => sql ← migrationFS !! name; d ← run_sql sql d; replay names d
  end.

Context (d0 : D).

(** The first [k] migrations, and nothing else, have been applied to the schema
    [d0] and are recorded. *)
Definition migrated (k : nat) (s : MigState) : Prop :=
  default [] (mg_names s) = take k migration_names /\ replay (take k migration_names) d0 = Some (mg_db s).

Lemma conn_do_inv {A} c (f : MigState -> res A * MigState) s r s' :
  conn_do c f s = (r, s') ->
  exists s0, mg_db s0 = mg_db s /\ mg_names s0 = mg_names s /\ mg_tx s0 = mg_tx s /\
    ((exists k, r = Err (terr k)) /\ (s' = s0 \/ s' = snd (f s0)) \/ f s0 = (r, s')).
Proof.
  unfold conn_do. destruct (mg_env s) as [|fate env].
  - intros E. exists s. auto.
  - set (s0 := MkMig _ _ _ _). destruct (fate_for c fate) as [|k|k]; intros E; exists s0; (split_and!; [done..|]).
    + by right.
    + injection E as <- <-. left. eauto.
    + injection E as <- <-. left. eauto.
Qed.

Lemma replay_app l1 l2 d : replay (l1 ++ l2) d = d ← replay l1 d; replay l2 d.
Proof.
  revert d. induction l1 as [|n l1 IH]; intros d; [done|]. cbn [app replay]. destruct (migrationFS !! n); [|done]. simpl.
  destruct (run_sql _ _); [|done]. simpl. apply IH.
Qed.

Lemma replay_S k name d :
  migration_names !! k = Some name -> replay (take k migration_names) d0 = Some d ->
  replay (take (S k) migration_names) d0 = sql ← migrationFS !! name; run_sql sql d.
Proof.
  intros Hn Hr. rewrite (take_S_r _ _ _ Hn), replay_app, Hr. simpl. destruct (migrationFS !! name); [|done]. simpl.
  by destruct (run_sql _ _).
Qed.

Definition same (s s' : MigState) : Prop := mg_db s' = mg_db s /\ mg_names s' = mg_names s.

Lemma migrated_same k s s' : same s s' -> migrated k s -> migrated k s'.
Proof. unfold migrated. by intros [-> ->]. Qed.

(** Inside a transaction nothing shows yet. *)
Lemma conn_do_same {A} c (f : MigState -> res A * MigState) s r s' :
  (forall s, same s (snd (f s))) -> conn_do c f s = (r, s') -> same s s'.
Proof.
  intros Hf (s0 & E1 & E2 & _ & [[_ [-> | ->]]|E])%conn_do_inv; unfold same.
  - done.
  - destruct (Hf s0) as [-> ->]. done.
  - destruct (Hf s0) as [H1 H2]. rewrite E in H1, H2. cbn in *. split; congruence.
Qed.

Lemma begin_same s : same s (snd (begin s)).
Proof. done. Qed.
Lemma tx_sql_same sql s : same s (snd (tx_sql sql s)).
Proof. unfold tx_sql. by destruct (mg_tx s) as [[db names]|]; [destruct (run_sql sql db)|]. Qed.
Lemma tx_insert_same name s : same s (snd (tx_insert name s)).
Proof. unfold tx_insert. by destruct (mg_tx s) as [[db names]|]; [case_bool_decide|]. Qed.
Lemma recorded_same name s : same s (snd (recorded name s)).
Proof. done. Qed.

(** A round trip either ends in an error or returns what the server answered. *)
Definition total {A} (f : MigState -> res A * MigState) : Prop := forall s, fst (f s) <> Panic.

Lemma try_call {A B} c (f : MigState -> res A * MigState) (k : error + A -> M MigState B) s r s' :
  total f -> (try (conn_do c f) ≫= k) s = (r, s') ->
  (exists e s1, conn_do c f s = (Err e, s1) /\ k (inl e) s1 = (r, s')) \/
  (exists a s1, conn_do c f s = (Ok a, s1) /\ k (inr a) s1 = (r, s')).
Proof.
  intros Hf. unfold try, mbind, M_bind. destruct (conn_do c f s) as [[a|e|] s1] eqn:E; [eauto 10|eauto 10|].
  apply conn_do_inv in E as (s0 & _ & _ & _ & [[[k0 ?] _]|E]); [done|]. specialize (Hf s0). by rewrite E in Hf.
Qed.

Lemma conn_do_ok {A} c (f : MigState -> res A * MigState) s a s' :
  conn_do c f s = (Ok a, s') ->
  exists s0, same s s0 /\ mg_tx s0 = mg_tx s /\ f s0 = (Ok a, s').
Proof. intros (s0 & ? & ? & ? & [[[k ?] _]|E])%conn_do_inv; [done|]. by exists s0. Qed.

(** A migration is applied and recorded at once, or neither; a commit whose
    answer is lost may be either. *)
Lemma apply_migration_inv c name k s r s' :
  migration_names !! k = Some name -> migrated k s -> apply_migration c name s = (r, s') ->
  (r = Ok None /\ migrated (S k) s') \/ (exists err, r = Ok (Some err) /\ (migrated k s' \/ migrated (S k) s')).
Proof.
  intros Hn Hm. unfold apply_migration. destruct (migrationFS !! name) as [sql|] eqn:Ef.
  2: { intros [= <- <-]. right. eauto. }
  assert (T : total begin /\ total (tx_sql sql) /\ total (tx_insert name) /\ total tx_commit).
  { split_and!; intros s0; unfold begin, tx_sql, tx_insert, tx_commit; repeat case_match; done. }
  destruct T as (T1 & T2 & T3 & T4).
  intros Hr. apply try_call in Hr as [(e & s1 & E1 & Hr)|([] & s1 & E1 & Hr)]; [| |done];
    pose proof (migrated_same _ _ _ (conn_do_same _ _ _ _ _ begin_same E1) Hm) as M1.
  { injection Hr as <- <-. right. eauto. }
  apply try_call in Hr as [(e & s2 & E2 & Hr)|([] & s2 & E2 & Hr)]; [| |done];
    pose proof (migrated_same _ _ _ (conn_do_same _ _ _ _ _ (tx_sql_same sql) E2) M1) as M2.
  { injection Hr as <- <-. right. eauto. }
  apply try_call in Hr as [(e & s3 & E3 & Hr)|([] & s3 & E3 & Hr)]; [| |done];
    pose proof (migrated_same _ _ _ (conn_do_same _ _ _ _ _ (tx_insert_same name) E3) M2) as M3.
  { injection Hr as <- <-. right. eauto. }
  (* what the transaction holds when it commits *)
  assert (Htx : exists db names, mg_tx s3 = Some (db, names) /\ names = take (S k) migration_names /\
                  replay (take (S k) migration_names) d0 = Some db).
  { apply conn_do_ok in E1 as (t1 & [D1 N1] & _ & E1), E2 as (t2 & _ & X2 & E2), E3 as (t3 & _ & X3 & E3).
    injection E1 as <-. unfold tx_sql in E2. rewrite X2 in E2. cbn in E2. rewrite D1, N1 in E2.
    destruct (run_sql sql (mg_db s)) as [db|] eqn:Es; [|done]. injection E2 as <-.
    unfold tx_insert in E3. rewrite X3 in E3. cbn in E3. case_bool_decide; [done|]. injection E3 as <-.
    destruct Hm as [Hn0 Hr0]. eexists _, _. split; [reflexivity|].
    rewrite Hn0, (take_S_r _ _ _ Hn). split; [done|].
    rewrite <-(take_S_r _ _ _ Hn), (replay_S _ _ _ Hn Hr0), Ef. done. }
  destruct Htx as (db & names & Htx & -> & Hdb).
  assert (Hcommit : forall s0, mg_tx s0 = Some (db, take (S k) migration_names) -> migrated (S k) (snd (tx_commit s0))).
  { intros s0 E0. unfold tx_commit. rewrite E0. by split. }
  apply try_call in Hr as [(e & s4 & E4 & Hr)|([] & s4 & E4 & Hr)]; [| |done]; injection Hr as <- <-.
  - right. exists e. split; [done|]. apply conn_do_inv in E4 as (t4 & D4 & N4 & X4 & [[_ [-> | ->]]|E4]).
    + left. by eapply migrated_same; [|exact M3].
    + right. apply Hcommit. congruence.
    + unfold tx_commit in E4. rewrite X4, Htx in E4. done.
  - left. split; [done|]. apply conn_do_ok in E4 as (t4 & _ & X4 & E4).
    change s4 with (snd ((Ok tt, s4) : res unit * MigState)). rewrite <-E4. apply Hcommit. congruence.
Qed.

Lemma names_NoDup : NoDup migration_names.
Proof. unfold migration_names. rewrite merge_sort_Permutation. apply NoDup_elements. Qed.

(** The next name is recorded exactly when it is among those applied. *)
Lemma next_recorded c i k name s b s' :
  migration_names !! i = Some name -> (i <= k)%nat -> migrated k s -> conn_do c (recorded name) s = (Ok b, s') ->
  b = bool_decide (i < k)%nat.
Proof.
  intros Hi Hik [Hn _] E. apply conn_do_ok in E as (s0 & [_ N0] & _ & E). unfold recorded in E. rewrite N0 in E.
  destruct (mg_names s) as [ns|]; [|done]. injection E as <- _. cbn in Hn. subst ns. apply bool_decide_ext. split.
  - intros (j & Hj)%list_elem_of_lookup. destruct (decide (j < k)%nat) as [Hjk|Hjk].
    + rewrite lookup_take_lt in Hj by done. by rewrite (NoDup_lookup _ _ _ _ names_NoDup Hi Hj).
    + rewrite lookup_take_ge in Hj by lia. done.
  - intros Hlt. apply list_elem_of_lookup. exists i. by rewrite lookup_take_lt.
Qed.

(** How the loop ends, from the name with index [i] on. *)
Definition ends (k : nat) (applied : list string) (r : res (list string * option error)) (s' : MigState) : Prop :=
  exists j err, r = Ok (applied ++ take j (drop k migration_names), err) /\ (k + j <= length migration_names)%nat /\
    match err with
    | None => (k + j = length migration_names)%nat /\ migrated (k + j) s'
    | Some _ => migrated (k + j) s' \/ migrated (S (k + j)) s' /\ (S (k + j) <= length migration_names)%nat
    end.

Lemma apply_all_inv c names : forall i k applied s r s',
  names = drop i migration_names -> (i <= k <= length migration_names)%nat -> migrated k s ->
  apply_all c names applied s = (r, s') -> ends k applied r s'.
Proof.
  induction names as [|name names IH]; intros i k applied s r s' Hnames Hik Hm; cbn [apply_all].
  { intros [= <- <-]. exists 0%nat, None. rewrite Nat.add_0_r, app_nil_r. symmetry in Hnames.
    apply (f_equal length) in Hnames. rewrite length_drop in Hnames. cbn in Hnames. split_and!; (done || lia). }
  assert (Hi : migration_names !! i = Some name).
  { rewrite <-(Nat.add_0_r i), <-lookup_drop, <-Hnames. done. }
  assert (Htl : names = drop (S i) migration_names).
  { rewrite (drop_S _ _ _ Hi) in Hnames. by injection Hnames. }
  intros Hr. apply try_call in Hr as [(e & s1 & E1 & Hr)|(b & s1 & E1 & Hr)].
  3: { intros s0. unfold recorded. by destruct (mg_names s0). }
  all: pose proof (migrated_same _ _ _ (conn_do_same _ _ _ _ _ (recorded_same name) E1) Hm) as M1.
  { injection Hr as <- <-. exists 0%nat, (Some e). rewrite Nat.add_0_r, app_nil_r. split_and!; [done|lia|by left]. }
  pose proof (next_recorded _ _ _ _ _ _ _ Hi (proj1 Hik) Hm E1) as ->. case_bool_decide as Hlt.
  { eapply (IH (S i)); [done|lia|exact M1|exact Hr]. }
  assert (i = k) as -> by lia. pose proof (lookup_lt_Some _ _ _ Hi) as Hk.
  unfold mbind at 1, M_bind at 1 in Hr. destruct (apply_migration c name s1) as [r2 s2] eqn:E2.
  destruct (apply_migration_inv _ _ _ _ _ _ Hi M1 E2) as [[-> M2]|(err & -> & M2)].
  - destruct (IH (S k) (S k) (applied ++ [name]) s2 r s' Htl ltac:(lia) M2 Hr) as (j & err & -> & Hj & He).
    exists (S j), err. rewrite (drop_S _ _ _ Hi), firstn_cons, <-app_assoc.
    replace (k + S j)%nat with (S k + j)%nat by lia. by split_and!.
  - injection Hr as <- <-. exists 0%nat, (Some err). rewrite Nat.add_0_r, app_nil_r. split_and!; [done|lia|].
    destruct M2; [by left|right; by split].
Qed.

Lemma bootstrap_migrated c k s r s' : migrated k s -> conn_do c bootstrap s = (r, s') -> migrated k s'.
Proof.
  intros [Hn Hr] (s0 & D0 & N0 & _ & Hs)%conn_do_inv.
  assert (s' = s0 \/ s' = snd (bootstrap s0)) as [-> | ->].
  { destruct Hs as [[_ Hs]|Hs]; [done|right; by rewrite Hs]. }
  - split; congruence.
  - unfold bootstrap, migrated. cbn. by rewrite N0, D0.
Qed.

(** The deferred unlock changes neither the result nor the schema. *)
Lemma deferred {A} c (m : M MigState A) s r s' :
  defer (ignore (conn_do c (fun s => (Ok tt, s)))) m s = (r, s') -> exists s3, m s = (r, s3) /\ same s3 s'.
Proof.
  unfold defer. destruct (m s) as [r0 s3]. set (idle := fun s0 : MigState => (Ok tt, s0) : res unit * MigState).
  destruct (ignore (conn_do c idle) s3) as [r1 s4] eqn:E. intros Hr.
  assert (r1 <> Panic /\ same s3 s4) as [Hp Hs].
  { unfold ignore in E. apply (try_call c idle) in E as [(e & s5 & E5 & E)|(a & s5 & E5 & E)]; [| |done];
      injection E as <- <-; (split; [done|]); (eapply conn_do_same; [|exact E5]); done. }
  exists s3. destruct r1 as [a|e|]; [| |done]; by injection Hr as <- <-.
Qed.

(** C32. However a run of the migrations ends, the schema is that of the first
    migrations in the order of their names, each applied once and exactly those
    recorded: no migration is half done, done twice or out of order, and a run
    only moves forward.  A run that reports no error has applied all that were
    missing, and says which; with an error, one more may have been committed
    than it says. *)
Theorem Migrate_in_order c k s :
  (k <= length migration_names)%nat -> migrated k s ->
  exists applied err s' k', Migrate c s = (Ok (applied, err), s') /\ migrated k' s' /\ (k <= k' <= length migration_names)%nat /\
    match err with
    | None => k' = length migration_names /\ applied = drop k migration_names
    | Some _ => exists j, applied = take j (drop k migration_names) /\ (k + j <= k' <= S (k + j))%nat
    end.
Proof.
  intros Hk Hm. set (idle := fun s0 : MigState => (Ok tt, s0) : res unit * MigState).
  assert (Ti : total idle) by done. assert (Tb : total bootstrap) by done.
  assert (Si : forall s0, same s0 (snd (idle s0))) by done.
  destruct (Migrate c s) as [r s'] eqn:E. unfold Migrate in E. fold idle in E.
  apply (try_call c idle) in E as [(e & s1 & E1 & E)|([] & s1 & E1 & E)]; [| |done];
    pose proof (migrated_same _ _ _ (conn_do_same _ _ _ _ _ Si E1) Hm) as M1.
  { injection E as <- <-. exists [], (Some e), s1, k. split_and!; [done..|]. exists 0%nat. split; [done|lia]. }
  apply (try_call c idle) in E as [(e & s2 & E2 & E)|([] & s2 & E2 & E)]; [| |done];
    pose proof (migrated_same _ _ _ (conn_do_same _ _ _ _ _ Si E2) M1) as M2.
  { injection E as <- <-. exists [], (Some (Errorf "migrate: lock" e)), s2, k. split_and!; [done..|]. exists 0%nat. split; [done|lia]. }
  apply deferred in E as (s3 & E & Hs3).
  enough (He : ends k [] r s3).
  { destruct He as (j & err & -> & Hj & He). cbn [app] in *. exists (take j (drop k migration_names)), err, s'.
    destruct err as [err|].
    - destruct He as [He|[He Hj']]; [exists (k + j)%nat|exists (S (k + j))];
        (split_and!; [done|by eapply migrated_same|lia|lia|exists j; split; [done|lia]]).
    - destruct He as [Hj' He]. exists (k + j)%nat. split_and!; [done|by eapply migrated_same|lia|lia|done|].
      rewrite take_ge; [done|]. rewrite length_drop. lia. }
  apply (try_call c bootstrap) in E as [(e & s4 & E4 & E)|([] & s4 & E4 & E)]; [| |done].
  all: assert (M4 : migrated k s4) by (by eapply bootstrap_migrated).
  - injection E as <- <-. exists 0%nat, (Some (Errorf "migrate: bootstrap" e)). rewrite Nat.add_0_r. split_and!; [done|lia|by left].
  - eapply (apply_all_inv c _ 0 k); [done|lia|exact M4|exact E].
Qed.
End Migrate.

(** ** Runs: a schema that is the list of the texts it was built from *)

Definition log_sql (sql : string) (d : list string) : option (list string) := Some (d ++ [sql]).
Definition demo_fs : gmap string string := {[ "0001_init.sql" := "create"; "0002_more.sql" := "alter" ]}.
Definition blank (env : list Fate) : @MigState (list string) := MkMig [] None None env.
Definition demo_migrate (s : @MigState (list string)) : res (list string * option error) * @MigState (list string) :=
  Migrate log_sql demo_fs Background s.

(** The answer to the first commit is lost; the next run goes on behind it. *)
Definition lost_commit : @MigState (list string) := blank (replicate 7 Done ++ [AckLost (TIO "eof")]).

Example Migrate_runs :
  fst (demo_migrate (blank [])) = Ok (["0001_init.sql"; "0002_more.sql"], None) /\
  fst (demo_migrate lost_commit) = Ok ([], Some (NewError "eof")) /\
  mg_db (snd (demo_migrate lost_commit)) = ["create"] /\
  fst (demo_migrate (snd (demo_migrate lost_commit))) = Ok (["0002_more.sql"], None) /\
  mg_db (snd (demo_migrate (snd (demo_migrate lost_commit)))) = ["create"; "alter"].
Proof. split_and!; vm_compute; reflexivity. Qed.

Lemma Migrate_in_order_witness :
  migrated log_sql demo_fs [] 0 lost_commit /\
  exists applied err s' k', demo_migrate lost_commit = (Ok (applied, err), s') /\ migrated log_sql demo_fs [] k' s'.
Proof.
  assert (H0 : migrated log_sql demo_fs [] 0 lost_commit) by by split. split; [exact H0|].
  destruct (Migrate_in_order log_sql demo_fs [] Background 0 lost_commit) as (applied & err & s' & k' & E & Hm & _).
  - lia.
  - exact H0.
  - exists applied, err, s', k'. by split.
Defined.
