(* ===== verification/Connect.v ===== *)
(** * Opening the stores ([store/redis/client.go], [store/postgres/migrate.go], [logging/logging.go])

    Both [Connect] functions parse a URL, set their own limits, open a handle,
    ping the server under a deadline, and close the handle again if the ping
    fails.  The drivers (go-redis, pgx) are parameters; what the callers rely on
    is the class [DriverLaws]. *)
From S2P Require Import Prelude GoNum GoStr Errors Ports.

(** A driver: parsing a configuration, opening, pinging and closing a handle. *)
Record Driver (S Cfg Hd : Type) : Type := MkDriver {
  drv_Parse : string -> error + Cfg;
  drv_Open : ctx -> Cfg -> M S Hd;
  drv_Ping : ctx -> Hd -> M S unit;
  drv_Close : Hd -> M S unit
}.
Arguments MkDriver {S Cfg Hd} _ _ _ _.
Arguments drv_Parse {S Cfg Hd} _ _. Arguments drv_Open {S Cfg Hd} _ _ _.
Arguments drv_Ping {S Cfg Hd} _ _ _. Arguments drv_Close {S Cfg Hd} _ _.

(** ** Postgres *)

(** [pgxpool.Config]: what the URL says, and the two fields the code sets. *)
Record PoolConfig (U : Type) : Type := MkPoolConfig {
  pc_parsed : U;
  MaxConns : Z;
  MaxConnLifetime : Z
}.
Arguments MkPoolConfig {U} _ _ _. Arguments pc_parsed {U} _. Arguments MaxConns {U} _. Arguments MaxConnLifetime {U} _.

Definition pg_Connect {S U Pool} (d : Driver S (PoolConfig U) Pool) (c : ctx) (databaseURL : string) : M S Pool :=
  match drv_Parse d databaseURL with
  | inl err => throw (Errorf "postgres: parse url" err)
  | inr cfg =>
      let cfg := MkPoolConfig (pc_parsed cfg) 10 (30 * Minute) in
      pool ← wrap (Errorf "postgres: connect") (drv_Open d c cfg);
      r ← try (drv_Ping d (WithTimeout c (10 * Second)) pool);
      match r with
      | inl err => ignore (drv_Close d pool) ;; throw (Errorf "postgres: ping" err)   (* Close returns nothing *)
      | inr _ => mret pool
      end
  end.

(** ** Redis *)

Definition dialTimeout : Z := 5 * Second.
Definition ioTimeout : Z := 2 * Second.
Definition pingTimeout : Z := 5 * Second.

(** [redis.Options]: what the URL says, and the fields the code sets. *)
Record RedisOptions (U : Type) : Type := MkRedisOptions {
  opt_parsed : U;
  DialTimeout : Z;
  ReadTimeout : Z;
  WriteTimeout : Z
}.
Arguments MkRedisOptions {U} _ _ _ _. Arguments opt_parsed {U} _. Arguments DialTimeout {U} _.
Arguments ReadTimeout {U} _. Arguments WriteTimeout {U} _.

(** The error of [ParseURL] is dropped: it can hold the password of the URL. *)
Definition redis_Connect {S U Client} (d : Driver S (RedisOptions U) Client) (c : ctx) (rawURL : string) : M S Client :=
  match drv_Parse d rawURL with
  | inl _ => throw (NewError "redis: parse url: invalid configuration")
  | inr opt =>
      let opt := MkRedisOptions (opt_parsed opt) dialTimeout ioTimeout ioTimeout in
      client ← drv_Open d c opt;
      r ← try (drv_Ping d (WithTimeout c pingTimeout) client);
      match r with
      | inl err => ignore (drv_Close d client) ;; throw (Errorf "redis: ping" err)
      | inr _ => mret client
      end
  end.

(** ** The logger *)

Inductive Level : Type := LevelDebug | LevelInfo | LevelWarn | LevelError.
Definition logging_New (level : string) : Level :=
  let level := ToLower level in
  if bool_decide (level = "debug") then LevelDebug
  else if bool_decide (level = "warn") || bool_decide (level = "warning") then LevelWarn
  else if bool_decide (level = "error") then LevelError
  else LevelInfo.

Definition level_num (l : Level) : Z :=
  match l with LevelDebug => -4 | LevelInfo => 0 | LevelWarn => 4 | LevelError => 8 end.
(** The lines a logger keeps. *)
Definition level_Enabled (lv l : Level) : bool := level_num lv <=? level_num l.

Example levels :
  map logging_New ["DEBUG"; "Warning"; "warn"; "error"; ""; "verbose"] =
    [LevelDebug; LevelWarn; LevelWarn; LevelError; LevelInfo; LevelInfo].
Proof. vm_compute. reflexivity. Qed.

(** ** What is open *)

(** The handles a state holds open: opening adds one or fails, pinging changes
    nothing, closing removes it and returns. *)
Class DriverLaws {S Cfg Hd} (d : Driver S Cfg Hd) (opened : S -> list Hd) : Prop := {
  law_open c cfg s r s' : drv_Open d c cfg s = (r, s') ->
    match r with Ok h => opened s' ≡ₚ h :: opened s | Err _ => opened s' ≡ₚ opened s | Panic => False end;
  law_ping c h s r s' : drv_Ping d c h s = (r, s') -> r <> Panic /\ opened s' ≡ₚ opened s;
  law_close h s r s' l : drv_Close d h s = (r, s') -> opened s ≡ₚ h :: l -> r <> Panic /\ opened s' ≡ₚ l
}.

(** A connection that is handed out is open; one that is not, is not left open. *)
Definition opens {S Hd} (opened : S -> list Hd) (m : M S Hd) : Prop := forall s r s', m s = (r, s') ->
  match r with Ok h => opened s' ≡ₚ h :: opened s | Err _ => opened s' ≡ₚ opened s | Panic => False end.

Section Laws.
Context {S Cfg Hd : Type} (d : Driver S Cfg Hd) (opened : S -> list Hd) `{!DriverLaws d opened}.

(** Pinging a fresh handle and giving it up when the ping fails. *)
Lemma checked_opens (m : M S Hd) c (f : error -> error) :
  opens opened m ->
  opens opened (h ← m; r ← try (drv_Ping d c h);
    match r with inl err => ignore (drv_Close d h) ;; throw (f err) | inr _ => mret h end).
Proof.
  intros Hm s r s' E. unfold ignore in E. go_unfold. destruct (m s) as [r1 s1] eqn:E1. specialize (Hm _ _ _ E1).
  destruct r1 as [h|err|]; [|by simplify_eq|done].
  destruct (drv_Ping d c h s1) as [r2 s2] eqn:E2. destruct (law_ping _ _ _ _ _ E2) as [Hp2 Ho2].
  destruct r2 as [[]|err|]; [simplify_eq; by rewrite Ho2|simpl in E|done].
  destruct (drv_Close d h s2) as [r3 s3] eqn:E3. destruct (law_close h s2 r3 s3 (opened s) E3) as [Hp3 Ho3]; [by rewrite Ho2|].
  by destruct r3; simplify_eq.
Qed.

Lemma opens_wrap f (m : M S Hd) : opens opened m -> opens opened (wrap f m).
Proof. intros Hm s r s' E. unfold wrap in E. destruct (m s) as [r1 s1] eqn:E1. specialize (Hm _ _ _ E1). by destruct r1; simplify_eq. Qed.

Lemma opens_throw err : opens opened (throw err).
Proof. by intros s r s' [= <- <-]. Qed.

Lemma opens_open c cfg : opens opened (drv_Open d c cfg).
Proof. intros s r s' E. by apply law_open in E. Qed.

(** Closing what was opened, at the end of a body that leaves the handles
    alone: nothing is left open, even when the body panics. *)
Lemma defer_close_balances {A} (m : M S Hd) (body : Hd -> M S A) :
  opens opened m -> (forall h s, opened (snd (body h s)) ≡ₚ opened s) ->
  forall s, opened (snd ((h ← m; defer (drv_Close d h) (body h)) s)) ≡ₚ opened s.
Proof.
  intros Hm Hb s. go_unfold. destruct (m s) as [r1 s1] eqn:E1. specialize (Hm _ _ _ E1).
  destruct r1 as [h|err|]; [|done..]. specialize (Hb h s1). destruct (body h s1) as [r2 s2]. cbn [snd] in Hb.
  destruct (drv_Close d h s2) as [r3 s3] eqn:E3. destruct (law_close h s2 r3 s3 (opened s) E3) as [Hp3 Ho3]; [by rewrite Hb|].
  by destruct r3.
Qed.
End Laws.

Lemma pg_Connect_opens {S U Pool} (d : Driver S (PoolConfig U) Pool) (opened : S -> list Pool) `{!DriverLaws d opened} c url :
  opens opened (pg_Connect d c url).
Proof.
  unfold pg_Connect. destruct (drv_Parse d url) as [err|cfg]; [by apply opens_throw|].
  apply checked_opens; [done|]. apply opens_wrap. by apply opens_open.
Qed.

Lemma redis_Connect_opens {S U Client} (d : Driver S (RedisOptions U) Client) (opened : S -> list Client) `{!DriverLaws d opened} c url :
  opens opened (redis_Connect d c url).
Proof.
  unfold redis_Connect. destruct (drv_Parse d url) as [err|opt]; [by apply opens_throw|].
  apply checked_opens; [done|by apply opens_open].
Qed.

(** The error about a URL that cannot be parsed says nothing about the URL. *)
Lemma redis_Connect_discreet {S U Client} (d : Driver S (RedisOptions U) Client) c url1 url2 err1 err2 s :
  drv_Parse d url1 = inl err1 -> drv_Parse d url2 = inl err2 -> redis_Connect d c url1 s = redis_Connect d c url2 s.
Proof. intros H1 H2. unfold redis_Connect. by rewrite H1, H2. Qed.

(** ** A driver that counts *)

Definition counting_driver : Driver nat (PoolConfig string) unit :=
  MkDriver (fun url => if bool_decide (url = "") then inl (NewError "empty") else inr (MkPoolConfig url 4 Hour))
    (fun _ _ n => (Ok tt, S n))
    (fun c _ n => (if bool_decide (ctx_timeout c = Some (10 * Second)) then Err DeadlineExceeded else Ok tt, n))
    (fun _ n => (Ok tt, pred n)).

Lemma units (l : list unit) : l = replicate (length l) tt.
Proof. induction l as [|[] l IH]; [done|]. cbn. by rewrite <-IH. Qed.

Lemma counting_laws : DriverLaws counting_driver (fun n => replicate n tt).
Proof.
  split.
  - by intros c cfg n r n' [= <- <-].
  - intros c h n r n' [= <- <-]. split; [by case_bool_decide|done].
  - intros h n r n' l [= <- <-] Hl. split; [done|]. apply Permutation_length in Hl. rewrite length_replicate in Hl. subst n.
    cbn. by rewrite <-units.
Qed.

(** A ping that times out: the error is passed on and the pool closed again. *)
Example ping_times_out :
  pg_Connect counting_driver Background "postgres://db" 3%nat = (Err (Errorf "postgres: ping" DeadlineExceeded), 3%nat) /\
  pg_Connect counting_driver (WithTimeout Background Second) "postgres://db" 3%nat = (Ok tt, 4%nat).
Proof. by vm_compute. Qed.
