(* ===== verification/Cli.v ===== *)
(** * The command line ([internal/cli])

    The dispatcher of [cli.go], the commands of [user.go], and the small
    [migrate.go].  A command acts on a [Shell]: the state of the stores and what
    has been printed.  The password a terminal gives is part of the input; the
    driver that opens the connection pool is a parameter ([Connect]). *)
From S2P Require Import Prelude GoNum GoStr Codec NetIP Json Errors Rfc3339 PasteTypes Crypto Envelope Ports Redis Pg World PgPastes PgAudit.
From S2P Require Import PasteLaws PasteSystem PasteRuns AuthTypes PgUsers GoConf Config AuthLocal Http Migrate Connect.

(** ** Flags: the part of package [flag] the commands use *)

Record userOptions : Type := MkUserOptions {
  opt_username : string;
  opt_displayName : string;
  opt_admin : bool
}.
Definition no_options : userOptions := MkUserOptions "" "" false.

Inductive flag_kind : Type :=
| FlagString (set : string -> userOptions -> userOptions)
| FlagBool (set : bool -> userOptions -> userOptions).
Abbreviation FlagSet := (list (string * flag_kind)).

(** [strconv.ParseBool] *)
Definition ParseBool (s : string) : option bool :=
  if bool_decide (s ∈ ["1"; "t"; "T"; "TRUE"; "true"; "True"]) then Some true
  else if bool_decide (s ∈ ["0"; "f"; "F"; "FALSE"; "false"; "False"]) then Some false
  else None.

Definition flag_lookup (fs : FlagSet) (name : string) : option flag_kind :=
  snd <$> List.find (fun f => bool_decide (fst f = name)) fs.

(** What an argument is: the name of a flag with the value after "=", or [None]
    for the first argument that is not a flag ("--" is dropped and ends the
    flags too). *)
Inductive flag_arg : Type :=
| NotFlag
| Terminator
| BadFlag
| Flag (name : string) (v : option string).

Definition flag_name (name : bytes) : flag_arg :=
  match name with
  | [] => BadFlag
  | b :: rest =>
      if bool_decide (b = Byte.x2d) || bool_decide (b = Byte.x3d) then BadFlag
      else match bytes_Cut rest Byte.x3d with
           | Some (n, v) => Flag (to_str (b :: n)) (Some (to_str v))
           | None => Flag (to_str name) None
           end
  end.
Definition flag_arg_of (arg : string) : flag_arg :=
  match of_str arg with
  | dash :: b :: rest =>
      if negb (bool_decide (dash = Byte.x2d)) then NotFlag
      else if bool_decide (b = Byte.x2d) then if bool_decide (rest = []) then Terminator else flag_name rest
      else flag_name (b :: rest)
  | _ => NotFlag
  end.

(** [FlagSet.Parse]: the options and the arguments that are left, or [None] for
    an error. *)
Fixpoint flag_Parse (fs : FlagSet) (args : list string) (opts : userOptions) : option (userOptions * list string) :=
  match args with
  | [] => Some (opts, [])
  | arg :: rest =>
      match flag_arg_of arg with
      | NotFlag => Some (opts, args)
      | Terminator => Some (opts, rest)
      | BadFlag => None
      | Flag name v =>
          match flag_lookup fs name, v with
          | None, _ => None
          | Some (FlagBool set), None => flag_Parse fs rest (set true opts)
          | Some (FlagBool set), Some v => b ← ParseBool v; flag_Parse fs rest (set b opts)
          | Some (FlagString set), Some v => flag_Parse fs rest (set v opts)
          | Some (FlagString set), None =>
              match rest with
              | [] => None
              | v :: rest => flag_Parse fs rest (set v opts)
              end
          end
      end
  end.

Definition username_flag : string * flag_kind :=
  ("username", FlagString (fun v o => MkUserOptions v (opt_displayName o) (opt_admin o))).
Definition display_name_flag : string * flag_kind :=
  ("display-name", FlagString (fun v o => MkUserOptions (opt_username o) v (opt_admin o))).
Definition admin_flag : string * flag_kind :=
  ("admin", FlagBool (fun b o => MkUserOptions (opt_username o) (opt_displayName o) b)).

Example flag_runs :
  let fs := [username_flag; display_name_flag; admin_flag] in
  flag_Parse fs ["--username"; "bob"; "-admin"; "--display-name=Bob B"] no_options = Some (MkUserOptions "bob" "Bob B" true, []) /\
  flag_Parse fs ["--admin=false"; "x"; "--username"; "y"] no_options = Some (no_options, ["x"; "--username"; "y"]) /\
  flag_Parse fs ["--username"] no_options = None /\ flag_Parse fs ["--nope"] no_options = None /\
  flag_Parse fs ["--"; "-admin"] no_options = Some (no_options, ["-admin"]).
Proof. split_and!; reflexivity. Qed.

(** ** The environment of a command ([cli.go]) *)

(** [env.Stdin]: absent, a pipe with its content, or a terminal with the two
    answers to the prompts. *)
Inductive Input : Type :=
| NoInput
| Pipe (content : bytes)
| Terminal (first second : bytes + error).

Record Shell (S : Type) : Type := MkShell { sh_s : S; sh_out : string; sh_err : string }.
Arguments MkShell {S} _ _ _. Arguments sh_s {S} _. Arguments sh_out {S} _. Arguments sh_err {S} _.

Section Shell.
Context {S : Type}.

Definition sh {A} (m : M S A) : M (Shell S) A := fun w =>
  let '(r, s) := m (sh_s w) in (r, MkShell s (sh_out w) (sh_err w)).
Definition print_out (t : string) : M (Shell S) unit := fun w => (Ok tt, MkShell (sh_s w) (sh_out w +:+ t) (sh_err w)).
Definition print_err (t : string) : M (Shell S) unit := fun w => (Ok tt, MkShell (sh_s w) (sh_out w) (sh_err w +:+ t)).
Definition println_err (t : string) : M (Shell S) unit := print_err (t +:+ newline).

Definition Command : Type := (string -> string) -> Input -> list string -> M (Shell S) Z.

(** [Register] panics on a name that is taken. *)
Definition Register (name : string) (fn : Command) (registry : list (string * Command)) : option (list (string * Command)) :=
  if existsb (fun c => bool_decide (fst c = name)) registry then None else Some (registry ++ [(name, fn)]).

Definition usage (registry : list (string * Command)) : M (Shell S) unit :=
  println_err "usage: pastebin <command> [flags]" ;;
  println_err "commands:" ;;
  print_err (foldr (fun n t => "  " +:+ n +:+ newline +:+ t) "" (sorting.merge_sort name_le (map fst registry))).

Definition Run (registry : list (string * Command)) (args : list string) (getenv : string -> string) (stdin : Input)
    : M (Shell S) Z :=
  match args with
  | [] => usage registry ;; mret 2
  | name :: args =>
      match List.find (fun c => bool_decide (fst c = name)) registry with
      | None => println_err ("unknown command " +:+ quoted name) ;; usage registry ;; mret 2
      | Some (_, cmd) => cmd getenv stdin args
      end
  end.
End Shell.
Arguments Command : clear implicits.

(** ** The user commands ([user.go]) *)

Record userDeps (S : Type) : Type := MkUserDeps {
  ud_users : UserStore S;
  ud_hasher : PasswordHasher S;
  ud_sink : Sink S
}.
Arguments ud_users {S} _. Arguments ud_hasher {S} _. Arguments ud_sink {S} _.

Definition minLocalPasswordLen : Z := 12.

Definition isUserSubcommand (name : string) : bool :=
  bool_decide (name ∈ ["create"; "set-password"; "disable"; "enable"; "list"]).

Definition validateUserPassword (password : bytes) : option error :=
  if negb (utf8_Valid password) then Some (NewError "password must be valid UTF-8")
  else if RuneCount password <? minLocalPasswordLen then
    Some (NewError ("password must be at least " +:+ Decimal.FormatInt minLocalPasswordLen +:+ " characters"))
  else None.

(** The first line of a pipe, without its line end. *)
Definition piped_line (content : bytes) : option bytes :=
  match bytes_Cut content Byte.x0a with
  | Some (line, _) =>
      Some (match last line with
            | Some b => if bool_decide (b = Byte.x0d) then removelast line else line
            | None => line
            end)
  | None => if bool_decide (content = []) then None else Some content
  end.

(** [%-ns]: padded with blanks to [n] characters. *)
Definition pad (n : Z) (s : string) : string :=
  s +:+ to_str (replicate (Z.to_nat (n - RuneCountInString s)) Byte.x20).

Section UserCommands.
Context `{UUIDText} {S : Type}.

Definition userUsage : M (Shell S) Z :=
  println_err "usage: pastebin user <create|set-password|disable|enable|list> [flags]" ;;
  println_err "  create --username U [--admin] [--display-name N]" ;;
  println_err "  set-password --username U" ;;
  println_err "  disable --username U" ;;
  println_err "  enable --username U" ;;
  println_err "  list" ;;
  println_err "passwords are read from stdin; never pass them as arguments" ;;
  mret 2.

Definition invalidUserArgs (subcommand : string) : M (Shell S) Z :=
  println_err ("invalid arguments for user " +:+ subcommand) ;; userUsage.

Definition user_flags (subcommand : string) : option FlagSet :=
  if bool_decide (subcommand = "create") then Some [username_flag; display_name_flag; admin_flag]
  else if bool_decide (subcommand ∈ ["set-password"; "disable"; "enable"]) then Some [username_flag]
  else if bool_decide (subcommand = "list") then Some []
  else None.

Definition parseUserOptions (subcommand : string) (args : list string) : M (Shell S) (option userOptions) :=
  match user_flags subcommand with
  | None => mret None
  | Some fs =>
      match flag_Parse fs args no_options with
      | Some (opts, []) =>
          if negb (bool_decide (subcommand = "list")) && bool_decide (opt_username opts = "")
          then invalidUserArgs subcommand ;; mret None
          else mret (Some opts)
      | _ => invalidUserArgs subcommand ;; mret None
      end
  end.

Definition readUserPassword (stdin : Input) : M (Shell S) bytes :=
  match stdin with
  | Terminal first second =>
      print_err "Password: " ;;
      println_err "" ;;
      match first with
      | inr err => throw (Errorf "read password" err)
      | inl first =>
          print_err "Confirm password: " ;;
          println_err "" ;;
          match second with
          | inr err => throw (Errorf "read password confirmation" err)
          | inl second => if bool_decide (first = second) then mret first else throw (NewError "passwords do not match")
          end
      end
  | NoInput => throw (NewError "no password on stdin")
  | Pipe content =>
      match piped_line content with
      | None => throw (NewError "no password on stdin")
      | Some line => mret line
      end
  end.

Context (deps : userDeps S) (newUUID : M S uuid) (timeNow : S -> Z * S) (c : ctx).

(** The [fail] of the source: every error of a command is printed, and the
    exit code is 1. *)
Definition or_fail (m : M (Shell S) Z) : M (Shell S) Z :=
  r ← try m;
  match r with
  | inl err => println_err ("error: " +:+ Error err) ;; mret 1
  | inr code => mret code
  end.

Definition new_password (stdin : Input) : M (Shell S) string :=
  password ← readUserPassword stdin;
  match validateUserPassword password with
  | Some err => throw err
  | None => sh (Hash (ud_hasher deps) c (to_str password))
  end.

Definition user_create (opts : userOptions) (stdin : Input) (now : Z) : M (Shell S) Z :=
  passwordHash ← new_password stdin;
  id ← sh newUUID;
  sh (Users_Create (ud_users deps) c
    (MkUser id (opt_username opts) (opt_displayName opts) ProviderLocal "" "" passwordHash (opt_admin opts) false now None)) ;;
  sh (emit (ud_sink deps) c (MkEvent now UserCreated (Some id) None "" "" OutcomeSuccess
    [("username", VStr (opt_username opts)); ("admin", VBool (opt_admin opts)); ("via", VStr "cli")])) ;;
  print_out ("created user " +:+ opt_username opts +:+ " (" +:+ uuid_String id +:+ ")" +:+ newline) ;;
  mret 0.

Definition user_set_password (opts : userOptions) (stdin : Input) : M (Shell S) Z :=
  user ← sh (Users_GetByUsername (ud_users deps) c (opt_username opts));
  if negb (bool_decide (us_Provider user = ProviderLocal)) then
    throw (NewError "passwords can only be set for local users")
  else
    passwordHash ← new_password stdin;
    sh (Users_SetPasswordHash (ud_users deps) c (us_ID user) passwordHash) ;;
    print_out ("password updated for " +:+ us_Username user +:+ newline) ;;
    mret 0.

Definition bool_text (b : bool) : string := if b then "true" else "false".

Definition user_set_disabled (opts : userOptions) (disabled : bool) (now : Z) : M (Shell S) Z :=
  user ← sh (Users_GetByUsername (ud_users deps) c (opt_username opts));
  sh (Users_SetDisabled (ud_users deps) c (us_ID user) disabled) ;;
  (if disabled then
     sh (emit (ud_sink deps) c (MkEvent now UserDisabled (Some (us_ID user)) None "" "" OutcomeSuccess
       [("username", VStr (us_Username user)); ("via", VStr "cli")]))
   else mret tt) ;;
  print_out (us_Username user +:+ ": disabled=" +:+ bool_text disabled +:+ newline) ;;
  mret 0.

Definition list_row (id username provider admin disabled last : string) : string :=
  pad 36 id +:+ " " +:+ pad 24 username +:+ " " +:+ pad 8 provider +:+ " " +:+ pad 5 admin +:+ " " +:+ pad 8 disabled +:+ " " +:+
  last +:+ newline.

Definition user_list : M (Shell S) Z :=
  users ← sh (Users_List (ud_users deps) c);
  print_out (list_row "ID" "USERNAME" "PROVIDER" "ADMIN" "DISABLED" "LAST_LOGIN") ;;
  print_out (foldr (fun u t =>
    list_row (uuid_String (us_ID u)) (us_Username u) (us_Provider u) (bool_text (us_IsAdmin u)) (bool_text (us_Disabled u))
      (match us_LastLoginAt u with Some t => Format_RFC3339 t | None => "-" end) +:+ t) "" users) ;;
  mret 0.

Definition runUserWith (stdin : Input) (args : list string) : M (Shell S) Z :=
  match args with
  | [] => userUsage
  | subcommand :: args =>
      opts ← parseUserOptions subcommand args;
      match opts with
      | None => if negb (isUserSubcommand subcommand) then userUsage else mret 2
      | Some opts =>
          now ← sh (read_clock timeNow);
          if bool_decide (subcommand = "create") then or_fail (user_create opts stdin now)
          else if bool_decide (subcommand = "set-password") then or_fail (user_set_password opts stdin)
          else if bool_decide (subcommand = "disable") then or_fail (user_set_disabled opts true now)
          else if bool_decide (subcommand = "enable") then or_fail (user_set_disabled opts false now)
          else if bool_decide (subcommand = "list") then or_fail user_list
          else userUsage
      end
  end.
End UserCommands.


(** ** The commands over the real stores *)

(** [postgres.Connect] opens the pool: a parameter.  A command that cannot load
    its configuration or connect prints the error and exits with 1. *)
Definition print_fail {S} (err : error) : M (Shell S) Z := println_err (Error err) ;; mret 1.

Section Commands.
Context `{RedisServer} `{PgTypes} `{UUIDText} `{Primitives} (newGate : Argon2Config -> GateOps World)
  (newUUID : M World uuid) {U Pool : Type} (pgx : Driver World (PoolConfig U) Pool) (files : string -> string + string).

Definition cli_sinks (cfg : Config) : Sink World :=
  Multi_Record (log_sink :: if AuditDBEnabled cfg then [Audit_Record] else []).

Definition user_deps (cfg : Config) : userDeps World :=
  MkUserDeps World NewUserStore (NewArgon2Hasher world_rand (newGate (Argon2 cfg)) (ParamsFromConfig (Argon2 cfg))) (cli_sinks cfg).

Definition runUser (c : ctx) : Command World := fun getenv stdin args =>
  match args with
  | [] => userUsage
  | subcommand :: rest =>
      opts ← parseUserOptions subcommand rest;
      match opts with
      | None => if negb (isUserSubcommand subcommand) then userUsage else mret 2
      | Some _ =>
          match Load getenv files with
          | Panic => panic
          | Err err => print_fail err
          | Ok cfg =>
              r ← try (sh (pg_Connect pgx c (DatabaseURL cfg)));
              match r with
              | inl err => print_fail err
              | inr pool =>
                  defer (sh (drv_Close pgx pool)) (runUserWith (user_deps cfg) newUUID clock c stdin args)
              end
          end
      end
  end.
End Commands.

Section MigrateCommand.
Context {D : Type} (run_sql : string -> D -> option D) (migrationFS : gmap string string)
  {U Pool : Type} (pgx : Driver (@MigState D) (PoolConfig U) Pool) (files : string -> string + string)
  (log : string -> list (string * value) -> M (Shell (@MigState D)) unit).

Definition runMigrate (c : ctx) : Command (@MigState D) := fun getenv _ _ =>
  match Load getenv files with
  | Panic => panic
  | Err err => print_fail err
  | Ok cfg =>
      r ← try (sh (pg_Connect pgx c (DatabaseURL cfg)));
      match r with
      | inl err => log "connect" [("err", VStr (Error err))] ;; mret 1
      | inr pool =>
          defer (sh (drv_Close pgx pool))
            ('(applied, err) ← sh (Migrate run_sql migrationFS c);
             match err with
             | Some err => log "migrate failed" [("err", VStr (Error err)); ("applied", VStrs applied)] ;; mret 1
             | None =>
                 log "migrations applied" [("count", VInt (Z.of_nat (length applied))); ("names", VStrs applied)] ;; mret 0
             end)
      end
  end.
End MigrateCommand.

(** ** What a command does to the stores *)

(** A step that only prints. *)
Definition says {S A} (m : M (Shell S) A) : Prop := forall s, sh_s (snd (m s)) = sh_s s.

Section Says.
Context {S : Type}.

Lemma says_ret {A} (a : A) : says (mret a : M (Shell S) A).
Proof. done. Qed.
Lemma says_throw {A} err : says (throw err : M (Shell S) A).
Proof. done. Qed.
Lemma says_print t : says (print_err (S:=S) t).
Proof. done. Qed.
Lemma says_bind {A B} (m : M (Shell S) A) (k : A -> M (Shell S) B) :
  says m -> (forall a, says (k a)) -> says (m ≫= k).
Proof.
  intros Hm Hk s. unfold mbind, M_bind. pose proof (Hm s) as E. destruct (m s) as [[a|e|] s1]; [|exact E..].
  cbn [snd] in E. rewrite <-E. apply Hk.
Qed.
End Says.

Create HintDb says.
#[export] Hint Resolve says_ret says_throw says_print : says.
Ltac says := repeat first [apply says_bind | progress intros | case_match]; auto with says.

Section UserLaws.
Context {S : Type}.

Lemma userUsage_says : says (userUsage (S:=S)).
Proof. unfold userUsage, println_err. says. Qed.

Lemma parseUserOptions_says subcommand args : says (parseUserOptions (S:=S) subcommand args).
Proof. unfold parseUserOptions, invalidUserArgs, userUsage, println_err. says. Qed.

Lemma readUserPassword_says stdin : says (readUserPassword (S:=S) stdin).
Proof. unfold readUserPassword, println_err. says. Qed.

(** The password an input holds: the line of a pipe, or the same answer twice. *)
Definition entered (stdin : Input) (password : bytes) : Prop :=
  match stdin with
  | NoInput => False
  | Pipe content => piped_line content = Some password
  | Terminal first second => first = inl password /\ second = inl password
  end.

Lemma readUserPassword_ok stdin (s : Shell S) password s' :
  readUserPassword stdin s = (Ok password, s') -> entered stdin password /\ sh_s s' = sh_s s.
Proof.
  intros E. pose proof (readUserPassword_says stdin s) as Hs. rewrite E in Hs. split; [|exact Hs]. clear Hs.
  revert E. unfold readUserPassword, println_err. destruct stdin as [|content|first second]; cbn [entered]; go_unfold; [done| |].
  - destruct (piped_line content); [|done]. by intros [= <- _].
  - destruct first as [first|]; [|done]. destruct second as [second|]; [|done]. cbn. case_bool_decide; [|done].
    subst. by intros [= <- _].
Qed.

(** The options are only taken when the whole command line is. *)
Lemma parseUserOptions_ok subcommand args (s : Shell S) opts s' :
  parseUserOptions subcommand args s = (Ok (Some opts), s') ->
  s' = s /\ exists fs, user_flags subcommand = Some fs /\ flag_Parse fs args no_options = Some (opts, []) /\
    (subcommand = "list" \/ opt_username opts <> "").
Proof.
  unfold parseUserOptions, invalidUserArgs, userUsage, println_err. destruct (user_flags subcommand) as [fs|]; [|done].
  destruct (flag_Parse fs args no_options) as [[o [|a rest]]|] eqn:Ep; [|done..]. go_unfold.
  destruct (_ && _) eqn:E; [done|]. intros [= <- <-]. split; [done|]. exists fs. split; [done|]. split; [done|].
  apply andb_false_iff in E. gobool. tauto.
Qed.

Lemma validateUserPassword_ok password :
  validateUserPassword password = None -> utf8_Valid password = true /\ minLocalPasswordLen <= RuneCount password.
Proof.
  unfold validateUserPassword. destruct (utf8_Valid password); [|done]. cbn [negb].
  destruct (RuneCount password <? minLocalPasswordLen) eqn:E; [done|]. split; [done|]. by apply Z.ltb_ge.
Qed.
End UserLaws.

(** A command proper ends with 0 or an error, which [or_fail] turns into 1. *)
Definition zero_only {S} (m : M (Shell S) Z) : Prop := forall s a s', m s = (Ok a, s') -> a = 0.

Lemma zero_ret {S} : zero_only (mret 0 : M (Shell S) Z).
Proof. by intros s a s' [= <- _]. Qed.
Lemma zero_throw {S} err : zero_only (throw err : M (Shell S) Z).
Proof. done. Qed.
Lemma zero_bind {S A} (m : M (Shell S) A) k : (forall a, zero_only (k a)) -> zero_only (m ≫= k).
Proof. intros Hk s b s' (a & s1 & _ & E)%bind_ok. by eapply Hk. Qed.

#[export] Hint Resolve zero_ret zero_throw : says.
Ltac zero := repeat first [apply zero_bind; intros ? | case_match]; auto with says.

Lemma commands_zero `{UUIDText} {S} (d : userDeps S) newUUID c opts stdin disabled now :
  zero_only (user_create d newUUID c opts stdin now) /\ zero_only (user_set_password d c opts stdin) /\
  zero_only (user_set_disabled d c opts disabled now) /\ zero_only (user_list d c).
Proof. unfold user_create, user_set_password, user_set_disabled, user_list. split_and!; zero. Qed.

Lemma or_fail_code {S} (m : M (Shell S) Z) s code s' :
  zero_only m -> or_fail m s = (Ok code, s') -> code = 1 \/ (code = 0 /\ m s = (Ok 0, s')).
Proof.
  unfold or_fail, println_err, print_err. intros Hz. go_unfold. destruct (m s) as [[a|e|] s1] eqn:E; intros [= <- <-].
  - right. by rewrite (Hz _ _ _ E) in *.
  - by left.
Qed.

Lemma user_flags_subcommand subcommand fs :
  user_flags subcommand = Some fs ->
  subcommand = "create" \/ subcommand = "set-password" \/ subcommand = "disable" \/ subcommand = "enable" \/ subcommand = "list".
Proof. unfold user_flags. repeat case_bool_decide; [by auto|set_solver|by auto 6|done]. Qed.

Section UserStoreLaws.
Context `{RedisServer} `{PgTypes} `{UUIDText} `{Primitives} (newGate : Argon2Config -> GateOps World)
  (newUUID : M World uuid) (cfg : Config).

(** The id source and the gate leave the stores alone. *)
Context (Huuid : quiet newUUID)
  (Hacquire : forall c, quiet (gate_Acquire (newGate (Argon2 cfg)) c)) (Hrelease : quiet (gate_Release (newGate (Argon2 cfg)))).

Abbreviation deps := (user_deps newGate cfg).
Abbreviation params := (ParamsFromConfig (Argon2 cfg)).

Lemma sh_ok {A} (m : M World A) (s : Shell World) a s' :
  sh m s = (Ok a, s') -> m (sh_s s) = (Ok a, sh_s s').
Proof. unfold sh. destruct (m (sh_s s)) as [r w]. by intros [= -> <-]. Qed.

Lemma sinks_users c ev w : t_users (w_pg (cli_sinks cfg c ev w)) = t_users (w_pg w).
Proof.
  assert (Hlog : forall w, w_pg (log_sink c ev w) = w_pg w).
  { intros w0. unfold log_sink, logSink_Record, fill_time. destruct (IsZero (ev_At ev)); [|done].
    destruct (clock w0) as [t w1] eqn:E. apply clock_inv in E as (_ & _ & Hs). unfold stores in Hs. by injection Hs. }
  unfold cli_sinks. destruct (AuditDBEnabled cfg); cbn [Multi_Record]; [|by rewrite Hlog].
  destruct (Audit_Record_frame c ev (log_sink c ev w)) as (_ & _ & -> & _). by rewrite Hlog.
Qed.

(** A password that is accepted was entered, is long enough, and is stored as
    its own hash; the users do not change yet. *)
Lemma new_password_ok c stdin (s : Shell World) phc s' :
  new_password deps c stdin s = (Ok phc, s') ->
  exists password salt, entered stdin password /\ utf8_Valid password = true /\ minLocalPasswordLen <= RuneCount password /\
    phc = phc_text params salt (key_of_password (to_str password) salt params) /\
    w_pg (sh_s s') = w_pg (sh_s s).
Proof.
  unfold new_password. intros (password & s1 & Hread & E)%bind_ok. apply readUserPassword_ok in Hread as [He Hs].
  destruct (validateUserPassword password) eqn:Ev; [done|]. apply validateUserPassword_ok in Ev as [Hutf Hlen].
  apply sh_ok in E. cbn [ud_hasher user_deps Hash NewArgon2Hasher] in E. apply wrap_ok in E.
  apply HashPassword_text in E as Etext. destruct Etext as (salt & w1 & _ & ->).
  exists password, salt. split_and!; try done.
  assert (Hq : quiet (HashPassword world_rand c (newGate (Argon2 cfg)) (to_str password) params)).
  { unfold HashPassword, DeriveKey, argon2_IDKey.
    repeat first [apply quiet_rand | apply quiet_ret | apply quiet_panic | apply Hacquire | apply Hrelease
                 | apply quiet_defer | apply quiet_bind | progress intros | case_match]. }
  destruct (Hq _ _ _ E) as (_ & Hst & _). unfold stores in Hst. injection Hst as _ ->. by rewrite Hs.
Qed.

(** A query by name that succeeds read a row of that name and changed nothing. *)
Lemma GetByUsername_ok c username (s : Shell World) u s' :
  sh (Users_GetByUsername (ud_users deps) c username) s = (Ok u, s') ->
  exists row, user_row (sh_s s) username = Some row /\ u = scanUser row /\ u_username row = username /\
    w_pg (sh_s s') = w_pg (sh_s s).
Proof.
  intros E%sh_ok. cbn [ud_users user_deps Users_GetByUsername NewUserStore] in E.
  apply query_user_spec in E as (_ & Hst & [[k ?]|[?|E]]); [done..|]. fold (user_row (sh_s s) username) in E.
  destruct (user_row (sh_s s) username) as [row|] eqn:Er; [|done]. injection E as ->. exists row.
  apply List.find_some in Er as [_ Hn]. gobool. unfold stores in Hst. by injection Hst.
Qed.

(** An update that succeeds was applied to the rows it names. *)
Lemma update_user_ok c q f ps g w w' :
  wrap g (pg_do c (update_stmt q f ps)) w = (Ok tt, w') ->
  w_pg w' = update_users q f (w_pg w).
Proof.
  intros E%wrap_ok. apply pg_do_inv in E as (_ & _ & [[_ [k ?]]|[-> [E|[k ?]]]]); [done| |done].
  revert E. unfold update_stmt. by destruct (negb _).
Qed.

Lemma insert_user_ok r t : fst (insert_user r t) = Ok tt ->
  t_users (snd (insert_user r t)) = t_users t ++ [r] /\
  List.find (fun r' => bool_decide (u_username r' = u_username r)) (t_users t) = None.
Proof.
  unfold insert_user. destruct (negb (user_text_ok r)); [done|]. destruct (negb (provider_ok _)); [done|].
  destruct (existsb _ (t_users t)) eqn:E; [done|]. intros _. split; [done|].
  destruct (List.find _ (t_users t)) as [r'|] eqn:Ef; [|done]. apply List.find_some in Ef as [Hin Hn].
  exfalso. apply not_true_iff_false in E. apply E, existsb_exists. exists r'. split; [done|]. rewrite Hn.
  by rewrite orb_true_r.
Qed.

Lemma Create_ok c u w w' :
  User_Create c u w = (Ok tt, w') ->
  exists now, t_users (w_pg w') = t_users (w_pg w) ++ [row_of_user u now] /\ user_row w (us_Username u) = None.
Proof.
  unfold User_Create. intros E. go_unfold. destruct (pg_do c _ w) as [r w1] eqn:E1.
  destruct r as [[]|err|]; [|destruct (isUniqueViolation err); done|done]. injection E as <-.
  apply pg_do_inv in E1 as (_ & _ & [[_ [k ?]]|[-> [E|[k ?]]]]); [done| |done]. exists (w_time w1).
  symmetry in E. apply insert_user_ok in E as [Hu Hf]. split; [exact Hu|exact Hf].
Qed.

(** What a user command that exits with 0 has done to the table. *)
Definition command_effect (subcommand : string) (opts : userOptions) (stdin : Input) (w w' : World) : Prop :=
  let name := opt_username opts in
  let accepted phc := exists password salt,
    entered stdin password /\ utf8_Valid password = true /\ minLocalPasswordLen <= RuneCount password /\
    phc = phc_text params salt (key_of_password (to_str password) salt params) in
  if bool_decide (subcommand = "create") then
    user_row w name = None /\ exists row phc, t_users (w_pg w') = t_users (w_pg w) ++ [row] /\
      u_username row = name /\ u_auth_provider row = ProviderLocal /\ u_is_admin row = opt_admin opts /\
      u_disabled row = false /\ u_password_hash row = Some phc /\ accepted phc
  else if bool_decide (subcommand = "list") then t_users (w_pg w') = t_users (w_pg w)
  else exists row, user_row w name = Some row /\ u_username row = name /\
    let updated f := w_pg w' = update_users (user_is (u_id row)) f (w_pg w) in
    if bool_decide (subcommand = "set-password") then
      u_auth_provider row = ProviderLocal /\ exists phc, accepted phc /\ updated (set_password phc)
    else t_users (w_pg w') = t_users (update_users (user_is (u_id row)) (set_disabled (bool_decide (subcommand = "disable"))) (w_pg w)).

Lemma user_create_ok c opts stdin now (s : Shell World) s' :
  user_create deps newUUID c opts stdin now s = (Ok 0, s') ->
  command_effect "create" opts stdin (sh_s s) (sh_s s').
Proof.
  unfold user_create. intros (phc & s1 & E1 & E)%bind_ok. apply new_password_ok in E1 as (pw & salt & He & Hu & Hl & Hp & Hpg).
  apply bind_ok in E as (id & s2 & E2%sh_ok & E). apply Huuid in E2 as (_ & Hst & _). unfold stores in Hst. injection Hst as _ Hpg2.
  apply bind_ok in E as ([] & s3 & E3%sh_ok & E). apply Create_ok in E3 as (t & Hrows & Hfree).
  apply bind_ok in E as ([] & s4 & E4%sh_ok & E). injection E4 as E4.
  apply bind_ok in E as ([] & s5 & [= <-] & [= <-]). unfold command_effect. cbn [sh_s bool_decide].
  assert (Hrow : user_row (sh_s s) (opt_username opts) = None).
  { unfold user_row in Hfree |- *. rewrite <-Hpg, <-Hpg2. exact Hfree. }
  split; [exact Hrow|]. eexists _, phc. rewrite <-E4, sinks_users, Hrows, Hpg2, Hpg. split; [done|].
  assert (Hne : phc <> "") by by rewrite Hp.
  unfold row_of_user, nullableString. cbn. rewrite (bool_decide_false (phc = "")) by done. split_and!; try done.
  by exists pw, salt.
Qed.

Lemma user_set_password_ok c opts stdin (s : Shell World) s' :
  user_set_password deps c opts stdin s = (Ok 0, s') ->
  command_effect "set-password" opts stdin (sh_s s) (sh_s s').
Proof.
  unfold user_set_password. intros (u & s1 & (row & Hrow & -> & Hn & Hpg)%GetByUsername_ok & E)%bind_ok.
  destruct (negb _) eqn:Elocal; [done|]. gobool.
  apply bind_ok in E as (phc & s2 & (pw & salt & He & Hu & Hl & Hp & Hpg2)%new_password_ok & E).
  apply bind_ok in E as ([] & s3 & E3%sh_ok & E). apply update_user_ok in E3.
  apply bind_ok in E as ([] & s5 & [= <-] & [= <-]). cbn [sh_s].
  unfold command_effect. cbn [bool_decide]. exists row. split; [done|]. split; [done|]. split; [done|].
  exists phc. split; [by exists pw, salt|]. rewrite E3, Hpg2, Hpg. reflexivity.
Qed.

Lemma user_set_disabled_ok c opts stdin disabled now (s : Shell World) s' :
  user_set_disabled deps c opts disabled now s = (Ok 0, s') ->
  command_effect (if disabled then "disable" else "enable") opts stdin (sh_s s) (sh_s s').
Proof.
  unfold user_set_disabled. intros (u & s1 & (row & Hrow & -> & Hn & Hpg)%GetByUsername_ok & E)%bind_ok.
  apply bind_ok in E as ([] & s3 & E3%sh_ok & E). apply update_user_ok in E3.
  assert (E4 : t_users (w_pg (sh_s s')) = t_users (w_pg (sh_s s3))).
  { destruct disabled; apply bind_ok in E as ([] & s4 & E4 & E); apply bind_ok in E as ([] & s5 & [= <-] & [= <-]); cbn [sh_s].
    - apply sh_ok in E4. injection E4 as <-. apply sinks_users.
    - by injection E4 as <-. }
  unfold command_effect. destruct disabled; cbn [bool_decide]; exists row; (split; [done|]; split; [done|]);
    cbn; rewrite E4, E3, Hpg; reflexivity.
Qed.

Lemma user_list_ok c (s : Shell World) s' :
  user_list deps c s = (Ok 0, s') -> t_users (w_pg (sh_s s')) = t_users (w_pg (sh_s s)).
Proof.
  unfold user_list. intros (users & s1 & E1%sh_ok & E)%bind_ok.
  apply bind_ok in E as ([] & s2 & [= <-] & E). apply bind_ok in E as ([] & s3 & [= <-] & [= <-]). cbn [sh_s].
  cbn [ud_users user_deps Users_List NewUserStore] in E1. unfold User_List in E1. apply wrap_ok in E1.
  apply pg_do_inv in E1 as (_ & _ & [[-> _]|[-> _]]); done.
Qed.

(** C33. A user command that exits with 0 was fully parsed, names one of the five
    subcommands and has had exactly its effect: a new enabled local user under a
    free name with the hash of the entered password of at least 12 characters, a
    new password hash for an existing local user, the disabled flag of the named
    user, or nothing for the list.  A command that exits with 2 has touched no
    store. *)
Theorem User_command_effects c subcommand args stdin s code s' :
  runUserWith deps newUUID clock c stdin (subcommand :: args) s = (Ok code, s') ->
  (code = 0 -> isUserSubcommand subcommand = true /\ exists fs opts,
     user_flags subcommand = Some fs /\ flag_Parse fs args no_options = Some (opts, []) /\
     (subcommand = "list" \/ opt_username opts <> "") /\
     command_effect subcommand opts stdin (sh_s s) (sh_s s')) /\
  (code = 2 -> sh_s s' = sh_s s).
Proof.
  cbn [runUserWith]. intros E. destruct (parseUserOptions subcommand args s) as [r s1] eqn:Ep.
  pose proof (parseUserOptions_says subcommand args s) as Hsay. rewrite Ep in Hsay. cbn [snd] in Hsay.
  unfold mbind at 1, M_bind at 1 in E. rewrite Ep in E. destruct r as [[opts|]|err|]; [| |done..].
  2: { destruct (isUserSubcommand subcommand); cbn [negb] in E.
       - injection E as <- <-. by split.
       - pose proof (userUsage_says s1) as Hu. rewrite E in Hu. cbn [snd] in Hu.
         unfold userUsage, println_err, print_err in E. go_unfold. injection E as <- _. split; [done|congruence]. }
  apply parseUserOptions_ok in Ep as (-> & fs & Hfs & Hparse & Huser). clear Hsay.
  apply bind_ok in E as (now & s2 & E2%sh_ok & E).
  assert (Hpg : w_pg (sh_s s2) = w_pg (sh_s s)).
  { unfold read_clock in E2. destruct (clock (sh_s s)) as [t w1] eqn:Ec. injection E2 as _ <-.
    apply clock_inv in Ec as (_ & _ & Hst). unfold stores in Hst. by injection Hst. }
  assert (Heff : command_effect subcommand opts stdin (sh_s s2) (sh_s s') -> command_effect subcommand opts stdin (sh_s s) (sh_s s')).
  { unfold command_effect, user_row. by rewrite Hpg. }
  assert (Hsub : code = 1 \/ (code = 0 /\ isUserSubcommand subcommand = true /\
    command_effect subcommand opts stdin (sh_s s2) (sh_s s'))).
  { destruct (commands_zero deps newUUID c opts stdin true now) as (Hz1 & Hz2 & Hz3 & Hz5).
    destruct (commands_zero deps newUUID c opts stdin false now) as (_ & _ & Hz4 & _).
    destruct (user_flags_subcommand _ _ Hfs) as [-> |[-> |[-> |[-> | ->]]]]; cbn in E;
      (eapply or_fail_code in E as [?|[-> E]]; [by left|right; do 2 (split; [done|])|done]).
    - by eapply user_create_ok.
    - by eapply user_set_password_ok.
    - by apply (user_set_disabled_ok c opts stdin true now).
    - by apply (user_set_disabled_ok c opts stdin false now).
    - by eapply user_list_ok. }
  destruct Hsub as [-> |(-> & Hin & Hc)]; [by split|]. split; [|done]. intros _. split; [done|].
  exists fs, opts. split_and!; auto.
Qed.
End UserStoreLaws.

(** ** Runs *)
#[local] Existing Instance map_server.
#[local] Existing Instance ms_client.
#[local] Existing Instance byte_collation.
#[local] Existing Instance canonical_uuid_text.
#[local] Existing Instance toy_primitives.

Definition shell_at (w : World) : Shell World := MkShell w "" "".
(** A driver that opens at once. *)
Definition ready_pgx {S} : Driver S (PoolConfig string) unit :=
  MkDriver (fun url => inr (MkPoolConfig url 4 Hour)) (fun _ _ => mret tt) (fun _ _ => mret tt) (fun _ => mret tt).
Definition user_command (args : list string) (stdin : Input) (w : World) : res Z * Shell World :=
  runUser (fun _ => free_gate) demo_uuid ready_pgx no_files Background (demo_env []) stdin args (shell_at w).
Definition create_frank : res Z * Shell World :=
  user_command ["create"; "--username"; "frank"; "-admin"] (Pipe (of_str "a long password" ++ [Byte.x0d; Byte.x0a])) demo_world.
Definition frank_world : World := sh_s (snd create_frank).

Example command_runs :
  fst create_frank = Ok 0 /\ sh_out (snd create_frank) = "created user frank (" +:+ uuid_String demo_id +:+ ")" +:+ newline /\
  map (fun r => (u_username r, u_is_admin r, u_disabled r)) (t_users (w_pg frank_world)) =
    map (fun r => (u_username r, u_is_admin r, u_disabled r)) (t_users (w_pg demo_world)) ++ [("frank", true, false)] /\
  map (fun e => (a_event e, a_actor_id e)) (t_audit_events (w_pg frank_world)) = [(UserCreated, Some demo_id)] /\
  (* again; a short password; no name; a stray argument; an unknown subcommand *)
  fst (user_command ["create"; "--username=frank"] (Pipe (of_str "a long password")) frank_world) = Ok 1 /\
  sh_err (snd (user_command ["create"; "--username=gina"] (Pipe (of_str "short")) frank_world)) =
    "error: password must be at least 12 characters" +:+ newline /\
  fst (user_command ["disable"] NoInput frank_world) = Ok 2 /\
  fst (user_command ["list"; "all"] NoInput frank_world) = Ok 2 /\
  fst (user_command ["drop"] NoInput frank_world) = Ok 2 /\
  map u_disabled (t_users (w_pg (sh_s (snd (user_command ["disable"; "-username"; "frank"] NoInput frank_world))))) = [true].
Proof. split_and!; vm_compute; reflexivity. Qed.

Definition frank_args : list string := ["--username"; "frank"; "-admin"].
Definition frank_in : Input := Pipe (of_str "a long password").
Definition frank_run : res Z * Shell World :=
  runUserWith (user_deps (fun _ => free_gate) demo_cfg) demo_uuid clock Background frank_in ("create" :: frank_args)
    (shell_at demo_world).

Lemma User_command_effects_witness :
  fst frank_run = Ok 0 /\
  exists row, t_users (w_pg (sh_s (snd frank_run))) = t_users (w_pg demo_world) ++ [row] /\
    u_username row = "frank" /\ u_is_admin row = true /\ u_disabled row = false.
Proof.
  split; [vm_compute; reflexivity|].
  destruct (User_command_effects (fun _ => free_gate) demo_uuid demo_cfg demo_uuid_quiet (fun _ => quiet_ret tt) (quiet_ret tt)
    Background "create" frank_args frank_in (shell_at demo_world) 0 (snd frank_run)) as [Hz _].
  - apply run_fst. vm_compute. reflexivity.
  - destruct (Hz eq_refl) as (_ & fs & opts & Hfs & Hp & _ & Heff). injection Hfs as <-.
    vm_compute in Hp. injection Hp as <-.
    destruct Heff as (_ & row & phc & Hrows & Hn & _ & Ha & Hd & _). exists row. exact (conj Hrows (conj Hn (conj Ha Hd))).
Defined.
