(* ===== verification/Serve.v ===== *)
(** * Serving ([internal/httpserver/server.go], [internal/cli/serve.go])

    [Serve] starts a goroutine that listens and waits for it or for the end of
    its context.  Both are modelled as one transition system: what the listener
    runs into, when a signal arrives, which ready case the [select] takes and how
    long the shutdown lasts are arbitrary. *)
From S2P Require Import Prelude GoNum GoStr Codec NetIP Json Errors Rfc3339 PasteTypes Crypto Envelope Ports Redis Pg World.
From S2P Require Import AuthTypes GoConf Size Config JsonDec Http Handlers Router Connect Cli.

(** ** The server and its routes *)

Record http_Server : Type := MkServer {
  sv_Addr : string;
  sv_ReadHeaderTimeout : Z;
  sv_ReadTimeout : Z;
  sv_WriteTimeout : Z;
  sv_IdleTimeout : Z;
  sv_MaxHeaderBytes : Z;
  sv_TLS : option string     (* the minimal version *)
}.
Definition http_server (cfg : Config) : http_Server :=
  let useTLS := negb (bool_decide (TLSCertFile cfg = "")) in
  MkServer (ListenAddr cfg) (5 * Second) (10 * Second) (30 * Second) (60 * Second) (Z.shiftl 64 10)
    (if useTLS then Some "TLS 1.2" else None).

(** [serve] mounts the health endpoints; the mux answers the rest. *)
Definition serve_mux {S} (checks : list (string * (ctx -> M S unit))) : Handler S := fun r =>
  let get := bool_decide (r_Method r ∈ ["GET"; "HEAD"]) in
  let handle h := if get then h r else SetHeader "Allow" "GET, HEAD" ;; http_Error "Method Not Allowed" 405 in
  if bool_decide (r_Segments r = ["healthz"]) then handle HealthHandler
  else if bool_decide (r_Segments r = ["readyz"]) then handle (ReadyHandler checks)
  else http_Error "404 page not found" 404.

Section ServeCommand.
Context {S U Pool : Type} (pgx : Driver S (PoolConfig U) Pool) (files : string -> string + string)
  (log : string -> list (string * value) -> M (Shell S) unit)
  (Serve : ctx -> Config -> Handler S -> M (Shell S) (option error))
  (out_of_range : Z).   (* an int64 from a float64 that does not fit *)

Definition runServe (c : ctx) : Command S := fun getenv _ _ =>
  match Load getenv files with
  | Panic => panic
  | Err err => print_fail err
  | Ok cfg =>
      let memory := default out_of_range (RecommendedRedisMaxMemory cfg) in
      log "config loaded" [("config", VObj (Redacted cfg))] ;;
      log "recommended redis maxmemory" [("bytes", VInt memory); ("human", VStr (FormatSize memory))] ;;
      r ← try (sh (pg_Connect pgx c (DatabaseURL cfg)));
      match r with
      | inl err => log "postgres" [("err", VStr (Error err))] ;; mret 1
      | inr pool =>
          defer (sh (drv_Close pgx pool))
            (err ← Serve c cfg (serve_mux [("postgres", fun c => drv_Ping pgx c pool)]);
             match err with
             | Some err => log "server" [("err", VStr (Error err))] ;; mret 1
             | None => mret 0
             end)
      end
  end.

(** However serving ends, by an error, a signal or a panic, and whether or not
    the database answers, no connection pool is left open. *)
Lemma runServe_closes (opened : S -> list Pool) `{!DriverLaws pgx opened} c getenv stdin args w :
  (forall msg attrs, says (log msg attrs)) ->
  (forall c cfg h w, opened (sh_s (snd (Serve c cfg h w))) ≡ₚ opened (sh_s w)) ->
  opened (sh_s (snd (runServe c getenv stdin args w))) ≡ₚ opened (sh_s w).
Proof.
  intros Hlog Hserve. unfold runServe. destruct (Load getenv files) as [cfg|err|]; [|done..]. cbv zeta.
  assert (Hsays : forall {A} msg attrs (k : M (Shell S) A) w, opened (sh_s (snd (k (snd (log msg attrs w))))) ≡ₚ opened (sh_s (snd (log msg attrs w))) ->
    opened (sh_s (snd ((log msg attrs ;; k) w))) ≡ₚ opened (sh_s w)).
  { intros A msg attrs k w0 Hk. rewrite <-(Hlog msg attrs w0). unfold mbind, M_bind. by destruct (log msg attrs w0) as [[a|err|] w1]. }
  apply Hsays, Hsays. generalize (snd (log "recommended redis maxmemory" [("bytes", VInt (default out_of_range (RecommendedRedisMaxMemory cfg)));
    ("human", VStr (FormatSize (default out_of_range (RecommendedRedisMaxMemory cfg))))] (snd (log "config loaded" [("config", VObj (Redacted cfg))] w)))).
  intros w1. pose proof (pg_Connect_opens pgx opened c (DatabaseURL cfg) (sh_s w1)) as Hconn.
  unfold mbind at 1, M_bind at 1, try, sh at 1. destruct (pg_Connect pgx c (DatabaseURL cfg) (sh_s w1)) as [r s2]. specialize (Hconn _ _ eq_refl).
  destruct r as [pool|err|]; [| |done].
  2: { etransitivity; [by apply Hsays|done]. }
  unfold defer. set (body := _ ≫= _). pose proof (Hserve c cfg (serve_mux [("postgres", fun c => drv_Ping pgx c pool)]) (MkShell s2 (sh_out w1) (sh_err w1))) as Hs.
  assert (Hb : opened (sh_s (snd (body (MkShell s2 (sh_out w1) (sh_err w1))))) ≡ₚ opened s2).
  { rewrite <-Hs. subst body. unfold mbind, M_bind. destruct (Serve _ _ _ _) as [[[err|]|err|] w3]; try done. by apply Hsays. }
  destruct (body _) as [r3 w3]. cbn [snd sh_s] in Hb. unfold sh. destruct (drv_Close pgx pool (sh_s w3)) as [r4 s4] eqn:E4.
  destruct (law_close pool (sh_s w3) r4 s4 (opened (sh_s w1)) E4) as [Hp4 Ho4]; [by rewrite Hb|]. by destruct r4.
Qed.
End ServeCommand.

(** ** [Serve] as a transition system *)

Inductive main_at : Type :=
| Selecting                        (* select { <-errCh; <-ctx.Done() } *)
| ShuttingDown                     (* srv.Shutdown(shutdownCtx) *)
| Returned (err : option error).

Inductive listener_at : Type :=
| Listening                        (* srv.ListenAndServe[TLS] *)
| Ended (err : error)              (* it returned; it never returns nil *)
| Reported                         (* close(errCh) is next *)
| Exited.
#[export] Instance listener_at_eq_dec : EqDecision listener_at.
Proof. solve_decision. Defined.

(** The two goroutines, the buffer of [errCh] and whether it is closed, whether
    the context has ended and whether [Shutdown] has been called. *)
Record serving : Type := MkServing {
  sv_main : main_at;
  sv_listener : listener_at;
  sv_buf : list error;
  sv_closed : bool;
  sv_cancelled : bool;
  sv_down : bool
}.

(** [make(chan error, 1)] *)
Definition errCh_cap : nat := 1.
Definition serve_start : serving := MkServing Selecting Listening [] false false false.

Section Serving.
Context (ErrServerClosed : error).

(** [ListenAndServe] returns [ErrServerClosed] only after [Shutdown]; after it
    it returns at once.  [Shutdown] returns when the connections are idle or its
    context of ten seconds ends. *)
Inductive serve_step : serving -> serving -> Prop :=
| step_signal m l buf closed down :
    serve_step (MkServing m l buf closed false down) (MkServing m l buf closed true down)
| step_broken m buf closed cancelled down err :
    errors_Is err ErrServerClosed = false ->
    serve_step (MkServing m Listening buf closed cancelled down) (MkServing m (Ended err) buf closed cancelled down)
| step_stopped m buf closed cancelled :
    serve_step (MkServing m Listening buf closed cancelled true) (MkServing m (Ended ErrServerClosed) buf closed cancelled true)
| step_report m err buf closed cancelled down :
    errors_Is err ErrServerClosed = false -> (length buf < errCh_cap)%nat ->
    serve_step (MkServing m (Ended err) buf closed cancelled down) (MkServing m Reported (buf ++ [err]) closed cancelled down)
| step_no_report m err buf closed cancelled down :
    errors_Is err ErrServerClosed = true ->
    serve_step (MkServing m (Ended err) buf closed cancelled down) (MkServing m Reported buf closed cancelled down)
| step_close m buf closed cancelled down :
    serve_step (MkServing m Reported buf closed cancelled down) (MkServing m Exited buf true cancelled down)
| step_receive l err buf closed cancelled down :
    serve_step (MkServing Selecting l (err :: buf) closed cancelled down)
               (MkServing (Returned (Some err)) l buf closed cancelled down)
| step_receive_closed l cancelled down :
    serve_step (MkServing Selecting l [] true cancelled down) (MkServing (Returned None) l [] true cancelled down)
| step_done l buf closed down :
    serve_step (MkServing Selecting l buf closed true down) (MkServing ShuttingDown l buf closed true true)
| step_shut l buf closed cancelled down result :
    serve_step (MkServing ShuttingDown l buf closed cancelled down) (MkServing (Returned result) l buf closed cancelled down).

Inductive serves : nat -> serving -> Prop :=
| serves_start : serves 0 serve_start
| serves_step n s s' : serves n s -> serve_step s s' -> serves (S n) s'.

(** ** It ends *)

Definition main_rank (m : main_at) : nat := match m with Selecting => 2 | ShuttingDown => 1 | Returned _ => 0 end.
Definition listener_rank (l : listener_at) : nat := match l with Listening => 3 | Ended _ => 2 | Reported => 1 | Exited => 0 end.
(** The steps that are left, at most. *)
Definition rank (s : serving) : nat :=
  main_rank (sv_main s) + listener_rank (sv_listener s) + (if sv_cancelled s then 0 else 1).

Lemma step_rank s s' : serve_step s s' -> (rank s' < rank s)%nat.
Proof. destruct 1; unfold rank; simpl; lia. Qed.

Definition reports (err : error) : Prop := errors_Is err ErrServerClosed = false.

(** What the listener has put into the channel, and why it may have put nothing. *)
Definition listener_ok (s : serving) : Prop :=
  match sv_listener s with
  | Listening => sv_buf s = [] /\ sv_closed s = false /\ (sv_main s <> Selecting -> sv_down s = true)
  | Ended err => sv_buf s = [] /\ sv_closed s = false /\ (sv_main s <> Selecting -> sv_down s = true) /\
                 (~ reports err -> sv_down s = true)
  | Reported | Exited => sv_closed s = bool_decide (sv_listener s = Exited) /\
      (sv_buf s = [] -> sv_down s = true \/ exists err, sv_main s = Returned (Some err) /\ reports err)
  end.
Definition main_ok (s : serving) : Prop :=
  match sv_main s with
  | Selecting => sv_down s = false
  | ShuttingDown => sv_down s = true
  | Returned (Some err) => sv_down s = true \/ reports err
  | Returned None => sv_down s = true
  end.
Definition serving_ok (s : serving) : Prop :=
  Forall reports (sv_buf s) /\ (sv_down s = true -> sv_cancelled s = true) /\ listener_ok s /\ main_ok s.

(** A step that has called [Shutdown] owes the rest of the invariant little. *)
Lemma down_ok m l buf closed :
  m <> Selecting ->
  match l with
  | Listening | Ended _ => buf = [] /\ closed = false
  | Reported | Exited => closed = bool_decide (l = Exited)
  end ->
  listener_ok (MkServing m l buf closed true true) /\ main_ok (MkServing m l buf closed true true).
Proof.
  unfold listener_ok, main_ok. simpl. intros Hm Hl. split.
  - destruct l; cbn -[bool_decide] in *; [by destruct Hl..| |]; (split; [exact Hl|]; intros _; by left).
  - destruct m as [| |[err|]]; simpl; [done|auto..].
Qed.

Lemma listener_shape s : listener_ok s ->
  match sv_listener s with
  | Listening | Ended _ => sv_buf s = [] /\ sv_closed s = false
  | Reported | Exited => sv_closed s = bool_decide (sv_listener s = Exited)
  end.
Proof. unfold listener_ok. destruct (sv_listener s); tauto. Qed.

Lemma step_ok s s' : serve_step s s' -> serving_ok s -> serving_ok s'.
Proof.
  intros Hs (Hb & Hd & Hl & Hm). pose proof (listener_shape s Hl) as Hshape. unfold serving_ok.
  destruct Hs as [m l buf closed down|m buf closed cancelled down err Herr|m buf closed cancelled|m err buf closed cancelled down Herr _
    |m err buf closed cancelled down Herr|m buf closed cancelled down|l err buf closed cancelled down|l cancelled down
    |l buf closed down|l buf closed cancelled down result]; cbn in Hb, Hd, Hshape.
  - split; [done|]. by split.
  - split; [done|]. split; [done|]. split; [|exact Hm]. unfold listener_ok in *. cbn in *. intuition.
  - rewrite Hd by done. split; [done|]. split; [done|]. destruct Hshape as [-> ->].
    split; [|exact Hm]. unfold listener_ok. cbn. auto.
  - destruct Hshape as [-> ->]. split; [by repeat constructor|]. split; [done|]. split; [|exact Hm].
    unfold listener_ok. cbn. by split.
  - destruct Hl as (_ & _ & _ & Hl). cbn in Hl. destruct Hshape as [-> ->]. split; [done|]. split; [done|]. split; [|exact Hm].
    unfold listener_ok. cbn. split; [done|]. intros _. left. apply Hl. unfold reports. by rewrite Herr.
  - split; [done|]. split; [done|]. split; [|exact Hm]. unfold listener_ok in *. cbn in *. destruct Hl as [_ Hl]. by split.
  - apply Forall_cons in Hb as [Herr Hb]. split; [done|]. split; [done|]. split.
    + unfold listener_ok. cbn. destruct l; [by destruct Hshape|by destruct Hshape| |]; (split; [done|]; intros _; right; by exists err).
    + unfold main_ok. cbn. by right.
  - exfalso. unfold main_ok in Hm. cbn in Hm. subst down.
    destruct l; [by destruct Hshape|by destruct Hshape|done|]. unfold listener_ok in Hl. cbn in Hl. destruct Hl as [_ Hl].
    destruct (Hl eq_refl) as [?|(err & ? & _)]; done.
  - split; [done|]. split; [done|]. by apply down_ok.
  - unfold main_ok in Hm. cbn in Hm. subst down. rewrite Hd by done. split; [done|]. split; [done|]. by apply down_ok.
Qed.

Lemma serves_ok n s : serves n s -> serving_ok s /\ (n + rank s <= 6)%nat.
Proof.
  induction 1 as [|n s s' _ [Hok Hn] Hs].
  - split; [|unfold rank; simpl; lia]. by repeat split.
  - split; [by eapply step_ok|]. apply step_rank in Hs. lia.
Qed.

(** The listener is never stuck on its channel. *)
Lemma report_possible s err : listener_ok s -> sv_listener s = Ended err ->
  exists s', serve_step s s' /\ sv_listener s' = Reported.
Proof.
  destruct s as [m l buf closed cancelled down]. cbn. intros Hl ->. destruct (listener_shape _ Hl) as [Hb _]. cbn in Hb. subst buf.
  destruct (errors_Is err ErrServerClosed) eqn:E.
  - eexists. split; [by apply step_no_report|done].
  - eexists. split; [apply step_report; [done|unfold errCh_cap; simpl; lia]|done].
Qed.

(** Until both have ended, one of them can go on. *)
Lemma serving_moves s : serving_ok s ->
  (exists s', serve_step s s') \/ (sv_listener s = Exited /\ exists r, sv_main s = Returned r).
Proof.
  intros (_ & _ & Hl & _). destruct s as [m l buf closed cancelled down]. destruct l as [|err| |].
  - left. destruct cancelled; [|eexists; apply step_signal].
    destruct down; [eexists; apply step_stopped|]. destruct m as [| |r]; [eexists; apply step_done|eexists; by apply (step_shut _ _ _ _ _ None)|].
    unfold listener_ok in Hl. cbn in Hl. destruct Hl as (_ & _ & Hl). by discriminate Hl.
  - left. destruct (report_possible _ _ Hl eq_refl) as (s' & Hs & _). by exists s'.
  - left. eexists. apply step_close.
  - pose proof (listener_shape _ Hl) as Hc. cbn in Hc. rewrite bool_decide_true in Hc by done. subst closed.
    destruct m as [| |r]; [left|left; eexists; by apply (step_shut _ _ _ _ _ None)|right; by eauto].
    destruct buf as [|err buf]; eexists; [apply step_receive_closed|apply step_receive].
Qed.

(** C31. [Serve] ends, and leaves nothing behind: whatever the listener runs into and
    whenever a signal arrives, at most six steps happen, the goroutine that
    listens never blocks on the channel, and when nothing can happen any more it
    has exited and [Serve] has returned.  Without a signal [Serve] returns only
    with the error of the listener, so [serve] does not exit with 0. *)
Theorem Serve_ends n s :
  serves n s ->
  (n <= 6)%nat /\
  (forall err, sv_listener s = Ended err -> exists s', serve_step s s' /\ sv_listener s' = Reported) /\
  ((forall s', ~ serve_step s s') -> sv_listener s = Exited /\ exists r, sv_main s = Returned r) /\
  (sv_cancelled s = false -> forall r, sv_main s = Returned r -> exists err, r = Some err /\ reports err).
Proof.
  intros [Hok Hn]%serves_ok. split; [lia|]. split; [|split].
  - intros err He. apply (report_possible s err); [apply Hok|done].
  - intros Hstuck. destruct (serving_moves s Hok) as [[s' Hs]|?]; [by destruct (Hstuck s' Hs)|done].
  - intros Hc r Hr. destruct Hok as (_ & Hd & _ & Hm). unfold main_ok in Hm. rewrite Hr in Hm.
    destruct r as [err|]; [destruct Hm as [Hm|Hm]; [|by exists err]|]; rewrite Hd in Hc; done.
Qed.
End Serving.

(** ** Runs *)

(** A port that is taken: the listener reports, [Serve] returns the error. *)
Definition in_use : error := NewError "listen tcp: address already in use".
Definition server_closed : error := NewError "http: Server closed".
Definition port_taken : serving := MkServing (Returned (Some in_use)) Exited [] true false false.
(** A signal, then a shutdown in good order. *)
Definition stopped : serving := MkServing (Returned None) Exited [] true true true.

Lemma port_taken_serves : serves server_closed 4 port_taken.
Proof.
  eapply serves_step; [|apply step_receive].
  eapply serves_step; [|apply step_close].
  eapply serves_step; [|apply (step_report _ _ in_use []); [done|repeat constructor]].
  eapply serves_step; [apply serves_start|by apply step_broken].
Qed.

Lemma stopped_serves : serves server_closed 6 stopped.
Proof.
  eapply serves_step; [|apply step_shut].
  eapply serves_step; [|apply step_close].
  eapply serves_step; [|by apply (step_no_report _ _ server_closed)].
  eapply serves_step; [|apply step_stopped].
  eapply serves_step; [|apply step_done].
  eapply serves_step; [apply serves_start|apply step_signal].
Qed.

Lemma Serve_ends_witness :
  (exists err, Some in_use = Some err /\ reports server_closed err) /\
  sv_listener stopped = Exited /\ exists r, sv_main stopped = Returned r.
Proof.
  destruct (Serve_ends server_closed 4 port_taken port_taken_serves) as (_ & _ & _ & H).
  destruct (Serve_ends server_closed 6 stopped stopped_serves) as (_ & _ & Hend & _).
  split; [by apply H|]. apply Hend. intros s' Hs. inversion Hs.
Defined.
