(* ===== verification/Main.v ===== *)
(** * The program ([cmd/pastebin/main.go], [internal/version], the registry of [internal/cli])

    The commands register themselves when the package is loaded, in the order of
    its files; [main] runs the one that is named and exits with its code. *)
From S2P Require Import Prelude GoNum GoStr Errors Http Cli.

Lemma append_assoc (s t u : string) : (s +:+ t) +:+ u = s +:+ (t +:+ u).
Proof. induction s as [|a s IH]; [done|]. exact (f_equal (String.String a) IH). Qed.

Section Main.
(** The commands of [migrate.go], [serve.go] and [user.go], and the version the
    linker puts in. *)
Context {S : Type} (Version : string) (runMigrate runServe runUser : Command S).

Definition version_command : Command S := fun _ _ _ => print_out ("pastebin " +:+ Version +:+ newline) ;; mret 0.

(** The [init] functions; a duplicate name panics. *)
Definition registry : option (list (string * Command S)) :=
  r ← Register "version" version_command [];
  r ← Register "migrate" runMigrate r;
  r ← Register "serve" runServe r;
  Register "user" runUser r.

(** The exit code; [os.Args[1:]] panics when there are no arguments at all. *)
Definition main (os_Args : list string) (getenv : string -> string) (stdin : Input) : M (Shell S) Z :=
  match registry, os_Args with
  | Some registry, _ :: args => Run registry args getenv stdin
  | _, _ => panic
  end.

Lemma registry_complete :
  registry = Some [("version", version_command); ("migrate", runMigrate); ("serve", runServe); ("user", runUser)].
Proof. reflexivity. Qed.

Lemma main_known prog name args getenv stdin cmd :
  (name, cmd) ∈ [("version", version_command); ("migrate", runMigrate); ("serve", runServe); ("user", runUser)] ->
  main (prog :: name :: args) getenv stdin = cmd getenv stdin args.
Proof.
  intros Hin. unfold main. rewrite registry_complete. rewrite !elem_of_cons in Hin.
  by destruct Hin as [[= -> ->]|[[= -> ->]|[[= -> ->]|[[= -> ->]|[]%not_elem_of_nil]]]].
Qed.

(** Any other name, and none, ends with code 2; no store is touched. *)
Lemma main_unknown prog args getenv stdin s :
  (forall name, head args = Some name -> name ∉ ["version"; "migrate"; "serve"; "user"]) ->
  exists t, main (prog :: args) getenv stdin s = (Ok 2, MkShell (sh_s s) (sh_out s) (sh_err s +:+ t)).
Proof.
  intros Hno. unfold main. rewrite registry_complete. destruct args as [|name args].
  - cbn [Run]. unfold usage, println_err, print_err. go_unfold. cbn [sh_s sh_out sh_err]. rewrite !append_assoc. by eexists.
  - specialize (Hno name eq_refl). rewrite !not_elem_of_cons in Hno. destruct Hno as (? & ? & ? & ? & _).
    cbn [Run List.find fst]. rewrite !bool_decide_false by congruence. unfold usage, println_err, print_err. go_unfold. cbn [sh_s sh_out sh_err]. rewrite !append_assoc. by eexists.
Qed.
End Main.

Example main_runs :
  let prog args := main (S := unit) "v1.2.3" (fun _ _ _ => mret 1) (fun _ _ _ => mret 0) (fun _ _ _ => mret 0) args (fun _ => "") NoInput (MkShell tt "" "") in
  prog ["pastebin"; "version"] = (Ok 0, MkShell tt ("pastebin v1.2.3" +:+ newline) "") /\
  fst (prog ["pastebin"; "migrate"; "now"]) = Ok 1 /\ fst (prog ["pastebin"; "Serve"]) = Ok 2 /\ fst (prog ["pastebin"]) = Ok 2 /\
  sh_err (snd (prog ["pastebin"])) =
    "usage: pastebin <command> [flags]" +:+ newline +:+ "commands:" +:+ newline +:+ "  migrate" +:+ newline +:+
    "  serve" +:+ newline +:+ "  user" +:+ newline +:+ "  version" +:+ newline.
Proof. vm_compute. by repeat split. Qed.
